(** * HDRI loader: perceptual hash and asset catalog

    A shallow embedding of [loader.py]: the self-contained pHash code
    ([ImageHash], [dct_1d], [dct_2d], [phash]), the SQLite statements the
    catalog executes (modelled relationally), and the catalog operations
    built from them ([safe_tag_column], [drop_column_from_table],
    [load_hdri_images], [add_hdri], [delete_hdri]); then the wrap layout
    ([QWrapLayout]) and the reads and writes of the tag dialog
    ([load_tags], [add_new_tag], [accept]).  The transform is written
    over an interface of the float64 operations, with IEEE binary64 and
    the exact reals as instances. *)

From Stdlib Require Import String Ascii DecimalString.
From Stdlib Require Import List Bool Arith ZArith Lia.
From Stdlib Require Import Permutation Sorted.
From Stdlib Require Import Reals Lra.
From Stdlib Require Floats.
Import ListNotations.

Set Implicit Arguments.

(* ================================================================== *)
(** * The pHash code                                                   *)
(* ================================================================== *)

Module PHash.

(** ** [ImageHash]: a boolean array with its Hamming distance *)

(** The wrapped numpy array is kept as its rows; [shape] is the pair
    numpy reports for a two-dimensional array. *)
Record ImageHash := mkImageHash { hash : list (list bool) }.

Definition flatten (A : Type) (arr : list (list A)) : list A := concat arr.

Definition size (h : ImageHash) : nat := length (flatten (hash h)).

Definition shape (h : ImageHash) : nat * nat :=
  (length (hash h), length (hd [] (hash h))).

Inductive exn :=
| TypeError (msg : string)
| IndexError (msg : string)
| ValueError (msg : string).

(** [np.count_nonzero(a != b)] on two flat arrays of one length. *)
Fixpoint count_differing (a b : list bool) : nat :=
  match a, b with
  | x :: a', y :: b' => (if Bool.eqb x y then 0 else 1) + count_differing a' b'
  | _, _ => 0
  end.

(** [ImageHash.__sub__]; [other] is [None] for Python's [None]. *)
Definition sub (self : ImageHash) (other : option ImageHash) : exn + nat :=
  match other with
  | None => inl (TypeError "Other hash must not be None.")
  | Some o =>
      if negb (size self =? size o)
      then inl (TypeError "ImageHashes must be of the same size.")
      else inr (count_differing (flatten (hash self)) (flatten (hash o)))
  end.

(** [ImageHash.__eq__]: [np.array_equal] of the flattened arrays. *)
Fixpoint array_equal (a b : list bool) : bool :=
  match a, b with
  | [], [] => true
  | x :: a', y :: b' => Bool.eqb x y && array_equal a' b'
  | _, _ => false
  end.

Definition eq (self : ImageHash) (other : option ImageHash) : bool :=
  match other with
  | None => false
  | Some o => array_equal (flatten (hash self)) (flatten (hash o))
  end.

(** ** [_binary_array_to_hex] *)

Definition bits_to_N (bits : list bool) : N :=
  fold_left (fun acc (b : bool) => (2 * acc + (if b then 1 else 0))%N) bits 0%N.

Definition hex_digit (d : N) : ascii :=
  if (d <? 10)%N then ascii_of_N (48 + d) else ascii_of_N (87 + d).

(** Lowercase hexadecimal digits of [n], most significant first; [fuel]
    bounds the number of digits. *)
Fixpoint hex_digits (fuel : nat) (n : N) (acc : list ascii) : list ascii :=
  match fuel with
  | O => acc
  | S fuel' =>
      let acc' := hex_digit (n mod 16)%N :: acc in
      if (n / 16 =? 0)%N then acc' else hex_digits fuel' (n / 16)%N acc'
  end.

Definition pad_left (width : nat) (c : ascii) (s : list ascii) : list ascii :=
  repeat c (width - length s) ++ s.

(** [int(bit_string, 2)] raises on the empty string. *)
Definition binary_array_to_hex (arr : list (list bool)) : exn + string :=
  let bit_string := flatten arr in
  match bit_string with
  | [] => inl (ValueError "invalid literal for int() with base 2")
  | _ =>
      let width := Nat.div (length bit_string + 3) 4 in
      let n := bits_to_N bit_string in
      inr (string_of_list_ascii
             (pad_left width "0"%char (hex_digits (S (length bit_string)) n [])))
  end.

Definition str (h : ImageHash) : exn + string := binary_array_to_hex (hash h).

(** ** Steps 3 to 5 of [phash]: thresholding the low-frequency block

    These steps only compare coefficients with their mean, so they are
    written over any coefficient type with numpy's [>] and [np.mean]. *)

Section Threshold.
Variable T : Type.
Variable gt : T -> T -> bool.
Variable mean : list T -> T.

(** [dct[:hash_size, :hash_size]] *)
Definition low_block (hash_size : nat) (dct : list (list T)) : list (list T) :=
  map (firstn hash_size) (firstn hash_size dct).

(** [diff[0, 0] = 0]; an [IndexError] when the array has no such cell. *)
Definition set_dc_zero (diff : list (list bool)) : exn + list (list bool) :=
  match diff with
  | (_ :: row) :: rows => inr ((false :: row) :: rows)
  | _ => inl (IndexError "index 0 is out of bounds")
  end.

Definition threshold (hash_size : nat) (dct : list (list T)) : exn + ImageHash :=
  let dct_low := low_block hash_size dct in
  let dct_flat := flatten dct_low in
  let dct_without_dc := skipn 1 dct_flat in
  let avg := mean dct_without_dc in
  let diff := map (map (fun c => gt c avg)) dct_low in
  match set_dc_zero diff with
  | inl e => inl e
  | inr diff' => inr (mkImageHash diff')
  end.

(** The coefficient at row [i], column [j]. *)
Definition coeff (d : T) (dct : list (list T)) (i j : nat) : T :=
  nth j (nth i dct []) d.

(** The coefficients of the [hash_size] by [hash_size] block in row-major
    order, leaving out position (0,0): the reading of "all extracted
    coefficients except the DC term". *)
Definition non_dc_coeffs (d : T) (hash_size : nat) (dct : list (list T)) : list T :=
  flat_map
    (fun i =>
       flat_map
         (fun j => if (i =? 0) && (j =? 0) then [] else [coeff d dct i j])
         (seq 0 hash_size))
    (seq 0 hash_size).

(** An array with at least [n] rows of at least [n] entries each. *)
Definition covers (n : nat) (dct : list (list T)) : Prop :=
  n <= length dct /\ Forall (fun row => n <= length row) dct.

End Threshold.

Definition bit (h : ImageHash) (i j : nat) : bool := nth j (nth i (hash h) []) false.

(** ** The transform: [dct_1d], [dct_2d], [phash]

    The float64 operations the transform uses are an interface, so that
    the text of the loops is kept whatever the arithmetic is. *)

Class Float (F : Type) := {
  of_int : nat -> F;          (* int to float conversion *)
  half : F;                   (* the literal 0.5 *)
  pi : F;                     (* np.pi *)
  add : F -> F -> F;
  mul : F -> F -> F;
  div : F -> F -> F;
  cos : F -> F;               (* np.cos *)
  sqrt : F -> F;              (* np.sqrt *)
  gt : F -> F -> bool;        (* > *)
  mean : list F -> F          (* np.mean *)
}.

Section Transform.
Context {F : Type} `{Float F}.

(** The inner loop of [dct_1d]: [s += vector[n] * np.cos(np.pi * (n + 0.5) * k / N)]. *)
Definition dct_sum (vector : list F) (k : nat) : F :=
  let N := length vector in
  fold_left
    (fun s n =>
       add s (mul (nth n vector (of_int 0))
                  (cos (div (mul (mul pi (add (of_int n) half)) (of_int k)) (of_int N)))))
    (seq 0 N) (of_int 0).

Definition dct_1d (vector : list F) : list F :=
  let N := length vector in
  map (fun k =>
         let s := dct_sum vector k in
         if k =? 0
         then mul s (sqrt (div (of_int 1) (of_int N)))
         else mul s (sqrt (div (of_int 2) (of_int N))))
      (seq 0 N).

(** [matrix[:, j]] *)
Definition column (j : nat) (matrix : list (list F)) : list F :=
  map (fun row => nth j row (of_int 0)) matrix.

Definition dct_2d (matrix : list (list F)) : list (list F) :=
  let M := length matrix in
  let N := length (hd [] matrix) in
  let dct_rows := map dct_1d matrix in
  map (fun i => map (fun j => nth i (dct_1d (column j dct_rows)) (of_int 0)) (seq 0 N))
      (seq 0 M).

(** [phash] from its second step on: [pixels] is the float64 array of the
    grayscale image resized to [img_size] by [img_size], which PIL (an
    external library) produces in the first step. *)
Definition phash (pixels : list (list F)) (hash_size : nat) : exn + ImageHash :=
  let dct := dct_2d pixels in
  threshold gt mean hash_size dct.

(** Every pixel multiplied by the factor [c], in the arithmetic of the
    transform. *)
Definition scale (c : F) (pixels : list (list F)) : list (list F) :=
  map (map (mul c)) pixels.

(** The strict comparisons of step 5, one for each coefficient of the
    block other than (0,0), in row-major order: the coefficient against
    the mean of those coefficients. *)
Definition comparisons (pixels : list (list F)) (hash_size : nat) : list bool :=
  let coeffs := non_dc_coeffs (of_int 0) hash_size (dct_2d pixels) in
  map (fun x => gt x (mean coeffs)) coeffs.

(** [compute_image_hash]: every exception is caught and gives [None];
    [decode] stands for the file readers (OpenImageIO, PIL) followed by the
    grayscale resize. *)
Definition compute_image_hash (decode : string -> option (list (list F)))
    (file_path : string) (hash_size : nat) : option string :=
  match decode file_path with
  | None => None
  | Some pixels =>
      match phash pixels hash_size with
      | inl _ => None
      | inr hash_obj =>
          match str hash_obj with
          | inl _ => None
          | inr s => Some s
          end
      end
  end.

End Transform.

(** ** Exact real arithmetic as an instance

    The transform read over the real numbers: [np.cos], [np.sqrt] and
    [np.pi] are the real functions and constant, [np.mean] of a
    non-empty array is its sum divided by its length. *)

Definition Rgt_bool (x y : R) : bool := if Rlt_dec y x then true else false.

Definition Rsum (l : list R) : R := fold_right Rplus 0%R l.

Definition Rmean (l : list R) : R := (Rsum l / INR (length l))%R.

#[global] Instance Float_R : Float R := {
  of_int := INR;
  half := (1 / 2)%R;
  pi := PI;
  add := Rplus;
  mul := Rmult;
  div := Rdiv;
  cos := Rtrigo_def.cos;
  sqrt := R_sqrt.sqrt;
  gt := Rgt_bool;
  mean := Rmean
}.

(** An executable instance of the thresholding step, on integers, with the
    floor mean. *)
Definition Zmean (l : list Z) : Z := (fold_right Z.add 0 l / Z.of_nat (length l))%Z.

(** Arrays of [n] rows of [n] entries: the hashes [phash] makes, and the
    pixel grids it is given. *)
Definition square (A : Type) (n : nat) (arr : list (list A)) : Prop :=
  length arr = n /\ Forall (fun row => length row = n) arr.

End PHash.

(* ================================================================== *)
(** * The float64 arithmetic of the transform                          *)
(* ================================================================== *)

Module Binary64.
Import Floats.

(** numpy's float64 is IEEE 754 binary64, and so are the primitive
    floats: [+], [*], [/] and [np.sqrt] round to nearest, ties to even,
    and [>] is false on a NaN.  An integer below 2^53 converts exactly. *)
Definition of_nat (n : nat) : float := PrimFloat.of_uint63 (Uint63.of_Z (Z.of_nat n)).

(** [np.asarray(image, dtype=np.float64)] of an image of gray levels. *)
Definition pixels (image : list (list nat)) : list (list float) := map (map of_nat) image.

(** [np.add.reduce] on a contiguous float64 array, which [np.mean]
    calls: numpy's pairwise summation.  Fewer than 8 entries are added one
    after the other; up to 128 are added in eight interleaved partial
    sums, which are then combined, and the entries past the last full
    group of eight are added one by one; a longer array is split in two
    at a multiple of eight.  [fuel] bounds the number of splits. *)
Definition add_all (start : float) (l : list float) : float :=
  fold_left PrimFloat.add l start.

Definition unrolled_sum (l : list float) : float :=
  let n := length l in
  let whole := n - n mod 8 in
  let lane j :=
    fold_left (fun r i => PrimFloat.add r (nth (i + j) l 0%float))
              (map (fun group => 8 * group) (seq 1 (whole / 8 - 1)))
              (nth j l 0%float) in
  let res :=
    PrimFloat.add
      (PrimFloat.add (PrimFloat.add (lane 0) (lane 1)) (PrimFloat.add (lane 2) (lane 3)))
      (PrimFloat.add (PrimFloat.add (lane 4) (lane 5)) (PrimFloat.add (lane 6) (lane 7))) in
  add_all res (skipn whole l).

Fixpoint pairwise_sum (fuel : nat) (l : list float) : float :=
  let n := length l in
  if n <? 8 then add_all 0%float l
  else if n <=? 128 then unrolled_sum l
  else
    match fuel with
    | O => nan
    | S fuel' =>
        let n2 := n / 2 - (n / 2) mod 8 in
        PrimFloat.add (pairwise_sum fuel' (firstn n2 l)) (pairwise_sum fuel' (skipn n2 l))
    end.

(** [np.mean]: the sum, reduced from the identity 0, divided by the
    count.  (The sign of a zero sum depends on the numpy version; [>]
    does not see it.) *)
Definition np_mean (l : list float) : float :=
  PrimFloat.div (PrimFloat.add 0%float (pairwise_sum (length l) l)) (of_nat (length l)).

(** The float64 operations of [dct_1d], [dct_2d] and [phash].  [np.cos]
    is computed by the platform's library and is given. *)
Definition arithmetic (np_cos : float -> float) : PHash.Float float := {|
  PHash.of_int := of_nat;
  PHash.half := 0x1p-1%float;
  PHash.pi := 0x1.921fb54442d18p+1%float;
  PHash.add := PrimFloat.add;
  PHash.mul := PrimFloat.mul;
  PHash.div := PrimFloat.div;
  PHash.cos := np_cos;
  PHash.sqrt := PrimFloat.sqrt;
  PHash.gt := fun x y => PrimFloat.ltb y x;
  PHash.mean := np_mean
|}.

(** [np.cos] at the angles the transform of a grid of two rows and two
    columns asks for: 0, and what float64 gives for [np.pi * 0.5 / 2] and
    [np.pi * 1.5 / 2].  The values are the float64 numbers nearest to the
    cosines.  No other angle is asked for there; elsewhere the table has
    no entry. *)
Definition cos_of_two_by_two (x : float) : float :=
  if PrimFloat.eqb x 0%float then 1%float
  else if PrimFloat.eqb x 0x1.921fb54442d18p-1%float then 0x1.6a09e667f3bcdp-1%float
  else if PrimFloat.eqb x 0x1.2d97c7f3321d2p+1%float then (-0x1.6a09e667f3bccp-1)%float
  else nan.

End Binary64.

(* ================================================================== *)
(** * Python string and path functions the catalog code calls          *)
(* ================================================================== *)

Module Str.

(** Strings are Python [str] values of code points below 128. *)

Definition chars (s : string) : list ascii := list_ascii_of_string s.
Definition of_chars (l : list ascii) : string := string_of_list_ascii l.

(** [str.isspace] on one character: tab to carriage return, the four
    separators 28 to 31, and the space. *)
Definition is_space (c : ascii) : bool :=
  let n := nat_of_ascii c in
  ((9 <=? n) && (n <=? 13)) || ((28 <=? n) && (n <=? 32)).

Fixpoint lstrip (l : list ascii) : list ascii :=
  match l with
  | c :: l' => if is_space c then lstrip l' else l
  | [] => []
  end.

Definition rstrip (l : list ascii) : list ascii := rev (lstrip (rev l)).

Definition no_leading_space (l : list ascii) : Prop :=
  match l with
  | [] => True
  | c :: _ => is_space c = false
  end.

(** [s.strip()] *)
Definition strip (s : string) : string := of_chars (rstrip (lstrip (chars s))).

(** [s.replace(old, new)] for a one-character [old]. *)
Definition replace_char (old new : ascii) (s : string) : string :=
  of_chars (map (fun c => if Ascii.eqb c old then new else c) (chars s)).

(** [s.startswith(prefix)] *)
Definition startswith (prefix s : string) : bool := String.prefix prefix s.

(** [needle in s] *)
Fixpoint contains_chars (needle l : list ascii) : bool :=
  String.prefix (of_chars needle) (of_chars l)
  || match l with
     | [] => false
     | _ :: l' => contains_chars needle l'
     end.

Definition contains (needle s : string) : bool := contains_chars (chars needle) (chars s).

(** The part of [l] after its last [sep], and the part before it
    ([None] when [sep] does not occur). *)
Fixpoint rsplit (sep : ascii) (l : list ascii) : option (list ascii) * list ascii :=
  match l with
  | [] => (None, [])
  | c :: l' =>
      match rsplit sep l' with
      | (Some hd, tl) => (Some (c :: hd), tl)
      | (None, tl) => if Ascii.eqb c sep then (Some [], tl) else (None, c :: tl)
      end
  end.

(** [needle] occurs in [s], and occurs in it up to ASCII case. *)
Definition substring (needle s : list ascii) : Prop :=
  exists before after, s = before ++ needle ++ after.

Definition is_char (c : ascii) (x : ascii) : bool := Ascii.eqb x c.

Fixpoint lstrip_char (c : ascii) (l : list ascii) : list ascii :=
  match l with
  | x :: l' => if Ascii.eqb x c then lstrip_char c l' else l
  | [] => []
  end.

(** [os.path.basename] (posixpath): [p[p.rfind('/') + 1:]]. *)
Definition basename (p : string) : string := of_chars (snd (rsplit "/"%char (chars p))).

(** [os.path.dirname] (posixpath): the head up to and with the last
    slash; trailing slashes are removed unless the head is slashes only. *)
Definition dirname (p : string) : string :=
  match fst (rsplit "/"%char (chars p)) with
  | None => EmptyString
  | Some hd =>
      if forallb (is_char "/"%char) hd
      then of_chars (hd ++ ["/"%char])
      else of_chars (rev (lstrip_char "/"%char (rev hd)))
  end.

(** [os.path.splitext(p)[0]]: the extension starts at the last dot of the
    last component, unless only dots come before it there. *)
Definition splitext_root (p : string) : string :=
  let '(dir, name) := rsplit "/"%char (chars p) in
  let root :=
    match rsplit "."%char name with
    | (None, _) => name
    | (Some hd, _) => if forallb (is_char "."%char) hd then name else hd
    end in
  match dir with
  | None => of_chars root
  | Some d => of_chars (d ++ "/"%char :: root)
  end.

(** [os.path.join(a, b)] (posixpath). *)
Definition join (a b : string) : string :=
  if startswith "/" b then b
  else match rev (chars a) with
       | [] => b
       | c :: _ => if Ascii.eqb c "/"%char then a ++ b else a ++ "/" ++ b
       end.

(** [f"{n:05d}"]: decimal digits, zero-padded to five characters, the sign
    first. *)
Definition decimal (n : N) : string := NilEmpty.string_of_uint (N.to_uint n).

Definition zero_pad (width : nat) (s : string) : string :=
  of_chars (repeat "0"%char (width - String.length s)) ++ s.

Definition format_05d (z : Z) : string :=
  match z with
  | Zneg p => "-" ++ zero_pad 4 (decimal (Npos p))
  | _ => zero_pad 5 (decimal (Z.to_N z))
  end.

(** ASCII lower case, as SQLite folds identifiers and [LIKE] operands. *)
Definition lower (c : ascii) : ascii :=
  let n := nat_of_ascii c in
  if (65 <=? n) && (n <=? 90) then ascii_of_nat (n + 32) else c.

Definition eqb_nocase_char (a b : ascii) : bool := Ascii.eqb (lower a) (lower b).

Fixpoint eqb_nocase_chars (a b : list ascii) : bool :=
  match a, b with
  | [], [] => true
  | x :: a', y :: b' => eqb_nocase_char x y && eqb_nocase_chars a' b'
  | _, _ => false
  end.

Definition eqb_nocase (a b : string) : bool := eqb_nocase_chars (chars a) (chars b).

Definition substring_nocase (needle s : list ascii) : Prop :=
  exists before middle after,
    s = before ++ middle ++ after /\ eqb_nocase_chars needle middle = true.

(** A name SQLite reads as one identifier when it stands unquoted in a
    statement: letters, digits and underscores, not starting with a digit.
    The statements built from a column name are modelled for such names. *)
Definition identifier_char (c : ascii) : bool :=
  let n := nat_of_ascii c in
  ((48 <=? n) && (n <=? 57)) || ((65 <=? n) && (n <=? 90))
  || ((97 <=? n) && (n <=? 122)) || (n =? 95).

Definition sql_identifier (s : string) : bool :=
  match Str.chars s with
  | [] => false
  | c :: _ =>
      negb ((48 <=? nat_of_ascii c) && (nat_of_ascii c <=? 57))
      && forallb identifier_char (Str.chars s)
  end.

End Str.

(* ================================================================== *)
(** * The SQLite statements the catalog executes                       *)
(* ================================================================== *)

Module Sqlite.

Inductive value :=
| Null
| Int (z : Z)
| Text (s : string).

(** The SQL comparison [a = b] as a [WHERE] clause reads it: a comparison
    with [NULL] is never true. *)
Definition value_eqb (a b : value) : bool :=
  match a, b with
  | Int x, Int y => Z.eqb x y
  | Text x, Text y => String.eqb x y
  | _, _ => false
  end.

(** A column as the schema holds it.  [PRAGMA table_info] shows the first
    five fields; [AUTOINCREMENT] and [UNIQUE] are part of the table
    definition but not of that listing. *)
Record column := mkColumn {
  col_name : string;
  col_type : string;
  col_notnull : bool;
  col_dflt : option string;
  col_pk : bool;
  col_autoincrement : bool;
  col_unique : bool
}.

(** Rows are kept in rowid order, each aligned with the column list. *)
Record table := mkTable {
  columns : list column;
  rows : list (list value)
}.

Record database := mkDatabase {
  tables : list (string * table);
  sqlite_sequence : list (string * Z)
}.

Inductive sql_error :=
| OperationalError (msg : string)
| IntegrityError (msg : string).

Definition result (A : Type) : Type := sum sql_error A.

(** ** Association lists by name *)

Fixpoint lookup (A : Type) (k : string) (l : list (string * A)) : option A :=
  match l with
  | [] => None
  | (k', v) :: l' => if String.eqb k k' then Some v else lookup k l'
  end.

Fixpoint remove (A : Type) (k : string) (l : list (string * A)) : list (string * A) :=
  match l with
  | [] => []
  | (k', v) :: l' => if String.eqb k k' then remove k l' else (k', v) :: remove k l'
  end.

(** Replace the binding of [k] in place, or add it at the end. *)
Fixpoint store (A : Type) (k : string) (v : A) (l : list (string * A)) : list (string * A) :=
  match l with
  | [] => [(k, v)]
  | (k', v') :: l' => if String.eqb k k' then (k, v) :: l' else (k', v') :: store k v l'
  end.

Definition set_table (d : database) (name : string) (t : table) : database :=
  mkDatabase (store name t (tables d)) (sqlite_sequence d).

(** ** Columns and cells *)

(** Column names are matched without regard to ASCII case. *)
Fixpoint col_index (cols : list column) (name : string) : option nat :=
  match cols with
  | [] => None
  | c :: cols' =>
      if Str.eqb_nocase (col_name c) name then Some 0
      else option_map S (col_index cols' name)
  end.

Definition has_column (t : table) (name : string) : bool :=
  match col_index (columns t) name with Some _ => true | None => false end.

Definition cell (cols : list column) (row : list value) (name : string) : value :=
  match col_index cols name with
  | Some i => nth i row Null
  | None => Null
  end.

(** The value a column takes when an [INSERT] does not name it: its
    [DEFAULT] literal, an integer when the text is one. *)
Definition default_value (c : column) : value :=
  match col_dflt c with
  | None => Null
  | Some s =>
      match NilEmpty.uint_of_string s with
      | Some u => Int (Z.of_uint u)
      | None => Text s
      end
  end.

(** ** [PRAGMA table_info] *)

Record info_row := mkInfo {
  cid : nat;
  name : string;
  type : string;
  notnull : bool;
  dflt_value : option string;
  pk : bool
}.

Definition info_of (i : nat) (c : column) : info_row :=
  mkInfo i (col_name c) (col_type c) (col_notnull c) (col_dflt c) (col_pk c).

Fixpoint number_from (A B : Type) (f : nat -> A -> B) (i : nat) (l : list A) : list B :=
  match l with
  | [] => []
  | x :: l' => f i x :: number_from f (S i) l'
  end.

(** The listing of a missing table is empty. *)
Definition table_info (d : database) (tname : string) : list info_row :=
  match lookup tname (tables d) with
  | None => []
  | Some t => number_from info_of 0 (columns t)
  end.

(** ** Data definition *)

(** [CREATE TABLE [IF NOT EXISTS] tname (cols)] *)
Definition create_table (if_not_exists : bool) (tname : string) (cols : list column)
    (d : database) : result database :=
  match lookup tname (tables d) with
  | Some _ =>
      if if_not_exists then inr d
      else inl (OperationalError ("table " ++ tname ++ " already exists"))
  | None =>
      match cols with
      | [] => inl (OperationalError "syntax error: empty column list")
      | _ => inr (set_table d tname (mkTable cols []))
      end
  end.

(** [ALTER TABLE tname ADD COLUMN c]; the rows already stored read the
    default of the new column. *)
Definition add_column (tname : string) (c : column) (d : database) : result database :=
  match lookup tname (tables d) with
  | None => inl (OperationalError ("no such table: " ++ tname))
  | Some t =>
      if has_column t (col_name c)
      then inl (OperationalError ("duplicate column name: " ++ col_name c))
      else inr (set_table d tname
                  (mkTable (columns t ++ [c])
                           (map (fun r => r ++ [default_value c]) (rows t))))
  end.

(** [DROP TABLE tname]: the table goes, and its [sqlite_sequence] entry. *)
Definition drop_table (tname : string) (d : database) : result database :=
  match lookup tname (tables d) with
  | None => inl (OperationalError ("no such table: " ++ tname))
  | Some _ => inr (mkDatabase (remove tname (tables d)) (remove tname (sqlite_sequence d)))
  end.

(** [ALTER TABLE old RENAME TO new] *)
Definition rename_table (old new : string) (d : database) : result database :=
  match lookup old (tables d), lookup new (tables d) with
  | None, _ => inl (OperationalError ("no such table: " ++ old))
  | Some _, Some _ =>
      inl (OperationalError ("there is already another table or index with this name: " ++ new))
  | Some t, None =>
      inr (mkDatabase
             (remove old (tables d) ++ [(new, t)])
             (match lookup old (sqlite_sequence d) with
              | None => sqlite_sequence d
              | Some s => remove old (sqlite_sequence d) ++ [(new, s)]
              end))
  end.

(** The names of a column list are distinct (without regard to case), and
    so are the rowids of a table. *)
Fixpoint distinct_names (names : list string) : bool :=
  match names with
  | [] => true
  | n :: rest => negb (existsb (Str.eqb_nocase n) rest) && distinct_names rest
  end.

Fixpoint distinct_ids (ids : list Z) : bool :=
  match ids with
  | [] => true
  | z :: rest => negb (existsb (Z.eqb z) rest) && distinct_ids rest
  end.

(** What a [table_info] row says of its column, the position left out. *)
Definition described (i : info_row) : string * string * bool * option string * bool :=
  (name i, type i, notnull i, dflt_value i, pk i).

(** ** Data manipulation *)

(** The integer in the [INTEGER PRIMARY KEY] cell of a row. *)
Definition pk_column (t : table) : option nat :=
  (fix find (i : nat) (cols : list column) : option nat :=
     match cols with
     | [] => None
     | c :: cols' => if col_pk c then Some i else find (S i) cols'
     end) 0 (columns t).

Definition rowid_at (i : nat) (row : list value) : Z :=
  match nth i row Null with Int z => z | _ => 0%Z end.

Definition rowids (t : table) : list Z :=
  match pk_column t with
  | None => []
  | Some i => map (rowid_at i) (rows t)
  end.

(** The largest rowid the table holds, and 0 for a table without rows. *)
Definition max_rowid (t : table) : Z :=
  match rowids t with
  | [] => 0%Z
  | z :: rest => fold_right Z.max z rest
  end.

Definition autoincrement (t : table) : bool := existsb col_autoincrement (columns t).

(** The rowid SQLite picks for a new row.  With [AUTOINCREMENT] it is one
    more than the largest rowid the table ever held, which
    [sqlite_sequence] records; without, one more than the largest rowid the
    table holds now. *)
Definition next_rowid (d : database) (tname : string) (t : table) : Z :=
  if autoincrement t
  then (Z.max (max_rowid t)
              (match lookup tname (sqlite_sequence d) with Some s => s | None => 0 end) + 1)%Z
  else (max_rowid t + 1)%Z.

Fixpoint assigned (cols : list string) (vals : list value) (name : string) : option value :=
  match cols, vals with
  | c :: cols', v :: vals' =>
      if Str.eqb_nocase c name then Some v else assigned cols' vals' name
  | _, _ => None
  end.

Definition violates_notnull (cols : list column) (row : list value) : bool :=
  existsb (fun c => col_notnull c && match cell cols row (col_name c) with Null => true | _ => false end)
          cols.

Definition violates_unique (t : table) (row : list value) : bool :=
  existsb
    (fun c =>
       (col_unique c || col_pk c)
       && existsb (fun r => value_eqb (cell (columns t) r (col_name c))
                                      (cell (columns t) row (col_name c)))
                  (rows t))
    (columns t).

(** The row an [INSERT] makes: the value given for a column or else its
    default, and a fresh rowid for an [INTEGER PRIMARY KEY] left out or
    given as [NULL]. *)
Definition new_row (fresh : Z) (t : table) (cols : list string) (vals : list value)
    : list value :=
  map (fun c =>
         let given :=
           match assigned cols vals (col_name c) with
           | Some v => v
           | None => default_value c
           end in
         if col_pk c
         then match given with Null => Int fresh | v => v end
         else given)
      (columns t).

Definition sequence_of (d : database) (tname : string) : Z :=
  match lookup tname (sqlite_sequence d) with Some s => s | None => 0%Z end.

(** [INSERT INTO tname (cols) VALUES (vals)], with the rowid of the new
    row.  The new row goes last: the program only inserts rowids above
    those stored, or copies a table in rowid order into an empty one. *)
Definition insert_into (tname : string) (cols : list string) (vals : list value)
    (d : database) : result (database * Z) :=
  match lookup tname (tables d) with
  | None => inl (OperationalError ("no such table: " ++ tname))
  | Some t =>
      if negb (forallb (has_column t) cols) || negb (length cols =? length vals)
      then inl (OperationalError ("table " ++ tname ++ " has no such columns"))
      else
        let row := new_row (next_rowid d tname t) t cols vals in
        if violates_notnull (columns t) row
        then inl (IntegrityError ("NOT NULL constraint failed: " ++ tname))
        else if violates_unique t row
        then inl (IntegrityError ("UNIQUE constraint failed: " ++ tname))
        else
          let rowid :=
            match pk_column t with
            | Some i => rowid_at i row
            | None => Z.of_nat (S (length (rows t)))
            end in
          inr (mkDatabase
                 (store tname (mkTable (columns t) (rows t ++ [row])) (tables d))
                 (if autoincrement t
                  then store tname (Z.max rowid (sequence_of d tname)) (sqlite_sequence d)
                  else sqlite_sequence d),
               rowid)
  end.

(** [INSERT INTO target (cols) SELECT cols FROM source]: one insert per
    source row, in rowid order. *)
Fixpoint insert_rows (target : string) (cols : list string) (src_cols : list column)
    (src_rows : list (list value)) (d : database) : result database :=
  match src_rows with
  | [] => inr d
  | r :: rest =>
      match insert_into target cols (map (cell src_cols r) cols) d with
      | inl e => inl e
      | inr (d', _) => insert_rows target cols src_cols rest d'
      end
  end.

Definition insert_select (target : string) (cols : list string) (source : string)
    (d : database) : result database :=
  match lookup source (tables d) with
  | None => inl (OperationalError ("no such table: " ++ source))
  | Some s =>
      if negb (forallb (has_column s) cols)
      then inl (OperationalError "no such column")
      else insert_rows target cols (columns s) (rows s) d
  end.

(** ** [WHERE] clauses *)

(** [pattern] against [text] for [LIKE]: [%] matches any run of
    characters, [_] any one character, and any other character itself
    without regard to ASCII case. *)
Fixpoint like_chars (pattern text : list ascii) : bool :=
  match pattern with
  | [] => match text with [] => true | _ => false end
  | p :: pattern' =>
      if Ascii.eqb p "%"%char then
        (fix any_suffix (text : list ascii) : bool :=
           like_chars pattern' text
           || match text with
              | [] => false
              | _ :: text' => any_suffix text'
              end) text
      else
        match text with
        | [] => false
        | c :: text' =>
            (Ascii.eqb p "_"%char || Str.eqb_nocase_char p c) && like_chars pattern' text'
        end
  end.

(** A text without the two wildcard characters. *)
Definition plain (text : list ascii) : bool :=
  forallb (fun c => negb (Ascii.eqb c "%"%char) && negb (Ascii.eqb c "_"%char)) text.

Definition like (v : value) (pattern : string) : bool :=
  match v with
  | Text s => like_chars (Str.chars pattern) (Str.chars s)
  | _ => false
  end.

Inductive condition :=
| Equals (col : string) (v : value)         (* col = v *)
| Like (col : string) (pattern : string).   (* col LIKE pattern *)

Definition condition_column (c : condition) : string :=
  match c with Equals col _ => col | Like col _ => col end.

Definition holds (cols : list column) (row : list value) (c : condition) : bool :=
  match c with
  | Equals col v => value_eqb (cell cols row col) v
  | Like col pattern => like (cell cols row col) pattern
  end.

(** The conjunction of the conditions; no condition means no [WHERE]. *)
Definition matches (cols : list column) (conds : list condition) (row : list value) : bool :=
  forallb (holds cols row) conds.

(** ** [ORDER BY] *)

(** The order of values under the default (binary) collation. *)
Definition value_leb (a b : value) : bool :=
  match a, b with
  | Null, _ => true
  | Int _, Null => false
  | Int x, Int y => (x <=? y)%Z
  | Int _, Text _ => true
  | Text x, Text y => String.leb x y
  | Text _, _ => false
  end.

Fixpoint insert_sorted (A : Type) (le : A -> A -> bool) (x : A) (l : list A) : list A :=
  match l with
  | [] => [x]
  | y :: l' => if le x y then x :: l else y :: insert_sorted le x l'
  end.

(** A stable sort: rows with equal keys stay in rowid order. *)
Definition sort_by (A : Type) (le : A -> A -> bool) (l : list A) : list A :=
  fold_right (insert_sorted le) [] l.

Definition order_rows (cols : list column) (key : string) (descending : bool)
    (l : list (list value)) : list (list value) :=
  sort_by (fun r1 r2 =>
             if descending
             then value_leb (cell cols r2 key) (cell cols r1 key)
             else value_leb (cell cols r1 key) (cell cols r2 key))
          l.

(** [SELECT out FROM tname [WHERE conds] [ORDER BY key ASC|DESC]] *)
Definition select (out : list string) (tname : string) (conds : list condition)
    (order : option (string * bool)) (d : database) : result (list (list value)) :=
  match lookup tname (tables d) with
  | None => inl (OperationalError ("no such table: " ++ tname))
  | Some t =>
      let used := out ++ map condition_column conds
                  ++ match order with Some (k, _) => [k] | None => [] end in
      if negb (forallb (has_column t) used)
      then inl (OperationalError "no such column")
      else
        let chosen := filter (matches (columns t) conds) (rows t) in
        let sorted :=
          match order with
          | Some (key, descending) => order_rows (columns t) key descending chosen
          | None => chosen
          end in
        inr (map (fun r => map (cell (columns t) r) out) sorted)
  end.

(** [UPDATE tname SET col = v, ... WHERE conds].  The program updates
    neither [id] nor [hash], so only [NOT NULL] can be violated. *)
Fixpoint set_cells (cols : list column) (sets : list (string * value)) (row : list value)
    : list value :=
  match cols, row with
  | c :: cols', old :: row' =>
      match assigned (map fst sets) (map snd sets) (col_name c) with
      | Some v => v
      | None => old
      end :: set_cells cols' sets row'
  | _, _ => row
  end.

Definition is_null (v : value) : bool :=
  match v with Null => true | _ => false end.

Definition sets_null_in_notnull (cols : list column) (sets : list (string * value)) : bool :=
  existsb
    (fun s => is_null (snd s)
              && existsb (fun c => Str.eqb_nocase (col_name c) (fst s) && col_notnull c) cols)
    sets.

Definition update (tname : string) (sets : list (string * value)) (conds : list condition)
    (d : database) : result database :=
  match lookup tname (tables d) with
  | None => inl (OperationalError ("no such table: " ++ tname))
  | Some t =>
      if negb (forallb (has_column t) (map fst sets ++ map condition_column conds))
      then inl (OperationalError "no such column")
      else if sets_null_in_notnull (columns t) sets
              && existsb (matches (columns t) conds) (rows t)
      then inl (IntegrityError ("NOT NULL constraint failed: " ++ tname))
      else inr (set_table d tname
                  (mkTable (columns t)
                           (map (fun r => if matches (columns t) conds r
                                          then set_cells (columns t) sets r else r)
                                (rows t))))
  end.

(** [DELETE FROM tname WHERE conds] *)
Definition delete (tname : string) (conds : list condition) (d : database) : result database :=
  match lookup tname (tables d) with
  | None => inl (OperationalError ("no such table: " ++ tname))
  | Some t =>
      if negb (forallb (has_column t) (map condition_column conds))
      then inl (OperationalError "no such column")
      else inr (set_table d tname
                  (mkTable (columns t)
                           (filter (fun r => negb (matches (columns t) conds r)) (rows t))))
  end.

End Sqlite.

(* ================================================================== *)
(** * Connections of Python's [sqlite3] module                         *)
(* ================================================================== *)

Module Sqlite3.
Import Sqlite.

(** A connection sees [current]; the database file holds [committed].
    Statements run outside a transaction are committed at once; inside
    one they stay local until [commit].  A connection that is closed or
    dropped with a transaction open loses its uncommitted changes. *)
Record connection := mkConnection {
  committed : database;
  current : database;
  in_transaction : bool
}.

Definition connect (d : database) : connection := mkConnection d d false.

(** An action on a connection: it returns or raises, and leaves the
    connection in a new state either way. *)
Definition action (A : Type) : Type := connection -> result A * connection.

Definition ret (A : Type) (a : A) : action A := fun c => (inr a, c).

Definition bind (A B : Type) (m : action A) (k : A -> action B) : action B :=
  fun c =>
    match m c with
    | (inl e, c') => (inl e, c')
    | (inr a, c') => k a c'
    end.

Notation "x <- m ;; k" := (bind m (fun x => k))
  (at level 61, m at next level, right associativity).
Notation "m ;;; k" := (bind m (fun _ => k))
  (at level 61, right associativity).

(** A read of the current state. *)
Definition query (A : Type) (f : database -> A) : action A :=
  fun c => (inr (f (current c)), c).

Definition fetch (A : Type) (f : database -> result A) : action A :=
  fun c => (f (current c), c).

Definition io_failure : sql_error := OperationalError "disk I/O error".

(** [cursor.execute] of a schema statement; [fails] says that the store
    reports an input/output error instead of running it. *)
Definition execute_ddl (fails : bool) (stmt : database -> result database) : action unit :=
  fun c =>
    if fails then (inl io_failure, c)
    else
      match stmt (current c) with
      | inl e => (inl e, c)
      | inr d' =>
          if in_transaction c
          then (inr tt, mkConnection (committed c) d' true)
          else (inr tt, mkConnection d' d' false)
      end.

(** [cursor.execute] of an [INSERT], [UPDATE] or [DELETE]: the module
    opens a transaction first when none is open. *)
Definition execute_dml (A : Type) (fails : bool) (stmt : database -> result (database * A))
    : action A :=
  fun c =>
    if fails then (inl io_failure, mkConnection (committed c) (current c) true)
    else
      match stmt (current c) with
      | inl e => (inl e, mkConnection (committed c) (current c) true)
      | inr (d', a) => (inr a, mkConnection (committed c) d' true)
      end.

Definition no_value (stmt : database -> result database) (d : database)
    : result (database * unit) :=
  match stmt d with
  | inl e => inl e
  | inr d' => inr (d', tt)
  end.

(** [cursor.execute("BEGIN TRANSACTION;")] *)
Definition begin_transaction (fails : bool) : action unit :=
  fun c =>
    if fails then (inl io_failure, c)
    else if in_transaction c
    then (inl (OperationalError "cannot start a transaction within a transaction"), c)
    else (inr tt, mkConnection (committed c) (current c) true).

(** [conn.commit()] *)
Definition commit (fails : bool) : action unit :=
  fun c =>
    if fails then (inl io_failure, c)
    else (inr tt, mkConnection (current c) (current c) false).

(** A function that opens a connection on the file holding [d], runs
    [body] and lets go of the connection: what it returns or raises, and
    what the file holds afterwards. *)
Definition with_connection (A : Type) (body : action A) (d : database) : result A * database :=
  let (r, c) := body (connect d) in (r, committed c).

(** Two properties of an action run inside a transaction: it leaves
    what the file holds alone whether it returns or raises, and it leaves
    it alone at least when it raises. *)
Definition keeps_committed (A : Type) (m : action A) : Prop :=
  forall c, in_transaction c = true ->
    committed (snd (m c)) = committed c /\ in_transaction (snd (m c)) = true.

Definition fails_clean (A : Type) (m : action A) : Prop :=
  forall c, in_transaction c = true ->
    match m c with
    | (inl _, c') => committed c' = committed c
    | (inr _, _) => True
    end.

End Sqlite3.

(* ================================================================== *)
(** * The catalog                                                      *)
(* ================================================================== *)

Module Loader.
Import Sqlite Sqlite3.
Local Open Scope string_scope.

(** ** Schema *)

(** The column list of [initialize_database]'s [CREATE TABLE]. *)
Definition hdri_columns : list column :=
  [ mkColumn "id" "INTEGER" false None true true false;
    mkColumn "file_path" "TEXT" true None false false false;
    mkColumn "preview_path" "TEXT" true None false false false;
    mkColumn "name" "TEXT" true None false false false;
    mkColumn "upload_date" "TEXT" true None false false false;
    mkColumn "hash" "TEXT" false None false false true ].

Definition initialize_database (d : database) : result unit * database :=
  with_connection
    (execute_ddl false (create_table true "hdri" hdri_columns) ;;; commit false)
    d.

Definition get_tag_columns (d : database) : list string :=
  let cols := table_info d "hdri" in
  map name (filter (fun col => Str.startswith "tag_" (name col)) cols).

Definition safe_tag_column (tag_name : string) : string :=
  "tag_" ++ Str.replace_char " " "_" (Str.strip tag_name).

(** The column identity in the words of the specification: the name
    trimmed, every whitespace character inside it replaced by an
    underscore, and the marker put in front.  It is compared with
    [safe_tag_column]. *)
Definition spec_tag_column (tag_name : string) : string :=
  "tag_" ++ Str.of_chars
              (map (fun c => if Str.is_space c then "_"%char else c)
                   (Str.chars (Str.strip tag_name))).

(** ** [drop_column_from_table] *)

(** The column a definition text [name typ NOT NULL DEFAULT d PRIMARY KEY]
    declares.  The text is put together from the five fields of a
    [table_info] row and has no other clause. *)
Definition col_def (col : info_row) : column :=
  mkColumn (name col) (type col) (notnull col) (dflt_value col) (pk col) false false.

Fixpoint join_with (sep : string) (parts : list string) : string :=
  match parts with
  | [] => EmptyString
  | [p] => p
  | p :: rest => p ++ sep ++ join_with sep rest
  end.

Definition col_def_text (col : info_row) : string :=
  let notnull := if notnull col then "NOT NULL"%string else EmptyString in
  let dflt :=
    match dflt_value col with Some v => ("DEFAULT " ++ v)%string | None => EmptyString end in
  let pk := if pk col then "PRIMARY KEY"%string else EmptyString in
  let parts := [name col; type col; notnull; dflt; pk] in
  let parts := filter (fun p => negb (String.eqb p EmptyString)) parts in
  join_with " " parts.

(** The columns a rebuild keeps, and a row cut down to them. *)
Definition kept (column_to_drop : string) (cols : list column) : list column :=
  filter (fun c => negb (String.eqb (col_name c) column_to_drop)) cols.

Definition kept_names (column_to_drop : string) (t : table) : list string :=
  map col_name (kept column_to_drop (columns t)).

Definition cut_row (column_to_drop : string) (t : table) (row : list value) : list value :=
  map (cell (columns t) row) (kept_names column_to_drop t).

(** The conditions under which a source row goes into the new table after
    the rows [done]: its primary key is an integer none of them has, and
    its [NOT NULL] cells are not [NULL]. *)
Definition row_copies (t : table) (keep : list column) (done : list (list value))
    (r : list value) : Prop :=
  (forall c, In c keep -> col_pk c = true ->
     (exists z, cell (columns t) r (col_name c) = Int z)
     /\ forall r', In r' done ->
          value_eqb (cell (columns t) r' (col_name c)) (cell (columns t) r (col_name c)) = false)
  /\ (forall c, In c keep -> col_notnull c = true -> cell (columns t) r (col_name c) <> Null).

(** A column with its [AUTOINCREMENT] and [UNIQUE] left out. *)
Definition plain_column (c : column) : column :=
  mkColumn (col_name c) (col_type c) (col_notnull c) (col_dflt c) (col_pk c) false false.

(** A table as the catalog keeps it: the first column is [id], the one
    primary key; the column names are distinct; every row has a cell per
    column, an integer id unlike the other ids, and no [NULL] in a
    [NOT NULL] column. *)
Definition catalog_table (t : table) : bool :=
  match columns t with
  | c :: rest =>
      String.eqb (col_name c) "id" && col_pk c && forallb (fun c' => negb (col_pk c')) rest
  | [] => false
  end
  && distinct_names (map col_name (columns t))
  && forallb (fun r => length r =? length (columns t))%nat (rows t)
  && forallb (fun r => match nth 0 r Null with Int _ => true | _ => false end) (rows t)
  && distinct_ids (map (rowid_at 0) (rows t))
  && forallb (fun r => negb (violates_notnull (columns t) r)) (rows t).

(** The statements of the rebuild, to say which of them the store fails. *)
Inductive rebuild_step :=
| Begin
| CreateBackup
| CopyRows
| DropOld
| RenameBackup
| Commit.

Definition no_fault (_ : rebuild_step) : bool := false.

Definition rebuild (io : rebuild_step -> bool) (table column_to_drop : string) : action unit :=
  columns_info <- query (fun d => table_info d table) ;;
  let new_columns :=
    filter (fun col => negb (String.eqb (name col) column_to_drop)) columns_info in
  let col_defs := map col_def new_columns in
  let temp_table := (table ++ "_backup")%string in
  begin_transaction (io Begin) ;;;
  execute_ddl (io CreateBackup) (create_table false temp_table col_defs) ;;;
  let col_names := map name new_columns in
  execute_dml (io CopyRows) (no_value (insert_select temp_table col_names table)) ;;;
  execute_ddl (io DropOld) (drop_table table) ;;;
  execute_ddl (io RenameBackup) (rename_table temp_table table) ;;;
  commit (io Commit).

Definition drop_column_from_table (io : rebuild_step -> bool) (table column_to_drop : string)
    (d : database) : result unit * database :=
  with_connection (rebuild io table column_to_drop) d.

(** ** What the program shows, and the state it runs in *)

Inductive event :=
| Printed (text : string)
| WarningBox (title text : string).

(** The database file, the paths that exist under the storage folder,
    what was printed or shown so far, and the number of clock readings. *)
Record world := mkWorld {
  db : database;
  files : list string;
  shown : list event;
  clock : nat
}.

Inductive exception :=
| SqlError (e : sql_error)
| OSError (msg : string).

Definition message (e : sql_error) : string :=
  match e with OperationalError m => m | IntegrityError m => m end.

Definition emit (e : event) (w : world) : world :=
  mkWorld (db w) (files w) (shown w ++ [e])%list (clock w).

Definition with_db (d : database) (w : world) : world :=
  mkWorld d (files w) (shown w) (clock w).

Definition with_file (p : string) (w : world) : world :=
  mkWorld (db w) (files w ++ [p])%list (shown w) (clock w).

(** ** The tag dialog: the column of a tag, and [delete_tag] *)

(** The column of [ALTER TABLE hdri ADD COLUMN {col_name} BOOLEAN DEFAULT 0].
    The name is put into the statement as it is; the statement is read
    here as adding the column of that name, which is how SQLite reads it
    when the name is one identifier ([Str.sql_identifier]). *)
Definition tag_column (col_name : string) : column :=
  mkColumn col_name "BOOLEAN" false (Some "0") false false false.

(** [HDRIInfoDialog.delete_tag]: what it leaves in the database and
    prints.  When the rebuild does not raise, the method goes on to build
    the check boxes again ([load_tags]), which writes nothing. *)
Definition delete_tag (io : rebuild_step -> bool) (col_name : string) (w : world) : world :=
  match drop_column_from_table io "hdri" col_name (db w) with
  | (inl e, d) => emit (Printed ("Error deleting tag: " ++ message e)) (with_db d w)
  | (inr _, d) => with_db d w
  end.

(** ** The browser: [load_hdri_images] *)

(** [filter_checkboxes] lists each tag column with the state of its check
    box, in the order of the dictionary; [sort_option] is the text of the
    sort combo box. *)
Definition load_hdri_images (filter_checkboxes : list (string * bool)) (sort_option : string)
    (search_text : string) (d : database) : result (list (list value)) :=
  let name_condition :=
    if negb (String.eqb search_text EmptyString)
    then [Like "name" ("%" ++ search_text ++ "%")%string]
    else [] in
  let tag_conditions :=
    map (fun cb => Equals (fst cb) (Int 1)) (filter snd filter_checkboxes) in
  let conditions := (name_condition ++ tag_conditions)%list in
  let descending := Str.contains "Descending" sort_option in
  if Str.startswith "Alphabetical" sort_option
  then select ["id"; "file_path"; "preview_path"; "name"; "upload_date"] "hdri"
              conditions (Some ("name", descending)) d
  else if Str.startswith "Upload Date" sort_option
  then select ["id"; "file_path"; "preview_path"; "name"; "upload_date"] "hdri"
              conditions (Some ("upload_date", descending)) d
  else inl (OperationalError "syntax error").

(** What a query is to return, to compare [load_hdri_images] with: the
    five fields shown of a row, and the test a row passes when its name
    matches the search pattern (if there is a search text) and every
    checked tag is 1. *)
Definition record_fields : list string :=
  ["id"; "file_path"; "preview_path"; "name"; "upload_date"].

Definition shown_record (t : table) (row : list value) : list value :=
  map (cell (columns t) row) record_fields.

Definition checked (filter_checkboxes : list (string * bool)) : list string :=
  map fst (filter snd filter_checkboxes).

Definition passes (t : table) (filter_checkboxes : list (string * bool))
    (search_text : string) (row : list value) : bool :=
  (String.eqb search_text EmptyString
   || like (cell (columns t) row "name") ("%" ++ search_text ++ "%"))
  && forallb (fun tag => value_eqb (cell (columns t) row tag) (Int 1))
             (checked filter_checkboxes).

Definition sort_options : list string :=
  ["Alphabetical Ascending"; "Alphabetical Descending";
   "Upload Date Ascending"; "Upload Date Descending"].

(** [search_hdri]: the text of the search bar, stripped. *)
Definition search_hdri (filter_checkboxes : list (string * bool)) (sort_option : string)
    (search_bar : string) (d : database) : result (list (list value)) :=
  load_hdri_images filter_checkboxes sort_option (Str.strip search_bar) d.

(** ** The shape of the catalog table

    The columns of [initialize_database] followed by tag columns.  A
    rebuild leaves [AUTOINCREMENT] and [UNIQUE] out, so both are flags
    here. *)
Definition catalog_columns (autoinc unique : bool) (tags : list string) : list column :=
  [ mkColumn "id" "INTEGER" false None true autoinc false;
    mkColumn "file_path" "TEXT" true None false false false;
    mkColumn "preview_path" "TEXT" true None false false false;
    mkColumn "name" "TEXT" true None false false false;
    mkColumn "upload_date" "TEXT" true None false false false;
    mkColumn "hash" "TEXT" false None false false unique ]
  ++ map tag_column tags.

(** A record as the first phase of an ingest stores it, and as the second
    phase completes it; every tag is 0. *)
Definition record_row (hdri_id : Z) (file_path preview_path name upload_date image_hash : string)
    (tags : list string) : list value :=
  [Int hdri_id; Text file_path; Text preview_path; Text name; Text upload_date;
   Text image_hash]
  ++ map (fun _ => Int 0) tags.

Definition has_hash (image_hash : string) (t : table) : bool :=
  existsb (fun r => value_eqb (cell (columns t) r "hash") (Text image_hash)) (rows t).

Definition hash_count (image_hash : string) (t : table) : nat :=
  length (filter (fun r => value_eqb (cell (columns t) r "hash") (Text image_hash)) (rows t)).

Definition duplicate_warning (file_path : string) : event :=
  WarningBox "Duplicate HDRI"
    ("Image " ++ Str.basename file_path ++ " already exists in the database.").

(** ** Ingestion and deletion: [add_hdri], [delete_hdri]

    What the outside decides is given: the hash [compute_image_hash]
    returns for a path ([None] when it fails), the clock, and which copies
    ([os.makedirs] and [shutil.copy]), previews and removals of paths fail.
    The texts of the errors of the outside stand for whatever the
    operating system reports. *)

Section Ingest.
Variable HDRI_STORAGE_FOLDER : string.
Variable image_hash_of : string -> option string.
Variable isoformat_now : nat -> string.
Variable copy_fails : string -> bool.
Variable preview_fails : string -> bool.
Variable rmtree_fails : string -> bool.

(** [generate_preview]: every exception is caught and printed (the text
    of the exception, which ends the printed line, is left out). *)
Definition generate_preview (input_path output_path : string) (w : world) : world :=
  if preview_fails input_path
  then emit (Printed ("Error generating preview for " ++ input_path)) w
  else emit (Printed ("Preview generated: " ++ output_path)) (with_file output_path w).

(** [SELECT id FROM hdri WHERE hash = ?] *)
Definition find_hash (image_hash : string) : action (list (list value)) :=
  fetch (select ["id"] "hdri" [Equals "hash" (Text image_hash)] None).

(** The [INSERT] with empty paths, committed, and [last_insert_rowid()]. *)
Definition create_record (hdri_name current_date image_hash : string) : action Z :=
  hdri_id <- execute_dml false
               (insert_into "hdri"
                  ["file_path"; "preview_path"; "name"; "upload_date"; "hash"]
                  [Text EmptyString; Text EmptyString; Text hdri_name; Text current_date;
                   Text image_hash]) ;;
  commit false ;;;
  ret hdri_id.

(** The first connection of the loop body: [None] when a record with the
    hash is found, the id of the new record otherwise. *)
Definition first_phase (hdri_name current_date image_hash : string) : action (option Z) :=
  found <- find_hash image_hash ;;
  match found with
  | _ :: _ => ret None
  | [] => hdri_id <- create_record hdri_name current_date image_hash ;; ret (Some hdri_id)
  end.

(** The second connection: the paths of the materialized files. *)
Definition complete_record (hdri_id : Z) (new_file_path preview_path : string) : action unit :=
  execute_dml false
    (no_value (update "hdri"
                 [("file_path", Text new_file_path); ("preview_path", Text preview_path)]
                 [Equals "id" (Int hdri_id)])) ;;;
  commit false.

(** The body of the loop of [add_hdri] for one selected file.  [Some e] is
    an exception that leaves the loop, and [add_hdri] with it. *)
Definition add_one (file_path : string) (w : world) : option exception * world :=
  match image_hash_of file_path with
  | None => (None, emit (Printed ("Skipping " ++ file_path ++ " due to hash error.")) w)
  | Some image_hash =>
      let hdri_name := Str.splitext_root (Str.basename file_path) in
      let current_date := isoformat_now (clock w) in
      match with_connection (first_phase hdri_name current_date image_hash) (db w) with
      | (inl e, d) => (Some (SqlError e), with_db d w)
      | (inr None, d) =>
          (None,
           emit (WarningBox "Duplicate HDRI"
                   ("Image " ++ Str.basename file_path ++ " already exists in the database."))
                (with_db d w))
      | (inr (Some hdri_id), d) =>
          let w := mkWorld d (files w) (shown w) (S (clock w)) in
          let folder_name := Str.format_05d hdri_id ++ "_" ++ hdri_name in
          let hdri_folder := Str.join HDRI_STORAGE_FOLDER folder_name in
          let w := with_file hdri_folder w in
          let new_file_path := Str.join hdri_folder (Str.basename file_path) in
          if copy_fails file_path
          then (Some (OSError ("cannot copy " ++ file_path)), w)
          else
            let w := with_file new_file_path w in
            let preview_path := Str.join hdri_folder "preview.jpg" in
            let w := generate_preview new_file_path preview_path w in
            match with_connection (complete_record hdri_id new_file_path preview_path)
                    (db w) with
            | (inl e, d) => (Some (SqlError e), with_db d w)
            | (inr _, d) => (None, with_db d w)
            end
      end
  end.

(** [add_hdri] for the files picked in the dialog, in order. *)
Fixpoint add_hdri (file_paths : list string) (w : world) : option exception * world :=
  match file_paths with
  | [] => (None, w)
  | file_path :: rest =>
      match add_one file_path w with
      | (Some e, w') => (Some e, w')
      | (None, w') => add_hdri rest w'
      end
  end.

(** A path below a folder, and a path that is the folder or below it. *)
Definition below (folder p : string) : bool := Str.startswith (folder ++ "/") p.

Definition within (folder p : string) : bool := String.eqb p folder || below folder p.

(** [shutil.rmtree(folder)] when every removal succeeds: the folder and
    everything below it are gone. *)
Definition rmtree (folder : string) (paths : list string) : list string :=
  filter (fun p => negb (within folder p)) paths.

(** [shutil.rmtree(folder)] when removals can fail: [fails p] says that
    the entry [p] cannot be removed.  The entries below the folder are
    removed one after the other, then the folder itself; the first
    removal that fails raises, and what was removed before it stays
    removed.  The entries are taken in the order of the list, which is
    how a folder that holds files only is walked: the folders the catalog
    makes hold the copy and the preview.  The result says whether the
    call raised, and which paths are left. *)
Fixpoint remove_entries (fails : string -> bool) (folder : string) (paths : list string)
    : bool * list string :=
  match paths with
  | [] => (false, [])
  | p :: rest =>
      if below folder p
      then if fails p then (true, p :: rest) else remove_entries fails folder rest
      else let (raised, left) := remove_entries fails folder rest in (raised, p :: left)
  end.

Definition rmtree_raising (fails : string -> bool) (folder : string) (paths : list string)
    : bool * list string :=
  let (raised, left) := remove_entries fails folder paths in
  if raised then (true, left)
  else if fails folder then (true, left)
  else (false, filter (fun p => negb (String.eqb p folder)) left).

(** [delete_hdri], given the answer to the confirmation box.  The text
    of the error of a removal that fails stands for what the operating
    system reports. *)
Definition delete_hdri (reply_yes : bool) (hdri_id : Z) (hdri_path : string) (w : world)
    : world :=
  if negb reply_yes then w
  else
    let folder_to_delete := Str.dirname hdri_path in
    let present := existsb (String.eqb folder_to_delete) (files w) in
    let (raised, left) :=
      if present then rmtree_raising rmtree_fails folder_to_delete (files w)
      else (false, files w) in
    if raised
    then emit (WarningBox "Error" ("Error deleting HDRI: cannot remove " ++ folder_to_delete))
              (mkWorld (db w) left (shown w) (clock w))
    else
      let w := mkWorld (db w) left (shown w) (clock w) in
      match with_connection
              (execute_dml false (no_value (delete "hdri" [Equals "id" (Int hdri_id)])) ;;;
               commit false)
              (db w) with
      | (inl e, d) =>
          emit (WarningBox "Error" ("Error deleting HDRI: " ++ message e)) (with_db d w)
      | (inr _, d) => with_db d w
      end.

End Ingest.

End Loader.

(* ================================================================== *)
(** * Reading a hash string back                                       *)
(* ================================================================== *)

Module HexRead.

(** The value of a hexadecimal digit and of a digit string, most
    significant digit first.  The program only writes hash strings and
    compares them; these two functions read one back, to say what the
    string holds. *)
Definition digit_value (c : ascii) : N :=
  let n := N_of_ascii c in
  if (n <? 58)%N then (n - 48)%N else (n - 87)%N.

Definition number (digits : list ascii) : N :=
  fold_left (fun acc c => (16 * acc + digit_value c)%N) digits 0%N.

Definition is_hex_digit (c : ascii) : bool :=
  let n := N_of_ascii c in
  ((48 <=? n) && (n <=? 57))%N || ((97 <=? n) && (n <=? 102))%N.

End HexRead.

(* ================================================================== *)
(** * [QWrapLayout]                                                    *)
(* ================================================================== *)

Module Layout.

(** [QRect], with Qt's [right()], which is [x + width - 1]. *)
Record QRect := mkRect {
  rect_x : Z;
  rect_y : Z;
  rect_width : Z;
  rect_height : Z
}.

Definition right (r : QRect) : Z := rect_x r + rect_width r - 1.

Section WrapLayout.
Variable Item : Type.
(** [item.sizeHint()] as width and height, and [self.spacing()]. *)
Variable sizeHint : Item -> Z * Z.
Variable spacing : Z.

Definition addItem (item : Item) (itemList : list Item) : list Item := itemList ++ [item].

Definition count (itemList : list Item) : Z := Z.of_nat (length itemList).

Definition itemAt (index : Z) (itemList : list Item) : option Item :=
  if (0 <=? index)%Z && (index <? count itemList)%Z
  then nth_error itemList (Z.to_nat index)
  else None.

(** [takeAt]: [self.itemList.pop(index)] inside the bounds. *)
Definition takeAt (index : Z) (itemList : list Item) : option Item * list Item :=
  if (0 <=? index)%Z && (index <? count itemList)%Z
  then (nth_error itemList (Z.to_nat index),
        firstn (Z.to_nat index) itemList ++ skipn (S (Z.to_nat index)) itemList)
  else (None, itemList).

(** The loop of [load_hdri_images] over the wrap layout,
    [for i in reversed(range(self.wrap_layout.count())): self.wrap_layout.takeAt(i).widget()]:
    the items taken, in the order of the loop, and the list that stays.
    [None] is the [AttributeError] of calling [widget()] on [None]. *)
Fixpoint take_each (indices : list nat) (itemList taken : list Item)
    : option (list Item * list Item) :=
  match indices with
  | [] => Some (taken, itemList)
  | i :: rest =>
      match takeAt (Z.of_nat i) itemList with
      | (Some item, remaining) => take_each rest remaining (taken ++ [item])
      | (None, _) => None
      end
  end.

Definition clear (itemList : list Item) : option (list Item * list Item) :=
  take_each (rev (seq 0 (length itemList))) itemList [].

(** The loop of [doLayout] from the state [(x, y, line_height)]: the value
    returned and the geometries set, in the order of the items. *)
Fixpoint place (rect : QRect) (testOnly : bool) (items : list Item) (x y line_height : Z)
    : Z * list QRect :=
  match items with
  | [] => ((y + line_height - rect_y rect)%Z, [])
  | item :: rest =>
      let space_x := spacing in
      let space_y := spacing in
      let next_x := (x + fst (sizeHint item) + space_x)%Z in
      let wraps := ((next_x - space_x >? right rect) && (line_height >? 0))%Z in
      let x := if wraps then rect_x rect else x in
      let y := if wraps then (y + line_height + space_y)%Z else y in
      let next_x := if wraps then (x + fst (sizeHint item) + space_x)%Z else next_x in
      let line_height := if wraps then 0%Z else line_height in
      let set := if testOnly then []
                 else [mkRect x y (fst (sizeHint item)) (snd (sizeHint item))] in
      let (height, more) :=
        place rect testOnly rest next_x y (Z.max line_height (snd (sizeHint item))) in
      (height, set ++ more)
  end.

Definition doLayout (rect : QRect) (testOnly : bool) (itemList : list Item) : Z * list QRect :=
  place rect testOnly itemList (rect_x rect) (rect_y rect) 0.

Definition heightForWidth (width : Z) (itemList : list Item) : Z :=
  fst (doLayout (mkRect 0 0 width 0) true itemList).

End WrapLayout.

End Layout.

(* ================================================================== *)
(** * The tag dialog's reads and writes, and the filter boxes          *)
(* ================================================================== *)

Module Dialog.
Import Sqlite Sqlite3 Loader.
Local Open Scope string_scope.

Inductive raised :=
| Sql (e : sql_error)
| TypeError (msg : string).

(** Python's [bool(value)] of a cell. *)
Definition truthy (v : value) : bool :=
  match v with
  | Null => false
  | Int z => negb (Z.eqb z 0)
  | Text s => negb (String.eqb s EmptyString)
  end.

(** [cursor.fetchone()[0]] after [SELECT {col} FROM hdri WHERE id = ?]. *)
Definition fetch_cell (hdri_id : Z) (col : string) (d : database) : raised + value :=
  match select [col] "hdri" [Equals "id" (Int hdri_id)] None d with
  | inl e => inl (Sql e)
  | inr [] => inl (TypeError "'NoneType' object is not subscriptable")
  | inr (row :: _) => inr (nth 0 row Null)
  end.

(** [HDRIInfoDialog.load_tags]: the tag columns with the state of their
    check boxes, in the order of the columns. *)
Fixpoint read_boxes (hdri_id : Z) (tag_cols : list string) (d : database)
    : raised + list (string * bool) :=
  match tag_cols with
  | [] => inr []
  | col :: rest =>
      match fetch_cell hdri_id col d with
      | inl e => inl e
      | inr v =>
          match read_boxes hdri_id rest d with
          | inl e => inl e
          | inr boxes => inr ((col, truthy v) :: boxes)
          end
      end
  end.

Definition load_tags (hdri_id : Z) (d : database) : raised + list (string * bool) :=
  read_boxes hdri_id (get_tag_columns d) d.

(** [HDRIInfoDialog.add_new_tag] for the dialog of record [hdri_id], with
    [text] in the entry field.  [Some e] is an exception that leaves the
    method.  After its writes the method builds the check boxes of the
    dialog again ([self.load_tags()]), which reads the record of the
    dialog, and then the filter boxes of the browser, which reads the
    columns only. *)
Definition add_new_tag (hdri_id : Z) (text : string) (w : world) : option raised * world :=
  let new_tag := Str.strip text in
  if String.eqb new_tag EmptyString then (None, w)
  else
    let col_name := safe_tag_column new_tag in
    match (execute_ddl false (add_column "hdri" (tag_column col_name)) ;;; commit false)
            (connect (db w)) with
    | (inl e, c) =>
        (None, emit (Printed ("Error adding tag: " ++ message e)) (with_db (committed c) w))
    | (inr _, c) =>
        match (execute_dml false
                 (no_value (update "hdri" [(col_name, Int 1)] [Equals "id" (Int hdri_id)])) ;;;
               commit false) c with
        | (inl e, c') => (Some (Sql e), with_db (committed c') w)
        | (inr _, c') =>
            let w' := with_db (committed c') w in
            match load_tags hdri_id (db w') with
            | inl e => (Some e, w')
            | inr _ => (None, w')
            end
        end
    end.

(** The loop of [accept] over the check boxes. *)
Fixpoint write_boxes (hdri_id : Z) (tag_checkboxes : list (string * bool)) : action unit :=
  match tag_checkboxes with
  | [] => ret tt
  | (col, is_checked) :: rest =>
      let val := if is_checked then 1%Z else 0%Z in
      execute_dml false
        (no_value (update "hdri" [(col, Int val)] [Equals "id" (Int hdri_id)])) ;;;
      write_boxes hdri_id rest
  end.

(** [HDRIInfoDialog.accept]: the name and every check box are written on
    one connection and committed together. *)
Definition accept (hdri_id : Z) (name_edit : string) (tag_checkboxes : list (string * bool))
    (w : world) : option exception * world :=
  let new_name := Str.strip name_edit in
  match with_connection
          (execute_dml false
             (no_value (update "hdri" [("name", Text new_name)] [Equals "id" (Int hdri_id)])) ;;;
           write_boxes hdri_id tag_checkboxes ;;;
           commit false)
          (db w) with
  | (inl e, d) => (Some (SqlError e), with_db d w)
  | (inr _, d) => (None, with_db d w)
  end.

(** [populate_filter_checkboxes]: one unchecked box per tag column. *)
Definition populate_filter_checkboxes (d : database) : list (string * bool) :=
  map (fun col => (col, false)) (get_tag_columns d).

(** [col[4:]], the text beside a box. *)
Definition display_name (col : string) : string :=
  Str.of_chars (skipn 4 (Str.chars col)).

(** A row after the writes of [accept], one [UPDATE] after the other. *)
Definition edited (cols : list column) (sets : list (string * value)) (row : list value)
    : list value :=
  fold_left (fun r s => set_cells cols [s] r) sets row.

Definition box_value (box : string * bool) : string * value :=
  (fst box, Int (if snd box then 1 else 0)).

End Dialog.

(* ================================================================== *)
(** * The state of the catalog between operations                      *)
(* ================================================================== *)

Module Catalog.
Import Sqlite Loader.
Local Open Scope string_scope.

(** The database as the program makes and keeps it: the one table
    [hdri], whose columns are those of [initialize_database], with or
    without the two clauses a rebuild leaves out, followed by tag columns,
    and whose rows are as [catalog_table] says. *)
Definition well_formed (d : database) : Prop :=
  exists autoinc unique tags stored,
    tables d = [("hdri", mkTable (catalog_columns autoinc unique tags) stored)]
    /\ forallb (Str.startswith "tag_") tags = true
    /\ catalog_table (mkTable (catalog_columns autoinc unique tags) stored) = true.

(** A row fit for a column list: a cell per column, an integer in the
    first, and nothing missing where [NOT NULL] is declared. *)
Definition row_fits (cols : list column) (r : list value) : Prop :=
  length r = length cols
  /\ (exists z, nth 0 r Null = Int z)
  /\ violates_notnull cols r = false.

(** The names of the columns [initialize_database] declares. *)
Definition fixed_names : list string :=
  ["id"; "file_path"; "preview_path"; "name"; "upload_date"; "hash"].

(** The rows on record, and what they have in one column. *)
Definition records (d : database) : list (list value) :=
  match lookup "hdri" (tables d) with
  | Some t => rows t
  | None => []
  end.

Definition field (col : string) (d : database) : list value :=
  match lookup "hdri" (tables d) with
  | Some t => map (fun r => cell (columns t) r col) (rows t)
  | None => []
  end.

(** The record with the id [hdri_id], if there is one. *)
Definition record_of (hdri_id : Z) (d : database) : option (list value) :=
  match lookup "hdri" (tables d) with
  | Some t =>
      find (fun r => value_eqb (cell (columns t) r "id") (Int hdri_id)) (rows t)
  | None => None
  end.

End Catalog.

(* ================================================================== *)
(** * Paths under the storage folder                                   *)
(* ================================================================== *)

Module Paths.

(** A path that is not empty and does not end with the separator. *)
Definition ends_in_name (s : string) : Prop :=
  exists init c, Str.chars s = (init ++ [c])%list /\ Ascii.eqb c "/"%char = false.

End Paths.

(* ================================================================== *)
(** * Sample catalogs                                                  *)
(* ================================================================== *)

Module Sample.
Import Sqlite Sqlite3 Loader.
Local Open Scope string_scope.

(** The schema after [initialize_database] and one added tag, and two
    records. *)
Definition desert : list value :=
  [Int 1; Text "/store/00001_desert_noon/desert_noon.hdr";
   Text "/store/00001_desert_noon/preview.jpg"; Text "desert_noon";
   Text "2024-05-01T10:00:00"; Text "c3c1e0f0783c1e0f"; Int 1].

Definition forest : list value :=
  [Int 2; Text "/store/00002_forest_dusk/forest_dusk.exr";
   Text "/store/00002_forest_dusk/preview.jpg"; Text "forest_dusk";
   Text "2024-05-02T18:30:00"; Text "a5a5f00f3cc3965a"; Int 0].

Definition two_records_table : table :=
  mkTable (hdri_columns ++ [tag_column "tag_outdoor"]) [desert; forest].

Definition two_records : database :=
  mkDatabase [("hdri", two_records_table)] [("hdri", 2%Z)].

(** The same catalog with the two hashes exchanged. *)
Definition two_records_swapped : database :=
  mkDatabase
    [("hdri",
      mkTable (hdri_columns ++ [tag_column "tag_outdoor"])
        [[Int 1; Text "/store/00001_desert_noon/desert_noon.hdr";
          Text "/store/00001_desert_noon/preview.jpg"; Text "desert_noon";
          Text "2024-05-01T10:00:00"; Text "a5a5f00f3cc3965a"; Int 1];
         [Int 2; Text "/store/00002_forest_dusk/forest_dusk.exr";
          Text "/store/00002_forest_dusk/preview.jpg"; Text "forest_dusk";
          Text "2024-05-02T18:30:00"; Text "c3c1e0f0783c1e0f"; Int 0]])]
    [("hdri", 2%Z)].

(** What the outside answers in the samples: the hash of two files, one
    of them the hash of [desert]; a clock; copies that fail for paths
    under [/broken]. *)
Definition sample_hash (file_path : string) : option string :=
  if String.eqb file_path "/in/sunset.hdr" then Some "c3c1e0f0783c1e0f"
  else if String.eqb file_path "/in/meadow.hdr" then Some "0f0f33cc55aa9966"
  else if String.eqb file_path "/broken/meadow.hdr" then Some "0f0f33cc55aa9966"
  else None.

Definition sample_clock (n : nat) : string := "2024-06-01T12:00:00".

Definition sample_copy_fails (file_path : string) : bool :=
  Str.startswith "/broken" file_path.

Definition never (file_path : string) : bool := false.

Definition sample_add_one : string -> world -> option exception * world :=
  add_one "/store" sample_hash sample_clock sample_copy_fails never.

Definition started : world := mkWorld two_records [] [] 0.

Definition started_swapped : world := mkWorld two_records_swapped [] [] 0.

(** A tag name with a tab inside. *)
Definition tabbed_name : string := String "a" (String (ascii_of_nat 9) (String "b" EmptyString)).

End Sample.

(* ================================================================== *)
(** * Properties of the hash                                           *)
(* ================================================================== *)

Unset Implicit Arguments.

Section ListFacts.
Variables A B : Type.

Lemma nth_map_seq (f : nat -> A) (d : A) (n a j : nat) :
  j < n -> nth j (map f (seq a n)) d = f (a + j).
Proof.
  revert a j. induction n as [|n IH]; intros a j Hj; [lia|].
  destruct j as [|j]; simpl.
  - f_equal. lia.
  - rewrite IH by lia. f_equal. lia.
Qed.

Lemma firstn_as_map_seq (d : A) (l : list A) (n : nat) :
  n <= length l -> firstn n l = map (fun j => nth j l d) (seq 0 n).
Proof.
  revert n. induction l as [|x l IH]; intros n Hn; simpl in Hn.
  - assert (n = 0) by lia. subst. reflexivity.
  - destruct n as [|n]; [reflexivity|].
    simpl. f_equal. rewrite <- seq_shift, map_map. apply IH. lia.
Qed.

Lemma flat_map_singletons (f : A -> list B) (g : A -> B) (l : list A) :
  (forall x, In x l -> f x = [g x]) -> flat_map f l = map g l.
Proof.
  induction l as [|x l IH]; intros Hf; simpl; [reflexivity|].
  rewrite Hf by (left; reflexivity). simpl. f_equal.
  apply IH. intros y Hy. apply Hf. right. exact Hy.
Qed.

Lemma length_concat_uniform (n : nat) (l : list (list A)) :
  Forall (fun row => length row = n) l -> length (concat l) = length l * n.
Proof.
  induction 1 as [|row l Hrow _ IH]; simpl; [reflexivity|].
  rewrite length_app, IH, Hrow. reflexivity.
Qed.

Lemma fold_left_pointwise (f g : A -> B -> A) (l : list B) (a : A) :
  (forall s x, f s x = g s x) -> fold_left f l a = fold_left g l a.
Proof.
  intros Hfg. revert a. induction l as [|x l IH]; intros a; simpl; [reflexivity|].
  rewrite Hfg. apply IH.
Qed.

End ListFacts.

(** ** The Hamming distance *)

Lemma square_size (n : nat) (h : PHash.ImageHash) :
  PHash.square n (PHash.hash h) -> PHash.size h = n * n.
Proof.
  intros [Hlen Hrows]. unfold PHash.size, PHash.flatten.
  rewrite (length_concat_uniform _ n _ Hrows), Hlen. reflexivity.
Qed.

(** C7: for two fingerprints whose dimensions differ, [__sub__] raises
    [TypeError] and returns no distance.  A fingerprint is a square array,
    [hash_size] by [hash_size], as [phash] makes it: two of different
    sides have different numbers of bits, which is what [__sub__] tests
    (the third part).  The distance is defined exactly when the numbers
    of bits are the same, and then it is the number of positions where
    the flattened arrays differ (the first two parts). *)
Theorem sub_defined_by_bit_count (a b : PHash.ImageHash) :
  (PHash.size a <> PHash.size b ->
   PHash.sub a (Some b) = inl (PHash.TypeError "ImageHashes must be of the same size."))
  /\ (PHash.size a = PHash.size b ->
      PHash.sub a (Some b)
      = inr (PHash.count_differing (PHash.flatten (PHash.hash a))
                                   (PHash.flatten (PHash.hash b))))
  /\ (forall n m, PHash.square n (PHash.hash a) -> PHash.square m (PHash.hash b) -> n <> m ->
      PHash.sub a (Some b) = inl (PHash.TypeError "ImageHashes must be of the same size.")).
Proof.
  assert (Hne : PHash.size a <> PHash.size b ->
                PHash.sub a (Some b)
                = inl (PHash.TypeError "ImageHashes must be of the same size.")).
  { intros Hsz. unfold PHash.sub.
    destruct (Nat.eqb_spec (PHash.size a) (PHash.size b)); [contradiction|reflexivity]. }
  split; [exact Hne|]. split.
  - intros Hsz. unfold PHash.sub. rewrite Hsz, Nat.eqb_refl. reflexivity.
  - intros n m Ha Hb Hnm. apply Hne.
    rewrite (square_size n a Ha), (square_size m b Hb). nia.
Qed.

Lemma sub_defined_by_bit_count_witness :
  PHash.sub (PHash.mkImageHash [[true]])
            (Some (PHash.mkImageHash [[true; false]; [false; false]]))
  = inl (PHash.TypeError "ImageHashes must be of the same size.").
Proof.
  apply (proj1 (sub_defined_by_bit_count
                  (PHash.mkImageHash [[true]])
                  (PHash.mkImageHash [[true; false]; [false; false]]))).
  vm_compute. discriminate.
Defined.

(** ** The thresholding step *)

Section ThresholdFacts.
Variable T : Type.
Variable gt : T -> T -> bool.
Variable mean : list T -> T.
Variable d : T.

(** The block [dct[:n, :n]] read cell by cell. *)
Lemma low_block_cells (n : nat) (dct : list (list T)) :
  PHash.covers n dct ->
  PHash.low_block n dct
  = map (fun i => map (fun j => PHash.coeff d dct i j) (seq 0 n)) (seq 0 n).
Proof.
  intros [Hrows Hcols]. unfold PHash.low_block, PHash.coeff.
  rewrite (firstn_as_map_seq _ [] dct n Hrows), map_map.
  apply map_ext_in. intros i Hi. apply in_seq in Hi.
  apply firstn_as_map_seq.
  rewrite Forall_forall in Hcols. apply Hcols. apply nth_In. lia.
Qed.

(** Dropping the first entry of the flattened block leaves the
    coefficients other than (0,0), in row-major order. *)
Lemma flat_block_without_dc (n : nat) (dct : list (list T)) :
  1 <= n -> PHash.covers n dct ->
  skipn 1 (PHash.flatten (PHash.low_block n dct)) = PHash.non_dc_coeffs d n dct.
Proof.
  intros Hn Hc. rewrite (low_block_cells n dct Hc).
  unfold PHash.flatten, PHash.non_dc_coeffs.
  destruct n as [|k]; [lia|].
  change (seq 0 (S k)) with (0 :: seq 1 k).
  cbn [map concat flat_map Nat.eqb andb app skipn].
  f_equal.
  - symmetry. apply flat_map_singletons.
    intros j Hj. apply in_seq in Hj.
    destruct j as [|j]; [lia|reflexivity].
  - rewrite flat_map_concat_map. f_equal. apply map_ext_in.
    intros i Hi. apply in_seq in Hi.
    destruct i as [|i]; [lia|].
    symmetry. cbn [Nat.eqb andb app].
    f_equal; try (apply flat_map_singletons; intros; reflexivity).
Qed.

(** The bits [threshold] sets, for a block that is all there. *)
Lemma threshold_bits (n : nat) (dct : list (list T)) :
  1 <= n -> PHash.covers n dct ->
  exists h,
    PHash.threshold gt mean n dct = inr h
    /\ PHash.square n (PHash.hash h)
    /\ forall i j, i < n -> j < n ->
         PHash.bit h i j
         = if (i =? 0) && (j =? 0) then false
           else gt (PHash.coeff d dct i j) (mean (PHash.non_dc_coeffs d n dct)).
Proof.
  intros Hn Hc. unfold PHash.threshold.
  rewrite (flat_block_without_dc n dct Hn Hc).
  rewrite (low_block_cells n dct Hc).
  set (avg := mean (PHash.non_dc_coeffs d n dct)).
  destruct n as [|k]; [lia|].
  change (seq 0 (S k)) with (0 :: seq 1 k).
  cbn [map PHash.set_dc_zero].
  eexists. split; [reflexivity|]. split.
  - split; cbn [PHash.hash length].
    + rewrite !length_map, length_seq. reflexivity.
    + constructor.
      * cbn [length]. rewrite !length_map, length_seq. reflexivity.
      * rewrite Forall_forall. intros row Hrow.
        rewrite map_map in Hrow. apply in_map_iff in Hrow.
        destruct Hrow as [i [<- _]].
        rewrite !length_map. cbn [length]. rewrite !length_map, length_seq. reflexivity.
  - intros i j Hi Hj. unfold PHash.bit. cbn [PHash.hash].
    destruct i as [|i].
    + cbn [nth Nat.eqb andb].
      destruct j as [|j]; [reflexivity|].
      cbn [nth Nat.eqb]. rewrite map_map.
      rewrite (nth_map_seq _ _ false k 1 j) by lia. reflexivity.
    + cbn [nth Nat.eqb andb]. rewrite map_map.
      rewrite (nth_map_seq _ _ [] k 1 i) by lia.
      destruct j as [|j]; [reflexivity|].
      cbn [map nth]. rewrite map_map.
      rewrite (nth_map_seq _ _ false k 1 j) by lia. reflexivity.
Qed.

(** The hash [threshold] returns, flattened: the bit 0 of the DC term,
    then the comparison of each other coefficient with the mean. *)
Lemma threshold_flat (n : nat) (dct : list (list T)) :
  1 <= n -> PHash.covers n dct ->
  exists h,
    PHash.threshold gt mean n dct = inr h
    /\ PHash.flatten (PHash.hash h)
       = false :: map (fun x => gt x (mean (PHash.non_dc_coeffs d n dct)))
                      (PHash.non_dc_coeffs d n dct).
Proof.
  intros Hn Hc. unfold PHash.threshold.
  rewrite <- (flat_block_without_dc n dct Hn Hc).
  set (avg := mean (skipn 1 (PHash.flatten (PHash.low_block n dct)))).
  assert (Hfirst : exists x row rows, PHash.low_block n dct = (x :: row) :: rows).
  { rewrite (low_block_cells n dct Hc). destruct n as [|k]; [lia|].
    change (seq 0 (S k)) with (0 :: seq 1 k). cbn [map]. eauto. }
  destruct Hfirst as [x [row [rows Hlow]]]. rewrite Hlow.
  cbn [map PHash.set_dc_zero]. eexists. split; [reflexivity|].
  unfold PHash.flatten. cbn [PHash.hash concat app skipn].
  rewrite map_app, concat_map. reflexivity.
Qed.

End ThresholdFacts.

Example threshold_on_integers :
  PHash.threshold Z.gtb PHash.Zmean 2 [[100; 5; 1]; [3; 9; 1]; [1; 1; 1]]%Z
  = inr (PHash.mkImageHash [[false; false]; [false; true]]).
Proof. reflexivity. Qed.

Example hex_of_nine_bits :
  PHash.binary_array_to_hex [[false; true; true; true]; [true; false; true; false; true]]
  = inr "0f5"%string.
Proof. reflexivity. Qed.

(** ** The transform *)

Section TransformFacts.
Context {F : Type} `{PHash.Float F}.

Lemma dct_2d_rows (pixels : list (list F)) :
  length (PHash.dct_2d pixels) = length pixels.
Proof.
  unfold PHash.dct_2d. rewrite length_map, length_seq. reflexivity.
Qed.

Lemma dct_2d_columns (pixels : list (list F)) :
  Forall (fun row => length row = length (hd [] pixels)) (PHash.dct_2d pixels).
Proof.
  unfold PHash.dct_2d. rewrite Forall_forall. intros row Hrow.
  apply in_map_iff in Hrow. destruct Hrow as [i [<- _]].
  rewrite length_map, length_seq. reflexivity.
Qed.

Lemma dct_2d_covers (n img_size : nat) (pixels : list (list F)) :
  1 <= n <= img_size -> PHash.square img_size pixels ->
  PHash.covers n (PHash.dct_2d pixels).
Proof.
  intros Hn [Hlen Hrows]. split.
  - rewrite dct_2d_rows. lia.
  - eapply Forall_impl; [|apply dct_2d_columns].
    intros row ->. destruct pixels as [|r rest]; [simpl in Hlen; lia|].
    simpl. inversion Hrows; subst. lia.
Qed.

(** C2: for a pixel grid of [img_size] rows and columns and a hash size
    between 1 and [img_size], [phash] returns a [hash_size] by [hash_size]
    hash whose bit at (i,j) is 1 exactly when the DCT coefficient at (i,j)
    is above the mean of the coefficients of the top-left block other than
    (0,0), and whose bit at (0,0) is 0 whatever its coefficient is. *)
Theorem phash_bits (pixels : list (list F)) (img_size hash_size : nat) :
  1 <= hash_size <= img_size ->
  PHash.square img_size pixels ->
  exists h,
    PHash.phash pixels hash_size = inr h
    /\ PHash.square hash_size (PHash.hash h)
    /\ forall i j, i < hash_size -> j < hash_size ->
         PHash.bit h i j
         = if (i =? 0) && (j =? 0) then false
           else PHash.gt
                  (PHash.coeff (PHash.of_int 0) (PHash.dct_2d pixels) i j)
                  (PHash.mean
                     (PHash.non_dc_coeffs (PHash.of_int 0) hash_size (PHash.dct_2d pixels))).
Proof.
  intros Hn Hsq. unfold PHash.phash.
  apply threshold_bits; [lia|].
  exact (dct_2d_covers hash_size img_size pixels Hn Hsq).
Qed.

End TransformFacts.

Lemma phash_bits_witness :
  exists h,
    PHash.phash [[1; 2]; [3; 4]]%R 2 = inr h
    /\ PHash.square 2 (PHash.hash h)
    /\ forall i j, i < 2 -> j < 2 ->
         PHash.bit h i j
         = if (i =? 0) && (j =? 0) then false
           else PHash.gt
                  (PHash.coeff (PHash.of_int 0) (PHash.dct_2d [[1; 2]; [3; 4]]%R) i j)
                  (PHash.mean
                     (PHash.non_dc_coeffs (PHash.of_int 0) 2
                        (PHash.dct_2d [[1; 2]; [3; 4]]%R))).
Proof.
  apply (phash_bits [[1; 2]; [3; 4]]%R 2 2).
  - lia.
  - split; [reflexivity | repeat constructor].
Defined.

(** ** Brightness scaling, over the reals *)

Section ScalingFacts.
Local Open Scope R_scope.

Lemma fold_sum_scale (c : R) (g : nat -> R) (l : list nat) (a : R) :
  fold_left (fun s n => s + c * g n) l (c * a)
  = c * fold_left (fun s n => s + g n) l a.
Proof.
  revert a. induction l as [|n l IH]; intros a; simpl; [reflexivity|].
  rewrite <- IH. f_equal. ring.
Qed.

Lemma nth_scale (c : R) (v : list R) (n : nat) :
  nth n (map (Rmult c) v) 0 = c * nth n v 0.
Proof.
  replace 0 with (c * 0) at 1 by ring. apply map_nth.
Qed.

Lemma dct_sum_scale (c : R) (v : list R) (k : nat) :
  PHash.dct_sum (map (Rmult c) v) k = c * PHash.dct_sum v k.
Proof.
  unfold PHash.dct_sum. rewrite length_map.
  cbn [PHash.add PHash.mul PHash.div PHash.cos PHash.pi PHash.of_int PHash.half
       PHash.Float_R].
  set (N := length v).
  set (g := fun n : nat => nth n v (INR 0) * Rtrigo_def.cos (PI * (INR n + 1 / 2) * INR k / INR N)).
  transitivity (fold_left (fun s n => s + c * g n) (seq 0 N) (c * INR 0)).
  - replace (c * INR 0) with (INR 0) by (simpl; ring).
    apply fold_left_pointwise. intros s n. unfold g. simpl INR.
    rewrite nth_scale. ring.
  - apply fold_sum_scale.
Qed.

Lemma dct_1d_scale (c : R) (v : list R) :
  PHash.dct_1d (map (Rmult c) v) = map (Rmult c) (PHash.dct_1d v).
Proof.
  unfold PHash.dct_1d. rewrite length_map, map_map.
  apply map_ext. intros k. rewrite dct_sum_scale.
  cbn [PHash.mul PHash.Float_R].
  destruct (k =? 0)%nat; ring.
Qed.

Lemma column_scale (c : R) (j : nat) (m : list (list R)) :
  PHash.column j (map (map (Rmult c)) m) = map (Rmult c) (PHash.column j m).
Proof.
  unfold PHash.column. rewrite !map_map. apply map_ext. intros row.
  cbn [PHash.of_int PHash.Float_R]. simpl INR. apply nth_scale.
Qed.

Lemma dct_2d_scale (c : R) (pixels : list (list R)) :
  PHash.dct_2d (PHash.scale c pixels) = PHash.scale c (PHash.dct_2d pixels).
Proof.
  unfold PHash.dct_2d, PHash.scale. cbn [PHash.mul PHash.Float_R].
  assert (Hrows : map (@PHash.dct_1d R PHash.Float_R) (map (map (Rmult c)) pixels)
                  = map (map (Rmult c)) (map (@PHash.dct_1d R PHash.Float_R) pixels)).
  { rewrite !map_map. apply map_ext. intros row. apply dct_1d_scale. }
  rewrite Hrows, length_map.
  replace (length (hd [] (map (map (Rmult c)) pixels))) with (length (hd [] pixels))
    by (destruct pixels; simpl; [|rewrite length_map]; reflexivity).
  etransitivity; [|symmetry; apply map_map].
  apply map_ext. intros i.
  etransitivity; [|symmetry; apply map_map].
  apply map_ext. intros j.
  rewrite column_scale, dct_1d_scale.
  cbn [PHash.of_int PHash.Float_R]. simpl INR. apply nth_scale.
Qed.

Lemma Rsum_scale (c : R) (l : list R) :
  PHash.Rsum (map (Rmult c) l) = c * PHash.Rsum l.
Proof.
  unfold PHash.Rsum. induction l as [|x l IH]; simpl; [ring|].
  rewrite IH. ring.
Qed.

Lemma Rmean_scale (c : R) (l : list R) :
  PHash.Rmean (map (Rmult c) l) = c * PHash.Rmean l.
Proof.
  unfold PHash.Rmean. rewrite Rsum_scale, length_map.
  unfold Rdiv. ring.
Qed.

Lemma Rgt_bool_scale (c x y : R) :
  0 < c -> PHash.Rgt_bool (c * x) (c * y) = PHash.Rgt_bool x y.
Proof.
  intros Hc. unfold PHash.Rgt_bool.
  destruct (Rlt_dec (c * y) (c * x)) as [H1|H1], (Rlt_dec y x) as [H2|H2];
    try reflexivity; exfalso.
  - apply H2. apply (Rmult_lt_reg_l c); assumption.
  - apply H1. apply Rmult_lt_compat_l; assumption.
Qed.

(** Over the reals [>] is the strict order. *)
Lemma Rgt_bool_spec (x y : R) : PHash.Rgt_bool x y = true <-> y < x.
Proof.
  unfold PHash.Rgt_bool. destruct (Rlt_dec y x); split; intros; try assumption;
    try reflexivity; try discriminate; contradiction.
Qed.

Lemma threshold_scale (c : R) (n : nat) (dct : list (list R)) :
  0 < c ->
  PHash.threshold PHash.Rgt_bool PHash.Rmean n (PHash.scale c dct)
  = PHash.threshold PHash.Rgt_bool PHash.Rmean n dct.
Proof.
  intros Hc. unfold PHash.threshold, PHash.scale. cbn [PHash.mul PHash.Float_R].
  assert (Hlow : PHash.low_block n (map (map (Rmult c)) dct)
                 = map (map (Rmult c)) (PHash.low_block n dct)).
  { unfold PHash.low_block. rewrite firstn_map, !map_map.
    apply map_ext. intros row. apply firstn_map. }
  rewrite Hlow.
  assert (Havg : PHash.Rmean
                   (skipn 1 (PHash.flatten (map (map (Rmult c)) (PHash.low_block n dct))))
                 = c * PHash.Rmean (skipn 1 (PHash.flatten (PHash.low_block n dct)))).
  { unfold PHash.flatten. rewrite <- concat_map, skipn_map. apply Rmean_scale. }
  rewrite Havg.
  replace (map (map (fun x => PHash.Rgt_bool x
                      (c * PHash.Rmean (skipn 1 (PHash.flatten (PHash.low_block n dct))))))
               (map (map (Rmult c)) (PHash.low_block n dct)))
    with (map (map (fun x => PHash.Rgt_bool x
                      (PHash.Rmean (skipn 1 (PHash.flatten (PHash.low_block n dct))))))
              (PHash.low_block n dct)); [reflexivity|].
  rewrite map_map. apply map_ext. intros row.
  rewrite map_map. apply map_ext. intros x.
  symmetry. apply Rgt_bool_scale. exact Hc.
Qed.

Lemma comparisons_scale (c : R) (n : nat) (dct : list (list R)) :
  0 < c ->
  map (fun x => PHash.Rgt_bool x
                  (PHash.Rmean (PHash.non_dc_coeffs (INR 0) n (PHash.scale c dct))))
      (PHash.non_dc_coeffs (INR 0) n (PHash.scale c dct))
  = map (fun x => PHash.Rgt_bool x (PHash.Rmean (PHash.non_dc_coeffs (INR 0) n dct)))
        (PHash.non_dc_coeffs (INR 0) n dct).
Proof.
  intros Hc.
  assert (Hnd : PHash.non_dc_coeffs (INR 0) n (PHash.scale c dct)
                = map (Rmult c) (PHash.non_dc_coeffs (INR 0) n dct)).
  { unfold PHash.non_dc_coeffs. rewrite !flat_map_concat_map, concat_map, map_map.
    f_equal. apply map_ext. intros i.
    rewrite !flat_map_concat_map, concat_map, map_map.
    f_equal. apply map_ext. intros j.
    destruct ((i =? 0)%nat && (j =? 0)%nat); [reflexivity|].
    cbn [map]. f_equal. unfold PHash.coeff, PHash.scale. cbn [PHash.mul PHash.Float_R].
    change (@nil R) with (map (Rmult c) []). rewrite map_nth.
    simpl INR. apply nth_scale. }
  rewrite Hnd, Rmean_scale, map_map. apply map_ext. intros x.
  apply Rgt_bool_scale. exact Hc.
Qed.

End ScalingFacts.

Lemma count_differing_same (l : list bool) : PHash.count_differing l l = 0.
Proof.
  induction l as [|x l IH]; simpl; [reflexivity|].
  rewrite Bool.eqb_reflx, IH. reflexivity.
Qed.

Lemma threshold_dc_bit (T : Type) (gt : T -> T -> bool) (mean : list T -> T)
    (n : nat) (dct : list (list T)) (h : PHash.ImageHash) :
  PHash.threshold gt mean n dct = inr h -> PHash.bit h 0 0 = false.
Proof.
  unfold PHash.threshold.
  destruct (map _ (PHash.low_block n dct)) as [|[|b row] rows];
    simpl; intros Heq; try discriminate.
  injection Heq as <-. reflexivity.
Qed.

Section ScalingDistance.
Context {F : Type} `{PHash.Float F}.

Lemma scale_square (c : F) (n : nat) (pixels : list (list F)) :
  PHash.square n pixels -> PHash.square n (PHash.scale c pixels).
Proof.
  intros [Hlen Hrows]. unfold PHash.scale. split.
  - rewrite length_map. exact Hlen.
  - rewrite Forall_forall in *. intros row Hrow.
    apply in_map_iff in Hrow. destruct Hrow as [r [<- Hr]].
    rewrite length_map. apply Hrows. exact Hr.
Qed.

(** The hash [phash] returns, flattened. *)
Lemma phash_flat (pixels : list (list F)) (img_size hash_size : nat) :
  1 <= hash_size <= img_size -> PHash.square img_size pixels ->
  exists h,
    PHash.phash pixels hash_size = inr h
    /\ PHash.flatten (PHash.hash h) = false :: PHash.comparisons pixels hash_size.
Proof.
  intros Hn Hsq. unfold PHash.phash, PHash.comparisons.
  apply threshold_flat; [lia|].
  exact (dct_2d_covers hash_size img_size pixels Hn Hsq).
Qed.

(** In whatever arithmetic: the hash of the scaled grid has bit 0 at
    (0,0), and its distance to the hash of the grid is the number of
    comparisons that come out differently. *)
Lemma scaled_distance (pixels : list (list F)) (img_size hash_size : nat) (c : F) :
  1 <= hash_size <= img_size -> PHash.square img_size pixels ->
  exists h h',
    PHash.phash pixels hash_size = inr h
    /\ PHash.phash (PHash.scale c pixels) hash_size = inr h'
    /\ PHash.bit h' 0 0 = false
    /\ PHash.sub h' (Some h)
       = inr (PHash.count_differing
                (PHash.comparisons (PHash.scale c pixels) hash_size)
                (PHash.comparisons pixels hash_size)).
Proof.
  intros Hn Hsq.
  destruct (phash_flat pixels img_size hash_size Hn Hsq) as [h [Hh Hflat]].
  destruct (phash_flat (PHash.scale c pixels) img_size hash_size Hn
              (scale_square c img_size pixels Hsq)) as [h' [Hh' Hflat']].
  exists h, h'. split; [exact Hh|]. split; [exact Hh'|]. split.
  - unfold PHash.phash in Hh'. eapply threshold_dc_bit. exact Hh'.
  - unfold PHash.sub, PHash.size. rewrite Hflat, Hflat'.
    unfold PHash.comparisons. cbn [length]. rewrite !length_map.
    replace (length (PHash.non_dc_coeffs (PHash.of_int 0) hash_size
                       (PHash.dct_2d (PHash.scale c pixels))))
      with (length (PHash.non_dc_coeffs (PHash.of_int 0) hash_size (PHash.dct_2d pixels))).
    + rewrite Nat.eqb_refl. reflexivity.
    + unfold PHash.non_dc_coeffs. rewrite !flat_map_concat_map, !length_concat.
      f_equal. rewrite !map_map. apply map_ext. intros i.
      rewrite !flat_map_concat_map, !length_concat. f_equal.
      rewrite !map_map. apply map_ext. intros j.
      destruct ((i =? 0) && (j =? 0)); reflexivity.
Qed.

End ScalingDistance.

(** C8, as the code has it.  In whatever arithmetic the transform runs,
    float64 included: for a square grid, a hash size it covers and a
    factor [c], the grid with every pixel multiplied by [c] has a hash,
    of the same size, whose (0,0) bit is 0, and the Hamming distance to
    the hash of the grid is the number of coefficient-against-mean
    comparisons, the DC term left out, that come out differently for the
    scaled grid.  In exact real arithmetic, for [c > 0], scaling
    multiplies every coefficient and the mean by [c], every comparison
    is kept and the hash is the same. *)
Theorem phash_brightness_scaling :
  (forall (F : Type) (arithmetic : PHash.Float F) (pixels : list (list F))
          (img_size hash_size : nat) (c : F),
     1 <= hash_size <= img_size -> PHash.square img_size pixels ->
     exists h h',
       PHash.phash pixels hash_size = inr h
       /\ PHash.phash (PHash.scale c pixels) hash_size = inr h'
       /\ PHash.bit h' 0 0 = false
       /\ PHash.sub h' (Some h)
          = inr (PHash.count_differing
                   (PHash.comparisons (PHash.scale c pixels) hash_size)
                   (PHash.comparisons pixels hash_size)))
  /\ (forall (pixels : list (list R)) (hash_size : nat) (c : R),
        (0 < c)%R ->
        PHash.comparisons (PHash.scale c pixels) hash_size
        = PHash.comparisons pixels hash_size
        /\ PHash.phash (PHash.scale c pixels) hash_size = PHash.phash pixels hash_size).
Proof.
  split.
  - intros F arithmetic pixels img_size hash_size c. apply scaled_distance.
  - intros pixels hash_size c Hc. split.
    + unfold PHash.comparisons. rewrite dct_2d_scale.
      cbn [PHash.gt PHash.mean PHash.of_int PHash.Float_R].
      apply comparisons_scale. exact Hc.
    + unfold PHash.phash. rewrite dct_2d_scale.
      cbn [PHash.gt PHash.mean PHash.Float_R]. apply threshold_scale. exact Hc.
Qed.

Lemma phash_brightness_scaling_witness :
  exists h h',
    @PHash.phash _ (Binary64.arithmetic Binary64.cos_of_two_by_two)
      (Binary64.pixels [[1; 2]; [3; 4]]) 2 = inr h
    /\ @PHash.phash _ (Binary64.arithmetic Binary64.cos_of_two_by_two)
         (@PHash.scale _ (Binary64.arithmetic Binary64.cos_of_two_by_two)
            (Binary64.of_nat 2) (Binary64.pixels [[1; 2]; [3; 4]])) 2 = inr h'
    /\ PHash.bit h' 0 0 = false
    /\ PHash.sub h' (Some h)
       = inr (PHash.count_differing
                (@PHash.comparisons _ (Binary64.arithmetic Binary64.cos_of_two_by_two)
                   (@PHash.scale _ (Binary64.arithmetic Binary64.cos_of_two_by_two)
                      (Binary64.of_nat 2) (Binary64.pixels [[1; 2]; [3; 4]])) 2)
                (@PHash.comparisons _ (Binary64.arithmetic Binary64.cos_of_two_by_two)
                   (Binary64.pixels [[1; 2]; [3; 4]]) 2)).
Proof.
  apply (proj1 phash_brightness_scaling _ (Binary64.arithmetic Binary64.cos_of_two_by_two)
           (Binary64.pixels [[1; 2]; [3; 4]]) 2 2 (Binary64.of_nat 2)).
  - lia.
  - split; [reflexivity | repeat constructor].
Defined.

(** C8, counterexample: in float64, the grid of gray levels 1, 2, 3, 4
    and the same grid with every pixel multiplied by 23.  The rounded
    coefficient at (0,1) is above the rounded mean for the grid and not
    above it for the scaled grid: the comparison is not kept, the two
    hashes differ in that bit, and their distance is 1. *)
Lemma scaling_flips_a_comparison :
  @PHash.phash _ (Binary64.arithmetic Binary64.cos_of_two_by_two)
    (Binary64.pixels [[1; 2]; [3; 4]]) 2
  = inr (PHash.mkImageHash [[false; true]; [false; true]])
  /\ @PHash.phash _ (Binary64.arithmetic Binary64.cos_of_two_by_two)
       (@PHash.scale _ (Binary64.arithmetic Binary64.cos_of_two_by_two)
          (Binary64.of_nat 23) (Binary64.pixels [[1; 2]; [3; 4]])) 2
     = inr (PHash.mkImageHash [[false; false]; [false; true]])
  /\ @PHash.scale _ (Binary64.arithmetic Binary64.cos_of_two_by_two)
       (Binary64.of_nat 23) (Binary64.pixels [[1; 2]; [3; 4]])
     = Binary64.pixels [[23; 46]; [69; 92]]
  /\ @PHash.comparisons _ (Binary64.arithmetic Binary64.cos_of_two_by_two)
       (Binary64.pixels [[1; 2]; [3; 4]]) 2 = [true; false; true]
  /\ @PHash.comparisons _ (Binary64.arithmetic Binary64.cos_of_two_by_two)
       (Binary64.pixels [[23; 46]; [69; 92]]) 2 = [false; false; true]
  /\ PHash.sub (PHash.mkImageHash [[false; false]; [false; true]])
               (Some (PHash.mkImageHash [[false; true]; [false; true]]))
     = inr 1.
Proof.
  repeat split; vm_compute; reflexivity.
Qed.

(* ================================================================== *)
(** * Properties of the string functions                               *)
(* ================================================================== *)

Lemma chars_of_chars (l : list ascii) : Str.chars (Str.of_chars l) = l.
Proof. apply list_ascii_of_string_of_list_ascii. Qed.

Lemma of_chars_chars (s : string) : Str.of_chars (Str.chars s) = s.
Proof. apply string_of_list_ascii_of_string. Qed.

Lemma lstrip_no_leading_space (l : list ascii) : Str.no_leading_space (Str.lstrip l).
Proof.
  induction l as [|c l IH]; simpl; [exact I|].
  destruct (Str.is_space c) eqn:Hc; [exact IH|]. simpl. exact Hc.
Qed.

Lemma lstrip_fixed (l : list ascii) : Str.no_leading_space l -> Str.lstrip l = l.
Proof.
  destruct l as [|c l]; simpl; [reflexivity|]. intros ->. reflexivity.
Qed.

Lemma lstrip_snoc (l : list ascii) (c : ascii) :
  Str.is_space c = false -> Str.lstrip (l ++ [c]) = Str.lstrip l ++ [c].
Proof.
  intros Hc. induction l as [|x l IH]; simpl.
  - rewrite Hc. reflexivity.
  - destruct (Str.is_space x); [exact IH|reflexivity].
Qed.

Lemma rstrip_no_leading_space (l : list ascii) :
  Str.no_leading_space l -> Str.no_leading_space (Str.rstrip l).
Proof.
  destruct l as [|c l]; [intros _; exact I|].
  simpl. intros Hc. unfold Str.rstrip. simpl rev.
  rewrite (lstrip_snoc _ c Hc), rev_app_distr. simpl. exact Hc.
Qed.

Lemma rstrip_idempotent (l : list ascii) : Str.rstrip (Str.rstrip l) = Str.rstrip l.
Proof.
  unfold Str.rstrip. rewrite rev_involutive.
  rewrite (lstrip_fixed _ (lstrip_no_leading_space _)). reflexivity.
Qed.

(** Stripping twice, as [add_new_tag] and [safe_tag_column] do in turn, is
    stripping once. *)
Lemma strip_idempotent (s : string) : Str.strip (Str.strip s) = Str.strip s.
Proof.
  unfold Str.strip. rewrite chars_of_chars. f_equal.
  rewrite (lstrip_fixed _ (rstrip_no_leading_space _ (lstrip_no_leading_space _))).
  apply rstrip_idempotent.
Qed.

Lemma safe_tag_column_strip (text : string) :
  Loader.safe_tag_column (Str.strip text) = Loader.safe_tag_column text.
Proof.
  unfold Loader.safe_tag_column. rewrite strip_idempotent. reflexivity.
Qed.

(** C9, counterexample: a tab inside the name is whitespace, and
    [safe_tag_column] leaves it where the specification wants an
    underscore. *)
Lemma safe_tag_column_keeps_tab :
  Loader.safe_tag_column Sample.tabbed_name
  = String "t" (String "a" (String "g" (String "_" Sample.tabbed_name)))
  /\ Loader.spec_tag_column Sample.tabbed_name = "tag_a_b"%string
  /\ Loader.safe_tag_column Sample.tabbed_name <> Loader.spec_tag_column Sample.tabbed_name.
Proof.
  split; [reflexivity|]. split; [reflexivity|].
  vm_compute. discriminate.
Qed.

Lemma chars_append (a b : string) :
  Str.chars (a ++ b) = Str.chars a ++ Str.chars b.
Proof.
  unfold Str.chars. induction a as [|c a IH]; simpl; [reflexivity|].
  rewrite IH. reflexivity.
Qed.

(* ================================================================== *)
(** * Properties of the query                                          *)
(* ================================================================== *)

(** ** [LIKE] *)

Lemma like_percent_unfold (p t : list ascii) :
  Sqlite.like_chars ("%"%char :: p) t
  = Sqlite.like_chars p t
    || match t with
       | [] => false
       | _ :: t' => Sqlite.like_chars ("%"%char :: p) t'
       end.
Proof. destruct t; reflexivity. Qed.

Lemma like_percent_iff (p t : list ascii) :
  Sqlite.like_chars ("%"%char :: p) t = true
  <-> exists before rest, t = before ++ rest /\ Sqlite.like_chars p rest = true.
Proof.
  induction t as [|c t IH]; rewrite like_percent_unfold.
  - rewrite orb_false_r. split.
    + intros Hp. exists [], []. split; [reflexivity|exact Hp].
    + intros [before [rest [Ht Hp]]].
      symmetry in Ht. apply app_eq_nil in Ht. destruct Ht as [_ ->]. exact Hp.
  - rewrite orb_true_iff, IH. split.
    + intros [Hp | [before [rest [-> Hp]]]].
      * exists [], (c :: t). split; [reflexivity|exact Hp].
      * exists (c :: before), rest. split; [reflexivity|exact Hp].
    + intros [before [rest [Ht Hp]]].
      destruct before as [|b before]; simpl in Ht.
      * left. subst rest. exact Hp.
      * right. injection Ht as _ ->. exists before, rest. split; [reflexivity|exact Hp].
Qed.

Lemma like_only_percent (t : list ascii) : Sqlite.like_chars ["%"%char] t = true.
Proof.
  apply like_percent_iff. exists t, []. split; [symmetry; apply app_nil_r|reflexivity].
Qed.

Lemma like_plain_prefix (p q t : list ascii) :
  Sqlite.plain p = true ->
  (Sqlite.like_chars (p ++ q) t = true
   <-> exists middle rest,
         t = middle ++ rest
         /\ Str.eqb_nocase_chars p middle = true
         /\ Sqlite.like_chars q rest = true).
Proof.
  revert t. induction p as [|x p IH]; intros t Hplain.
  - simpl. split.
    + intros Hq. exists [], t. split; [reflexivity|]. split; [reflexivity|exact Hq].
    + intros [middle [rest [-> [Hm Hq]]]].
      destruct middle; [exact Hq|discriminate].
  - simpl in Hplain. apply andb_true_iff in Hplain. destruct Hplain as [Hx Hplain].
    apply andb_true_iff in Hx. destruct Hx as [Hx1 Hx2].
    apply negb_true_iff in Hx1, Hx2.
    simpl. rewrite Hx1. destruct t as [|c t].
    + split; [discriminate|].
      intros [middle [rest [Ht [Hm _]]]].
      symmetry in Ht. apply app_eq_nil in Ht. destruct Ht as [-> _]. discriminate.
    + rewrite Hx2. simpl orb. rewrite andb_true_iff, (IH t Hplain). split.
      * intros [Hc [middle [rest [-> [Hm Hq]]]]].
        exists (c :: middle), rest. split; [reflexivity|]. split; [|exact Hq].
        simpl. rewrite Hc. exact Hm.
      * intros [middle [rest [Ht [Hm Hq]]]].
        destruct middle as [|m middle]; [discriminate|].
        simpl in Ht. injection Ht as <- ->.
        simpl in Hm. apply andb_true_iff in Hm. destruct Hm as [Hc Hm].
        split; [exact Hc|]. exists middle, rest.
        split; [reflexivity|]. split; assumption.
Qed.

(** For a search text without [%] and [_], the pattern [%text%] matches
    the names that have the text inside up to ASCII case. *)
Lemma like_contains_nocase (search_text name : string) :
  Sqlite.plain (Str.chars search_text) = true ->
  (Sqlite.like (Sqlite.Text name) ("%" ++ search_text ++ "%") = true
   <-> Str.substring_nocase (Str.chars search_text) (Str.chars name)).
Proof.
  intros Hplain. unfold Sqlite.like, Str.substring_nocase.
  rewrite !chars_append.
  change (Str.chars "%") with ["%"%char]. cbn [app].
  rewrite like_percent_iff. split.
  - intros [before [rest [Hn Hl]]].
    apply (like_plain_prefix _ _ _ Hplain) in Hl.
    destruct Hl as [middle [after [-> [Hm _]]]].
    exists before, middle, after. split; assumption.
  - intros [before [middle [after [Hn Hm]]]].
    exists before, (middle ++ after). split; [exact Hn|].
    apply (like_plain_prefix _ _ _ Hplain).
    exists middle, after.
    split; [reflexivity|]. split; [exact Hm|apply like_only_percent].
Qed.

(** ** [ORDER BY] *)

Lemma insert_sorted_permutation (A : Type) (le : A -> A -> bool) (x : A) (l : list A) :
  Permutation (Sqlite.insert_sorted le x l) (x :: l).
Proof.
  induction l as [|y l IH]; simpl; [reflexivity|].
  destruct (le x y); [reflexivity|].
  rewrite IH. apply perm_swap.
Qed.

Lemma sort_by_permutation (A : Type) (le : A -> A -> bool) (l : list A) :
  Permutation (Sqlite.sort_by le l) l.
Proof.
  unfold Sqlite.sort_by. induction l as [|x l IH]; simpl; [reflexivity|].
  rewrite insert_sorted_permutation. constructor. exact IH.
Qed.

(** ** [load_hdri_images] *)

Lemma select_ordered (out : list string) (tname : string) (conds : list Sqlite.condition)
    (key : string) (descending : bool) (d : Sqlite.database) (t : Sqlite.table) :
  Sqlite.lookup tname (Sqlite.tables d) = Some t ->
  forallb (Sqlite.has_column t) (out ++ map Sqlite.condition_column conds ++ [key]) = true ->
  Sqlite.select out tname conds (Some (key, descending)) d
  = inr (map (fun r => map (Sqlite.cell (Sqlite.columns t) r) out)
             (Sqlite.order_rows (Sqlite.columns t) key descending
                (filter (Sqlite.matches (Sqlite.columns t) conds) (Sqlite.rows t)))).
Proof.
  intros Ht Hcols. unfold Sqlite.select. rewrite Ht, Hcols. reflexivity.
Qed.

Lemma tag_conditions_columns (sel : list (string * bool)) :
  map Sqlite.condition_column (map (fun cb => Sqlite.Equals (fst cb) (Sqlite.Int 1)) sel)
  = map fst sel.
Proof. rewrite map_map. reflexivity. Qed.

Lemma tag_conditions_hold (cols : list Sqlite.column) (r : list Sqlite.value)
    (sel : list (string * bool)) :
  forallb (Sqlite.holds cols r) (map (fun cb => Sqlite.Equals (fst cb) (Sqlite.Int 1)) sel)
  = forallb (fun tag => Sqlite.value_eqb (Sqlite.cell cols r tag) (Sqlite.Int 1)) (map fst sel).
Proof.
  induction sel as [|cb sel IH]; simpl; [reflexivity|]. rewrite IH. reflexivity.
Qed.

(** C10, as the code has it: with the five shown columns and the checked
    tag columns in the table and one of the four sort options, the query
    returns, in some order, the shown fields of exactly the rows whose name
    matches the pattern [%text%] under [LIKE] (when a search text is given)
    and which have every checked tag equal to 1.  Under [LIKE], a search
    text without [%] and [_] matches the names that contain it up to ASCII
    case.  Without search text and checked tags every row is returned, and
    an empty table gives the empty list. *)
Theorem load_hdri_images_selects (filter_checkboxes : list (string * bool))
    (sort_option search_text : string) (d : Sqlite.database) (t : Sqlite.table) :
  Sqlite.tables d = [("hdri"%string, t)] ->
  forallb (Sqlite.has_column t) Loader.record_fields = true ->
  forallb (Sqlite.has_column t) (Loader.checked filter_checkboxes) = true ->
  In sort_option Loader.sort_options ->
  exists records,
    Loader.load_hdri_images filter_checkboxes sort_option search_text d = inr records
    /\ Permutation records
         (map (Loader.shown_record t)
              (filter (Loader.passes t filter_checkboxes search_text) (Sqlite.rows t)))
    /\ (search_text = EmptyString -> Loader.checked filter_checkboxes = [] ->
        Permutation records (map (Loader.shown_record t) (Sqlite.rows t)))
    /\ (Sqlite.rows t = [] -> records = [])
    /\ (forall name,
          Sqlite.plain (Str.chars search_text) = true ->
          (Sqlite.like (Sqlite.Text name) ("%" ++ search_text ++ "%") = true
           <-> Str.substring_nocase (Str.chars search_text) (Str.chars name))).
Proof.
  intros Htab Hfields Htags Hsort.
  assert (Hlookup : Sqlite.lookup "hdri" (Sqlite.tables d) = Some t).
  { rewrite Htab. reflexivity. }
  assert (Hname : Sqlite.has_column t "name" = true /\ Sqlite.has_column t "upload_date" = true).
  { unfold Loader.record_fields in Hfields. cbn [forallb] in Hfields.
    repeat (apply andb_true_iff in Hfields; destruct Hfields as [? Hfields]).
    split; assumption. }
  destruct Hname as [Hname Hdate].
  set (conds :=
         (if negb (String.eqb search_text EmptyString)
          then [Sqlite.Like "name" ("%" ++ search_text ++ "%")]
          else [])
         ++ map (fun cb => Sqlite.Equals (fst cb) (Sqlite.Int 1)) (filter snd filter_checkboxes)).
  assert (Hcols : forall key, Sqlite.has_column t key = true ->
            forallb (Sqlite.has_column t)
              (Loader.record_fields ++ map Sqlite.condition_column conds ++ [key]) = true).
  { intros key Hkey. unfold conds.
    rewrite !forallb_app, map_app, forallb_app, tag_conditions_columns, Hfields.
    fold (Loader.checked filter_checkboxes). rewrite Htags.
    cbn [forallb]. rewrite Hkey.
    destruct (String.eqb search_text EmptyString); cbn [negb map forallb Sqlite.condition_column];
      [reflexivity|rewrite Hname; reflexivity]. }
  assert (Hpass : forall r, Sqlite.matches (Sqlite.columns t) conds r
                            = Loader.passes t filter_checkboxes search_text r).
  { intros r. unfold Sqlite.matches, conds, Loader.passes, Loader.checked.
    rewrite forallb_app, tag_conditions_hold. f_equal.
    destruct (String.eqb search_text EmptyString); cbn [negb forallb Sqlite.holds orb];
      [reflexivity|apply andb_true_r]. }
  assert (Hsel : exists key descending,
            Sqlite.has_column t key = true
            /\ Loader.load_hdri_images filter_checkboxes sort_option search_text d
               = Sqlite.select Loader.record_fields "hdri" conds (Some (key, descending)) d).
  { unfold Loader.sort_options in Hsort.
    destruct Hsort as [<-|[<-|[<-|[<-|[]]]]].
    - exists "name"%string, false. split; [exact Hname|reflexivity].
    - exists "name"%string, true. split; [exact Hname|reflexivity].
    - exists "upload_date"%string, false. split; [exact Hdate|reflexivity].
    - exists "upload_date"%string, true. split; [exact Hdate|reflexivity]. }
  destruct Hsel as [key [descending [Hkey ->]]].
  rewrite (select_ordered _ _ _ _ _ _ _ Hlookup (Hcols key Hkey)).
  eexists. split; [reflexivity|].
  assert (Hperm : Permutation
            (map (fun r => map (Sqlite.cell (Sqlite.columns t) r) Loader.record_fields)
                 (Sqlite.order_rows (Sqlite.columns t) key descending
                    (filter (Sqlite.matches (Sqlite.columns t) conds) (Sqlite.rows t))))
            (map (Loader.shown_record t)
                 (filter (Loader.passes t filter_checkboxes search_text) (Sqlite.rows t)))).
  { apply Permutation_map. unfold Sqlite.order_rows.
    rewrite sort_by_permutation.
    rewrite (filter_ext _ _ Hpass). reflexivity. }
  split; [exact Hperm|]. split; [|split].
  - intros Hs Hc. rewrite Hperm. unfold Loader.passes. rewrite Hs, Hc.
    cbn [String.eqb orb forallb andb].
    replace (filter (fun _ => true) (Sqlite.rows t)) with (Sqlite.rows t); [reflexivity|].
    symmetry. apply forallb_filter_id. apply forallb_forall. reflexivity.
  - intros Hrows. rewrite Hrows. reflexivity.
  - intros name. apply like_contains_nocase.
Qed.

Lemma load_hdri_images_selects_witness :
  exists records,
    Loader.load_hdri_images [("tag_outdoor"%string, true)] "Alphabetical Ascending" "desert"
      Sample.two_records = inr records
    /\ Permutation records
         (map (Loader.shown_record Sample.two_records_table)
              (filter (Loader.passes Sample.two_records_table
                         [("tag_outdoor"%string, true)] "desert")
                      (Sqlite.rows Sample.two_records_table)))
    /\ ("desert"%string = EmptyString -> Loader.checked [("tag_outdoor"%string, true)] = [] ->
        Permutation records
          (map (Loader.shown_record Sample.two_records_table)
               (Sqlite.rows Sample.two_records_table)))
    /\ (Sqlite.rows Sample.two_records_table = [] -> records = [])
    /\ (forall name,
          Sqlite.plain (Str.chars "desert") = true ->
          (Sqlite.like (Sqlite.Text name) ("%" ++ "desert" ++ "%") = true
           <-> Str.substring_nocase (Str.chars "desert") (Str.chars name))).
Proof.
  apply (load_hdri_images_selects [("tag_outdoor"%string, true)] "Alphabetical Ascending"
           "desert" Sample.two_records Sample.two_records_table).
  - reflexivity.
  - reflexivity.
  - reflexivity.
  - left. reflexivity.
Defined.

(** C10, counterexample: the search text [o_e] is not inside the name
    [forest_dusk], and the query returns that record, the underscore
    standing for the [r]. *)
Lemma search_text_is_a_pattern :
  ~ Str.substring (Str.chars "o_e") (Str.chars "forest_dusk")
  /\ Loader.load_hdri_images [] "Alphabetical Ascending" "o_e" Sample.two_records
     = inr [[Sqlite.Int 2; Sqlite.Text "/store/00002_forest_dusk/forest_dusk.exr";
             Sqlite.Text "/store/00002_forest_dusk/preview.jpg";
             Sqlite.Text "forest_dusk"; Sqlite.Text "2024-05-02T18:30:00"]].
Proof.
  split; [|reflexivity].
  intros [before [after Heq]]. cbn in Heq.
  repeat (destruct before as [|? before];
          [discriminate | injection Heq as _ Heq]).
  destruct before; discriminate.
Qed.

(* ================================================================== *)
(** * Properties of the tag rebuild                                    *)
(* ================================================================== *)

(** ** Failure inside the transaction *)

Section TransactionFacts.
Import Sqlite Sqlite3.

Lemma keeps_committed_ddl (fails : bool) (stmt : database -> result database) :
  keeps_committed (execute_ddl fails stmt).
Proof.
  intros c Hc. unfold execute_ddl.
  destruct fails; [split; [reflexivity|exact Hc]|].
  destruct (stmt (current c)); [split; [reflexivity|exact Hc]|].
  rewrite Hc. split; reflexivity.
Qed.

Lemma keeps_committed_dml (A : Type) (fails : bool)
    (stmt : database -> result (database * A)) :
  keeps_committed (execute_dml fails stmt).
Proof.
  intros c Hc. unfold execute_dml.
  destruct fails; [split; reflexivity|].
  destruct (stmt (current c)) as [e|[d' a]]; split; reflexivity.
Qed.

Lemma fails_clean_commit (fails : bool) : fails_clean (commit fails).
Proof.
  intros c Hc. unfold commit. destruct fails; [reflexivity|exact I].
Qed.

Lemma fails_clean_bind (A B : Type) (m : action A) (k : A -> action B) :
  keeps_committed m -> (forall a, fails_clean (k a)) -> fails_clean (bind m k).
Proof.
  intros Hm Hk c Hc. unfold bind.
  destruct (Hm c Hc) as [Hcom Htx].
  destruct (m c) as [[e|a] c']; simpl in Hcom, Htx.
  - exact Hcom.
  - specialize (Hk a c' Htx). destruct (k a c') as [[e|b] c''].
    + rewrite Hk. exact Hcom.
    + exact I.
Qed.

Lemma rebuild_fails_clean (io : Loader.rebuild_step -> bool) (table column_to_drop : string)
    (d : database) :
  match Loader.rebuild io table column_to_drop (connect d) with
  | (inl _, c') => committed c' = d
  | (inr _, _) => True
  end.
Proof.
  unfold Loader.rebuild. unfold bind at 1. unfold query at 1. cbn [current connect].
  unfold bind at 1. unfold begin_transaction. cbn [in_transaction connect].
  destruct (io Loader.Begin); [reflexivity|].
  cbn [committed current connect].
  match goal with
  | |- match ?m ?c with _ => _ end =>
      assert (Hclean : fails_clean m)
  end.
  { apply fails_clean_bind; [apply keeps_committed_ddl|intros _].
    apply fails_clean_bind; [apply keeps_committed_dml|intros _].
    apply fails_clean_bind; [apply keeps_committed_ddl|intros _].
    apply fails_clean_bind; [apply keeps_committed_ddl|intros _].
    apply fails_clean_commit. }
  specialize (Hclean (mkConnection d d true) eq_refl).
  exact Hclean.
Qed.

End TransactionFacts.

(** A fault at any statement makes the rebuild raise. *)
Lemma rebuild_fault_raises (io : Loader.rebuild_step -> bool) (step : Loader.rebuild_step)
    (table column_to_drop : string) (d : Sqlite.database) :
  io step = true ->
  exists e, fst (Loader.drop_column_from_table io table column_to_drop d) = inl e.
Proof.
  intros Hstep.
  unfold Loader.drop_column_from_table, Sqlite3.with_connection, Loader.rebuild.
  unfold Sqlite3.bind, Sqlite3.query, Sqlite3.begin_transaction, Sqlite3.execute_ddl,
    Sqlite3.execute_dml, Sqlite3.commit.
  cbn [Sqlite3.in_transaction Sqlite3.connect Sqlite3.current Sqlite3.committed].
  destruct (io Loader.Begin) eqn:H1; [eexists; reflexivity|].
  destruct (io Loader.CreateBackup) eqn:H2; [eexists; reflexivity|].
  destruct (Sqlite.create_table _ _ _ _); [eexists; reflexivity|].
  cbn [Sqlite3.in_transaction Sqlite3.current Sqlite3.committed].
  destruct (io Loader.CopyRows) eqn:H3; [eexists; reflexivity|].
  destruct (Sqlite3.no_value _ _) as [|[? ?]]; [eexists; reflexivity|].
  cbn [Sqlite3.in_transaction Sqlite3.current Sqlite3.committed].
  destruct (io Loader.DropOld) eqn:H4; [eexists; reflexivity|].
  destruct (Sqlite.drop_table _ _); [eexists; reflexivity|].
  cbn [Sqlite3.in_transaction Sqlite3.current Sqlite3.committed].
  destruct (io Loader.RenameBackup) eqn:H5; [eexists; reflexivity|].
  destruct (Sqlite.rename_table _ _ _); [eexists; reflexivity|].
  cbn [Sqlite3.in_transaction Sqlite3.current Sqlite3.committed].
  destruct (io Loader.Commit) eqn:H6; [eexists; reflexivity|].
  destruct step; congruence.
Qed.

(** C6: when the rebuild raises, at whichever statement, the database file
    holds what it held before, schema and rows; [delete_tag] then prints
    the error and changes nothing else, so the removal can be asked again
    from the same state.  A fault of the store at any of the statements
    does make the rebuild raise. *)
Theorem rebuild_failure_keeps_database (io : Loader.rebuild_step -> bool)
    (column_to_drop : string) (w : Loader.world) :
  (forall e d',
     Loader.drop_column_from_table io "hdri" column_to_drop (Loader.db w) = (inl e, d') ->
     d' = Loader.db w
     /\ Loader.delete_tag io column_to_drop w
        = Loader.emit (Loader.Printed ("Error deleting tag: " ++ Loader.message e)) w
     /\ Loader.db (Loader.delete_tag io column_to_drop w) = Loader.db w)
  /\ (forall step, io step = true ->
      exists e, Loader.drop_column_from_table io "hdri" column_to_drop (Loader.db w)
                = (inl e, Loader.db w)).
Proof.
  assert (Hkeep : forall e d',
            Loader.drop_column_from_table io "hdri" column_to_drop (Loader.db w) = (inl e, d') ->
            d' = Loader.db w).
  { intros e d' Hfail.
    pose proof (rebuild_fails_clean io "hdri" column_to_drop (Loader.db w)) as Hclean.
    unfold Loader.drop_column_from_table, Sqlite3.with_connection in Hfail.
    destruct (Loader.rebuild io "hdri" column_to_drop (Sqlite3.connect (Loader.db w)))
      as [[e0|u] c'].
    - injection Hfail as _ <-. exact Hclean.
    - discriminate. }
  split.
  - intros e d' Hfail. pose proof (Hkeep e d' Hfail) as ->.
    split; [reflexivity|].
    unfold Loader.delete_tag. rewrite Hfail.
    destruct w as [d f s c]. split; reflexivity.
  - intros step Hstep.
    destruct (rebuild_fault_raises io step "hdri" column_to_drop (Loader.db w) Hstep)
      as [e He].
    exists e.
    destruct (Loader.drop_column_from_table io "hdri" column_to_drop (Loader.db w))
      as [r d'] eqn:Hrun.
    simpl in He. subst r. rewrite (Hkeep e d' eq_refl). reflexivity.
Qed.

Lemma rebuild_failure_keeps_database_witness :
  Loader.delete_tag (fun s => match s with Loader.DropOld => true | _ => false end)
    "tag_outdoor" (Loader.mkWorld Sample.two_records [] [] 0)
  = Loader.emit (Loader.Printed "Error deleting tag: disk I/O error")
      (Loader.mkWorld Sample.two_records [] [] 0).
Proof.
  exact (proj1 (proj2 (proj1 (rebuild_failure_keeps_database
                  (fun s => match s with Loader.DropOld => true | _ => false end)
                  "tag_outdoor" (Loader.mkWorld Sample.two_records [] [] 0))
                Sqlite3.io_failure Sample.two_records eq_refl))).
Defined.

(** ** The copy into the new table *)

Section CopyFacts.
Import Sqlite Sqlite3.

Lemma eqb_nocase_chars_refl (l : list ascii) : Str.eqb_nocase_chars l l = true.
Proof.
  induction l as [|c l IH]; simpl; [reflexivity|].
  unfold Str.eqb_nocase_char. rewrite Ascii.eqb_refl. exact IH.
Qed.

Lemma eqb_nocase_refl (s : string) : Str.eqb_nocase s s = true.
Proof. apply eqb_nocase_chars_refl. Qed.

Lemma existsb_false_in (A : Type) (f : A -> bool) (l : list A) (x : A) :
  existsb f l = false -> In x l -> f x = false.
Proof.
  intros Hex Hin. destruct (f x) eqn:Hfx; [|reflexivity].
  rewrite <- Hex. symmetry. apply existsb_exists. exists x. split; assumption.
Qed.

Lemma existsb_all_false (A : Type) (f : A -> bool) (l : list A) :
  (forall x, In x l -> f x = false) -> existsb f l = false.
Proof.
  intros Hf. induction l as [|x l IH]; simpl; [reflexivity|].
  rewrite (Hf x (or_introl eq_refl)). apply IH.
  intros y Hy. apply Hf. right. exact Hy.
Qed.

(** A name of a list of distinct names is assigned the value at its own
    position, and found at its own position. *)
Lemma assigned_own (f : string -> value) (names : list string) (n : string) :
  distinct_names names = true -> In n names ->
  assigned names (map f names) n = Some (f n).
Proof.
  induction names as [|m names IH]; intros Hd Hin; [destruct Hin|].
  simpl in Hd. apply andb_true_iff in Hd. destruct Hd as [Hm Hd].
  apply negb_true_iff in Hm. simpl.
  destruct Hin as [->|Hin].
  - rewrite eqb_nocase_refl. reflexivity.
  - rewrite (existsb_false_in _ _ _ n Hm Hin). apply IH; assumption.
Qed.

Lemma col_index_own (cols : list column) (c : column) :
  distinct_names (map col_name cols) = true -> In c cols ->
  exists i, col_index cols (col_name c) = Some i /\ nth_error cols i = Some c.
Proof.
  induction cols as [|k cols IH]; intros Hd Hin; [destruct Hin|].
  simpl in Hd. apply andb_true_iff in Hd. destruct Hd as [Hk Hd].
  apply negb_true_iff in Hk. simpl.
  destruct Hin as [->|Hin].
  - rewrite eqb_nocase_refl. exists 0. split; reflexivity.
  - rewrite (existsb_false_in _ _ _ (col_name c) Hk (in_map col_name _ _ Hin)).
    destruct (IH Hd Hin) as [i [Hi Hnth]]. rewrite Hi.
    exists (S i). split; [reflexivity|exact Hnth].
Qed.

Lemma has_column_own (t : table) (c : column) :
  distinct_names (map col_name (columns t)) = true -> In c (columns t) ->
  has_column t (col_name c) = true.
Proof.
  intros Hd Hin. unfold has_column.
  destruct (col_index_own _ _ Hd Hin) as [i [-> _]]. reflexivity.
Qed.

(** The index of a name depends on the names of the columns only. *)
Lemma col_index_plain (cols : list column) (n : string) :
  col_index (map Loader.plain_column cols) n = col_index cols n.
Proof.
  induction cols as [|k cols IH]; simpl; [reflexivity|]. rewrite IH. reflexivity.
Qed.

(** A cell of a row made of one value per column. *)
Lemma cell_by_name (f : string -> value) (cols : list column) (c : column) :
  distinct_names (map col_name cols) = true -> In c cols ->
  cell cols (map f (map col_name cols)) (col_name c) = f (col_name c).
Proof.
  intros Hd Hin. unfold cell.
  destruct (col_index_own _ _ Hd Hin) as [i [-> Hnth]].
  rewrite map_map.
  rewrite (nth_indep _ Null (f (col_name c))).
  - change (f (col_name c)) with ((fun k => f (col_name k)) c) at 1.
    rewrite map_nth. f_equal. f_equal. apply nth_error_nth. exact Hnth.
  - rewrite length_map. apply nth_error_Some. rewrite Hnth. discriminate.
Qed.

Lemma distinct_names_filter (p : column -> bool) (cols : list column) :
  distinct_names (map col_name cols) = true ->
  distinct_names (map col_name (filter p cols)) = true.
Proof.
  induction cols as [|k cols IH]; intros Hd; [reflexivity|].
  simpl in Hd. apply andb_true_iff in Hd. destruct Hd as [Hk Hd].
  apply negb_true_iff in Hk. simpl.
  destruct (p k); [|apply IH; exact Hd].
  simpl. rewrite (IH Hd), andb_true_r. apply negb_true_iff.
  apply existsb_all_false. intros n Hn.
  apply (existsb_false_in _ _ _ n Hk).
  apply in_map_iff in Hn. destruct Hn as [c [<- Hc]].
  apply in_map. apply filter_In in Hc. apply Hc.
Qed.

(** The column definitions and names [drop_column_from_table] builds from
    the [table_info] listing. *)
Lemma col_defs_of_listing (p : string -> bool) (cols : list column) (i : nat) :
  map Loader.col_def (filter (fun col => p (name col)) (number_from info_of i cols))
  = map Loader.plain_column (filter (fun c => p (col_name c)) cols).
Proof.
  revert i. induction cols as [|c cols IH]; intros i; simpl; [reflexivity|].
  destruct (p (col_name c)); simpl; rewrite IH; reflexivity.
Qed.

Lemma col_names_of_listing (p : string -> bool) (cols : list column) (i : nat) :
  map name (filter (fun col => p (name col)) (number_from info_of i cols))
  = map col_name (filter (fun c => p (col_name c)) cols).
Proof.
  revert i. induction cols as [|c cols IH]; intros i; simpl; [reflexivity|].
  destruct (p (col_name c)); simpl; rewrite IH; reflexivity.
Qed.

End CopyFacts.

Section CopyRows.
Import Sqlite Sqlite3.
Variable t : table.
Variable keep : list column.
Variable seq : list (string * Z).
Hypothesis Hdistinct : distinct_names (map col_name keep) = true.

Let names : list string := map col_name keep.
Let backup_columns : list column := map Loader.plain_column keep.
Let cut (r : list value) : list value := map (cell (columns t) r) names.
Let copying (done : list (list value)) : database :=
  mkDatabase [("hdri"%string, t);
              ("hdri_backup"%string, mkTable backup_columns (map cut done))] seq.

Lemma backup_names : map col_name backup_columns = names.
Proof.
  unfold backup_columns, names. rewrite map_map. reflexivity.
Qed.

Lemma backup_cell (r : list value) (c : column) :
  In c keep -> cell backup_columns (cut r) (col_name c) = cell (columns t) r (col_name c).
Proof.
  intros Hin. unfold cut. rewrite <- backup_names.
  change (col_name c) with (col_name (Loader.plain_column c)).
  apply (cell_by_name (cell (columns t) r)).
  - rewrite backup_names. exact Hdistinct.
  - unfold backup_columns. apply in_map. exact Hin.
Qed.

Lemma backup_has_columns (rows : list (list value)) :
  forallb (has_column (mkTable backup_columns rows)) names = true.
Proof.
  apply forallb_forall. intros n Hn. unfold names in Hn.
  apply in_map_iff in Hn. destruct Hn as [c [<- Hc]].
  unfold has_column. cbn [columns]. unfold backup_columns. rewrite col_index_plain.
  destruct (col_index_own keep c Hdistinct Hc) as [i [-> _]]. reflexivity.
Qed.

Lemma copy_new_row (fresh : Z) (rows : list (list value)) (done : list (list value))
    (r : list value) :
  Loader.row_copies t keep done r ->
  new_row fresh (mkTable backup_columns rows) names (cut r) = cut r.
Proof.
  intros [Hpk _]. unfold new_row. cbn [columns].
  unfold backup_columns, cut. rewrite !map_map. unfold names. rewrite map_map.
  apply map_ext_in. intros c Hc. cbn [Loader.plain_column col_name col_pk].
  change (map (fun x => cell (columns t) r (col_name x)) keep)
    with (map (fun x => (fun n => cell (columns t) r n) (col_name x)) keep).
  rewrite <- (map_map col_name (fun n => cell (columns t) r n)).
  rewrite (assigned_own _ _ _ Hdistinct (in_map col_name _ _ Hc)).
  destruct (col_pk c) eqn:Hpkc; [|reflexivity].
  destruct (Hpk c Hc Hpkc) as [[z ->] _]. reflexivity.
Qed.

Lemma copy_one (done : list (list value)) (r : list value) :
  Loader.row_copies t keep done r ->
  exists z, insert_into "hdri_backup" names (cut r) (copying done)
            = inr (copying (done ++ [r]), z).
Proof.
  intros Hrow. pose proof Hrow as [Hpk Hnn].
  unfold insert_into, copying. cbn [tables].
  replace (lookup "hdri_backup" _)
    with (Some (mkTable backup_columns (map cut done))) by reflexivity.
  rewrite backup_has_columns.
  replace (length names =? length (cut r)) with true
    by (unfold cut; rewrite length_map; symmetry; apply Nat.eqb_refl).
  cbn [negb orb].
  rewrite (copy_new_row _ _ done r Hrow).
  replace (violates_notnull (columns (mkTable backup_columns (map cut done))) (cut r))
    with false.
  2:{ symmetry. unfold violates_notnull. cbn [columns].
      apply existsb_all_false. intros c' Hc'. unfold backup_columns in Hc'.
      apply in_map_iff in Hc'. destruct Hc' as [c [<- Hc]].
      cbn [Loader.plain_column col_notnull col_name].
      destruct (col_notnull c) eqn:Hn; [|reflexivity].
      change (col_name c) with (col_name c). rewrite (backup_cell r c Hc).
      specialize (Hnn c Hc Hn).
      destruct (cell (columns t) r (col_name c)); [contradiction|reflexivity|reflexivity]. }
  replace (violates_unique (mkTable backup_columns (map cut done)) (cut r)) with false.
  2:{ symmetry. unfold violates_unique. cbn [columns rows].
      apply existsb_all_false. intros c' Hc'. unfold backup_columns in Hc'.
      apply in_map_iff in Hc'. destruct Hc' as [c [<- Hc]].
      cbn [Loader.plain_column col_unique col_pk col_name orb].
      destruct (col_pk c) eqn:Hp; [|reflexivity].
      cbn [andb]. apply existsb_all_false. intros r'' Hr''.
      apply in_map_iff in Hr''. destruct Hr'' as [r' [<- Hr']].
      rewrite !(backup_cell _ c Hc).
      apply (proj2 (Hpk c Hc Hp)). exact Hr'. }
  replace (autoincrement (mkTable backup_columns (map cut done))) with false.
  2:{ symmetry. unfold autoincrement. cbn [columns].
      apply existsb_all_false. intros c' Hc'. unfold backup_columns in Hc'.
      apply in_map_iff in Hc'. destruct Hc' as [c [<- Hc]]. reflexivity. }
  eexists. cbn [columns rows sqlite_sequence].
  rewrite map_app. reflexivity.
Qed.

Lemma copy_all (rest done : list (list value)) :
  (forall before r after, rest = before ++ r :: after ->
     Loader.row_copies t keep (done ++ before) r) ->
  insert_rows "hdri_backup" names (columns t) rest (copying done)
  = inr (copying (done ++ rest)).
Proof.
  revert done. induction rest as [|r rest IH]; intros done Hall.
  - simpl. rewrite app_nil_r. reflexivity.
  - cbn [insert_rows]. fold (cut r).
    destruct (copy_one done r) as [z Hone].
    { specialize (Hall [] r rest eq_refl). rewrite app_nil_r in Hall. exact Hall. }
    rewrite Hone. rewrite IH.
    + rewrite <- app_assoc. reflexivity.
    + intros before r' after Heq. rewrite <- app_assoc.
      apply (Hall (r :: before) r' after). rewrite Heq. reflexivity.
Qed.

End CopyRows.

(** ** The rebuild without faults *)

Section RebuildFacts.
Import Sqlite Sqlite3.

Lemma distinct_ids_before (l1 l2 : list Z) (x y : Z) :
  distinct_ids (l1 ++ x :: l2) = true -> In y l1 -> Z.eqb y x = false.
Proof.
  induction l1 as [|z l1 IH]; intros Hd Hin; [destruct Hin|].
  simpl in Hd. apply andb_true_iff in Hd. destruct Hd as [Hz Hd].
  destruct Hin as [->|Hin]; [|apply IH; assumption].
  apply negb_true_iff in Hz.
  apply (existsb_false_in _ _ _ x Hz). apply in_elt.
Qed.

Lemma described_listing (p : string -> bool) (cols : list column) (i : nat) :
  map described (filter (fun col => p (name col)) (number_from info_of i cols))
  = map (fun c => (col_name c, col_type c, col_notnull c, col_dflt c, col_pk c))
        (filter (fun c => p (col_name c)) cols).
Proof.
  revert i. induction cols as [|c cols IH]; intros i; simpl; [reflexivity|].
  destruct (p (col_name c)); simpl; rewrite IH; reflexivity.
Qed.

Lemma described_all (cols : list column) (i : nat) :
  map described (number_from info_of i cols)
  = map (fun c => (col_name c, col_type c, col_notnull c, col_dflt c, col_pk c)) cols.
Proof.
  revert i. induction cols as [|c cols IH]; intros i; simpl; [reflexivity|].
  rewrite IH. reflexivity.
Qed.

Lemma tag_column_listed (d : database) (column_to_drop : string) :
  In column_to_drop (Loader.get_tag_columns d) ->
  Str.startswith "tag_" column_to_drop = true.
Proof.
  unfold Loader.get_tag_columns. intros Hin.
  apply in_map_iff in Hin. destruct Hin as [info [<- Hinfo]].
  apply filter_In in Hinfo. apply Hinfo.
Qed.

(** What [catalog_table] says, taken apart. *)
Lemma catalog_table_parts (t : table) :
  Loader.catalog_table t = true ->
  (exists idc others,
     columns t = idc :: others /\ col_name idc = "id"%string /\ col_pk idc = true
     /\ forall c, In c others -> col_pk c = false)
  /\ distinct_names (map col_name (columns t)) = true
  /\ (forall r, In r (rows t) -> length r = length (columns t))
  /\ (forall r, In r (rows t) -> exists z, nth 0 r Null = Int z)
  /\ distinct_ids (map (rowid_at 0) (rows t)) = true
  /\ (forall r, In r (rows t) -> violates_notnull (columns t) r = false).
Proof.
  unfold Loader.catalog_table. intros H.
  repeat (apply andb_true_iff in H; destruct H as [H ?]).
  split; [|split; [assumption|split; [|split; [|split; [assumption|]]]]].
  - destruct (columns t) as [|idc others]; [discriminate|].
    repeat (apply andb_true_iff in H; destruct H as [H ?]).
    exists idc, others. split; [reflexivity|].
    split; [apply String.eqb_eq; assumption|]. split; [assumption|].
    intros c Hc. apply negb_true_iff.
    match goal with Hf : forallb _ others = true |- _ =>
      rewrite forallb_forall in Hf; apply Hf; exact Hc end.
  - intros r Hr.
    match goal with Hf : forallb (fun r => length r =? _) _ = true |- _ =>
      rewrite forallb_forall in Hf; apply Nat.eqb_eq; apply Hf; exact Hr end.
  - intros r Hr.
    match goal with Hf : forallb (fun r => match nth 0 r Null with _ => _ end) _ = true |- _ =>
      rewrite forallb_forall in Hf; specialize (Hf r Hr) end.
    destruct (nth 0 r Null); try discriminate. eexists. reflexivity.
  - intros r Hr.
    match goal with Hf : forallb (fun r => negb _) _ = true |- _ =>
      rewrite forallb_forall in Hf; apply negb_true_iff; apply Hf; exact Hr end.
Qed.

Lemma id_cell (idc : column) (others : list column) (r : list value) :
  col_name idc = "id"%string -> cell (idc :: others) r "id" = nth 0 r Null.
Proof.
  intros Hname. unfold cell. simpl. rewrite Hname. reflexivity.
Qed.

End RebuildFacts.

Section RebuildRun.
Import Sqlite Sqlite3.

(** The rows of a catalog table go into the new table one after the
    other. *)
Lemma catalog_rows_copy (t : table) (column_to_drop : string) :
  Loader.catalog_table t = true ->
  Str.startswith "tag_" column_to_drop = true ->
  In (hd (mkColumn EmptyString EmptyString false None false false false) (columns t))
     (Loader.kept column_to_drop (columns t))
  /\ forall before r after, rows t = before ++ r :: after ->
       Loader.row_copies t (Loader.kept column_to_drop (columns t)) ([] ++ before) r.
Proof.
  intros Hcat Htag.
  destruct (catalog_table_parts t Hcat)
    as [[idc [others [Hcols [Hid [Hpk Hothers]]]]] [Hdist [Hlen [Hint [Hids Hnn]]]]].
  split.
  - rewrite Hcols. cbn [hd]. unfold Loader.kept. apply filter_In.
    split; [left; reflexivity|]. rewrite Hid.
    destruct (String.eqb_spec "id" column_to_drop) as [<-|]; [discriminate|reflexivity].
  - intros before r after Hrows. cbn [app].
    assert (Hr : In r (rows t)) by (rewrite Hrows; apply in_elt).
    split.
    + intros c Hc Hpkc.
      apply filter_In in Hc. destruct Hc as [Hc _].
      rewrite Hcols in Hc. destruct Hc as [<-|Hc];
        [|rewrite (Hothers c Hc) in Hpkc; discriminate].
      rewrite Hcols, Hid, !(id_cell idc others _ Hid).
      destruct (Hint r Hr) as [z Hz]. split; [exists z; exact Hz|].
      intros r' Hr'. rewrite (id_cell idc others _ Hid), Hz.
      assert (Hr'' : In r' (rows t)) by (rewrite Hrows; apply in_or_app; left; exact Hr').
      destruct (Hint r' Hr'') as [z' Hz']. rewrite Hz'. cbn [value_eqb].
      rewrite Hrows, map_app in Hids. cbn [map] in Hids.
      replace z with (rowid_at 0 r) by (unfold rowid_at; rewrite Hz; reflexivity).
      apply (distinct_ids_before _ _ _ _ Hids).
      replace z' with (rowid_at 0 r') by (unfold rowid_at; rewrite Hz'; reflexivity).
      apply in_map. exact Hr'.
    + intros c Hc Hnnc Hnull.
      apply filter_In in Hc. destruct Hc as [Hc _].
      pose proof (existsb_false_in _ _ _ c (Hnn r Hr) Hc) as Hfalse.
      cbn beta in Hfalse. rewrite Hnnc, Hnull in Hfalse. discriminate.
Qed.

Lemma lookup_here (A : Type) (k : string) (v : A) (l : list (string * A)) :
  lookup k ((k, v) :: l) = Some v.
Proof. simpl. rewrite String.eqb_refl. reflexivity. Qed.

Lemma store_here (A : Type) (k : string) (v v0 : A) (l : list (string * A)) :
  store k v ((k, v0) :: l) = (k, v) :: l.
Proof. simpl. rewrite String.eqb_refl. reflexivity. Qed.

Lemma create_table_fresh (tname : string) (cols : list column) (d : database) :
  lookup tname (tables d) = None -> cols <> [] ->
  create_table false tname cols d = inr (set_table d tname (mkTable cols [])).
Proof.
  intros Hnone Hcols. unfold create_table. rewrite Hnone.
  destruct cols; [contradiction|reflexivity].
Qed.

(** C5: removing a defined tag attribute from a catalog table succeeds.
    The new table lists the remaining columns with the names, types,
    nullability, defaults and primary-key marking they had, has the rows of
    the old one in their order, and every row has in every remaining
    column (id, name, hash, paths, date and the other tags) the value it
    had. *)
Theorem drop_column_keeps_the_rest (column_to_drop : string) (d : database) (t : table) :
  tables d = [("hdri"%string, t)] ->
  Loader.catalog_table t = true ->
  In column_to_drop (Loader.get_tag_columns d) ->
  exists d' t',
    Loader.drop_column_from_table Loader.no_fault "hdri" column_to_drop d = (inr tt, d')
    /\ tables d' = [("hdri"%string, t')]
    /\ map described (table_info d' "hdri")
       = map described
           (filter (fun i => negb (String.eqb (name i) column_to_drop)) (table_info d "hdri"))
    /\ rows t' = map (Loader.cut_row column_to_drop t) (rows t)
    /\ forall r c, In r (rows t) -> In c (columns t) -> col_name c <> column_to_drop ->
         cell (columns t') (Loader.cut_row column_to_drop t r) (col_name c)
         = cell (columns t) r (col_name c).
Proof.
  intros Htab Hcat Htag.
  apply tag_column_listed in Htag.
  destruct (catalog_rows_copy t column_to_drop Hcat Htag) as [Hidkeep Hrows].
  destruct (catalog_table_parts t Hcat) as [_ [Hdist _]].
  set (keep := Loader.kept column_to_drop (columns t)) in *.
  assert (Hkd : distinct_names (map col_name keep) = true)
    by (apply distinct_names_filter; exact Hdist).
  destruct d as [tabs seq]. cbn [tables] in Htab. subst tabs.
  pose proof (copy_all t keep seq Hkd (rows t) [] Hrows) as Hcopy.
  cbn [app map] in Hcopy.
  assert (Hdefs : map Loader.col_def
                    (filter (fun col => negb (String.eqb (name col) column_to_drop))
                            (number_from info_of 0 (columns t)))
                  = map Loader.plain_column keep)
    by apply (col_defs_of_listing (fun n => negb (String.eqb n column_to_drop))).
  assert (Hnames : map name
                     (filter (fun col => negb (String.eqb (name col) column_to_drop))
                             (number_from info_of 0 (columns t)))
                   = map col_name keep)
    by apply (col_names_of_listing (fun n => negb (String.eqb n column_to_drop))).
  assert (Hhas : forallb (has_column t) (map col_name keep) = true).
  { apply forallb_forall. intros n Hn. apply in_map_iff in Hn.
    destruct Hn as [c [<- Hc]]. apply has_column_own; [exact Hdist|].
    apply filter_In in Hc. apply Hc. }
  assert (Hrun : Loader.drop_column_from_table Loader.no_fault "hdri" column_to_drop
                   (mkDatabase [("hdri"%string, t)] seq)
                 = (inr tt,
                    mkDatabase
                      [("hdri"%string,
                        mkTable (map Loader.plain_column keep)
                                (map (fun r => map (cell (columns t) r) (map col_name keep))
                                     (rows t)))]
                      (match lookup "hdri_backup" (remove "hdri" seq) with
                       | None => remove "hdri" seq
                       | Some s => remove "hdri_backup" (remove "hdri" seq)
                                   ++ [("hdri"%string, s)]
                       end))).
  { unfold Loader.drop_column_from_table, with_connection, Loader.rebuild.
    unfold bind, query, begin_transaction, execute_ddl, execute_dml, commit, Loader.no_fault.
    cbn [connect current committed in_transaction].
    unfold table_info. cbn [tables].
    change (lookup "hdri" [("hdri"%string, t)]) with (Some t).
    cbn iota. rewrite Hdefs, Hnames.
    rewrite create_table_fresh.
    2:{ reflexivity. }
    2:{ intros Hempty. apply (in_map Loader.plain_column) in Hidkeep.
        rewrite Hempty in Hidkeep. destruct Hidkeep. }
    cbn [current committed in_transaction].
    unfold no_value, insert_select, set_table. cbn [tables sqlite_sequence].
    change (lookup "hdri" (store ("hdri" ++ "_backup") _ [("hdri"%string, t)]))
      with (Some t).
    cbn iota. rewrite Hhas. cbn [negb].
    change ("hdri" ++ "_backup")%string with "hdri_backup"%string.
    change (store "hdri_backup" (mkTable (map Loader.plain_column keep) [])
                  [("hdri"%string, t)])
      with [("hdri"%string, t);
            ("hdri_backup"%string, mkTable (map Loader.plain_column keep) [])].
    rewrite Hcopy.
    reflexivity. }
  eexists. eexists. split; [exact Hrun|].
  split; [reflexivity|]. split; [|split].
  - unfold table_info. cbn [tables]. rewrite !lookup_here.
    etransitivity;
      [|symmetry; apply (described_listing (fun n => negb (String.eqb n column_to_drop)))].
    rewrite described_all. cbn [columns]. rewrite map_map. reflexivity.
  - reflexivity.
  - intros r c Hr Hc Hne. cbn [columns].
    apply (backup_cell t keep Hkd r c).
    apply filter_In. split; [exact Hc|].
    apply negb_true_iff. apply String.eqb_neq. exact Hne.
Qed.

End RebuildRun.

Lemma drop_column_keeps_the_rest_witness :
  exists d' t',
    Loader.drop_column_from_table Loader.no_fault "hdri" "tag_outdoor" Sample.two_records
    = (inr tt, d')
    /\ Sqlite.tables d' = [("hdri"%string, t')]
    /\ map Sqlite.described (Sqlite.table_info d' "hdri")
       = map Sqlite.described
           (filter (fun i => negb (String.eqb (Sqlite.name i) "tag_outdoor"))
                   (Sqlite.table_info Sample.two_records "hdri"))
    /\ Sqlite.rows t'
       = map (Loader.cut_row "tag_outdoor" Sample.two_records_table)
             (Sqlite.rows Sample.two_records_table)
    /\ forall r c,
         In r (Sqlite.rows Sample.two_records_table) ->
         In c (Sqlite.columns Sample.two_records_table) ->
         Sqlite.col_name c <> "tag_outdoor"%string ->
         Sqlite.cell (Sqlite.columns t')
           (Loader.cut_row "tag_outdoor" Sample.two_records_table r) (Sqlite.col_name c)
         = Sqlite.cell (Sqlite.columns Sample.two_records_table) r (Sqlite.col_name c).
Proof.
  apply (drop_column_keeps_the_rest "tag_outdoor" Sample.two_records
           Sample.two_records_table).
  - reflexivity.
  - reflexivity.
  - left. reflexivity.
Defined.

(* ================================================================== *)
(** * Properties of adding a tag                                       *)
(* ================================================================== *)

Section AddTagFacts.
Import Sqlite Sqlite3.

Lemma eqb_nocase_sym (a b : string) : Str.eqb_nocase a b = Str.eqb_nocase b a.
Proof.
  unfold Str.eqb_nocase. generalize (Str.chars b). generalize (Str.chars a).
  induction l as [|x l IH]; intros [|y m]; simpl; try reflexivity.
  rewrite IH. f_equal. unfold Str.eqb_nocase_char. apply Ascii.eqb_sym.
Qed.

Lemma col_index_none (cols : list column) (n : string) (c : column) :
  col_index cols n = None -> In c cols -> Str.eqb_nocase (col_name c) n = false.
Proof.
  induction cols as [|k cols IH]; intros Hnone Hin; [destruct Hin|].
  simpl in Hnone. destruct (Str.eqb_nocase (col_name k) n) eqn:Hk; [discriminate|].
  destruct Hin as [<-|Hin]; [exact Hk|].
  apply IH; [|exact Hin]. destruct (col_index cols n); [discriminate|reflexivity].
Qed.

Lemma col_index_app_found (cols more : list column) (n : string) (i : nat) :
  col_index cols n = Some i -> col_index (cols ++ more) n = Some i.
Proof.
  revert i. induction cols as [|k cols IH]; intros i Hi; [discriminate|].
  simpl in *. destruct (Str.eqb_nocase (col_name k) n); [exact Hi|].
  destruct (col_index cols n) as [j|]; [|discriminate].
  rewrite (IH j eq_refl). exact Hi.
Qed.

Lemma col_index_app_new (cols : list column) (c : column) :
  col_index cols (col_name c) = None ->
  col_index (cols ++ [c]) (col_name c) = Some (length cols).
Proof.
  induction cols as [|k cols IH]; intros Hnone; simpl.
  - rewrite eqb_nocase_refl. reflexivity.
  - simpl in Hnone. destruct (Str.eqb_nocase (col_name k) (col_name c)); [discriminate|].
    destruct (col_index cols (col_name c)); [discriminate|].
    rewrite (IH eq_refl). reflexivity.
Qed.

(** [UPDATE ... SET col = v] on a row that has the new column last. *)
Lemma set_cells_last (cols : list column) (c : column) (v old : value) (r : list value) :
  length r = length cols ->
  col_index cols (col_name c) = None ->
  set_cells (cols ++ [c]) [(col_name c, v)] (r ++ [old]) = r ++ [v].
Proof.
  revert r. induction cols as [|k cols IH]; intros r Hlen Hnone.
  - destruct r; [|discriminate]. simpl. rewrite eqb_nocase_refl. reflexivity.
  - destruct r as [|x r]; [discriminate|].
    pose proof (col_index_none (k :: cols) (col_name c) k Hnone (or_introl eq_refl)) as Hk.
    simpl in Hnone. rewrite Hk in Hnone.
    simpl. rewrite eqb_nocase_sym, Hk. f_equal.
    apply IH; [simpl in Hlen; lia|].
    destruct (col_index cols (col_name c)); [discriminate|reflexivity].
Qed.

Lemma nth_first_app (A : Type) (r more : list A) (d : A) :
  r <> [] -> nth 0 (r ++ more) d = nth 0 r d.
Proof. destruct r; [contradiction|reflexivity]. Qed.

(** [add_new_tag] up to the point where it builds the check boxes
    again. *)
Lemma add_new_tag_writes (hdri_id : Z) (text : string) (w : Loader.world)
    (t : table) :
  tables (Loader.db w) = [("hdri"%string, t)] ->
  Loader.catalog_table t = true ->
  (Str.strip text = EmptyString -> Dialog.add_new_tag hdri_id text w = (None, w))
  /\ (Str.strip text <> EmptyString ->
      has_column t (Loader.safe_tag_column text) = true ->
      Dialog.add_new_tag hdri_id text w
      = (None,
         Loader.emit
           (Loader.Printed ("Error adding tag: duplicate column name: "
                            ++ Loader.safe_tag_column text))
           w))
  /\ (Str.strip text <> EmptyString ->
      has_column t (Loader.safe_tag_column text) = false ->
      Dialog.add_new_tag hdri_id text w
      = match Dialog.load_tags hdri_id
                (mkDatabase
                   [("hdri"%string,
                     mkTable
                       (columns t ++ [Loader.tag_column (Loader.safe_tag_column text)])
                       (map (fun r =>
                               r ++ [Int (if value_eqb (cell (columns t) r "id") (Int hdri_id)
                                          then 1 else 0)])
                            (rows t)))]
                   (sqlite_sequence (Loader.db w))) with
        | inl e =>
            (Some e,
             Loader.with_db
               (mkDatabase
                  [("hdri"%string,
                    mkTable
                      (columns t ++ [Loader.tag_column (Loader.safe_tag_column text)])
                      (map (fun r =>
                              r ++ [Int (if value_eqb (cell (columns t) r "id") (Int hdri_id)
                                         then 1 else 0)])
                           (rows t)))]
                  (sqlite_sequence (Loader.db w)))
               w)
        | inr _ =>
            (None,
             Loader.with_db
               (mkDatabase
                  [("hdri"%string,
                    mkTable
                      (columns t ++ [Loader.tag_column (Loader.safe_tag_column text)])
                      (map (fun r =>
                              r ++ [Int (if value_eqb (cell (columns t) r "id") (Int hdri_id)
                                         then 1 else 0)])
                           (rows t)))]
                  (sqlite_sequence (Loader.db w)))
               w)
        end).
Proof.
  intros Htab Hcat.
  destruct (catalog_table_parts t Hcat)
    as [[idc [others [Hcols [Hid [Hpk Hothers]]]]] [Hdist [Hlen [Hint [Hids Hnn]]]]].
  destruct w as [d files shown clock]. cbn [Loader.db] in *.
  destruct d as [tabs seq]. cbn [tables sqlite_sequence] in *. subst tabs.
  split; [|split].
  - intros Hempty. unfold Dialog.add_new_tag. rewrite Hempty. reflexivity.
  - intros Hne Hhas. unfold Dialog.add_new_tag.
    destruct (String.eqb_spec (Str.strip text) EmptyString) as [|_]; [contradiction|].
    rewrite safe_tag_column_strip.
    unfold bind, execute_ddl, add_column.
    cbn [Loader.db connect current in_transaction tables].
    rewrite lookup_here. cbn [col_name Loader.tag_column]. rewrite Hhas.
    reflexivity.
  - intros Hne Hhas. unfold Dialog.add_new_tag.
    destruct (String.eqb_spec (Str.strip text) EmptyString) as [|_]; [contradiction|].
    rewrite safe_tag_column_strip.
    set (col := Loader.safe_tag_column text) in *.
    assert (Hnone : col_index (columns t) (col_name (Loader.tag_column col)) = None).
    { unfold has_column in Hhas. cbn [col_name Loader.tag_column].
      destruct (col_index (columns t) col); [discriminate|reflexivity]. }
    unfold bind, execute_ddl, execute_dml, commit, no_value, add_column, update.
    cbn [Loader.db connect current committed in_transaction tables sqlite_sequence].
    rewrite lookup_here. cbn [col_name Loader.tag_column]. rewrite Hhas.
    cbn [current committed in_transaction set_table tables sqlite_sequence store].
    rewrite String.eqb_refl.
    cbn [current committed in_transaction set_table tables sqlite_sequence store].
    rewrite lookup_here. cbn [columns rows map fst snd app condition_column forallb].
    assert (Hcol : has_column
                     (mkTable (columns t ++ [Loader.tag_column col])
                        (map (fun r => r ++ [default_value (Loader.tag_column col)]) (rows t)))
                     col = true).
    { unfold has_column. cbn [columns].
      pose proof (col_index_app_new _ _ Hnone) as Hnew.
      cbn [col_name Loader.tag_column] in Hnew. rewrite Hnew. reflexivity. }
    assert (Hidx : col_index (columns t ++ [Loader.tag_column col]) "id" = Some 0).
    { apply col_index_app_found. rewrite Hcols. simpl. rewrite Hid. reflexivity. }
    assert (Hidc : has_column
                     (mkTable (columns t ++ [Loader.tag_column col])
                        (map (fun r => r ++ [default_value (Loader.tag_column col)]) (rows t)))
                     "id" = true).
    { unfold has_column. cbn [columns]. rewrite Hidx. reflexivity. }
    rewrite Hcol, Hidc. cbn [andb negb].
    unfold sets_null_in_notnull. cbn [existsb snd is_null andb orb].
    unfold set_table. cbn [committed current tables sqlite_sequence].
    rewrite !store_here.
    assert (Hrows :
      map (fun r => if matches (columns t ++ [Loader.tag_column col])
                         [Equals "id" (Int hdri_id)] r
                    then set_cells (columns t ++ [Loader.tag_column col]) [(col, Int 1)] r
                    else r)
          (map (fun r => r ++ [default_value (Loader.tag_column col)]) (rows t))
      = map (fun r => r ++ [Int (if value_eqb (cell (columns t) r "id") (Int hdri_id)
                                 then 1 else 0)])
            (rows t)).
    { rewrite map_map. apply map_ext_in. intros r Hr.
      unfold matches. cbn [forallb holds]. rewrite andb_true_r.
      unfold cell at 1. rewrite Hidx.
      assert (Hrne : r <> []).
      { intros ->. specialize (Hlen [] Hr). rewrite Hcols in Hlen. discriminate. }
      rewrite (nth_first_app _ _ _ _ Hrne).
      replace (cell (columns t) r "id") with (nth 0 r Null)
        by (rewrite Hcols; symmetry; apply id_cell; exact Hid).
      change (default_value (Loader.tag_column col)) with (Int 0).
      destruct (value_eqb (nth 0 r Null) (Int hdri_id)); [|reflexivity].
      change col with (col_name (Loader.tag_column col)) at 2.
      apply set_cells_last; [apply Hlen; exact Hr|exact Hnone]. }
    rewrite Hrows. reflexivity.
Qed.

End AddTagFacts.

(* ================================================================== *)
(** * Properties of ingestion                                          *)
(* ================================================================== *)

Section CatalogRows.
Import Sqlite Sqlite3.
Variables autoinc unique : bool.
Variable tags : list string.
Hypothesis Htags : forallb (Str.startswith "tag_") tags = true.

Let cols : list column := Loader.catalog_columns autoinc unique tags.

Lemma tag_name_head (n : string) :
  Str.startswith "tag_" n = true -> exists rest, n = String "t" rest.
Proof.
  unfold Str.startswith. intros H. destruct n as [|c n]; [discriminate|].
  cbn [String.prefix] in H.
  destruct (ascii_dec "t" c) as [<-|]; [eexists; reflexivity|discriminate].
Qed.

Lemma tag_in_tags (n : string) : In n tags -> exists rest, n = String "t" rest.
Proof.
  intros Hn. apply tag_name_head.
  rewrite forallb_forall in Htags. apply Htags. exact Hn.
Qed.

Lemma catalog_id_cell (r : list value) : cell cols r "id" = nth 0 r Null.
Proof. reflexivity. Qed.

Lemma catalog_hash_cell (r : list value) : cell cols r "hash" = nth 5 r Null.
Proof. reflexivity. Qed.

(** The row the [INSERT] of [add_hdri] makes. *)
Lemma catalog_new_row (fresh : Z) (stored : list (list value))
    (hdri_name current_date image_hash : string) :
  new_row fresh (mkTable cols stored)
    ["file_path"; "preview_path"; "name"; "upload_date"; "hash"]%string
    [Text EmptyString; Text EmptyString; Text hdri_name; Text current_date; Text image_hash]
  = Loader.record_row fresh EmptyString EmptyString hdri_name current_date image_hash tags.
Proof.
  unfold new_row, Loader.record_row. cbn [columns]. unfold cols, Loader.catalog_columns.
  rewrite map_app. f_equal. rewrite map_map. apply map_ext_in.
  intros n Hn. destruct (tag_in_tags n Hn) as [rest ->]. reflexivity.
Qed.

Lemma record_row_notnull (hdri_id : Z) (fp pp nm dt h : string) :
  violates_notnull cols (Loader.record_row hdri_id fp pp nm dt h tags) = false.
Proof.
  unfold violates_notnull, cols, Loader.catalog_columns. rewrite existsb_app.
  apply orb_false_iff. split; [reflexivity|].
  apply existsb_all_false. intros c Hc.
  apply in_map_iff in Hc. destruct Hc as [n [<- _]]. reflexivity.
Qed.

Lemma fold_max_bound (l : list Z) (x z : Z) :
  In z (x :: l) -> (z <= fold_right Z.max x l)%Z.
Proof.
  induction l as [|y l IH]; intros Hin.
  - destruct Hin as [->|[]]. cbn [fold_right]. lia.
  - cbn [fold_right]. destruct Hin as [->|[->|Hin]].
    + specialize (IH (or_introl eq_refl)). lia.
    + lia.
    + specialize (IH (or_intror Hin)). lia.
Qed.

Lemma catalog_fresh_rowid (d : database) (stored : list (list value)) (r : list value) :
  In r stored ->
  value_eqb (nth 0 r Null) (Int (next_rowid d "hdri" (mkTable cols stored))) = false.
Proof.
  intros Hr. destruct (nth 0 r Null) as [|z|s] eqn:Hz; try reflexivity.
  cbn [value_eqb]. apply Z.eqb_neq.
  assert (Hmax : (z <= max_rowid (mkTable cols stored))%Z).
  { unfold max_rowid.
    change (rowids (mkTable cols stored)) with (map (rowid_at 0) stored).
    assert (Hin : In z (map (rowid_at 0) stored)).
    { replace z with (rowid_at 0 r) by (unfold rowid_at; rewrite Hz; reflexivity).
      apply in_map. exact Hr. }
    destruct (map (rowid_at 0) stored) as [|x ids]; [destruct Hin|].
    apply fold_max_bound. exact Hin. }
  unfold next_rowid. destruct (autoincrement (mkTable cols stored)); lia.
Qed.

Lemma record_row_unique (d : database) (stored : list (list value))
    (fp pp nm dt h : string) :
  Loader.has_hash h (mkTable cols stored) = false ->
  violates_unique (mkTable cols stored)
    (Loader.record_row (next_rowid d "hdri" (mkTable cols stored)) fp pp nm dt h tags) = false.
Proof.
  intros Hnew. unfold violates_unique. cbn [columns rows].
  match goal with
  | |- existsb ?f cols = false =>
      change (existsb f (Loader.catalog_columns autoinc unique tags) = false)
  end.
  unfold Loader.catalog_columns. rewrite existsb_app.
  apply orb_false_iff. split.
  - cbn [existsb col_unique col_pk col_name orb andb].
    rewrite !orb_false_r.
    apply orb_false_iff. split.
    + apply existsb_all_false. intros r Hr.
      apply (catalog_fresh_rowid d stored r Hr).
    + apply andb_false_iff. right. exact Hnew.
  - apply existsb_all_false. intros c Hc.
    apply in_map_iff in Hc. destruct Hc as [n [<- _]]. reflexivity.
Qed.

(** [UPDATE ... SET file_path, preview_path] leaves the tag cells. *)
Lemma set_paths_tags (some_tags : list string) (sets : list (string * value)) :
  (forall n, In n some_tags -> exists rest, n = String "t" rest) ->
  map fst sets = ["file_path"; "preview_path"]%string ->
  set_cells (map Loader.tag_column some_tags) sets (map (fun _ => Int 0) some_tags)
  = map (fun _ => Int 0) some_tags.
Proof.
  intros Hhead Hsets. induction some_tags as [|n more IH]; [reflexivity|].
  cbn [map set_cells]. rewrite Hsets.
  destruct (Hhead n (or_introl eq_refl)) as [rest ->].
  destruct (map snd sets) as [|v1 [|v2 vs]]; cbn [Loader.tag_column col_name assigned];
    (f_equal; try reflexivity; apply IH; intros m Hm; apply Hhead; right; exact Hm).
Qed.

Lemma record_row_completed (hdri_id : Z) (fp pp nm dt h : string) :
  set_cells cols [("file_path"%string, Text fp); ("preview_path"%string, Text pp)]
    (Loader.record_row hdri_id EmptyString EmptyString nm dt h tags)
  = Loader.record_row hdri_id fp pp nm dt h tags.
Proof.
  unfold cols, Loader.catalog_columns, Loader.record_row.
  cbn [app set_cells]. do 6 (apply (f_equal2 cons); [reflexivity|]).
  apply set_paths_tags; [exact tag_in_tags|reflexivity].
Qed.

End CatalogRows.

Section IngestPhases.
Import Sqlite Sqlite3.
Variables autoinc unique : bool.
Variable tags : list string.
Hypothesis Htags : forallb (Str.startswith "tag_") tags = true.

Let cols : list column := Loader.catalog_columns autoinc unique tags.

Lemma find_hash_rows (stored : list (list value)) (seq : list (string * Z)) (h : string) :
  Loader.find_hash h (connect (mkDatabase [("hdri"%string, mkTable cols stored)] seq))
  = (inr (map (fun r => [cell cols r "id"])
              (filter (fun r => value_eqb (cell cols r "hash") (Text h)) stored)),
     connect (mkDatabase [("hdri"%string, mkTable cols stored)] seq)).
Proof.
  unfold Loader.find_hash, fetch, select. cbn [connect current tables].
  rewrite lookup_here.
  replace (forallb _ _) with true by reflexivity.
  cbn [negb columns rows]. f_equal. f_equal. f_equal.
  apply filter_ext. intros r. unfold matches. cbn [forallb holds]. apply andb_true_r.
Qed.

Lemma first_phase_duplicate (stored : list (list value)) (seq : list (string * Z))
    (nm dt h : string) :
  Loader.has_hash h (mkTable cols stored) = true ->
  with_connection (Loader.first_phase nm dt h)
    (mkDatabase [("hdri"%string, mkTable cols stored)] seq)
  = (inr None, mkDatabase [("hdri"%string, mkTable cols stored)] seq).
Proof.
  intros Hhas. unfold with_connection, Loader.first_phase, bind.
  rewrite find_hash_rows.
  unfold Loader.has_hash in Hhas. cbn [columns rows] in Hhas.
  apply existsb_exists in Hhas. destruct Hhas as [r [Hr Hh]].
  destruct (filter (fun r => value_eqb (cell cols r "hash") (Text h)) stored) eqn:Hf.
  - assert (Hin : In r []) by (rewrite <- Hf; apply filter_In; split; assumption).
    destruct Hin.
  - reflexivity.
Qed.

Lemma filter_none (A : Type) (f : A -> bool) (l : list A) :
  existsb f l = false -> filter f l = [].
Proof.
  induction l as [|x l IH]; simpl; [reflexivity|].
  intros H. apply orb_false_iff in H. destruct H as [-> H]. apply IH. exact H.
Qed.

Lemma first_phase_new (stored : list (list value)) (seq : list (string * Z))
    (nm dt h : string) :
  Loader.has_hash h (mkTable cols stored) = false ->
  exists seq',
    with_connection (Loader.first_phase nm dt h)
      (mkDatabase [("hdri"%string, mkTable cols stored)] seq)
    = (inr (Some (next_rowid (mkDatabase [("hdri"%string, mkTable cols stored)] seq)
                    "hdri" (mkTable cols stored))),
       mkDatabase
         [("hdri"%string,
           mkTable cols
             (stored
              ++ [Loader.record_row
                    (next_rowid (mkDatabase [("hdri"%string, mkTable cols stored)] seq)
                       "hdri" (mkTable cols stored))
                    EmptyString EmptyString nm dt h tags]))]
         seq').
Proof.
  intros Hnew. unfold with_connection, Loader.first_phase, bind.
  assert (Hnone : existsb (fun r => value_eqb (cell cols r "hash") (Text h)) stored = false)
    by exact Hnew.
  rewrite find_hash_rows. rewrite (filter_none _ _ _ Hnone). cbn [map].
  unfold Loader.create_record, bind, execute_dml, commit, ret, insert_into.
  cbn [connect current committed in_transaction tables sqlite_sequence].
  rewrite lookup_here.
  replace (forallb _ _) with true by reflexivity.
  cbn [length Nat.eqb negb orb].
  rewrite (catalog_new_row autoinc unique tags Htags).
  cbn [columns].
  rewrite (record_row_notnull autoinc unique tags).
  rewrite (record_row_unique autoinc unique tags _ _ _ _ _ _ _ Hnew).
  eexists. cbn [current committed]. rewrite store_here. reflexivity.
Qed.

Lemma complete_phase (stored : list (list value)) (seq : list (string * Z))
    (hdri_id : Z) (fp pp nm dt h : string) :
  (forall r, In r stored -> value_eqb (nth 0 r Null) (Int hdri_id) = false) ->
  with_connection (Loader.complete_record hdri_id fp pp)
    (mkDatabase
       [("hdri"%string,
         mkTable cols
           (stored ++ [Loader.record_row hdri_id EmptyString EmptyString nm dt h tags]))]
       seq)
  = (inr tt,
     mkDatabase
       [("hdri"%string,
         mkTable cols (stored ++ [Loader.record_row hdri_id fp pp nm dt h tags]))]
       seq).
Proof.
  intros Hother. unfold with_connection, Loader.complete_record, bind, execute_dml, commit,
    no_value, update.
  cbn [connect current committed in_transaction tables sqlite_sequence].
  rewrite lookup_here.
  replace (forallb _ _) with true by reflexivity.
  replace (sets_null_in_notnull _ _) with false by reflexivity.
  cbn [negb andb columns rows current committed]. unfold set_table.
  cbn [tables sqlite_sequence]. rewrite store_here.
  f_equal. f_equal. f_equal. f_equal. f_equal.
  rewrite map_app. f_equal.
  - rewrite <- (map_id stored) at 2. apply map_ext_in. intros r Hr.
    unfold matches. cbn [forallb holds]. rewrite andb_true_r.
    change (cell cols r "id") with (nth 0 r Null).
    rewrite (Hother r Hr). reflexivity.
  - cbn [map]. f_equal.
    unfold matches. cbn [forallb holds]. rewrite andb_true_r.
    change (cell cols (Loader.record_row hdri_id EmptyString EmptyString nm dt h tags) "id")
      with (Int hdri_id).
    cbn [value_eqb]. rewrite Z.eqb_refl.
    apply (record_row_completed autoinc unique tags Htags).
Qed.

End IngestPhases.

Section IngestFacts.
Import Sqlite Sqlite3.
Variable HDRI_STORAGE_FOLDER : string.
Variable image_hash_of : string -> option string.
Variable isoformat_now : nat -> string.
Variable copy_fails : string -> bool.
Variable preview_fails : string -> bool.
Variables autoinc unique : bool.
Variable tags : list string.
Hypothesis Htags : forallb (Str.startswith "tag_") tags = true.

Let cols : list column := Loader.catalog_columns autoinc unique tags.
Let add_one : string -> Loader.world -> option Loader.exception * Loader.world :=
  Loader.add_one HDRI_STORAGE_FOLDER image_hash_of isoformat_now copy_fails preview_fails.

Lemma add_one_duplicate (stored : list (list value)) (seq : list (string * Z))
    (files : list string) (shown : list Loader.event) (clock : nat) (p h : string) :
  image_hash_of p = Some h ->
  Loader.has_hash h (mkTable cols stored) = true ->
  add_one p (Loader.mkWorld (mkDatabase [("hdri"%string, mkTable cols stored)] seq)
               files shown clock)
  = (None,
     Loader.emit (Loader.duplicate_warning p)
       (Loader.mkWorld (mkDatabase [("hdri"%string, mkTable cols stored)] seq)
          files shown clock)).
Proof.
  intros Hhash Hhas. unfold add_one, Loader.add_one. rewrite Hhash.
  cbn [Loader.db]. rewrite (first_phase_duplicate autoinc unique tags _ _ _ _ _ Hhas).
  reflexivity.
Qed.

Lemma hash_count_one (stored : list (list value)) (hdri_id : Z) (fp pp nm dt h : string) :
  Loader.has_hash h (mkTable cols stored) = false ->
  Loader.hash_count h
    (mkTable cols (stored ++ [Loader.record_row hdri_id fp pp nm dt h tags])) = 1
  /\ Loader.has_hash h
       (mkTable cols (stored ++ [Loader.record_row hdri_id fp pp nm dt h tags])) = true.
Proof.
  intros Hnew.
  assert (Hnone : existsb (fun r => value_eqb (cell cols r "hash") (Text h)) stored = false)
    by exact Hnew.
  assert (Hrow : value_eqb (cell cols (Loader.record_row hdri_id fp pp nm dt h tags) "hash")
                           (Text h) = true).
  { change (cell cols (Loader.record_row hdri_id fp pp nm dt h tags) "hash") with (Text h).
    apply String.eqb_refl. }
  split.
  - unfold Loader.hash_count. cbn [columns rows].
    rewrite filter_app, (filter_none _ _ _ Hnone). cbn [filter app]. rewrite Hrow. reflexivity.
  - unfold Loader.has_hash. cbn [columns rows].
    rewrite existsb_app. cbn [existsb]. rewrite Hrow. apply orb_true_iff. right. reflexivity.
Qed.

(** What one pass of the loop does for a file whose hash is not stored:
    the record is inserted with empty paths; if the copy fails the
    exception leaves with the record as it is, otherwise the paths are
    written, whether the preview was made or not. *)
Lemma add_one_new (stored : list (list value)) (seq : list (string * Z))
    (files : list string) (shown : list Loader.event) (clock : nat) (p h : string) :
  image_hash_of p = Some h ->
  Loader.has_hash h (mkTable cols stored) = false ->
  exists seq',
    add_one p (Loader.mkWorld (mkDatabase [("hdri"%string, mkTable cols stored)] seq)
                 files shown clock)
    = (let hdri_id := next_rowid (mkDatabase [("hdri"%string, mkTable cols stored)] seq)
                        "hdri" (mkTable cols stored) in
       let hdri_name := Str.splitext_root (Str.basename p) in
       let hdri_folder :=
         Str.join HDRI_STORAGE_FOLDER (Str.format_05d hdri_id ++ "_" ++ hdri_name) in
       let new_file_path := Str.join hdri_folder (Str.basename p) in
       let preview_path := Str.join hdri_folder "preview.jpg" in
       if copy_fails p
       then (Some (Loader.OSError ("cannot copy " ++ p)),
             Loader.mkWorld
               (mkDatabase
                  [("hdri"%string,
                    mkTable cols
                      (stored ++ [Loader.record_row hdri_id EmptyString EmptyString hdri_name
                                    (isoformat_now clock) h tags]))]
                  seq')
               (files ++ [hdri_folder]) shown (S clock))
       else (None,
             Loader.mkWorld
               (mkDatabase
                  [("hdri"%string,
                    mkTable cols
                      (stored ++ [Loader.record_row hdri_id new_file_path preview_path
                                    hdri_name (isoformat_now clock) h tags]))]
                  seq')
               (if preview_fails new_file_path
                then (files ++ [hdri_folder]) ++ [new_file_path]
                else ((files ++ [hdri_folder]) ++ [new_file_path]) ++ [preview_path])
               (shown
                ++ [if preview_fails new_file_path
                    then Loader.Printed ("Error generating preview for " ++ new_file_path)
                    else Loader.Printed ("Preview generated: " ++ preview_path)])
               (S clock))).
Proof.
  intros Hhash Hnew.
  destruct (first_phase_new autoinc unique tags Htags stored seq
              (Str.splitext_root (Str.basename p)) (isoformat_now clock) h Hnew)
    as [seq' Hfirst].
  fold cols in Hfirst.
  exists seq'. unfold add_one, Loader.add_one. rewrite Hhash.
  cbn [Loader.db Loader.clock]. rewrite Hfirst. cbv zeta.
  destruct (copy_fails p); [reflexivity|].
  unfold Loader.generate_preview, Loader.with_file, Loader.emit.
  cbn [Loader.db Loader.files Loader.shown Loader.clock].
  destruct (preview_fails _);
    cbn [Loader.db Loader.files Loader.shown Loader.clock];
    rewrite (complete_phase autoinc unique tags Htags)
      by (intros r Hr; apply (catalog_fresh_rowid autoinc unique tags _ stored r Hr));
    reflexivity.
Qed.

End IngestFacts.

(** C1, as the code has it: when the hash computed for a file is the hash
    of a stored record, the pass shows the duplicate warning, which names
    the file picked, and changes nothing else: no record is made, no file
    is copied, the rows stay as they are.  When the hash is not stored, one
    record with it is stored, and the same file picked again is rejected so:
    the hash is on exactly one record. *)
Theorem duplicate_is_rejected
    (HDRI_STORAGE_FOLDER : string) (image_hash_of : string -> option string)
    (isoformat_now : nat -> string) (copy_fails preview_fails : string -> bool)
    (autoinc unique : bool) (tags : list string) (stored : list (list Sqlite.value))
    (seq : list (string * Z)) (files : list string) (shown : list Loader.event)
    (clock : nat) (file_path h : string) :
  forallb (Str.startswith "tag_") tags = true ->
  image_hash_of file_path = Some h ->
  let add_one :=
    Loader.add_one HDRI_STORAGE_FOLDER image_hash_of isoformat_now copy_fails preview_fails in
  let t := Sqlite.mkTable (Loader.catalog_columns autoinc unique tags) stored in
  let w := Loader.mkWorld (Sqlite.mkDatabase [("hdri"%string, t)] seq) files shown clock in
  (Loader.has_hash h t = true ->
   add_one file_path w = (None, Loader.emit (Loader.duplicate_warning file_path) w))
  /\ (Loader.has_hash h t = false ->
      exists outcome w1 t1,
        add_one file_path w = (outcome, w1)
        /\ Sqlite.tables (Loader.db w1) = [("hdri"%string, t1)]
        /\ Sqlite.columns t1 = Sqlite.columns t
        /\ length (Sqlite.rows t1) = S (length stored)
        /\ Loader.hash_count h t1 = 1
        /\ add_one file_path w1
           = (None, Loader.emit (Loader.duplicate_warning file_path) w1)).
Proof.
  intros Htags Hhash add_one t w. split.
  - intros Hhas.
    apply (add_one_duplicate HDRI_STORAGE_FOLDER image_hash_of isoformat_now copy_fails
             preview_fails autoinc unique tags stored seq files shown clock file_path h
             Hhash Hhas).
  - intros Hnew.
    destruct (add_one_new HDRI_STORAGE_FOLDER image_hash_of isoformat_now copy_fails
                preview_fails autoinc unique tags Htags stored seq files shown clock
                file_path h Hhash Hnew) as [seq' Hrun].
    cbv zeta in Hrun. unfold add_one, w, t.
    destruct (copy_fails file_path);
      rewrite Hrun;
      (eexists; eexists; eexists; split; [reflexivity|]);
      (split; [reflexivity|]); (split; [reflexivity|]);
      (split; [cbn [Sqlite.rows]; rewrite length_app; cbn [length]; lia|]);
      match goal with
      | |- Loader.hash_count h (Sqlite.mkTable _ (_ ++ [Loader.record_row ?i ?a ?b ?c ?d _ _]))
           = 1 /\ _ =>
          destruct (hash_count_one autoinc unique tags stored i a b c d h Hnew)
            as [Hcount Hhas]
      end;
      (split; [exact Hcount|]);
      apply (add_one_duplicate HDRI_STORAGE_FOLDER image_hash_of isoformat_now copy_fails
               preview_fails autoinc unique tags _ _ _ _ _ file_path h Hhash Hhas).
Qed.

Lemma duplicate_is_rejected_witness :
  Sample.sample_add_one "/in/sunset.hdr" Sample.started
  = (None, Loader.emit (Loader.duplicate_warning "/in/sunset.hdr") Sample.started).
Proof.
  apply (proj1 (duplicate_is_rejected "/store" Sample.sample_hash Sample.sample_clock
                  Sample.sample_copy_fails Sample.never true true ["tag_outdoor"%string]
                  [Sample.desert; Sample.forest] [("hdri"%string, 2%Z)] [] [] 0
                  "/in/sunset.hdr" "c3c1e0f0783c1e0f" eq_refl eq_refl)).
  reflexivity.
Defined.

(** C1, counterexample: the file [sunset.hdr] has the hash of record 1 in
    one catalog and of record 2 in the other, and the warning shown is the
    same in both: it names the file, not the record found. *)
Lemma duplicate_warning_names_the_file :
  fst (Sqlite3.with_connection (Loader.find_hash "c3c1e0f0783c1e0f") Sample.two_records)
  = inr [[Sqlite.Int 1]]
  /\ fst (Sqlite3.with_connection (Loader.find_hash "c3c1e0f0783c1e0f")
            Sample.two_records_swapped)
     = inr [[Sqlite.Int 2]]
  /\ Loader.shown (snd (Sample.sample_add_one "/in/sunset.hdr" Sample.started))
     = [Loader.WarningBox "Duplicate HDRI"
          "Image sunset.hdr already exists in the database."]
  /\ Loader.shown (snd (Sample.sample_add_one "/in/sunset.hdr" Sample.started_swapped))
     = [Loader.WarningBox "Duplicate HDRI"
          "Image sunset.hdr already exists in the database."].
Proof.
  repeat split; reflexivity.
Qed.

(** C3, as the code has it: for a file whose hash is not stored, the
    record is committed with its hash and empty paths before anything is
    copied.  If the copy fails, the exception leaves [add_hdri] and the
    record stays so: any later pass for a file with that hash, whatever the
    copy would do then, finds it and is rejected as a duplicate.  If the
    copy succeeds, the second statement writes both paths, whether the
    preview could be made or not.  Only the first phase looks at the
    hash. *)
Theorem failed_copy_leaves_record
    (HDRI_STORAGE_FOLDER : string) (image_hash_of : string -> option string)
    (isoformat_now : nat -> string) (copy_fails preview_fails : string -> bool)
    (autoinc unique : bool) (tags : list string) (stored : list (list Sqlite.value))
    (seq : list (string * Z)) (files : list string) (shown : list Loader.event)
    (clock : nat) (file_path h : string) :
  forallb (Str.startswith "tag_") tags = true ->
  image_hash_of file_path = Some h ->
  let cols := Loader.catalog_columns autoinc unique tags in
  let d := Sqlite.mkDatabase [("hdri"%string, Sqlite.mkTable cols stored)] seq in
  let w := Loader.mkWorld d files shown clock in
  let hdri_id := Sqlite.next_rowid d "hdri" (Sqlite.mkTable cols stored) in
  let hdri_name := Str.splitext_root (Str.basename file_path) in
  let hdri_folder :=
    Str.join HDRI_STORAGE_FOLDER (Str.format_05d hdri_id ++ "_" ++ hdri_name) in
  Loader.has_hash h (Sqlite.mkTable cols stored) = false ->
  (copy_fails file_path = true ->
   exists seq',
     let w1 :=
       Loader.mkWorld
         (Sqlite.mkDatabase
            [("hdri"%string,
              Sqlite.mkTable cols
                (stored ++ [Loader.record_row hdri_id EmptyString EmptyString hdri_name
                              (isoformat_now clock) h tags]))]
            seq')
         (files ++ [hdri_folder]) shown (S clock) in
     Loader.add_one HDRI_STORAGE_FOLDER image_hash_of isoformat_now copy_fails preview_fails
       file_path w
     = (Some (Loader.OSError ("cannot copy " ++ file_path)), w1)
     /\ forall folder' hash_of' now' copy_fails' preview_fails' file_path',
          hash_of' file_path' = Some h ->
          Loader.add_one folder' hash_of' now' copy_fails' preview_fails' file_path' w1
          = (None, Loader.emit (Loader.duplicate_warning file_path') w1))
  /\ (copy_fails file_path = false ->
      exists seq' w2,
        Loader.add_one HDRI_STORAGE_FOLDER image_hash_of isoformat_now copy_fails
          preview_fails file_path w
        = (None, w2)
        /\ Loader.db w2
           = Sqlite.mkDatabase
               [("hdri"%string,
                 Sqlite.mkTable cols
                   (stored ++ [Loader.record_row hdri_id
                                 (Str.join hdri_folder (Str.basename file_path))
                                 (Str.join hdri_folder "preview.jpg")
                                 hdri_name (isoformat_now clock) h tags]))]
               seq').
Proof.
  intros Htags Hhash cols d w hdri_id hdri_name hdri_folder Hnew.
  destruct (add_one_new HDRI_STORAGE_FOLDER image_hash_of isoformat_now copy_fails
              preview_fails autoinc unique tags Htags stored seq files shown clock
              file_path h Hhash Hnew) as [seq' Hrun].
  cbv zeta in Hrun. split.
  - intros Hcopy. rewrite Hcopy in Hrun. exists seq'. cbv zeta.
    split; [exact Hrun|].
    intros folder' hash_of' now' copy_fails' preview_fails' file_path' Hhash'.
    apply (add_one_duplicate folder' hash_of' now' copy_fails' preview_fails'
             autoinc unique tags _ _ _ _ _ file_path' h Hhash').
    apply (hash_count_one autoinc unique tags stored _ _ _ _ _ h Hnew).
  - intros Hcopy. rewrite Hcopy in Hrun. exists seq'. eexists.
    split; [exact Hrun|reflexivity].
Qed.

Lemma failed_copy_leaves_record_witness :
  exists seq',
    Sample.sample_add_one "/broken/meadow.hdr" Sample.started
    = (Some (Loader.OSError "cannot copy /broken/meadow.hdr"),
       Loader.mkWorld
         (Sqlite.mkDatabase
            [("hdri"%string,
              Sqlite.mkTable (Loader.catalog_columns true true ["tag_outdoor"%string])
                ([Sample.desert; Sample.forest]
                 ++ [Loader.record_row 3 EmptyString EmptyString "meadow"
                       "2024-06-01T12:00:00" "0f0f33cc55aa9966" ["tag_outdoor"%string]]))]
            seq')
         ([] ++ ["/store/00003_meadow"%string]) [] 1).
Proof.
  destruct (proj1 (failed_copy_leaves_record "/store" Sample.sample_hash Sample.sample_clock
                     Sample.sample_copy_fails Sample.never true true ["tag_outdoor"%string]
                     [Sample.desert; Sample.forest] [("hdri"%string, 2%Z)] [] [] 0
                     "/broken/meadow.hdr" "0f0f33cc55aa9966" eq_refl eq_refl eq_refl)
                  eq_refl) as [seq' [Hrun _]].
  exists seq'. exact Hrun.
Defined.

(** C3, counterexample: the copy of [/broken/meadow.hdr] fails after its
    record was stored; the record stays with its hash and empty paths, and
    picking the same image again from where it can be copied is answered
    with the duplicate warning. *)
Lemma orphan_blocks_reingest :
  fst (Sample.sample_add_one "/broken/meadow.hdr" Sample.started)
  = Some (Loader.OSError "cannot copy /broken/meadow.hdr")
  /\ option_map Sqlite.rows
       (Sqlite.lookup "hdri"
          (Sqlite.tables
             (Loader.db (snd (Sample.sample_add_one "/broken/meadow.hdr" Sample.started)))))
     = Some [Sample.desert; Sample.forest;
             [Sqlite.Int 3; Sqlite.Text EmptyString; Sqlite.Text EmptyString;
              Sqlite.Text "meadow"; Sqlite.Text "2024-06-01T12:00:00";
              Sqlite.Text "0f0f33cc55aa9966"; Sqlite.Int 0]]
  /\ Sample.sample_copy_fails "/in/meadow.hdr" = false
  /\ Sample.sample_add_one "/in/meadow.hdr"
       (snd (Sample.sample_add_one "/broken/meadow.hdr" Sample.started))
     = (None,
        Loader.emit (Loader.duplicate_warning "/in/meadow.hdr")
          (snd (Sample.sample_add_one "/broken/meadow.hdr" Sample.started))).
Proof.
  repeat split; vm_compute; reflexivity.
Qed.

(* ================================================================== *)
(** * Record ids across a tag removal                                  *)
(* ================================================================== *)

(** With [AUTOINCREMENT] a new rowid is above every rowid the table ever
    held; without it, it is the largest stored rowid plus one, which a
    deleted record may have had. *)
Lemma next_rowid_autoincrement (d : Sqlite.database) (tname : string) (t : Sqlite.table) :
  Sqlite.autoincrement t = true ->
  (Sqlite.sequence_of d tname < Sqlite.next_rowid d tname t)%Z.
Proof.
  intros Hauto. unfold Sqlite.next_rowid, Sqlite.sequence_of. rewrite Hauto. lia.
Qed.

Lemma next_rowid_plain (d : Sqlite.database) (tname : string) (t : Sqlite.table) :
  Sqlite.autoincrement t = false ->
  Sqlite.next_rowid d tname t = (Sqlite.max_rowid t + 1)%Z.
Proof.
  intros Hauto. unfold Sqlite.next_rowid. rewrite Hauto. reflexivity.
Qed.

Example hdri_columns_shape : Loader.hdri_columns = Loader.catalog_columns true true [].
Proof. reflexivity. Qed.

(** The column text the rebuild makes for [id] says nothing of
    [AUTOINCREMENT], and the rebuilt table has no [sqlite_sequence]
    entry. *)
Lemma rebuild_drops_autoincrement :
  map Loader.col_def_text
      (filter (fun col => negb (String.eqb (Sqlite.name col) "tag_outdoor"))
              (Sqlite.table_info Sample.two_records "hdri"))
  = ["id INTEGER PRIMARY KEY"; "file_path TEXT NOT NULL"; "preview_path TEXT NOT NULL";
     "name TEXT NOT NULL"; "upload_date TEXT NOT NULL"; "hash TEXT"]%string
  /\ Sqlite.sqlite_sequence
       (Loader.db (Loader.delete_tag Loader.no_fault "tag_outdoor" Sample.started))
     = [].
Proof.
  split; reflexivity.
Qed.

(** C4, the failing run: on the catalog with records 1 and 2, the tag is
    removed, record 2 is deleted and a new image is added.  The new record
    gets id 2 again.  Without the tag removal it gets id 3. *)
Theorem id_reassigned_after_tag_removal :
  option_map Sqlite.rows
    (Sqlite.lookup "hdri"
       (Sqlite.tables
          (Loader.db
             (snd (Sample.sample_add_one "/in/meadow.hdr"
                     (Loader.delete_hdri Sample.never true 2
                        "/store/00002_forest_dusk/forest_dusk.exr"
                        (Loader.delete_tag Loader.no_fault "tag_outdoor" Sample.started)))))))
  = Some [[Sqlite.Int 1; Sqlite.Text "/store/00001_desert_noon/desert_noon.hdr";
           Sqlite.Text "/store/00001_desert_noon/preview.jpg"; Sqlite.Text "desert_noon";
           Sqlite.Text "2024-05-01T10:00:00"; Sqlite.Text "c3c1e0f0783c1e0f"];
          [Sqlite.Int 2; Sqlite.Text "/store/00002_meadow/meadow.hdr";
           Sqlite.Text "/store/00002_meadow/preview.jpg"; Sqlite.Text "meadow";
           Sqlite.Text "2024-06-01T12:00:00"; Sqlite.Text "0f0f33cc55aa9966"]]
  /\ option_map (map (Sqlite.rowid_at 0))
       (option_map Sqlite.rows
          (Sqlite.lookup "hdri"
             (Sqlite.tables
                (Loader.db
                   (snd (Sample.sample_add_one "/in/meadow.hdr"
                           (Loader.delete_hdri Sample.never true 2
                              "/store/00002_forest_dusk/forest_dusk.exr"
                              Sample.started)))))))
     = Some [1%Z; 3%Z].
Proof.
  split; vm_compute; reflexivity.
Qed.

(* ================================================================== *)
(** * More on the Hamming distance and on equality of hashes           *)
(* ================================================================== *)

Lemma count_differing_sym (a b : list bool) :
  PHash.count_differing a b = PHash.count_differing b a.
Proof.
  revert b. induction a as [|x a IH]; intros [|y b]; simpl; try reflexivity.
  rewrite IH. destruct x, y; reflexivity.
Qed.

Lemma count_differing_le (a b : list bool) : PHash.count_differing a b <= length a.
Proof.
  revert b. induction a as [|x a IH]; intros [|y b]; simpl; try lia.
  specialize (IH b). destruct (Bool.eqb x y); lia.
Qed.

Lemma count_differing_zero (a b : list bool) :
  length a = length b ->
  (PHash.count_differing a b = 0 <-> PHash.array_equal a b = true).
Proof.
  revert b. induction a as [|x a IH]; intros [|y b] Hlen; simpl in *; try discriminate.
  - split; reflexivity.
  - injection Hlen as Hlen. specialize (IH b Hlen).
    destruct (Bool.eqb x y); simpl.
    + exact IH.
    + split; [lia|discriminate].
Qed.

Lemma array_equal_length (a b : list bool) :
  PHash.array_equal a b = true -> length a = length b.
Proof.
  revert b. induction a as [|x a IH]; intros [|y b] H; simpl in *; try discriminate.
  - reflexivity.
  - apply andb_true_iff in H. destruct H as [_ H]. f_equal. apply IH. exact H.
Qed.

Lemma array_equal_eq (a b : list bool) : PHash.array_equal a b = true <-> a = b.
Proof.
  revert b. induction a as [|x a IH]; intros [|y b]; simpl; split; intros H;
    try discriminate; try reflexivity.
  - apply andb_true_iff in H. destruct H as [Hxy H].
    apply Bool.eqb_prop in Hxy. apply IH in H. congruence.
  - injection H as -> ->. rewrite Bool.eqb_reflx. apply IH. reflexivity.
Qed.

Lemma count_differing_triangle (a b c : list bool) :
  length a = length b -> length b = length c ->
  PHash.count_differing a c <= PHash.count_differing a b + PHash.count_differing b c.
Proof.
  revert b c. induction a as [|x a IH]; intros [|y b] [|z c] Hab Hbc; simpl in *;
    try discriminate; try lia.
  injection Hab as Hab. injection Hbc as Hbc. specialize (IH b c Hab Hbc).
  destruct x, y, z; simpl; lia.
Qed.

(** [__sub__] does not depend on the order of its operands: [a - b] and
    [b - a] raise together or are the same number. *)
Theorem sub_symmetric (a b : PHash.ImageHash) :
  PHash.sub a (Some b) = PHash.sub b (Some a).
Proof.
  unfold PHash.sub. rewrite (Nat.eqb_sym (PHash.size b)).
  destruct (PHash.size a =? PHash.size b); cbn [negb]; [|reflexivity].
  rewrite count_differing_sym. reflexivity.
Qed.

(** [__sub__] and [__eq__] agree: the distance of two hashes is computed
    and is 0 exactly when [==] holds, which is when the flattened arrays
    are the same.  Hashes of different bit counts are neither at distance
    0 nor equal. *)
Theorem sub_zero_iff_eq (a b : PHash.ImageHash) :
  (PHash.sub a (Some b) = inr 0 <-> PHash.eq a (Some b) = true)
  /\ (PHash.eq a (Some b) = true
      <-> PHash.flatten (PHash.hash a) = PHash.flatten (PHash.hash b)).
Proof.
  split; [|apply array_equal_eq].
  unfold PHash.sub, PHash.eq, PHash.size.
  destruct (Nat.eqb_spec (length (PHash.flatten (PHash.hash a)))
                         (length (PHash.flatten (PHash.hash b)))) as [Hlen|Hlen]; cbn [negb].
  - rewrite <- (count_differing_zero _ _ Hlen). split; congruence.
  - split; [discriminate|].
    intros H. apply array_equal_length in H. contradiction.
Qed.

(** With a third hash: when [a - b] and [b - c] are computed, so is
    [a - c], it is at most their sum, and no distance is above the number
    of bits. *)
Theorem sub_triangle (a b c : PHash.ImageHash) (x y : nat) :
  PHash.sub a (Some b) = inr x ->
  PHash.sub b (Some c) = inr y ->
  exists z, PHash.sub a (Some c) = inr z /\ z <= x + y /\ x <= PHash.size a.
Proof.
  unfold PHash.sub, PHash.size.
  destruct (Nat.eqb_spec (length (PHash.flatten (PHash.hash a)))
                         (length (PHash.flatten (PHash.hash b)))) as [Hab|]; cbn [negb];
    [|discriminate].
  destruct (Nat.eqb_spec (length (PHash.flatten (PHash.hash b)))
                         (length (PHash.flatten (PHash.hash c)))) as [Hbc|]; cbn [negb];
    [|discriminate].
  intros Hx Hy. injection Hx as <-. injection Hy as <-.
  rewrite Hab, Hbc, Nat.eqb_refl. cbn [negb]. eexists. split; [reflexivity|]. split.
  - apply count_differing_triangle; assumption.
  - rewrite <- Hbc, <- Hab. apply count_differing_le.
Qed.

Lemma sub_triangle_witness :
  exists z,
    PHash.sub (PHash.mkImageHash [[false; true]; [true; false]])
              (Some (PHash.mkImageHash [[false; false]; [true; true]])) = inr z
    /\ z <= 1 + 1 /\ 1 <= 4.
Proof.
  apply (sub_triangle (PHash.mkImageHash [[false; true]; [true; false]])
                      (PHash.mkImageHash [[false; true]; [true; true]])
                      (PHash.mkImageHash [[false; false]; [true; true]]) 1 1);
    reflexivity.
Defined.

(* ================================================================== *)
(** * The hash string                                                  *)
(* ================================================================== *)

Section HexFacts.
Local Open Scope N_scope.

Lemma number_app (a b : list ascii) :
  HexRead.number (a ++ b)
  = fold_left (fun acc c => 16 * acc + HexRead.digit_value c) b (HexRead.number a).
Proof. unfold HexRead.number. apply fold_left_app. Qed.

Lemma number_zeros (k : nat) : HexRead.number (repeat "0"%char k) = 0.
Proof.
  induction k as [|k IH]; [reflexivity|].
  change (repeat "0"%char (S k)) with (["0"%char] ++ repeat "0"%char k).
  rewrite number_app. exact IH.
Qed.

Lemma hex_digit_value (d : N) :
  d < 16 ->
  HexRead.digit_value (PHash.hex_digit d) = d
  /\ HexRead.is_hex_digit (PHash.hex_digit d) = true.
Proof.
  intros Hd.
  assert (Hcase : In d (map N.of_nat (seq 0 16))).
  { apply in_map_iff. exists (N.to_nat d). split; [lia|apply in_seq; lia]. }
  cbn in Hcase.
  repeat (destruct Hcase as [<-|Hcase]; [split; reflexivity|]).
  destruct Hcase.
Qed.

(** The digits [hex_digits] writes in front of [acc], when the fuel is
    enough for [n]. *)
Lemma hex_digits_spec (fuel : nat) (n : N) (acc : list ascii) :
  (1 <= fuel)%nat -> n < 16 ^ N.of_nat fuel ->
  exists ds,
    PHash.hex_digits fuel n acc = (ds ++ acc)%list
    /\ HexRead.number ds = n
    /\ forallb HexRead.is_hex_digit ds = true
    /\ forall k, (1 <= k)%nat -> n < 16 ^ N.of_nat k -> (length ds <= k)%nat.
Proof.
  revert n acc. induction fuel as [|fuel IH]; intros n acc Hfuel Hn; [lia|].
  cbn [PHash.hex_digits].
  assert (Hmod : n mod 16 < 16) by (apply N.mod_lt; lia).
  destruct (hex_digit_value (n mod 16) Hmod) as [Hval Hhex].
  destruct (N.eqb_spec (n / 16) 0) as [Hq|Hq].
  - exists [PHash.hex_digit (n mod 16)]. split; [reflexivity|].
    assert (Hsmall : n < 16).
    { destruct (N.lt_ge_cases n 16) as [Hlt|Hge]; [exact Hlt|].
      pose proof (N.Div0.div_le_mono 16 n 16 Hge) as Hdiv.
      change (16 / 16) with 1 in Hdiv. lia. }
    split; [|split].
    + unfold HexRead.number. cbn [fold_left]. rewrite Hval.
      rewrite N.mod_small by exact Hsmall. lia.
    + cbn [forallb]. rewrite Hhex. reflexivity.
    + intros k Hk _. cbn [length]. exact Hk.
  - assert (Hbig : 16 <= n).
    { destruct (N.lt_ge_cases n 16) as [Hlt|Hge]; [|exact Hge].
      rewrite N.div_small in Hq by exact Hlt. contradiction. }
    assert (Hfuel' : (1 <= fuel)%nat).
    { destruct fuel as [|fuel']; [|lia]. change (16 ^ N.of_nat 1) with 16 in Hn. lia. }
    assert (Hstep : forall k : nat, (1 <= k)%nat -> n < 16 ^ N.of_nat k ->
              (2 <= k)%nat /\ n / 16 < 16 ^ N.of_nat (k - 1)).
    { intros k Hk Hlt.
      destruct k as [|[|k]]; [lia| |].
      - change (16 ^ N.of_nat 1) with 16 in Hlt. lia.
      - split; [lia|].
        replace (S (S k) - 1)%nat with (S k) by lia.
        apply N.Div0.div_lt_upper_bound.
        rewrite <- N.pow_succ_r'.
        replace (N.succ (N.of_nat (S k))) with (N.of_nat (S (S k))) by lia. exact Hlt. }
    destruct (Hstep (S fuel) Hfuel Hn) as [_ Hn'].
    replace (S fuel - 1)%nat with fuel in Hn' by lia.
    destruct (IH (n / 16) (PHash.hex_digit (n mod 16) :: acc) Hfuel' Hn')
      as [ds [Hrun [Hnum [Hall Hlen]]]].
    exists (ds ++ [PHash.hex_digit (n mod 16)])%list.
    split; [rewrite Hrun, <- app_assoc; reflexivity|].
    split; [|split].
    + rewrite number_app. cbn [fold_left]. rewrite Hnum, Hval.
      symmetry. apply N.div_mod. lia.
    + rewrite forallb_app, Hall. cbn [forallb]. rewrite Hhex. reflexivity.
    + intros k Hk Hlt. destruct (Hstep k Hk Hlt) as [Hk2 Hlt'].
      rewrite length_app. cbn [length].
      specialize (Hlen (k - 1)%nat ltac:(lia) Hlt'). lia.
Qed.

Lemma bits_to_N_acc (bits : list bool) (a : N) :
  fold_left (fun acc (b : bool) => 2 * acc + (if b then 1 else 0)) bits a
  = a * 2 ^ N.of_nat (length bits) + PHash.bits_to_N bits.
Proof.
  unfold PHash.bits_to_N. revert a.
  induction bits as [|b bits IH]; intros a.
  - cbn [fold_left length]. change (2 ^ N.of_nat 0) with 1. lia.
  - cbn [fold_left length].
    rewrite (IH (2 * a + (if b then 1 else 0))), (IH (2 * 0 + (if b then 1 else 0))).
    replace (N.of_nat (S (length bits))) with (N.succ (N.of_nat (length bits))) by lia.
    rewrite N.pow_succ_r'.
    set (P := 2 ^ N.of_nat (length bits)).
    set (v := fold_left _ bits 0). destruct b; nia.
Qed.

Lemma bits_to_N_cons (b : bool) (bits : list bool) :
  PHash.bits_to_N (b :: bits)
  = (if b then 1 else 0) * 2 ^ N.of_nat (length bits) + PHash.bits_to_N bits.
Proof.
  unfold PHash.bits_to_N at 1. cbn [fold_left]. rewrite bits_to_N_acc.
  destruct b; reflexivity.
Qed.

Lemma bits_to_N_bound (bits : list bool) :
  PHash.bits_to_N bits < 2 ^ N.of_nat (length bits).
Proof.
  induction bits as [|b bits IH]; [reflexivity|].
  rewrite bits_to_N_cons. cbn [length].
  replace (N.of_nat (S (length bits))) with (N.succ (N.of_nat (length bits))) by lia.
  rewrite N.pow_succ_r'.
  destruct b; lia.
Qed.

Lemma bits_to_N_injective (a b : list bool) :
  length a = length b -> PHash.bits_to_N a = PHash.bits_to_N b -> a = b.
Proof.
  revert b. induction a as [|x a IH]; intros [|y b] Hlen Heq; try discriminate;
    [reflexivity|].
  injection Hlen as Hlen. rewrite !bits_to_N_cons, Hlen in Heq.
  pose proof (bits_to_N_bound a) as Ha. pose proof (bits_to_N_bound b) as Hb.
  rewrite Hlen in Ha.
  assert (Hparts : x = y /\ PHash.bits_to_N a = PHash.bits_to_N b)
    by (destruct x, y; split; try reflexivity; lia).
  destruct Hparts as [-> Hrest]. f_equal. apply IH; assumption.
Qed.

Lemma length_of_chars (l : list ascii) : String.length (Str.of_chars l) = length l.
Proof.
  unfold Str.of_chars. induction l as [|c l IH]; simpl; [reflexivity|]. rewrite IH. reflexivity.
Qed.

(** What [_binary_array_to_hex] returns for an array with at least one
    bit. *)
Lemma binary_array_to_hex_spec (arr : list (list bool)) :
  PHash.flatten arr <> [] ->
  exists s,
    PHash.binary_array_to_hex arr = inr s
    /\ String.length s = ((length (PHash.flatten arr) + 3) / 4)%nat
    /\ forallb HexRead.is_hex_digit (Str.chars s) = true
    /\ HexRead.number (Str.chars s) = PHash.bits_to_N (PHash.flatten arr).
Proof.
  intros Hbits. unfold PHash.binary_array_to_hex.
  destruct (PHash.flatten arr) as [|b bits] eqn:Hflat; [contradiction|].
  set (all := b :: bits). set (L := length all).
  set (width := ((L + 3) / 4)%nat).
  assert (HL : (1 <= L)%nat) by (unfold L, all; cbn [length]; lia).
  assert (Hwidth : (1 <= width /\ L <= 4 * width /\ width <= L)%nat).
  { unfold width. pose proof (Nat.div_mod_eq (L + 3) 4) as Hdm.
    pose proof (Nat.mod_upper_bound (L + 3) 4 ltac:(lia)). lia. }
  pose proof (bits_to_N_bound all) as Hbound. fold L in Hbound.
  assert (Hw : PHash.bits_to_N all < 16 ^ N.of_nat width).
  { eapply N.lt_le_trans; [exact Hbound|].
    change 16 with (2 ^ 4). rewrite <- N.pow_mul_r.
    apply N.pow_le_mono_r; lia. }
  assert (Hfuel : PHash.bits_to_N all < 16 ^ N.of_nat (S L)).
  { eapply N.lt_le_trans; [exact Hw|]. apply N.pow_le_mono_r; lia. }
  destruct (hex_digits_spec (S L) (PHash.bits_to_N all) [] ltac:(lia) Hfuel)
    as [ds [Hrun [Hnum [Hall Hlen]]]].
  rewrite app_nil_r in Hrun.
  eexists. split; [reflexivity|].
  fold all. fold L. fold width. rewrite Hrun.
  specialize (Hlen width (proj1 Hwidth) Hw).
  destruct Hwidth as [Hwidth1 [Hwidth4 HwidthL]].
  change (string_of_list_ascii ?l) with (Str.of_chars l).
  unfold Str.chars, Str.of_chars at 2 3. rewrite list_ascii_of_string_of_list_ascii.
  unfold PHash.pad_left.
  split; [|split].
  - rewrite length_of_chars, length_app, repeat_length. lia.
  - rewrite forallb_app, Hall, andb_true_r.
    apply forallb_forall. intros c Hc. apply repeat_spec in Hc. subst c. reflexivity.
  - rewrite number_app, number_zeros. exact Hnum.
Qed.

End HexFacts.

(** [_binary_array_to_hex] on an array with at least one bit returns a
    string of [ceil(n / 4)] characters for [n] bits, all of them
    hexadecimal digits in lower case, which read as a base 16 number are
    the bits read as a base 2 number. *)
Theorem hex_string_of_bits (arr : list (list bool)) :
  PHash.flatten arr <> [] ->
  exists s,
    PHash.binary_array_to_hex arr = inr s
    /\ String.length s = (length (PHash.flatten arr) + 3) / 4
    /\ forallb HexRead.is_hex_digit (Str.chars s) = true
    /\ HexRead.number (Str.chars s) = PHash.bits_to_N (PHash.flatten arr).
Proof.
  exact (binary_array_to_hex_spec arr).
Qed.

Lemma hex_string_of_bits_witness :
  exists s,
    PHash.binary_array_to_hex [[false; true; true]; [true; false; true]] = inr s
    /\ String.length s = (length (PHash.flatten [[false; true; true]; [true; false; true]]) + 3) / 4
    /\ forallb HexRead.is_hex_digit (Str.chars s) = true
    /\ HexRead.number (Str.chars s)
       = PHash.bits_to_N (PHash.flatten [[false; true; true]; [true; false; true]]).
Proof.
  apply (hex_string_of_bits [[false; true; true]; [true; false; true]]).
  discriminate.
Defined.

(** For two hashes with the same number of bits, [str] gives the same
    result exactly when [==] holds: among hashes of one size the stored
    string stands for the bits. *)
Theorem str_identifies_bits (a b : PHash.ImageHash) :
  PHash.size a = PHash.size b ->
  (PHash.str a = PHash.str b <-> PHash.eq a (Some b) = true).
Proof.
  intros Hsize. unfold PHash.eq. rewrite array_equal_eq. unfold PHash.size in Hsize.
  split.
  - intros Hstr. unfold PHash.str in Hstr.
    destruct (PHash.flatten (PHash.hash a)) as [|x xs] eqn:Ha.
    + destruct (PHash.flatten (PHash.hash b)); [reflexivity|discriminate].
    + assert (Hna : PHash.flatten (PHash.hash a) <> []) by (rewrite Ha; discriminate).
      assert (Hnb : PHash.flatten (PHash.hash b) <> []).
      { intros Hb. rewrite Hb in Hsize. discriminate. }
      destruct (binary_array_to_hex_spec _ Hna) as [s [Hs [_ [_ Hnum]]]].
      destruct (binary_array_to_hex_spec _ Hnb) as [s' [Hs' [_ [_ Hnum']]]].
      rewrite Hs, Hs' in Hstr. injection Hstr as <-.
      rewrite <- Ha. apply bits_to_N_injective.
      * rewrite Ha. exact Hsize.
      * congruence.
  - intros Hflat. unfold PHash.str, PHash.binary_array_to_hex. rewrite Hflat. reflexivity.
Qed.

Lemma str_identifies_bits_witness :
  PHash.str (PHash.mkImageHash [[false; true]; [true; false]])
  = PHash.str (PHash.mkImageHash [[false; true; true; false]])
  <-> PHash.eq (PHash.mkImageHash [[false; true]; [true; false]])
               (Some (PHash.mkImageHash [[false; true; true; false]])) = true.
Proof.
  apply (str_identifies_bits (PHash.mkImageHash [[false; true]; [true; false]])
                             (PHash.mkImageHash [[false; true; true; false]])).
  reflexivity.
Defined.

(* ================================================================== *)
(** * [compute_image_hash] at the edges of the hash size               *)
(* ================================================================== *)

Section HashSizeFacts.
Context {F : Type} `{PHash.Float F}.

Lemma low_block_all (T : Type) (n hash_size : nat) (dct : list (list T)) :
  PHash.square n dct -> n <= hash_size -> PHash.low_block hash_size dct = dct.
Proof.
  intros [Hlen Hrows] Hn. unfold PHash.low_block.
  rewrite (firstn_all2 dct) by lia.
  rewrite <- (map_id dct) at 2. apply map_ext_in. intros row Hrow.
  rewrite Forall_forall in Hrows. apply firstn_all2. rewrite (Hrows row Hrow). exact Hn.
Qed.

Lemma dct_2d_square (n : nat) (pixels : list (list F)) :
  PHash.square n pixels -> PHash.square n (PHash.dct_2d pixels).
Proof.
  intros [Hlen Hrows]. split.
  - rewrite dct_2d_rows. exact Hlen.
  - eapply Forall_impl; [|apply dct_2d_columns].
    intros row ->. destruct pixels as [|r rest].
    + simpl in Hlen. subst n. reflexivity.
    + inversion Hrows; subst. assumption.
Qed.

(** A hash of [hash_size * hash_size] bits has a string of a quarter as
    many characters, rounded up. *)
Lemma str_of_square (n : nat) (h : PHash.ImageHash) :
  1 <= n -> PHash.square n (PHash.hash h) ->
  exists s, PHash.str h = inr s /\ String.length s = (n * n + 3) / 4.
Proof.
  intros Hn Hsq. pose proof (square_size n h Hsq) as Hsize. unfold PHash.size in Hsize.
  assert (Hbits : PHash.flatten (PHash.hash h) <> []).
  { intros Hnil. rewrite Hnil in Hsize. simpl in Hsize. nia. }
  destruct (binary_array_to_hex_spec (PHash.hash h) Hbits) as [s [Hs [Hlen _]]].
  exists s. split; [exact Hs|]. rewrite Hlen, Hsize. reflexivity.
Qed.

(** For a file that can be decoded to a grid of [img_size] rows and
    columns and a hash size between 1 and [img_size],
    [compute_image_hash] returns a string, of [ceil(hash_size^2 / 4)]
    characters: 16 for the size 8 that [add_hdri] asks for. *)
Theorem compute_image_hash_returns (decode : string -> option (list (list F)))
    (file_path : string) (pixels : list (list F)) (img_size hash_size : nat) :
  decode file_path = Some pixels ->
  PHash.square img_size pixels ->
  1 <= hash_size <= img_size ->
  exists s,
    PHash.compute_image_hash decode file_path hash_size = Some s
    /\ String.length s = (hash_size * hash_size + 3) / 4.
Proof.
  intros Hdecode Hsq Hn. unfold PHash.compute_image_hash. rewrite Hdecode.
  unfold PHash.phash.
  destruct (threshold_bits F PHash.gt PHash.mean (PHash.of_int 0) hash_size
              (PHash.dct_2d pixels) ltac:(lia)
              (dct_2d_covers hash_size img_size pixels Hn Hsq))
    as [h [Hh [Hshape _]]].
  rewrite Hh.
  destruct (str_of_square hash_size h ltac:(lia) Hshape) as [s [Hs Hlen]].
  rewrite Hs. exists s. split; [reflexivity|exact Hlen].
Qed.

(** The two ends of the hash size.  With size 0 the block is empty,
    [diff[0, 0] = 0] raises and [compute_image_hash] returns [None],
    whatever the file.  With a size at or above the side of the grid the
    slice is the whole transform, so every such size gives what the side
    itself gives. *)
Theorem compute_image_hash_size_ends (decode : string -> option (list (list F)))
    (file_path : string) :
  PHash.compute_image_hash decode file_path 0 = None
  /\ forall pixels img_size hash_size,
       decode file_path = Some pixels ->
       PHash.square img_size pixels ->
       img_size <= hash_size ->
       PHash.compute_image_hash decode file_path hash_size
       = PHash.compute_image_hash decode file_path img_size.
Proof.
  split.
  - unfold PHash.compute_image_hash. destruct (decode file_path); reflexivity.
  - intros pixels img_size hash_size Hdecode Hsq Hn.
    unfold PHash.compute_image_hash. rewrite Hdecode.
    unfold PHash.phash, PHash.threshold.
    pose proof (dct_2d_square img_size pixels Hsq) as Hdct.
    rewrite (low_block_all F img_size hash_size _ Hdct Hn).
    rewrite (low_block_all F img_size img_size _ Hdct (Nat.le_refl _)).
    reflexivity.
Qed.

End HashSizeFacts.

Lemma compute_image_hash_returns_witness :
  exists s,
    PHash.compute_image_hash (fun _ => Some [[1; 2]; [3; 4]]%R) "a.png" 2 = Some s
    /\ String.length s = (2 * 2 + 3) / 4.
Proof.
  apply (compute_image_hash_returns (fun _ => Some [[1; 2]; [3; 4]]%R) "a.png"
           [[1; 2]; [3; 4]]%R 2 2).
  - reflexivity.
  - split; [reflexivity | repeat constructor].
  - lia.
Defined.

(* ================================================================== *)
(** * Properties of the wrap layout                                    *)
(* ================================================================== *)

Section LayoutFacts.
Variable Item : Type.
Variable sizeHint : Item -> Z * Z.
Variable spacing : Z.
Local Open Scope Z_scope.

Lemma take_last (l : list Item) (x : Item) :
  Layout.takeAt (Z.of_nat (length l)) (l ++ [x]) = (Some x, l).
Proof.
  unfold Layout.takeAt, Layout.count. rewrite length_app. cbn [length].
  replace ((0 <=? Z.of_nat (length l)) && (Z.of_nat (length l) <? Z.of_nat (length l + 1)))
    with true by (symmetry; apply andb_true_iff; split; [apply Z.leb_le|apply Z.ltb_lt]; lia).
  rewrite Nat2Z.id. f_equal.
  - rewrite nth_error_app2 by lia. rewrite Nat.sub_diag. reflexivity.
  - rewrite firstn_app, Nat.sub_diag, firstn_all. cbn [firstn].
    rewrite skipn_all2 by (rewrite length_app; cbn [length]; lia).
    rewrite !app_nil_r. reflexivity.
Qed.

Lemma take_each_reversed (l taken : list Item) :
  Layout.take_each (rev (seq 0 (length l))) l taken = Some ((taken ++ rev l)%list, []).
Proof.
  revert taken. induction l as [|x l IH] using rev_ind; intros taken.
  - cbn. rewrite app_nil_r. reflexivity.
  - rewrite length_app. cbn [length]. rewrite Nat.add_1_r, seq_S, rev_app_distr.
    cbn [rev app Layout.take_each Nat.add]. rewrite take_last, IH.
    rewrite rev_app_distr, <- app_assoc. reflexivity.
Qed.

(** [itemAt] and [takeAt] answer at the indices from 0 to [count() - 1]
    and nowhere else, negative indices included.  There [takeAt] returns
    what [itemAt] returns and takes just that item out of the list;
    elsewhere it leaves the list as it is. *)
Theorem takeAt_takes_one (index : Z) (itemList : list Item) :
  fst (Layout.takeAt index itemList) = Layout.itemAt index itemList
  /\ (Layout.itemAt index itemList = None
      <-> index < 0 \/ Layout.count itemList <= index)
  /\ (Layout.itemAt index itemList = None -> snd (Layout.takeAt index itemList) = itemList)
  /\ forall item, Layout.itemAt index itemList = Some item ->
       exists before after,
         itemList = (before ++ item :: after)%list
         /\ Z.of_nat (length before) = index
         /\ snd (Layout.takeAt index itemList) = (before ++ after)%list.
Proof.
  unfold Layout.takeAt, Layout.itemAt, Layout.count.
  destruct (Z.leb_spec 0 index) as [Hlo|Hlo];
    destruct (Z.ltb_spec index (Z.of_nat (length itemList))) as [Hhi|Hhi];
    cbn [andb fst snd];
    try (split; [reflexivity|]; split; [split; [intros _; lia|reflexivity]|];
         split; [reflexivity|discriminate]).
  split; [reflexivity|].
  assert (Hin : (Z.to_nat index < length itemList)%nat) by lia.
  destruct (nth_error itemList (Z.to_nat index)) as [item|] eqn:Hnth;
    [|apply nth_error_None in Hnth; lia].
  split; [split; [discriminate|lia]|]. split; [discriminate|].
  intros item' Hitem. injection Hitem as <-.
  destruct (nth_error_split _ _ Hnth) as [before [after [Hsplit Hlen]]].
  exists before, after. split; [exact Hsplit|]. split; [lia|].
  rewrite Hsplit, <- Hlen.
  rewrite firstn_app, Nat.sub_diag, firstn_all. cbn [firstn]. rewrite app_nil_r.
  f_equal.
  assert (Hskip : forall l : list Item, skipn (S (length l)) (l ++ item :: after) = after).
  { induction l as [|b l IH]; [reflexivity|exact IH]. }
  apply Hskip.
Qed.

(** The loop of [load_hdri_images] that empties the wrap layout, taking
    the items from the last index down to 0, takes every item, the last
    one first, never meets [None], and leaves the layout empty. *)
Theorem clear_takes_every_item (itemList : list Item) :
  Layout.clear itemList = Some (rev itemList, []).
Proof.
  unfold Layout.clear. apply (take_each_reversed itemList []).
Qed.

Lemma place_test_only (rect : Layout.QRect) (items : list Item) (x y line_height : Z) :
  Layout.place sizeHint spacing rect true items x y line_height
  = (fst (Layout.place sizeHint spacing rect false items x y line_height), []).
Proof.
  revert x y line_height. induction items as [|item rest IH]; intros x y lh; [reflexivity|].
  cbn [Layout.place]. cbv zeta. rewrite IH.
  destruct (Layout.place sizeHint spacing rect false rest _ _ _) as [height more].
  reflexivity.
Qed.

Lemma place_sizes (rect : Layout.QRect) (items : list Item) (x y line_height : Z) :
  map (fun g => (Layout.rect_width g, Layout.rect_height g))
      (snd (Layout.place sizeHint spacing rect false items x y line_height))
  = map sizeHint items.
Proof.
  revert x y line_height. induction items as [|item rest IH]; intros x y lh; [reflexivity|].
  cbn [Layout.place]. cbv zeta.
  match goal with
  | |- context [Layout.place sizeHint spacing rect false rest ?a ?b ?c] =>
      specialize (IH a b c);
      destruct (Layout.place sizeHint spacing rect false rest a b c) as [height more]
  end.
  cbn [snd map app Layout.rect_width Layout.rect_height] in *.
  rewrite IH. destruct (sizeHint item); reflexivity.
Qed.

(** [heightForWidth] runs [doLayout] with [testOnly]: it sets no
    geometry and returns the height that laying the items out in a
    rectangle of that width at the origin returns.  Laying out sets one
    geometry per item, in the order of the items, of the item's size
    hint. *)
Theorem doLayout_test_only (rect : Layout.QRect) (width : Z) (itemList : list Item) :
  Layout.doLayout sizeHint spacing rect true itemList
  = (fst (Layout.doLayout sizeHint spacing rect false itemList), [])
  /\ Layout.heightForWidth sizeHint spacing width itemList
     = fst (Layout.doLayout sizeHint spacing (Layout.mkRect 0 0 width 0) false itemList)
  /\ map (fun g => (Layout.rect_width g, Layout.rect_height g))
         (snd (Layout.doLayout sizeHint spacing rect false itemList))
     = map sizeHint itemList.
Proof.
  unfold Layout.heightForWidth, Layout.doLayout.
  split; [apply place_test_only|]. split.
  - rewrite place_test_only. reflexivity.
  - apply place_sizes.
Qed.

(** The rows of the layout, from a state of the loop on: with a spacing
    and heights that are not negative, every geometry set starts at or
    below the current row and ends within the height returned. *)
Lemma place_rows (rect : Layout.QRect) (items : list Item) (x y line_height : Z) :
  0 <= spacing ->
  Forall (fun item => 0 <= snd (sizeHint item)) items ->
  0 <= line_height ->
  y + line_height - Layout.rect_y rect
  <= fst (Layout.place sizeHint spacing rect false items x y line_height)
  /\ Forall (fun g =>
               y <= Layout.rect_y g
               /\ Layout.rect_y g + Layout.rect_height g
                  <= Layout.rect_y rect
                     + fst (Layout.place sizeHint spacing rect false items x y line_height))
            (snd (Layout.place sizeHint spacing rect false items x y line_height)).
Proof.
  intros Hsp Hitems. revert x y line_height.
  induction Hitems as [|item rest Hh _ IH]; intros x y lh Hlh.
  - cbn [Layout.place fst snd]. split; [lia|constructor].
  - cbn [Layout.place]. cbv zeta.
    set (wraps := ((x + fst (sizeHint item) + spacing - spacing >? Layout.right rect)
                   && (lh >? 0))%bool).
    match goal with
    | |- context [Layout.place sizeHint spacing rect false rest ?a ?b ?c] =>
        set (nx := a); set (y1 := b); set (lh1 := c)
    end.
    assert (Hy1 : y <= y1) by (unfold y1; destruct wraps; lia).
    assert (Hlh1 : 0 <= lh1) by (unfold lh1; destruct wraps; lia).
    assert (Hrow : y + lh <= y1 + lh1 /\ snd (sizeHint item) <= lh1)
      by (unfold y1, lh1; destruct wraps; lia).
    destruct (IH nx y1 lh1 Hlh1) as [Hheight Hrest].
    destruct (Layout.place sizeHint spacing rect false rest nx y1 lh1) as [height more].
    cbn [fst snd app] in *. split; [lia|].
    constructor.
    + cbn [Layout.rect_y Layout.rect_height]. lia.
    + eapply Forall_impl; [|exact Hrest]. cbv beta. intros g [Hg1 Hg2]. lia.
Qed.

(** With a spacing and item heights that are not negative, every item is
    placed inside the vertical extent [doLayout] reports: not above the
    top of the rectangle, and ending within the height returned. *)
Theorem doLayout_height_covers_items (rect : Layout.QRect) (itemList : list Item) :
  0 <= spacing ->
  Forall (fun item => 0 <= snd (sizeHint item)) itemList ->
  Forall (fun g =>
            Layout.rect_y rect <= Layout.rect_y g
            /\ Layout.rect_y g + Layout.rect_height g
               <= Layout.rect_y rect
                  + fst (Layout.doLayout sizeHint spacing rect false itemList))
         (snd (Layout.doLayout sizeHint spacing rect false itemList)).
Proof.
  intros Hsp Hitems. unfold Layout.doLayout.
  apply (place_rows rect itemList (Layout.rect_x rect) (Layout.rect_y rect) 0 Hsp Hitems).
  lia.
Qed.

Lemma place_wraps (rect : Layout.QRect) (items : list Item) (x y line_height : Z) :
  Forall (fun item => 0 < snd (sizeHint item)) items ->
  x = Layout.rect_x rect \/ 0 < line_height ->
  Forall (fun g => Layout.rect_x g = Layout.rect_x rect
                   \/ Layout.right g <= Layout.right rect)
         (snd (Layout.place sizeHint spacing rect false items x y line_height)).
Proof.
  intros Hitems. revert x y line_height.
  induction Hitems as [|item rest Hh _ IH]; intros x y lh Hstate.
  - constructor.
  - cbn [Layout.place]. cbv zeta.
    set (wraps := ((x + fst (sizeHint item) + spacing - spacing >? Layout.right rect)
                   && (lh >? 0))%bool).
    match goal with
    | |- context [Layout.place sizeHint spacing rect false rest ?a ?b ?c] =>
        set (nx := a); set (y1 := b); set (lh1 := c)
    end.
    assert (Hlh1 : nx = Layout.rect_x rect \/ 0 < lh1) by (right; unfold lh1; lia).
    specialize (IH nx y1 lh1 Hlh1).
    destruct (Layout.place sizeHint spacing rect false rest nx y1 lh1) as [height more].
    cbn [snd app] in *. constructor; [|exact IH].
    unfold Layout.right at 1. cbn [Layout.rect_x Layout.rect_width].
    destruct wraps eqn:Hw; [left; reflexivity|].
    unfold wraps in Hw. apply andb_false_iff in Hw.
    destruct Hw as [Hw|Hw].
    + right. destruct (Z.gtb_spec (x + fst (sizeHint item) + spacing - spacing)
                                  (Layout.right rect)); [discriminate|lia].
    + destruct Hstate as [->|Hpos]; [left; reflexivity|].
      destruct (Z.gtb_spec lh 0); [discriminate|lia].
Qed.

(** With item heights above 0, the layout wraps: an item is placed in a
    row after others only if it ends at or before the right edge of the
    rectangle; an item that reaches beyond starts a row, at the left
    edge. *)
Theorem doLayout_wraps_at_right_edge (rect : Layout.QRect) (itemList : list Item) :
  Forall (fun item => 0 < snd (sizeHint item)) itemList ->
  Forall (fun g => Layout.rect_x g = Layout.rect_x rect
                   \/ Layout.right g <= Layout.right rect)
         (snd (Layout.doLayout sizeHint spacing rect false itemList)).
Proof.
  intros Hitems. unfold Layout.doLayout.
  apply (place_wraps rect itemList _ _ _ Hitems). left. reflexivity.
Qed.

End LayoutFacts.

Lemma doLayout_height_covers_items_witness :
  Forall (fun g =>
            (Layout.rect_y (Layout.mkRect 0 0 400 300) <= Layout.rect_y g
             /\ Layout.rect_y g + Layout.rect_height g
                <= Layout.rect_y (Layout.mkRect 0 0 400 300)
                   + fst (Layout.doLayout (fun _ : unit => (170, 200)) 6
                            (Layout.mkRect 0 0 400 300) false [tt; tt; tt]))%Z)
         (snd (Layout.doLayout (fun _ : unit => (170, 200)%Z) 6 (Layout.mkRect 0 0 400 300)
                 false [tt; tt; tt])).
Proof.
  apply (doLayout_height_covers_items unit (fun _ => (170, 200)%Z) 6
           (Layout.mkRect 0 0 400 300) [tt; tt; tt]).
  - lia.
  - repeat constructor; cbn; lia.
Defined.

Lemma doLayout_wraps_at_right_edge_witness :
  Forall (fun g => Layout.rect_x g = Layout.rect_x (Layout.mkRect 0 0 400 300)
                   \/ (Layout.right g <= Layout.right (Layout.mkRect 0 0 400 300))%Z)
         (snd (Layout.doLayout (fun _ : unit => (170, 200)%Z) 6 (Layout.mkRect 0 0 400 300)
                 false [tt; tt; tt])).
Proof.
  apply (doLayout_wraps_at_right_edge unit (fun _ => (170, 200)%Z) 6
           (Layout.mkRect 0 0 400 300) [tt; tt; tt]).
  repeat constructor; cbn; lia.
Defined.

(* ================================================================== *)
(** * More on the browser's query                                      *)
(* ================================================================== *)

Lemma lstrip_spaces (l : list ascii) : forallb Str.is_space l = true -> Str.lstrip l = [].
Proof.
  induction l as [|c l IH]; simpl; [reflexivity|].
  intros H. apply andb_true_iff in H. destruct H as [-> H]. apply IH. exact H.
Qed.

(** A search bar that holds nothing but whitespace searches like an empty
    one: no name condition is put into the query. *)
Theorem blank_search_is_no_search (filter_checkboxes : list (string * bool))
    (sort_option search_bar : string) (d : Sqlite.database) :
  forallb Str.is_space (Str.chars search_bar) = true ->
  Loader.search_hdri filter_checkboxes sort_option search_bar d
  = Loader.load_hdri_images filter_checkboxes sort_option EmptyString d.
Proof.
  intros Hblank. unfold Loader.search_hdri, Str.strip.
  rewrite (lstrip_spaces _ Hblank). reflexivity.
Qed.

Lemma blank_search_is_no_search_witness :
  Loader.search_hdri [("tag_outdoor"%string, true)] "Alphabetical Ascending" "   "
    Sample.two_records
  = Loader.load_hdri_images [("tag_outdoor"%string, true)] "Alphabetical Ascending" EmptyString
      Sample.two_records.
Proof.
  apply (blank_search_is_no_search [("tag_outdoor"%string, true)] "Alphabetical Ascending"
           "   " Sample.two_records).
  reflexivity.
Defined.

Section OrderFacts.
Variable A : Type.
Variable le : A -> A -> bool.
Hypothesis le_total : forall x y, le x y = false -> le y x = true.

Lemma insert_sorted_sorted (x : A) (l : list A) :
  Sorted (fun a b => le a b = true) l ->
  Sorted (fun a b => le a b = true) (Sqlite.insert_sorted le x l).
Proof.
  induction l as [|y l IH]; intros Hs; simpl.
  - repeat constructor.
  - destruct (le x y) eqn:Hxy.
    + constructor; [exact Hs|constructor; exact Hxy].
    + inversion Hs as [|? ? Hl Hhd]; subst.
      constructor; [apply IH; exact Hl|].
      destruct l as [|z l]; simpl.
      * constructor. apply le_total. exact Hxy.
      * destruct (le x z); constructor.
        -- apply le_total. exact Hxy.
        -- inversion Hhd; subst. assumption.
Qed.

Lemma sort_by_sorted (l : list A) :
  Sorted (fun a b => le a b = true) (Sqlite.sort_by le l).
Proof.
  unfold Sqlite.sort_by. induction l as [|x l IH]; simpl; [constructor|].
  apply insert_sorted_sorted. exact IH.
Qed.

End OrderFacts.

Lemma Sorted_map (A B : Type) (f : A -> B) (R : A -> A -> Prop) (Q : B -> B -> Prop)
    (l : list A) :
  (forall a b, R a b -> Q (f a) (f b)) -> Sorted R l -> Sorted Q (map f l).
Proof.
  intros HRQ. induction 1 as [|a l Hl IH Hhd]; simpl; [constructor|].
  constructor; [exact IH|].
  destruct Hhd; simpl; constructor. apply HRQ. assumption.
Qed.

Lemma value_leb_total (a b : Sqlite.value) :
  Sqlite.value_leb a b = false -> Sqlite.value_leb b a = true.
Proof.
  destruct a as [|x|x], b as [|y|y]; simpl; try reflexivity; try discriminate.
  - intros H. apply Z.leb_le. apply Z.leb_gt in H. lia.
  - intros H. destruct (String.leb_total x y) as [Hxy|Hyx]; [congruence|exact Hyx].
Qed.

Lemma order_rows_sorted (cols : list Sqlite.column) (key : string) (descending : bool)
    (l : list (list Sqlite.value)) :
  Sorted (fun r1 r2 =>
            if descending
            then Sqlite.value_leb (Sqlite.cell cols r2 key) (Sqlite.cell cols r1 key) = true
            else Sqlite.value_leb (Sqlite.cell cols r1 key) (Sqlite.cell cols r2 key) = true)
         (Sqlite.order_rows cols key descending l).
Proof.
  unfold Sqlite.order_rows.
  rewrite <- (map_id (Sqlite.sort_by _ l)).
  eapply Sorted_map; [|apply sort_by_sorted].
  - intros r1 r2 H. cbv beta in H. destruct descending; exact H.
  - intros r1 r2 H. destruct descending; apply value_leb_total; exact H.
Qed.

(** Whatever [load_hdri_images] returns is in the order the sort option
    names: by the name field (the fourth of a record) for the
    alphabetical options and by the upload date (the fifth) for the
    others, each record at or before the next one, or at or after it for
    the descending options. *)
Theorem load_hdri_images_sorted (filter_checkboxes : list (string * bool))
    (sort_option search_text : string) (d : Sqlite.database)
    (records : list (list Sqlite.value)) :
  Loader.load_hdri_images filter_checkboxes sort_option search_text d = inr records ->
  let key := if Str.startswith "Alphabetical" sort_option then 3 else 4 in
  Sorted (fun r1 r2 =>
            if Str.contains "Descending" sort_option
            then Sqlite.value_leb (nth key r2 Sqlite.Null) (nth key r1 Sqlite.Null) = true
            else Sqlite.value_leb (nth key r1 Sqlite.Null) (nth key r2 Sqlite.Null) = true)
         records.
Proof.
  unfold Loader.load_hdri_images.
  set (conds := (_ ++ _)%list).
  set (descending := Str.contains "Descending" sort_option).
  assert (Hselect : forall key pos,
            nth pos ["id"; "file_path"; "preview_path"; "name"; "upload_date"]%string
                EmptyString = key ->
            pos < 5 ->
            Sqlite.select ["id"; "file_path"; "preview_path"; "name"; "upload_date"]%string
              "hdri" conds (Some (key, descending)) d = inr records ->
            Sorted (fun r1 r2 =>
                      if descending
                      then Sqlite.value_leb (nth pos r2 Sqlite.Null) (nth pos r1 Sqlite.Null)
                           = true
                      else Sqlite.value_leb (nth pos r1 Sqlite.Null) (nth pos r2 Sqlite.Null)
                           = true)
                   records).
  { intros key pos Hkey Hpos. unfold Sqlite.select.
    destruct (Sqlite.lookup "hdri" (Sqlite.tables d)) as [t|]; [|discriminate].
    match goal with
    | |- (if negb ?b then _ else _) = _ -> _ => destruct b; cbn [negb]; [|discriminate]
    end.
    intros Hrun. injection Hrun as <-.
    eapply Sorted_map; [|apply order_rows_sorted].
    intros r1 r2 H. cbv beta in H.
    assert (Hcell : forall r,
              nth pos (map (Sqlite.cell (Sqlite.columns t) r)
                         ["id"; "file_path"; "preview_path"; "name"; "upload_date"]%string)
                  Sqlite.Null
              = Sqlite.cell (Sqlite.columns t) r key).
    { intros r. subst key.
      do 5 (destruct pos as [|pos]; [reflexivity|]). lia. }
    cbn [map] in Hcell. rewrite !Hcell. exact H. }
  destruct (Str.startswith "Alphabetical" sort_option).
  - intros Hrun. exact (Hselect "name"%string 3 eq_refl ltac:(lia) Hrun).
  - destruct (Str.startswith "Upload Date" sort_option); [|discriminate].
    intros Hrun. exact (Hselect "upload_date"%string 4 eq_refl ltac:(lia) Hrun).
Qed.

Lemma load_hdri_images_sorted_witness :
  Sorted (fun r1 r2 =>
            if Str.contains "Descending" "Upload Date Descending"
            then Sqlite.value_leb
                   (nth (if Str.startswith "Alphabetical" "Upload Date Descending" then 3 else 4)
                        r2 Sqlite.Null)
                   (nth (if Str.startswith "Alphabetical" "Upload Date Descending" then 3 else 4)
                        r1 Sqlite.Null) = true
            else Sqlite.value_leb
                   (nth (if Str.startswith "Alphabetical" "Upload Date Descending" then 3 else 4)
                        r1 Sqlite.Null)
                   (nth (if Str.startswith "Alphabetical" "Upload Date Descending" then 3 else 4)
                        r2 Sqlite.Null) = true)
         [[Sqlite.Int 2; Sqlite.Text "/store/00002_forest_dusk/forest_dusk.exr";
           Sqlite.Text "/store/00002_forest_dusk/preview.jpg"; Sqlite.Text "forest_dusk";
           Sqlite.Text "2024-05-02T18:30:00"];
          [Sqlite.Int 1; Sqlite.Text "/store/00001_desert_noon/desert_noon.hdr";
           Sqlite.Text "/store/00001_desert_noon/preview.jpg"; Sqlite.Text "desert_noon";
           Sqlite.Text "2024-05-01T10:00:00"]].
Proof.
  apply (load_hdri_images_sorted [] "Upload Date Descending" EmptyString Sample.two_records).
  reflexivity.
Defined.

(* ================================================================== *)
(** * The catalog between operations                                   *)
(* ================================================================== *)

Section CatalogShape.
Import Sqlite.
Variables autoinc unique : bool.
Variable tags : list string.

Let cols : list column := Loader.catalog_columns autoinc unique tags.

Lemma catalog_names : map col_name cols = (Catalog.fixed_names ++ tags)%list.
Proof.
  unfold cols, Loader.catalog_columns. rewrite map_app, map_map. cbn [map app col_name].
  unfold Catalog.fixed_names. cbn [app]. do 6 f_equal. apply map_id.
Qed.

Lemma catalog_length : length cols = 6 + length tags.
Proof.
  unfold cols, Loader.catalog_columns. rewrite length_app, length_map. reflexivity.
Qed.

Lemma tag_columns_plain (f : column -> bool) :
  f = col_pk \/ f = col_notnull \/ f = col_autoincrement \/ f = col_unique ->
  existsb f (map Loader.tag_column tags) = false.
Proof.
  intros Hf. apply existsb_all_false. intros c Hc.
  apply in_map_iff in Hc. destruct Hc as [n [<- _]].
  destruct Hf as [-> | [-> | [-> | ->]]]; reflexivity.
Qed.

(** [catalog_table] on a table of this shape, taken apart and put
    together. *)
Lemma catalog_table_shape (stored : list (list value)) :
  Loader.catalog_table (mkTable cols stored) = true
  <-> distinct_names (Catalog.fixed_names ++ tags) = true
      /\ Forall (Catalog.row_fits cols) stored
      /\ distinct_ids (map (rowid_at 0) stored) = true.
Proof.
  split.
  - intros Hcat.
    destruct (catalog_table_parts _ Hcat) as [_ [Hdist [Hlen [Hint [Hids Hnn]]]]].
    cbn [columns rows] in *. rewrite catalog_names in Hdist.
    split; [exact Hdist|]. split; [|exact Hids].
    apply Forall_forall. intros r Hr.
    split; [apply Hlen; exact Hr|]. split; [apply Hint; exact Hr|apply Hnn; exact Hr].
  - intros [Hdist [Hrows Hids]]. rewrite Forall_forall in Hrows.
    unfold Loader.catalog_table. cbn [columns rows]. rewrite catalog_names, Hdist, Hids.
    replace (match cols with
             | [] => false
             | c :: rest =>
                 String.eqb (col_name c) "id" && col_pk c
                 && forallb (fun c' => negb (col_pk c')) rest
             end) with true.
    2:{ unfold cols, Loader.catalog_columns. cbn [app col_name col_pk].
        change (String.eqb "id" "id") with true. cbn [forallb negb andb col_pk].
        symmetry. apply forallb_forall.
        intros c Hc. apply in_map_iff in Hc. destruct Hc as [n [<- _]]. reflexivity. }
    cbn [andb]. rewrite andb_true_r.
    apply andb_true_iff. split; [apply andb_true_iff; split|].
    + apply forallb_forall. intros r Hr. apply Nat.eqb_eq. apply (Hrows r Hr).
    + apply forallb_forall. intros r Hr.
      destruct (Hrows r Hr) as [_ [[z ->] _]]. reflexivity.
    + apply forallb_forall. intros r Hr. apply negb_true_iff. apply (Hrows r Hr).
Qed.

End CatalogShape.

Lemma distinct_ids_snoc (l : list Z) (x : Z) :
  Sqlite.distinct_ids l = true -> (forall y, In y l -> Z.eqb y x = false) ->
  Sqlite.distinct_ids (l ++ [x]) = true.
Proof.
  induction l as [|z l IH]; intros Hd Hx; [reflexivity|].
  cbn [Sqlite.distinct_ids app] in *. apply andb_true_iff in Hd. destruct Hd as [Hz Hd].
  apply andb_true_iff. split.
  - apply negb_true_iff. rewrite existsb_app. apply orb_false_iff. split.
    + apply negb_true_iff. exact Hz.
    + cbn [existsb]. rewrite orb_false_r. apply (Hx z). left. reflexivity.
  - apply IH; [exact Hd|]. intros y Hy. apply Hx. right. exact Hy.
Qed.

Lemma distinct_ids_filter (A : Type) (f : A -> Z) (p : A -> bool) (l : list A) :
  Sqlite.distinct_ids (map f l) = true -> Sqlite.distinct_ids (map f (filter p l)) = true.
Proof.
  induction l as [|x l IH]; intros Hd; [reflexivity|].
  cbn [map Sqlite.distinct_ids] in Hd. apply andb_true_iff in Hd. destruct Hd as [Hx Hd].
  cbn [filter]. destruct (p x); [|apply IH; exact Hd].
  cbn [map Sqlite.distinct_ids]. rewrite (IH Hd), andb_true_r.
  apply negb_true_iff. apply negb_true_iff in Hx.
  apply existsb_all_false. intros y Hy. apply (existsb_false_in _ _ _ y Hx).
  apply in_map_iff in Hy. destruct Hy as [a [<- Ha]].
  apply in_map. apply filter_In in Ha. apply Ha.
Qed.

Lemma NoDup_map_filter (A B : Type) (keep : A -> bool) (field : A -> B) (records : list A) :
  NoDup (map field records) -> NoDup (map field (filter keep records)).
Proof.
  induction records as [|r records IH]; intros Hd; [constructor|].
  cbn [map] in Hd. inversion Hd as [|? ? Hr Hrest]; subst.
  cbn [filter]. destruct (keep r); [|apply IH; exact Hrest].
  cbn [map]. constructor; [|apply IH; exact Hrest].
  intros Hin. apply Hr. apply in_map_iff in Hin. destruct Hin as [a [Ha Hin]].
  rewrite <- Ha. apply in_map. apply filter_In in Hin. apply Hin.
Qed.

Section IngestKeeps.
Import Sqlite Sqlite3.
Variable HDRI_STORAGE_FOLDER : string.
Variable image_hash_of : string -> option string.
Variable isoformat_now : nat -> string.
Variable copy_fails : string -> bool.
Variable preview_fails : string -> bool.
Variables autoinc unique : bool.
Variable tags : list string.
Hypothesis Htags : forallb (Str.startswith "tag_") tags = true.

Let cols : list column := Loader.catalog_columns autoinc unique tags.
Let add_one : string -> Loader.world -> option Loader.exception * Loader.world :=
  Loader.add_one HDRI_STORAGE_FOLDER image_hash_of isoformat_now copy_fails preview_fails.
Let add_hdri : list string -> Loader.world -> option Loader.exception * Loader.world :=
  Loader.add_hdri HDRI_STORAGE_FOLDER image_hash_of isoformat_now copy_fails preview_fails.

(** What the rows of the table satisfy all along an ingest: each fits
    the columns, the ids differ, and so do the hashes. *)
Let kept_up (stored : list (list value)) : Prop :=
  Forall (Catalog.row_fits cols) stored
  /\ distinct_ids (map (rowid_at 0) stored) = true
  /\ NoDup (map (fun r => cell cols r "hash") stored).

Lemma record_row_fits (hdri_id : Z) (fp pp nm dt h : string) :
  Catalog.row_fits cols (Loader.record_row hdri_id fp pp nm dt h tags).
Proof.
  split; [|split].
  - unfold cols. rewrite catalog_length. unfold Loader.record_row.
    rewrite length_app, length_map. reflexivity.
  - exists hdri_id. reflexivity.
  - apply (record_row_notnull autoinc unique tags).
Qed.

Lemma kept_up_new_record (stored : list (list value)) (hdri_id : Z) (fp pp nm dt h : string) :
  kept_up stored ->
  (forall r, In r stored -> value_eqb (nth 0 r Null) (Int hdri_id) = false) ->
  Loader.has_hash h (mkTable cols stored) = false ->
  kept_up (stored ++ [Loader.record_row hdri_id fp pp nm dt h tags]).
Proof.
  intros [Hfit [Hids Hhashes]] Hfresh Hnew. split; [|split].
  - apply Forall_app. split; [exact Hfit|]. constructor; [apply record_row_fits|constructor].
  - rewrite map_app. cbn [map].
    change (rowid_at 0 (Loader.record_row hdri_id fp pp nm dt h tags)) with hdri_id.
    apply distinct_ids_snoc; [exact Hids|].
    intros y Hy. apply in_map_iff in Hy. destruct Hy as [r [<- Hr]].
    rewrite Forall_forall in Hfit. destruct (Hfit r Hr) as [_ [[z Hz] _]].
    specialize (Hfresh r Hr). unfold rowid_at. rewrite Hz in *. exact Hfresh.
  - rewrite map_app. cbn [map].
    change (cell cols (Loader.record_row hdri_id fp pp nm dt h tags) "hash") with (Text h).
    apply NoDup_app.
    + exact Hhashes.
    + repeat constructor. intros [].
    + intros v Hv [Hin|[]]. subst v.
      apply in_map_iff in Hv. destruct Hv as [r [Hcell Hr]].
      unfold Loader.has_hash in Hnew. cbn [columns rows] in Hnew.
      pose proof (existsb_false_in _ _ _ r Hnew Hr) as Hfalse. cbv beta in Hfalse.
      fold cols in Hfalse. rewrite Hcell in Hfalse. cbn [value_eqb] in Hfalse.
      rewrite String.eqb_refl in Hfalse. discriminate.
Qed.

(** One pass of the loop appends at most one record and keeps the rest. *)
Lemma add_one_appends (stored : list (list value)) (seq : list (string * Z))
    (files : list string) (shown : list Loader.event) (clock : nat) (p : string) :
  kept_up stored ->
  exists added seq' files' shown' clock',
    snd (add_one p (Loader.mkWorld (mkDatabase [("hdri"%string, mkTable cols stored)] seq)
                      files shown clock))
    = Loader.mkWorld (mkDatabase [("hdri"%string, mkTable cols (stored ++ added))] seq')
        files' shown' clock'
    /\ kept_up (stored ++ added).
Proof.
  intros Hkept.
  destruct (image_hash_of p) as [h|] eqn:Hhash.
  - destruct (Loader.has_hash h (mkTable cols stored)) eqn:Hhas.
    + exists [], seq. eexists. eexists. eexists.
      unfold add_one, cols.
      rewrite (add_one_duplicate HDRI_STORAGE_FOLDER image_hash_of isoformat_now copy_fails
                 preview_fails autoinc unique tags stored seq files shown clock p h Hhash Hhas).
      rewrite app_nil_r. split; [reflexivity|exact Hkept].
    + destruct (add_one_new HDRI_STORAGE_FOLDER image_hash_of isoformat_now copy_fails
                  preview_fails autoinc unique tags Htags stored seq files shown clock p h
                  Hhash Hhas) as [seq' Hrun].
      cbv zeta in Hrun. unfold add_one, cols. rewrite Hrun.
      destruct (copy_fails p); cbn [snd];
        (eexists [_]; exists seq'; eexists; eexists; eexists; split; [reflexivity|]);
        (apply kept_up_new_record;
         [exact Hkept
         |intros r Hr; apply (catalog_fresh_rowid autoinc unique tags _ stored r Hr)
         |exact Hhas]).
  - exists [], seq. eexists. eexists. eexists.
    unfold add_one, Loader.add_one. rewrite Hhash. cbn [snd Loader.emit Loader.db].
    rewrite app_nil_r. split; [reflexivity|exact Hkept].
Qed.

Lemma add_hdri_appends (paths : list string) :
  forall (stored : list (list value)) (seq : list (string * Z)) (files : list string)
         (shown : list Loader.event) (clock : nat),
  kept_up stored ->
  exists added seq' files' shown' clock',
    snd (add_hdri paths (Loader.mkWorld (mkDatabase [("hdri"%string, mkTable cols stored)] seq)
                           files shown clock))
    = Loader.mkWorld (mkDatabase [("hdri"%string, mkTable cols (stored ++ added))] seq')
        files' shown' clock'
    /\ kept_up (stored ++ added).
Proof.
  induction paths as [|p paths IH]; intros stored seq files shown clock Hkept.
  - exists [], seq, files, shown, clock. rewrite app_nil_r. split; [reflexivity|exact Hkept].
  - destruct (add_one_appends stored seq files shown clock p Hkept)
      as [added [seq1 [files1 [shown1 [clock1 [Hone Hkept1]]]]]].
    unfold add_hdri. cbn [Loader.add_hdri]. fold add_one.
    destruct (add_one p _) as [[e|] w1] eqn:Hrun; cbn [snd] in Hone; subst w1.
    + exists added, seq1, files1, shown1, clock1. split; [reflexivity|exact Hkept1].
    + destruct (IH (stored ++ added)%list seq1 files1 shown1 clock1 Hkept1)
        as [more [seq2 [files2 [shown2 [clock2 [Hrest Hkept2]]]]]].
      exists (added ++ more)%list, seq2, files2, shown2, clock2.
      rewrite app_assoc. split; [exact Hrest|exact Hkept2].
Qed.

End IngestKeeps.

(** Whatever files are picked and whatever the outside does (hashes that
    cannot be computed, copies and previews that fail), [add_hdri] leaves
    a catalog a catalog: the records it found are there as they were, in
    their order, with new records after them; the tag columns are the
    same; and if no two records had the same hash before, none have
    after, with or without the [UNIQUE] clause on the column. *)
Theorem add_hdri_keeps_catalog
    (HDRI_STORAGE_FOLDER : string) (image_hash_of : string -> option string)
    (isoformat_now : nat -> string) (copy_fails preview_fails : string -> bool)
    (file_paths : list string) (w : Loader.world) :
  Catalog.well_formed (Loader.db w) ->
  NoDup (Catalog.field "hash" (Loader.db w)) ->
  Catalog.well_formed
    (Loader.db (snd (Loader.add_hdri HDRI_STORAGE_FOLDER image_hash_of isoformat_now
                       copy_fails preview_fails file_paths w)))
  /\ NoDup (Catalog.field "hash"
              (Loader.db (snd (Loader.add_hdri HDRI_STORAGE_FOLDER image_hash_of isoformat_now
                                 copy_fails preview_fails file_paths w))))
  /\ (exists added,
        Catalog.records
          (Loader.db (snd (Loader.add_hdri HDRI_STORAGE_FOLDER image_hash_of isoformat_now
                             copy_fails preview_fails file_paths w)))
        = (Catalog.records (Loader.db w) ++ added)%list)
  /\ Loader.get_tag_columns
       (Loader.db (snd (Loader.add_hdri HDRI_STORAGE_FOLDER image_hash_of isoformat_now
                          copy_fails preview_fails file_paths w)))
     = Loader.get_tag_columns (Loader.db w).
Proof.
  intros [autoinc [unique [tags [stored [Htab [Htags Hcat]]]]]] Hhashes.
  destruct w as [[tabs seq] files shown clock]. cbn [Loader.db Sqlite.tables] in *. subst tabs.
  apply (catalog_table_shape autoinc unique tags stored) in Hcat.
  destruct Hcat as [Hdist [Hfit Hids]].
  unfold Catalog.field in Hhashes. cbn [Sqlite.tables] in Hhashes.
  rewrite lookup_here in Hhashes. cbn [Sqlite.columns Sqlite.rows] in Hhashes.
  destruct (add_hdri_appends HDRI_STORAGE_FOLDER image_hash_of isoformat_now copy_fails
              preview_fails autoinc unique tags Htags file_paths stored seq files shown clock
              (conj Hfit (conj Hids Hhashes)))
    as [added [seq' [files' [shown' [clock' [Hrun [Hfit' [Hids' Hhashes']]]]]]]].
  rewrite Hrun. cbn [Loader.db].
  split; [|split; [|split]].
  - exists autoinc, unique, tags, (stored ++ added)%list.
    split; [reflexivity|]. split; [exact Htags|].
    apply catalog_table_shape. split; [exact Hdist|]. split; assumption.
  - unfold Catalog.field. cbn [Sqlite.tables]. rewrite lookup_here. exact Hhashes'.
  - exists added. unfold Catalog.records. cbn [Sqlite.tables]. rewrite !lookup_here.
    reflexivity.
  - reflexivity.
Qed.

Lemma add_hdri_keeps_catalog_witness :
  Catalog.well_formed
    (Loader.db (snd (Loader.add_hdri "/store" Sample.sample_hash Sample.sample_clock
                       Sample.sample_copy_fails Sample.never
                       ["/in/sunset.hdr"; "/in/meadow.hdr"; "/in/meadow.hdr"]%string
                       Sample.started)))
  /\ NoDup (Catalog.field "hash"
              (Loader.db (snd (Loader.add_hdri "/store" Sample.sample_hash Sample.sample_clock
                                 Sample.sample_copy_fails Sample.never
                                 ["/in/sunset.hdr"; "/in/meadow.hdr"; "/in/meadow.hdr"]%string
                                 Sample.started))))
  /\ (exists added,
        Catalog.records
          (Loader.db (snd (Loader.add_hdri "/store" Sample.sample_hash Sample.sample_clock
                             Sample.sample_copy_fails Sample.never
                             ["/in/sunset.hdr"; "/in/meadow.hdr"; "/in/meadow.hdr"]%string
                             Sample.started)))
        = (Catalog.records (Loader.db Sample.started) ++ added)%list)
  /\ Loader.get_tag_columns
       (Loader.db (snd (Loader.add_hdri "/store" Sample.sample_hash Sample.sample_clock
                          Sample.sample_copy_fails Sample.never
                          ["/in/sunset.hdr"; "/in/meadow.hdr"; "/in/meadow.hdr"]%string
                          Sample.started)))
     = Loader.get_tag_columns (Loader.db Sample.started).
Proof.
  apply (add_hdri_keeps_catalog "/store" Sample.sample_hash Sample.sample_clock
           Sample.sample_copy_fails Sample.never
           ["/in/sunset.hdr"; "/in/meadow.hdr"; "/in/meadow.hdr"]%string Sample.started).
  - exists true, true, ["tag_outdoor"%string], [Sample.desert; Sample.forest].
    split; [reflexivity|]. split; reflexivity.
  - repeat constructor; cbn; intuition discriminate.
Defined.

Section RmtreeFacts.
Variable fails : string -> bool.
Variable folder : string.

Lemma below_not_self : Loader.below folder folder = false.
Proof.
  unfold Loader.below, Str.startswith.
  induction folder as [|c f IH]; [reflexivity|].
  cbn [String.append String.prefix]. destruct (ascii_dec c c); [exact IH|reflexivity].
Qed.

(** What the walk over the entries leaves: whether it raised, what it
    never touches, and that it raises at an entry that is still there. *)
Lemma remove_entries_facts (paths : list string) :
  fst (Loader.remove_entries fails folder paths)
  = existsb (fun p => Loader.below folder p && fails p) paths
  /\ (fst (Loader.remove_entries fails folder paths) = false ->
      snd (Loader.remove_entries fails folder paths)
      = filter (fun p => negb (Loader.below folder p)) paths)
  /\ incl (snd (Loader.remove_entries fails folder paths)) paths
  /\ (forall p, In p paths -> Loader.below folder p = false ->
        In p (snd (Loader.remove_entries fails folder paths)))
  /\ (fst (Loader.remove_entries fails folder paths) = true ->
      exists p, In p (snd (Loader.remove_entries fails folder paths))
                /\ Loader.below folder p = true /\ fails p = true).
Proof.
  induction paths as [|q rest IH].
  - cbn [Loader.remove_entries fst snd existsb filter].
    repeat split; try reflexivity; try discriminate.
    + apply incl_refl.
    + intros p [].
  - destruct IH as [Hraised [Hclean [Hincl [Hkept Hstuck]]]].
    cbn [Loader.remove_entries existsb filter].
    destruct (Loader.below folder q) eqn:Hq; cbn [andb negb].
    + destruct (fails q) eqn:Hf; cbn [fst snd orb].
      * split; [reflexivity|]. split; [discriminate|]. split; [apply incl_refl|].
        split; [intros p Hp _; exact Hp|].
        intros _. exists q. split; [left; reflexivity|]. split; assumption.
      * split; [exact Hraised|]. split; [exact Hclean|].
        split; [apply incl_tl; exact Hincl|]. split; [|exact Hstuck].
        intros p [<-|Hp] Hout; [congruence|]. apply Hkept; assumption.
    + destruct (Loader.remove_entries fails folder rest) as [raised left].
      cbn [fst snd orb] in *.
      split; [exact Hraised|]. split.
      * intros Hno. rewrite (Hclean Hno). reflexivity.
      * split.
        -- intros x [<-|Hx]; [left; reflexivity|right; apply Hincl; exact Hx].
        -- split.
           ++ intros p [<-|Hp] Hout; [left; reflexivity|right; apply Hkept; assumption].
           ++ intros Hyes. destruct (Hstuck Hyes) as [p [Hp Hbad]].
              exists p. split; [right; exact Hp|exact Hbad].
Qed.

Lemma filter_twice (A : Type) (f g : A -> bool) (l : list A) :
  filter f (filter g l) = filter (fun x => g x && f x) l.
Proof.
  induction l as [|x l IH]; [reflexivity|]. cbn [filter].
  destruct (g x); cbn [filter andb]; [|exact IH].
  destruct (f x); rewrite IH; reflexivity.
Qed.

(** [rmtree] on a folder that is there.  It raises exactly when an
    entry, the folder or one below it, cannot be removed.  When it does
    not raise, the folder and all below it are gone.  When it raises,
    nothing appears, nothing outside the folder goes, the folder is
    still there, and so is an entry that cannot be removed. *)
Lemma rmtree_raising_facts (paths : list string) :
  In folder paths ->
  fst (Loader.rmtree_raising fails folder paths)
  = existsb (fun p => Loader.within folder p && fails p) paths
  /\ (fst (Loader.rmtree_raising fails folder paths) = false ->
      snd (Loader.rmtree_raising fails folder paths) = Loader.rmtree folder paths)
  /\ incl (snd (Loader.rmtree_raising fails folder paths)) paths
  /\ (forall p, In p paths -> Loader.within folder p = false ->
        In p (snd (Loader.rmtree_raising fails folder paths)))
  /\ (fst (Loader.rmtree_raising fails folder paths) = true ->
      In folder (snd (Loader.rmtree_raising fails folder paths))
      /\ exists p, In p (snd (Loader.rmtree_raising fails folder paths))
                   /\ Loader.within folder p = true /\ fails p = true).
Proof.
  intros Hthere.
  destruct (remove_entries_facts paths) as [Hraised [Hclean [Hincl [Hkept Hstuck]]]].
  assert (Hfolder : In folder (snd (Loader.remove_entries fails folder paths)))
    by (apply Hkept; [exact Hthere|apply below_not_self]).
  assert (Hsplit : existsb (fun p => Loader.within folder p && fails p) paths
                   = existsb (fun p => Loader.below folder p && fails p) paths
                     || fails folder).
  { clear - Hthere. induction paths as [|q rest IH]; [destruct Hthere|].
    cbn [existsb]. unfold Loader.within at 1.
    destruct (String.eqb_spec q folder) as [->|Hne].
    - rewrite below_not_self. cbn [orb andb].
      destruct (fails folder) eqn:Hf; [rewrite orb_true_r; reflexivity|].
      cbn [orb]. rewrite orb_false_r.
      clear - Hf. induction rest as [|x rest IH]; [reflexivity|]. cbn [existsb].
      rewrite IH. f_equal. unfold Loader.within.
      destruct (String.eqb_spec x folder) as [->|_]; [|reflexivity].
      rewrite below_not_self, Hf. reflexivity.
    - destruct Hthere as [Heq|Hin]; [congruence|]. rewrite (IH Hin). cbn [orb].
      rewrite orb_assoc. reflexivity. }
  unfold Loader.rmtree_raising.
  destruct (Loader.remove_entries fails folder paths) as [raised left].
  cbn [fst snd] in *. rewrite Hsplit, <- Hraised.
  destruct raised; cbn [fst snd orb].
  - split; [reflexivity|]. split; [discriminate|]. split; [exact Hincl|].
    split.
    + intros p Hp Hout. apply Hkept; [exact Hp|].
      unfold Loader.within in Hout. apply orb_false_iff in Hout. apply Hout.
    + intros _. split; [exact Hfolder|].
      destruct (Hstuck eq_refl) as [p [Hp [Hb Hf]]]. exists p.
      split; [exact Hp|]. split; [|exact Hf].
      unfold Loader.within. rewrite Hb. apply orb_true_r.
  - destruct (fails folder) eqn:Hf; cbn [fst snd].
    + split; [reflexivity|]. split; [discriminate|]. split; [exact Hincl|].
      split.
      * intros p Hp Hout. apply Hkept; [exact Hp|].
        unfold Loader.within in Hout. apply orb_false_iff in Hout. apply Hout.
      * intros _. split; [exact Hfolder|]. exists folder.
        split; [exact Hfolder|]. split; [|exact Hf].
        unfold Loader.within. rewrite String.eqb_refl. reflexivity.
    + split; [reflexivity|]. split.
      * intros _. rewrite (Hclean eq_refl), filter_twice. unfold Loader.rmtree.
        apply filter_ext. intros p. unfold Loader.within.
        destruct (String.eqb p folder), (Loader.below folder p); reflexivity.
      * split.
        -- intros p Hp. apply filter_In in Hp. apply Hincl. apply Hp.
        -- split; [|discriminate].
           intros p Hp Hout. unfold Loader.within in Hout.
           apply orb_false_iff in Hout. destruct Hout as [Hne Hb].
           apply filter_In. split; [apply Hkept; assumption|]. rewrite Hne. reflexivity.
Qed.

End RmtreeFacts.

Section DeleteKeeps.
Import Sqlite Sqlite3.
Variables autoinc unique : bool.
Variable tags : list string.

Let cols : list column := Loader.catalog_columns autoinc unique tags.

(** The [DELETE] of [delete_hdri] on its own connection. *)
Lemma delete_record_run (stored : list (list value)) (seq : list (string * Z)) (hdri_id : Z) :
  with_connection
    (execute_dml false (no_value (delete "hdri" [Equals "id" (Int hdri_id)])) ;;;
     commit false)
    (mkDatabase [("hdri"%string, mkTable cols stored)] seq)
  = (inr tt,
     mkDatabase
       [("hdri"%string,
         mkTable cols
           (filter (fun r => negb (value_eqb (nth 0 r Null) (Int hdri_id))) stored))]
       seq).
Proof.
  unfold with_connection, bind, execute_dml, commit, no_value, delete.
  cbn [connect current committed in_transaction tables sqlite_sequence].
  rewrite lookup_here.
  replace (forallb _ _) with true by reflexivity.
  cbn [negb columns rows current committed]. unfold set_table.
  cbn [tables sqlite_sequence]. rewrite store_here.
  f_equal. f_equal. f_equal. f_equal. f_equal.
  apply filter_ext. intros r. unfold matches. cbn [forallb holds]. rewrite andb_true_r.
  reflexivity.
Qed.

(** [delete_hdri] after the answer Yes. *)
Lemma delete_hdri_yes (rmtree_fails : string -> bool) (stored : list (list value))
    (seq : list (string * Z)) (files : list string) (shown : list Loader.event) (clock : nat)
    (hdri_id : Z) (hdri_path : string) :
  Loader.delete_hdri rmtree_fails true hdri_id hdri_path
    (Loader.mkWorld (mkDatabase [("hdri"%string, mkTable cols stored)] seq) files shown clock)
  = if fst (if existsb (String.eqb (Str.dirname hdri_path)) files
            then Loader.rmtree_raising rmtree_fails (Str.dirname hdri_path) files
            else (false, files))
    then Loader.mkWorld (mkDatabase [("hdri"%string, mkTable cols stored)] seq)
           (snd (if existsb (String.eqb (Str.dirname hdri_path)) files
                 then Loader.rmtree_raising rmtree_fails (Str.dirname hdri_path) files
                 else (false, files)))
           (shown ++ [Loader.WarningBox "Error"
                        ("Error deleting HDRI: cannot remove " ++ Str.dirname hdri_path)])
           clock
    else Loader.mkWorld
           (mkDatabase
              [("hdri"%string,
                mkTable cols
                  (filter (fun r => negb (value_eqb (nth 0 r Null) (Int hdri_id))) stored))]
              seq)
           (snd (if existsb (String.eqb (Str.dirname hdri_path)) files
                 then Loader.rmtree_raising rmtree_fails (Str.dirname hdri_path) files
                 else (false, files)))
           shown clock.
Proof.
  unfold Loader.delete_hdri. cbn [negb Loader.files Loader.db Loader.shown Loader.clock].
  destruct (if existsb (String.eqb (Str.dirname hdri_path)) files
            then Loader.rmtree_raising rmtree_fails (Str.dirname hdri_path) files
            else (false, files)) as [raised left].
  cbn [fst snd]. destruct raised; [reflexivity|].
  cbn [Loader.db]. rewrite delete_record_run. reflexivity.
Qed.

Lemma present_in (folder : string) (files : list string) :
  existsb (String.eqb folder) files = true -> In folder files.
Proof.
  intros H. apply existsb_exists in H. destruct H as [x [Hx Heq]].
  apply String.eqb_eq in Heq. subst x. exact Hx.
Qed.

End DeleteKeeps.

(** [delete_hdri] on a catalog.  The answer No changes nothing.  When
    the folder of the path is there and an entry, the folder or one below
    it, cannot be removed, the records stay as they are and the error is
    shown; of the files, none appears, none outside the folder goes, and
    the folder and an entry that cannot be removed are still there (what
    was removed before the failure is gone).  Otherwise the folder goes
    with what is below it, the records with the id go and the others
    stay as they are, in their order, and nothing is shown: the [DELETE]
    does not fail.  The id counter is not touched.  In each case the
    catalog is a catalog afterwards, and hashes that differed still
    differ. *)
Theorem delete_hdri_removes_record (rmtree_fails : string -> bool) (reply_yes : bool)
    (hdri_id : Z) (hdri_path : string) (w : Loader.world) :
  Catalog.well_formed (Loader.db w) ->
  let w' := Loader.delete_hdri rmtree_fails reply_yes hdri_id hdri_path w in
  let folder := Str.dirname hdri_path in
  let present := existsb (String.eqb folder) (Loader.files w) in
  let stuck :=
    existsb (fun p => Loader.within folder p && rmtree_fails p) (Loader.files w) in
  Catalog.well_formed (Loader.db w')
  /\ (NoDup (Catalog.field "hash" (Loader.db w)) ->
      NoDup (Catalog.field "hash" (Loader.db w')))
  /\ Sqlite.sqlite_sequence (Loader.db w') = Sqlite.sqlite_sequence (Loader.db w)
  /\ (reply_yes = false -> w' = w)
  /\ (reply_yes = true -> present && stuck = true ->
      Loader.db w' = Loader.db w
      /\ (exists text,
            Loader.shown w'
            = (Loader.shown w
               ++ [Loader.WarningBox "Error" ("Error deleting HDRI: " ++ text)])%list)
      /\ incl (Loader.files w') (Loader.files w)
      /\ (forall p, In p (Loader.files w) -> Loader.within folder p = false ->
            In p (Loader.files w'))
      /\ In folder (Loader.files w')
      /\ exists p, In p (Loader.files w')
                   /\ Loader.within folder p = true /\ rmtree_fails p = true)
  /\ (reply_yes = true -> present && stuck = false ->
      Catalog.records (Loader.db w')
      = filter (fun r => negb (Sqlite.value_eqb (nth 0 r Sqlite.Null) (Sqlite.Int hdri_id)))
               (Catalog.records (Loader.db w))
      /\ Catalog.record_of hdri_id (Loader.db w') = None
      /\ Loader.files w'
         = (if present then Loader.rmtree folder (Loader.files w) else Loader.files w)
      /\ Loader.shown w' = Loader.shown w).
Proof.
  intros [autoinc [unique [tags [stored [Htab [Htags Hcat]]]]]].
  assert (Hwf : Catalog.well_formed (Loader.db w)).
  { exists autoinc, unique, tags, stored. split; [exact Htab|]. split; assumption. }
  destruct w as [[tabs seq] files shown clock]. cbn [Loader.db Sqlite.tables] in *. subst tabs.
  cbv zeta. cbn [Loader.files Loader.shown Loader.db].
  destruct reply_yes.
  2:{ unfold Loader.delete_hdri. cbn [negb].
      split; [exact Hwf|]. split; [tauto|]. split; [reflexivity|].
      split; [reflexivity|]. split; discriminate. }
  rewrite (delete_hdri_yes autoinc unique tags).
  set (folder := Str.dirname hdri_path).
  assert (Hout : fst (if existsb (String.eqb folder) files
                      then Loader.rmtree_raising rmtree_fails folder files
                      else (false, files))
                 = existsb (String.eqb folder) files
                   && existsb (fun p => Loader.within folder p && rmtree_fails p) files).
  { destruct (existsb (String.eqb folder) files) eqn:Hpresent; [|reflexivity].
    cbn [andb].
    apply (rmtree_raising_facts rmtree_fails folder files (present_in _ _ Hpresent)). }
  rewrite Hout.
  destruct (existsb (String.eqb folder) files
            && existsb (fun p => Loader.within folder p && rmtree_fails p) files) eqn:Hrm.
  - cbn [Loader.db Loader.files Loader.shown].
    split; [exact Hwf|]. split; [tauto|]. split; [reflexivity|].
    split; [discriminate|]. split; [|discriminate].
    intros _ _. apply andb_true_iff in Hrm. destruct Hrm as [Hpresent Hstuck].
    rewrite Hpresent in Hout |- *.
    destruct (rmtree_raising_facts rmtree_fails folder files (present_in _ _ Hpresent))
      as [_ [_ [Hincl [Hkept Hraised]]]].
    destruct (Hraised Hout) as [Hfolder Hbad].
    split; [reflexivity|]. split; [eexists; reflexivity|].
    split; [exact Hincl|]. split; [exact Hkept|]. split; [exact Hfolder|exact Hbad].
  - apply (catalog_table_shape autoinc unique tags stored) in Hcat.
    destruct Hcat as [Hdist [Hfit Hids]].
    set (rest := filter (fun r => negb (Sqlite.value_eqb (nth 0 r Sqlite.Null)
                                          (Sqlite.Int hdri_id))) stored).
    unfold Catalog.field, Catalog.records, Catalog.record_of.
    cbn [Loader.db Loader.files Loader.shown Sqlite.tables Sqlite.sqlite_sequence].
    rewrite !lookup_here. cbn [Sqlite.columns Sqlite.rows].
    split; [|split; [|split; [|split; [|split]]]].
    + exists autoinc, unique, tags, rest. split; [reflexivity|]. split; [exact Htags|].
      apply catalog_table_shape. split; [exact Hdist|]. split.
      * apply Forall_forall. intros r Hr. rewrite Forall_forall in Hfit.
        apply Hfit. apply filter_In in Hr. apply Hr.
      * apply distinct_ids_filter. exact Hids.
    + apply NoDup_map_filter.
    + reflexivity.
    + discriminate.
    + discriminate.
    + intros _ _. split; [reflexivity|]. split; [|split; [|reflexivity]].
      * destruct (find _ rest) as [r|] eqn:Hfind; [|reflexivity].
        apply find_some in Hfind. destruct Hfind as [Hin Hid].
        apply filter_In in Hin. destruct Hin as [_ Hne].
        change (Sqlite.cell (Loader.catalog_columns autoinc unique tags) r "id")
          with (nth 0 r Sqlite.Null) in Hid.
        rewrite Hid in Hne. discriminate.
      * destruct (existsb (String.eqb folder) files) eqn:Hpresent; [|reflexivity].
        apply (rmtree_raising_facts rmtree_fails folder files (present_in _ _ Hpresent)).
        exact Hout.
Qed.

Lemma delete_hdri_removes_record_witness :
  Catalog.records
    (Loader.db (Loader.delete_hdri Sample.never true 2
                  "/store/00002_forest_dusk/forest_dusk.exr" Sample.started))
  = filter (fun r => negb (Sqlite.value_eqb (nth 0 r Sqlite.Null) (Sqlite.Int 2)))
           (Catalog.records (Loader.db Sample.started))
  /\ Catalog.record_of 2
       (Loader.db (Loader.delete_hdri Sample.never true 2
                     "/store/00002_forest_dusk/forest_dusk.exr" Sample.started)) = None
  /\ Loader.files (Loader.delete_hdri Sample.never true 2
                     "/store/00002_forest_dusk/forest_dusk.exr" Sample.started)
     = (if existsb (String.eqb (Str.dirname "/store/00002_forest_dusk/forest_dusk.exr"))
              (Loader.files Sample.started)
        then Loader.rmtree (Str.dirname "/store/00002_forest_dusk/forest_dusk.exr")
               (Loader.files Sample.started)
        else Loader.files Sample.started)
  /\ Loader.shown (Loader.delete_hdri Sample.never true 2
                     "/store/00002_forest_dusk/forest_dusk.exr" Sample.started)
     = Loader.shown Sample.started.
Proof.
  apply (delete_hdri_removes_record Sample.never true 2
           "/store/00002_forest_dusk/forest_dusk.exr" Sample.started).
  - exists true, true, ["tag_outdoor"%string], [Sample.desert; Sample.forest].
    split; [reflexivity|]. split; reflexivity.
  - reflexivity.
  - reflexivity.
Defined.

(* ================================================================== *)
(** * The tag dialog: reading and writing a record                     *)
(* ================================================================== *)

Section UpdateFacts.
Import Sqlite.

Lemma set_cells_length (cols : list column) (sets : list (string * value)) (r : list value) :
  length (set_cells cols sets r) = length r.
Proof.
  revert r. induction cols as [|c cols IH]; intros [|x r]; simpl; try reflexivity.
  rewrite IH. reflexivity.
Qed.

Lemma nth_set_cells (cols : list column) (sets : list (string * value)) (r : list value)
    (i : nat) (c : column) :
  nth_error cols i = Some c -> i < length r ->
  nth i (set_cells cols sets r) Null
  = match assigned (map fst sets) (map snd sets) (col_name c) with
    | Some v => v
    | None => nth i r Null
    end.
Proof.
  revert r i. induction cols as [|k cols IH]; intros r i Hc Hi.
  - destruct i; discriminate.
  - destruct r as [|x r]; [simpl in Hi; lia|].
    destruct i as [|i]; simpl in *.
    + injection Hc as ->. reflexivity.
    + apply IH; [exact Hc|lia].
Qed.

Lemma col_index_in (cols : list column) (c : column) :
  In c cols -> col_index cols (col_name c) <> None.
Proof.
  induction cols as [|k cols IH]; intros Hin; [destruct Hin|].
  simpl. destruct (Str.eqb_nocase (col_name k) (col_name c)) eqn:Hk; [discriminate|].
  destruct Hin as [->|Hin]; [rewrite eqb_nocase_refl in Hk; discriminate|].
  specialize (IH Hin). destruct (col_index cols (col_name c)); [discriminate|contradiction].
Qed.

(** A cell after [UPDATE ... SET col = v] on its row. *)
Lemma cell_set_cells (cols : list column) (col : string) (v : value) (r : list value)
    (c : column) :
  distinct_names (map col_name cols) = true -> In c cols -> length r = length cols ->
  cell cols (set_cells cols [(col, v)] r) (col_name c)
  = if Str.eqb_nocase col (col_name c) then v else cell cols r (col_name c).
Proof.
  intros Hd Hin Hlen. unfold cell.
  destruct (col_index_own cols c Hd Hin) as [i [-> Hnth]].
  assert (Hi : i < length r).
  { rewrite Hlen. apply nth_error_Some. rewrite Hnth. discriminate. }
  rewrite (nth_set_cells cols [(col, v)] r i c Hnth Hi). cbn [map fst snd assigned].
  destruct (Str.eqb_nocase col (col_name c)); reflexivity.
Qed.

Lemma edited_length (cols : list column) (sets : list (string * value)) (r : list value) :
  length (Dialog.edited cols sets r) = length r.
Proof.
  unfold Dialog.edited. revert r. induction sets as [|s sets IH]; intros r; [reflexivity|].
  cbn [fold_left]. rewrite IH. apply set_cells_length.
Qed.

Lemma edited_snoc (cols : list column) (sets : list (string * value)) (s : string * value)
    (r : list value) :
  Dialog.edited cols (sets ++ [s]) r = set_cells cols [s] (Dialog.edited cols sets r).
Proof. unfold Dialog.edited. rewrite fold_left_app. reflexivity. Qed.

(** A cell after the writes of [accept]: the value of the last write
    that names its column, or the value it had. *)
Lemma edited_cell (cols : list column) (sets : list (string * value)) (r : list value)
    (c : column) :
  distinct_names (map col_name cols) = true -> In c cols -> length r = length cols ->
  cell cols (Dialog.edited cols sets r) (col_name c)
  = match find (fun s => Str.eqb_nocase (fst s) (col_name c)) (rev sets) with
    | Some s => snd s
    | None => cell cols r (col_name c)
    end.
Proof.
  intros Hd Hin Hlen. induction sets as [|s sets IH] using rev_ind; [reflexivity|].
  rewrite edited_snoc, rev_app_distr. cbn [rev app find]. destruct s as [col v].
  rewrite (cell_set_cells cols col v _ c Hd Hin) by (rewrite edited_length; exact Hlen).
  cbn [fst snd]. destruct (Str.eqb_nocase col (col_name c)); [reflexivity|exact IH].
Qed.

Lemma distinct_names_same (names : list string) (n m : string) :
  distinct_names names = true -> In n names -> In m names ->
  Str.eqb_nocase n m = true -> n = m.
Proof.
  induction names as [|k names IH]; intros Hd Hn Hm Heq; [destruct Hn|].
  cbn [distinct_names] in Hd. apply andb_true_iff in Hd. destruct Hd as [Hk Hd].
  apply negb_true_iff in Hk.
  destruct Hn as [->|Hn], Hm as [->|Hm].
  - reflexivity.
  - rewrite (existsb_false_in _ _ _ m Hk Hm) in Heq. discriminate.
  - rewrite eqb_nocase_sym in Heq.
    rewrite (existsb_false_in _ _ _ n Hk Hn) in Heq. discriminate.
  - apply IH; assumption.
Qed.

End UpdateFacts.

Section AcceptFacts.
Import Sqlite Sqlite3.
Variables autoinc unique : bool.
Variable tags : list string.
Hypothesis Htags : forallb (Str.startswith "tag_") tags = true.
Variable hdri_id : Z.

Let cols : list column := Loader.catalog_columns autoinc unique tags.

(** The rows after one or more [UPDATE ... WHERE id = ?]. *)
Let touched (sets : list (string * value)) (stored : list (list value)) : list (list value) :=
  map (fun r => if value_eqb (nth 0 r Null) (Int hdri_id)
                then Dialog.edited cols sets r else r)
      stored.

Lemma tag_has_column (stored : list (list value)) (tag : string) :
  In tag tags -> has_column (mkTable cols stored) tag = true.
Proof.
  intros Hin. unfold has_column. cbn [columns].
  assert (Hc : In (Loader.tag_column tag) cols).
  { unfold cols, Loader.catalog_columns. apply in_or_app. right. apply in_map. exact Hin. }
  pose proof (col_index_in cols _ Hc) as Hsome. cbn [col_name Loader.tag_column] in Hsome.
  destruct (col_index cols tag); [reflexivity|contradiction].
Qed.

Lemma tag_is_not_id (tag : string) : In tag tags -> Str.eqb_nocase tag "id" = false.
Proof.
  intros Hin. destruct (tag_in_tags tags Htags tag Hin) as [rest ->]. reflexivity.
Qed.

Lemma set_cells_keeps_id (s : string * value) (r : list value) :
  Str.eqb_nocase (fst s) "id" = false ->
  nth 0 (set_cells cols [s] r) Null = nth 0 r Null.
Proof.
  intros Hs. destruct r as [|x r]; [reflexivity|].
  unfold cols, Loader.catalog_columns. cbn [app set_cells map assigned col_name nth].
  rewrite Hs. reflexivity.
Qed.

(** One [UPDATE hdri SET col = v WHERE id = ?] with a value that is not
    [NULL]. *)
Lemma update_cell_run (stored : list (list value)) (seq : list (string * Z)) (col : string)
    (v : value) :
  has_column (mkTable cols stored) col = true -> is_null v = false ->
  update "hdri" [(col, v)] [Equals "id" (Int hdri_id)]
    (mkDatabase [("hdri"%string, mkTable cols stored)] seq)
  = inr (mkDatabase [("hdri"%string, mkTable cols (touched [(col, v)] stored))] seq).
Proof.
  intros Hcol Hv. unfold update. cbn [tables]. rewrite lookup_here.
  cbn [map fst app condition_column forallb]. rewrite Hcol.
  replace (has_column (mkTable cols stored) "id") with true by reflexivity.
  cbn [andb negb]. unfold sets_null_in_notnull. cbn [existsb snd]. rewrite Hv.
  cbn [andb orb]. unfold set_table. cbn [tables sqlite_sequence columns rows].
  rewrite store_here. f_equal. f_equal. f_equal. f_equal. f_equal.
  unfold touched. apply map_ext. intros r. unfold matches. cbn [forallb holds].
  rewrite andb_true_r. reflexivity.
Qed.

Lemma touched_again (sets : list (string * value)) (s : string * value)
    (stored : list (list value)) :
  Str.eqb_nocase (fst s) "id" = false ->
  touched sets (touched [s] stored) = touched (s :: sets) stored.
Proof.
  intros Hs. unfold touched. rewrite map_map. apply map_ext. intros r.
  destruct (value_eqb (nth 0 r Null) (Int hdri_id)) eqn:Hid.
  - change (Dialog.edited cols [s] r) with (set_cells cols [s] r).
    rewrite (set_cells_keeps_id s r Hs), Hid. reflexivity.
  - rewrite Hid. reflexivity.
Qed.

Lemma touched_nothing (stored : list (list value)) : touched [] stored = stored.
Proof.
  unfold touched. rewrite <- (map_id stored) at 2. apply map_ext. intros r.
  destruct (value_eqb _ _); reflexivity.
Qed.

(** The loop of [accept] on a connection with its transaction open. *)
Lemma write_boxes_run (boxes : list (string * bool)) :
  forall (d0 : database) (stored : list (list value)) (seq : list (string * Z)),
  (forall box, In box boxes -> In (fst box) tags) ->
  Dialog.write_boxes hdri_id boxes
    (mkConnection d0 (mkDatabase [("hdri"%string, mkTable cols stored)] seq) true)
  = (inr tt,
     mkConnection d0
       (mkDatabase
          [("hdri"%string, mkTable cols (touched (map Dialog.box_value boxes) stored))] seq)
       true).
Proof.
  induction boxes as [|[col b] boxes IH]; intros d0 stored seq Hboxes.
  - cbn [Dialog.write_boxes map]. rewrite touched_nothing. reflexivity.
  - cbn [Dialog.write_boxes]. unfold bind at 1. unfold execute_dml at 1, no_value at 1.
    cbn [current committed].
    assert (Hin : In col tags) by (apply (Hboxes (col, b)); left; reflexivity).
    rewrite (update_cell_run stored seq col (Int (if b then 1 else 0))
               (tag_has_column stored col Hin) eq_refl).
    rewrite IH by (intros box Hbox; apply Hboxes; right; exact Hbox).
    rewrite touched_again by (apply tag_is_not_id; exact Hin).
    reflexivity.
Qed.

(** [accept] on a catalog: the writes it commits. *)
Lemma accept_run (name_edit : string) (boxes : list (string * bool))
    (stored : list (list value)) (seq : list (string * Z)) (files : list string)
    (shown : list Loader.event) (clock : nat) :
  (forall box, In box boxes -> In (fst box) tags) ->
  Dialog.accept hdri_id name_edit boxes
    (Loader.mkWorld (mkDatabase [("hdri"%string, mkTable cols stored)] seq) files shown clock)
  = (None,
     Loader.mkWorld
       (mkDatabase
          [("hdri"%string,
            mkTable cols
              (touched (("name"%string, Text (Str.strip name_edit))
                        :: map Dialog.box_value boxes) stored))]
          seq)
       files shown clock).
Proof.
  intros Hboxes. unfold Dialog.accept, with_connection. cbn [Loader.db].
  unfold bind at 1. unfold execute_dml at 1, no_value at 1. cbn [connect current committed].
  rewrite (update_cell_run stored seq "name" (Text (Str.strip name_edit)) eq_refl eq_refl).
  unfold bind at 1. rewrite (write_boxes_run boxes _ _ _ Hboxes).
  unfold commit. cbn [current committed].
  rewrite touched_again by reflexivity. reflexivity.
Qed.

(** A row that fits the columns still does after the writes of
    [accept]. *)
Lemma edited_fits (sets : list (string * value)) (r : list value) :
  distinct_names (map col_name cols) = true ->
  (forall s, In s sets -> Str.eqb_nocase (fst s) "id" = false /\ is_null (snd s) = false) ->
  Catalog.row_fits cols r -> Catalog.row_fits cols (Dialog.edited cols sets r).
Proof.
  intros Hd Hsets [Hlen [Hint Hnn]]. split; [|split].
  - rewrite edited_length. exact Hlen.
  - clear Hnn. revert r Hlen Hint. unfold Dialog.edited.
    induction sets as [|s sets IH]; intros r Hlen Hint; [exact Hint|].
    cbn [fold_left]. apply IH.
    + intros s' Hs'. apply Hsets. right. exact Hs'.
    + rewrite set_cells_length. exact Hlen.
    + rewrite set_cells_keeps_id by (apply Hsets; left; reflexivity). exact Hint.
  - unfold violates_notnull. apply existsb_all_false. intros c Hc.
    rewrite (edited_cell cols sets r c Hd Hc Hlen).
    destruct (find _ (rev sets)) as [s|] eqn:Hfind.
    + apply find_some in Hfind. destruct Hfind as [Hin _]. apply in_rev in Hin.
      destruct (Hsets s Hin) as [_ Hv]. destruct (snd s); [discriminate| |];
        apply andb_false_r.
    + apply (existsb_false_in _ _ _ c Hnn Hc).
Qed.

End AcceptFacts.

Lemma find_app (A : Type) (p : A -> bool) (l1 l2 : list A) :
  find p (l1 ++ l2) = match find p l1 with Some x => Some x | None => find p l2 end.
Proof.
  induction l1 as [|x l1 IH]; [reflexivity|]. cbn [app find].
  destruct (p x); [reflexivity|exact IH].
Qed.

Lemma find_all_false (A : Type) (p : A -> bool) (l : list A) :
  (forall x, In x l -> p x = false) -> find p l = None.
Proof.
  induction l as [|x l IH]; intros Hp; [reflexivity|]. cbn [find].
  rewrite (Hp x (or_introl eq_refl)). apply IH. intros y Hy. apply Hp. right. exact Hy.
Qed.

Lemma find_first_row (A : Type) (p : A -> bool) (l : list A) :
  filter p l = match find p l with Some x => x :: tl (filter p l) | None => [] end.
Proof.
  induction l as [|x l IH]; [reflexivity|]. cbn [filter find].
  destruct (p x); [reflexivity|exact IH].
Qed.

Section AcceptCells.
Import Sqlite Sqlite3.
Variables autoinc unique : bool.
Variable tags : list string.
Hypothesis Htags : forallb (Str.startswith "tag_") tags = true.
Hypothesis Hdistinct : distinct_names (Catalog.fixed_names ++ tags) = true.

Let cols : list column := Loader.catalog_columns autoinc unique tags.

Lemma cols_distinct : distinct_names (map col_name cols) = true.
Proof. unfold cols. rewrite catalog_names. exact Hdistinct. Qed.

Lemma col_name_listed (c : column) : In c cols -> In (col_name c) (Catalog.fixed_names ++ tags).
Proof.
  intros Hc. rewrite <- (catalog_names autoinc unique tags). apply in_map. exact Hc.
Qed.

Lemma edited_keeps_id (sets : list (string * value)) (r : list value) :
  (forall s, In s sets -> Str.eqb_nocase (fst s) "id" = false) ->
  nth 0 (Dialog.edited cols sets r) Null = nth 0 r Null.
Proof.
  unfold Dialog.edited. revert r. induction sets as [|s sets IH]; intros r Hsets; [reflexivity|].
  cbn [fold_left]. rewrite IH by (intros s' Hs'; apply Hsets; right; exact Hs').
  apply (set_cells_keeps_id autoinc unique tags). apply Hsets. left. reflexivity.
Qed.

(** The cells of a row after the writes of [accept]: the name, the tag
    of each box, and every other cell. *)
Lemma accepted_cells (new_name : string) (boxes : list (string * bool)) (r : list value) :
  (forall box, In box boxes -> In (fst box) tags) ->
  NoDup (map fst boxes) ->
  length r = length cols ->
  let r' := Dialog.edited cols (("name"%string, Text new_name) :: map Dialog.box_value boxes) r in
  cell cols r' "name" = Text new_name
  /\ (forall box, In box boxes -> cell cols r' (fst box) = Int (if snd box then 1 else 0))
  /\ (forall c, In c cols -> col_name c <> "name"%string ->
        ~ In (col_name c) (map fst boxes) -> cell cols r' (col_name c) = cell cols r (col_name c)).
Proof.
  intros Hboxes Hnodup Hlen r'.
  assert (Hname_in : In "name"%string (Catalog.fixed_names ++ tags))
    by (apply in_or_app; left; cbn; tauto).
  assert (Htag_in : forall box, In box boxes -> In (fst box) (Catalog.fixed_names ++ tags))
    by (intros box Hbox; apply in_or_app; right; apply Hboxes; exact Hbox).
  assert (Hcell : forall c, In c cols ->
            cell cols r' (col_name c)
            = match find (fun s => Str.eqb_nocase (fst s) (col_name c))
                      (rev (map Dialog.box_value boxes) ++ [("name"%string, Text new_name)])
              with
              | Some s => snd s
              | None => cell cols r (col_name c)
              end).
  { intros c Hc. unfold r'. rewrite (edited_cell cols _ r c cols_distinct Hc Hlen).
    reflexivity. }
  assert (Hbox_name : forall box n, In box boxes -> In n (Catalog.fixed_names ++ tags) ->
            Str.eqb_nocase (fst (Dialog.box_value box)) n = true -> n = fst box).
  { intros box n Hbox Hn Heq. symmetry.
    apply (distinct_names_same _ _ _ Hdistinct (Htag_in box Hbox) Hn Heq). }
  split; [|split].
  - assert (Hc : In (mkColumn "name" "TEXT" true None false false false) cols)
      by (unfold cols, Loader.catalog_columns; apply in_or_app; left; cbn; tauto).
    pose proof (Hcell _ Hc) as Hread. cbn [col_name] in Hread.
    rewrite Hread, find_app.
    rewrite find_all_false; [reflexivity|].
    intros s Hs. apply in_rev in Hs. apply in_map_iff in Hs. destruct Hs as [box [<- Hbox]].
    destruct (tag_in_tags tags Htags _ (Hboxes box Hbox)) as [rest Hrest].
    unfold Dialog.box_value. cbn [fst]. rewrite Hrest. reflexivity.
  - intros box Hbox.
    assert (Hc : In (Loader.tag_column (fst box)) cols).
    { unfold cols, Loader.catalog_columns. apply in_or_app. right. apply in_map.
      apply Hboxes. exact Hbox. }
    pose proof (Hcell _ Hc) as Hread. cbn [col_name Loader.tag_column] in Hread.
    rewrite Hread, find_app.
    destruct (find _ (rev (map Dialog.box_value boxes))) as [s|] eqn:Hfind.
    + apply find_some in Hfind. destruct Hfind as [Hs Heq].
      apply in_rev in Hs. apply in_map_iff in Hs. destruct Hs as [box' [<- Hbox']].
      pose proof (Hbox_name box' (fst box) Hbox' (Htag_in box Hbox) Heq) as Hsame.
      assert (Hsnd : snd box' = snd box).
      { clear - Hnodup Hbox Hbox' Hsame. induction boxes as [|b bs IH]; [destruct Hbox|].
        cbn [map] in Hnodup. inversion Hnodup as [|? ? Hnot Hrest]; subst.
        destruct Hbox as [->|Hbox], Hbox' as [->|Hbox'].
        - reflexivity.
        - exfalso. apply Hnot. rewrite Hsame. apply in_map. exact Hbox'.
        - exfalso. apply Hnot. rewrite <- Hsame. apply in_map. exact Hbox.
        - apply IH; assumption. }
      unfold Dialog.box_value. cbn [snd]. rewrite Hsnd. reflexivity.
    + exfalso.
      pose proof (find_none _ _ Hfind (Dialog.box_value box)) as Hnone.
      cbv beta in Hnone. unfold Dialog.box_value in Hnone. cbn [fst] in Hnone.
      rewrite eqb_nocase_refl in Hnone.
      assert (Hin : In (fst box, Int (if snd box then 1 else 0))
                       (rev (map Dialog.box_value boxes))).
      { apply -> in_rev. apply in_map_iff. exists box. split; [reflexivity|exact Hbox]. }
      specialize (Hnone Hin). discriminate.
  - intros c Hc Hname Hnot. rewrite (Hcell c Hc), find_all_false; [reflexivity|].
    intros s Hs. apply in_app_or in Hs. destruct Hs as [Hs|[<-|[]]].
    + apply in_rev in Hs. apply in_map_iff in Hs. destruct Hs as [box [<- Hbox]].
      destruct (Str.eqb_nocase (fst (Dialog.box_value box)) (col_name c)) eqn:Heq;
        [|reflexivity].
      exfalso. apply Hnot.
      rewrite (Hbox_name box (col_name c) Hbox (col_name_listed c Hc) Heq).
      apply in_map. exact Hbox.
    + cbn [fst].
      destruct (Str.eqb_nocase "name" (col_name c)) eqn:Heq; [|reflexivity].
      exfalso. apply Hname. symmetry.
      apply (distinct_names_same _ _ _ Hdistinct Hname_in (col_name_listed c Hc) Heq).
Qed.

End AcceptCells.

Lemma Forall2_map_self (A : Type) (R : A -> A -> Prop) (f : A -> A) (l : list A) :
  (forall x, In x l -> R x (f x)) -> Forall2 R l (map f l).
Proof.
  induction l as [|x l IH]; intros HR; [constructor|].
  cbn [map]. constructor; [apply HR; left; reflexivity|].
  apply IH. intros y Hy. apply HR. right. exact Hy.
Qed.

(** [accept] on a catalog, with a box for some or all of the tag columns:
    it does not raise; the record of the dialog gets the trimmed text as
    its name and 1 or 0 in the column of each box, and keeps every other
    cell; the other records stay as they are; and the table is a catalog
    table as before. *)
Theorem accept_stores (autoinc unique : bool) (tags : list string)
    (stored : list (list Sqlite.value)) (seq : list (string * Z)) (files : list string)
    (shown : list Loader.event) (clock : nat) (hdri_id : Z) (name_edit : string)
    (boxes : list (string * bool)) :
  forallb (Str.startswith "tag_") tags = true ->
  let cols := Loader.catalog_columns autoinc unique tags in
  Loader.catalog_table (Sqlite.mkTable cols stored) = true ->
  (forall box, In box boxes -> In (fst box) tags) ->
  NoDup (map fst boxes) ->
  exists stored',
    Dialog.accept hdri_id name_edit boxes
      (Loader.mkWorld (Sqlite.mkDatabase [("hdri"%string, Sqlite.mkTable cols stored)] seq)
         files shown clock)
    = (None,
       Loader.mkWorld (Sqlite.mkDatabase [("hdri"%string, Sqlite.mkTable cols stored')] seq)
         files shown clock)
    /\ Loader.catalog_table (Sqlite.mkTable cols stored') = true
    /\ Forall2
         (fun r r' =>
            if Sqlite.value_eqb (nth 0 r Sqlite.Null) (Sqlite.Int hdri_id)
            then Sqlite.cell cols r' "name" = Sqlite.Text (Str.strip name_edit)
                 /\ (forall box, In box boxes ->
                       Sqlite.cell cols r' (fst box) = Sqlite.Int (if snd box then 1 else 0))
                 /\ (forall c, In c cols -> Sqlite.col_name c <> "name"%string ->
                       ~ In (Sqlite.col_name c) (map fst boxes) ->
                       Sqlite.cell cols r' (Sqlite.col_name c)
                       = Sqlite.cell cols r (Sqlite.col_name c))
            else r' = r)
         stored stored'.
Proof.
  intros Htags cols Hcat Hboxes Hnodup.
  apply (catalog_table_shape autoinc unique tags stored) in Hcat.
  destruct Hcat as [Hdist [Hfit Hids]]. rewrite Forall_forall in Hfit.
  set (sets := ("name"%string, Sqlite.Text (Str.strip name_edit))
               :: map Dialog.box_value boxes).
  assert (Hsets : forall s, In s sets ->
            Str.eqb_nocase (fst s) "id" = false /\ Sqlite.is_null (snd s) = false).
  { intros s [<-|Hs]; [split; reflexivity|].
    apply in_map_iff in Hs. destruct Hs as [box [<- Hbox]].
    split; [|reflexivity].
    apply (tag_is_not_id tags Htags). apply Hboxes. exact Hbox. }
  eexists. split; [apply (accept_run autoinc unique tags Htags); exact Hboxes|].
  fold sets. split.
  - apply (catalog_table_shape autoinc unique tags). split; [exact Hdist|]. split.
    + apply Forall_forall. intros r' Hr'. apply in_map_iff in Hr'.
      destruct Hr' as [r [<- Hr]].
      destruct (Sqlite.value_eqb (nth 0 r Sqlite.Null) (Sqlite.Int hdri_id));
        [|apply Hfit; exact Hr].
      apply (edited_fits autoinc unique tags);
        [apply (cols_distinct autoinc unique tags Hdist)|exact Hsets|apply Hfit; exact Hr].
    + rewrite map_map. erewrite map_ext; [exact Hids|].
      intros r. cbv beta. unfold Sqlite.rowid_at.
      destruct (Sqlite.value_eqb (nth 0 r Sqlite.Null) (Sqlite.Int hdri_id)); [|reflexivity].
      rewrite (edited_keeps_id autoinc unique tags); [reflexivity|].
      intros s Hs. apply (Hsets s Hs).
  - apply Forall2_map_self. intros r Hr.
    destruct (Sqlite.value_eqb (nth 0 r Sqlite.Null) (Sqlite.Int hdri_id)); [|reflexivity].
    apply (accepted_cells autoinc unique tags Htags Hdist (Str.strip name_edit) boxes r
             Hboxes Hnodup).
    apply (Hfit r Hr).
Qed.

Lemma accept_stores_witness :
  exists stored',
    Dialog.accept 2 "  Forest at dusk " [("tag_outdoor"%string, true)]
      (Loader.mkWorld
         (Sqlite.mkDatabase
            [("hdri"%string,
              Sqlite.mkTable (Loader.catalog_columns true true ["tag_outdoor"%string])
                [Sample.desert; Sample.forest])]
            [("hdri"%string, 2%Z)])
         [] [] 0)
    = (None,
       Loader.mkWorld
         (Sqlite.mkDatabase
            [("hdri"%string,
              Sqlite.mkTable (Loader.catalog_columns true true ["tag_outdoor"%string]) stored')]
            [("hdri"%string, 2%Z)])
         [] [] 0)
    /\ Loader.catalog_table
         (Sqlite.mkTable (Loader.catalog_columns true true ["tag_outdoor"%string]) stored')
       = true
    /\ Forall2
         (fun r r' =>
            if Sqlite.value_eqb (nth 0 r Sqlite.Null) (Sqlite.Int 2)
            then Sqlite.cell (Loader.catalog_columns true true ["tag_outdoor"%string]) r' "name"
                 = Sqlite.Text (Str.strip "  Forest at dusk ")
                 /\ (forall box, In box [("tag_outdoor"%string, true)] ->
                       Sqlite.cell (Loader.catalog_columns true true ["tag_outdoor"%string]) r'
                         (fst box)
                       = Sqlite.Int (if snd box then 1 else 0))
                 /\ (forall c, In c (Loader.catalog_columns true true ["tag_outdoor"%string]) ->
                       Sqlite.col_name c <> "name"%string ->
                       ~ In (Sqlite.col_name c) (map fst [("tag_outdoor"%string, true)]) ->
                       Sqlite.cell (Loader.catalog_columns true true ["tag_outdoor"%string]) r'
                         (Sqlite.col_name c)
                       = Sqlite.cell (Loader.catalog_columns true true ["tag_outdoor"%string]) r
                           (Sqlite.col_name c))
            else r' = r)
         [Sample.desert; Sample.forest] stored'.
Proof.
  apply (accept_stores true true ["tag_outdoor"%string] [Sample.desert; Sample.forest]
           [("hdri"%string, 2%Z)] [] [] 0 2 "  Forest at dusk "
           [("tag_outdoor"%string, true)]).
  - reflexivity.
  - reflexivity.
  - intros box [<-|[]]. left. reflexivity.
  - repeat constructor. intros [].
Defined.

Section AcceptAtomic.
Import Sqlite Sqlite3.

Lemma lookup_store (A : Type) (k : string) (v : A) (l : list (string * A)) :
  lookup k (store k v l) = Some v.
Proof.
  induction l as [|[k' v'] l IH]; cbn [store lookup].
  - rewrite String.eqb_refl. reflexivity.
  - destruct (String.eqb k k') eqn:Hk; cbn [lookup].
    + rewrite String.eqb_refl. reflexivity.
    + rewrite Hk. exact IH.
Qed.

Lemma dml_keeps_committed (A : Type) (stmt : database -> result (database * A))
    (c : connection) :
  committed (snd (execute_dml false stmt c)) = committed c.
Proof.
  unfold execute_dml. destruct (stmt (current c)) as [e|[d' a]]; reflexivity.
Qed.

Lemma write_boxes_keeps_committed (hdri_id : Z) (boxes : list (string * bool))
    (c : connection) :
  committed (snd (Dialog.write_boxes hdri_id boxes c)) = committed c.
Proof.
  revert c. induction boxes as [|[col b] boxes IH]; intros c; [reflexivity|].
  cbn [Dialog.write_boxes]. unfold bind.
  pose proof (dml_keeps_committed unit
                (no_value (update "hdri" [(col, Int (if b then 1 else 0))]
                             [Equals "id" (Int hdri_id)])) c) as Hone.
  destruct (execute_dml false _ c) as [[e|u] c1]; cbn [snd] in *; [exact Hone|].
  rewrite IH. exact Hone.
Qed.

(** A successful [UPDATE] of one column says that the table has the
    column, and leaves a table with the same columns. *)
Lemma update_needs_column (col : string) (v : value) (conds : list condition)
    (d d' : database) (t : table) :
  lookup "hdri" (tables d) = Some t ->
  update "hdri" [(col, v)] conds d = inr d' ->
  has_column t col = true
  /\ exists stored', lookup "hdri" (tables d') = Some (mkTable (columns t) stored').
Proof.
  intros Ht. unfold update. rewrite Ht. cbn [map fst app forallb].
  destruct (has_column t col); [|discriminate].
  destruct (negb _); [discriminate|].
  destruct (_ && _); [discriminate|].
  intros Hrun. injection Hrun as <-. split; [reflexivity|].
  eexists. unfold set_table. cbn [tables]. apply lookup_store.
Qed.

Lemma write_boxes_needs_columns (hdri_id : Z) (boxes : list (string * bool)) :
  forall (c c' : connection) (t : table),
  lookup "hdri" (tables (current c)) = Some t ->
  Dialog.write_boxes hdri_id boxes c = (inr tt, c') ->
  forallb (fun box => has_column t (fst box)) boxes = true.
Proof.
  induction boxes as [|[col b] boxes IH]; intros c c' t Ht Hrun; [reflexivity|].
  cbn [Dialog.write_boxes] in Hrun. unfold bind in Hrun.
  unfold execute_dml at 1, no_value at 1 in Hrun.
  destruct (update "hdri" [(col, Int (if b then 1 else 0))] [Equals "id" (Int hdri_id)]
              (current c)) as [e|d1] eqn:Hupd; [discriminate|].
  destruct (update_needs_column _ _ _ _ _ t Ht Hupd) as [Hcol [stored' Ht1]].
  cbn [forallb fst]. rewrite Hcol. cbn [andb].
  apply (IH (mkConnection (committed c) d1 true) c' (mkTable (columns t) stored'));
    [exact Ht1|exact Hrun].
Qed.

End AcceptAtomic.

(** [accept] writes all or nothing.  When it raises, at whichever
    statement, the database holds what it held before, the name too,
    though its [UPDATE] ran first.  It does raise when a box is for a
    column the table does not have. *)
Theorem accept_all_or_nothing (hdri_id : Z) (name_edit : string)
    (boxes : list (string * bool)) (w : Loader.world) :
  (forall e w', Dialog.accept hdri_id name_edit boxes w = (Some e, w') -> w' = w)
  /\ (forall t, Sqlite.lookup "hdri" (Sqlite.tables (Loader.db w)) = Some t ->
      existsb (fun box => negb (Sqlite.has_column t (fst box))) boxes = true ->
      exists e, Dialog.accept hdri_id name_edit boxes w = (Some e, w)).
Proof.
  assert (Hkeep : forall e w', Dialog.accept hdri_id name_edit boxes w = (Some e, w') -> w' = w).
  { intros e w'. unfold Dialog.accept, Sqlite3.with_connection.
    set (body := Sqlite3.bind _ _).
    assert (Hbody : fst (body (Sqlite3.connect (Loader.db w))) = inr tt
                    \/ Sqlite3.committed (snd (body (Sqlite3.connect (Loader.db w))))
                       = Loader.db w).
    { unfold body, Sqlite3.bind.
      pose proof (dml_keeps_committed unit
                    (Sqlite3.no_value
                       (Sqlite.update "hdri" [("name"%string, Sqlite.Text (Str.strip name_edit))]
                          [Sqlite.Equals "id" (Sqlite.Int hdri_id)]))
                    (Sqlite3.connect (Loader.db w))) as H1.
      destruct (Sqlite3.execute_dml false _ (Sqlite3.connect (Loader.db w))) as [[e1|u1] c1];
        cbn [snd] in *; [right; exact H1|].
      pose proof (write_boxes_keeps_committed hdri_id boxes c1) as H2.
      destruct (Dialog.write_boxes hdri_id boxes c1) as [[e2|u2] c2]; cbn [snd] in *;
        [right; rewrite H2; exact H1|].
      left. unfold Sqlite3.commit. cbn [fst]. destruct u2. reflexivity. }
    destruct (body (Sqlite3.connect (Loader.db w))) as [[e0|u] c]; cbn [fst snd] in Hbody.
    - intros Hrun. injection Hrun as _ <-. destruct Hbody as [Hbody|Hbody]; [discriminate|].
      rewrite Hbody. destruct w. reflexivity.
    - discriminate. }
  split; [exact Hkeep|].
  intros t Ht Hmissing.
  destruct (Dialog.accept hdri_id name_edit boxes w) as [[e|] w'] eqn:Hrun.
  - exists e. rewrite (Hkeep e w' eq_refl). reflexivity.
  - exfalso. unfold Dialog.accept, Sqlite3.with_connection, Sqlite3.bind in Hrun.
    unfold Sqlite3.execute_dml at 1, Sqlite3.no_value at 1 in Hrun.
    cbn [Sqlite3.connect Sqlite3.current Sqlite3.committed] in Hrun.
    destruct (Sqlite.update "hdri" [("name"%string, Sqlite.Text (Str.strip name_edit))]
                [Sqlite.Equals "id" (Sqlite.Int hdri_id)] (Loader.db w)) as [e|d1] eqn:Hupd;
      [discriminate|].
    destruct (update_needs_column _ _ _ _ _ t Ht Hupd) as [_ [stored' Ht1]].
    destruct (Dialog.write_boxes hdri_id boxes _) as [[e2|[]] c2] eqn:Hboxes;
      [discriminate|].
    pose proof (write_boxes_needs_columns hdri_id boxes
                  (Sqlite3.mkConnection (Loader.db w) d1 true) c2
                  (Sqlite.mkTable (Sqlite.columns t) stored') Ht1 Hboxes) as Hall.
    apply existsb_exists in Hmissing. destruct Hmissing as [box [Hbox Hno]].
    rewrite forallb_forall in Hall. specialize (Hall box Hbox).
    unfold Sqlite.has_column in *. cbn [Sqlite.columns] in Hall.
    rewrite Hall in Hno. discriminate.
Qed.

Lemma accept_all_or_nothing_witness :
  exists e,
    Dialog.accept 2 "dusk" [("tag_outdoor"%string, true); ("tag_studio"%string, false)]
      Sample.started
    = (Some e, Sample.started).
Proof.
  apply (proj2 (accept_all_or_nothing 2 "dusk"
                  [("tag_outdoor"%string, true); ("tag_studio"%string, false)] Sample.started)
           Sample.two_records_table).
  - reflexivity.
  - reflexivity.
Defined.

Section LoadTagsFacts.
Import Sqlite Sqlite3.

Lemma tag_columns_of_table (d : database) (t : table) :
  lookup "hdri" (tables d) = Some t ->
  Loader.get_tag_columns d
  = map col_name (filter (fun c => Str.startswith "tag_" (col_name c)) (columns t)).
Proof.
  intros Ht. unfold Loader.get_tag_columns, table_info. rewrite Ht.
  apply (col_names_of_listing (fun n => Str.startswith "tag_" n)).
Qed.

(** [SELECT {col} FROM hdri WHERE id = ?] and [fetchone()[0]]. *)
Lemma fetch_cell_run (hdri_id : Z) (col : string) (d : database) (t : table) :
  lookup "hdri" (tables d) = Some t ->
  has_column t "id" = true -> has_column t col = true ->
  Dialog.fetch_cell hdri_id col d
  = match Catalog.record_of hdri_id d with
    | Some r => inr (cell (columns t) r col)
    | None => inl (Dialog.TypeError "'NoneType' object is not subscriptable")
    end.
Proof.
  intros Ht Hid Hcol. unfold Dialog.fetch_cell, Catalog.record_of, select. rewrite Ht.
  cbn [app map condition_column forallb]. rewrite Hid, Hcol. cbn [andb negb].
  rewrite (filter_ext (matches (columns t) [Equals "id" (Int hdri_id)])
             (fun r => value_eqb (cell (columns t) r "id") (Int hdri_id)))
    by (intros r; unfold matches; cbn [forallb holds]; apply andb_true_r).
  rewrite find_first_row.
  destruct (find _ (rows t)) as [r|]; reflexivity.
Qed.

Lemma read_boxes_run (hdri_id : Z) (d : database) (t : table) (tag_cols : list string) :
  lookup "hdri" (tables d) = Some t ->
  has_column t "id" = true ->
  forallb (has_column t) tag_cols = true ->
  Dialog.read_boxes hdri_id tag_cols d
  = match Catalog.record_of hdri_id d with
    | Some r => inr (map (fun col => (col, Dialog.truthy (cell (columns t) r col))) tag_cols)
    | None =>
        match tag_cols with
        | [] => inr []
        | _ :: _ => inl (Dialog.TypeError "'NoneType' object is not subscriptable")
        end
    end.
Proof.
  intros Ht Hid. induction tag_cols as [|col rest IH]; intros Hcols.
  - cbn [Dialog.read_boxes map]. destruct (Catalog.record_of hdri_id d); reflexivity.
  - cbn [forallb] in Hcols. apply andb_true_iff in Hcols. destruct Hcols as [Hcol Hrest].
    cbn [Dialog.read_boxes]. rewrite (fetch_cell_run hdri_id col d t Ht Hid Hcol), (IH Hrest).
    destruct (Catalog.record_of hdri_id d); reflexivity.
Qed.

Lemma load_tags_run (hdri_id : Z) (d : database) (t : table) :
  lookup "hdri" (tables d) = Some t ->
  has_column t "id" = true ->
  Dialog.load_tags hdri_id d
  = match Catalog.record_of hdri_id d with
    | Some r =>
        inr (map (fun col => (col, Dialog.truthy (cell (columns t) r col)))
                 (Loader.get_tag_columns d))
    | None =>
        match Loader.get_tag_columns d with
        | [] => inr []
        | _ :: _ => inl (Dialog.TypeError "'NoneType' object is not subscriptable")
        end
    end.
Proof.
  intros Ht Hid. unfold Dialog.load_tags. apply (read_boxes_run hdri_id d t _ Ht Hid).
  rewrite (tag_columns_of_table d t Ht). apply forallb_forall. intros n Hn.
  apply in_map_iff in Hn. destruct Hn as [c [<- Hc]]. apply filter_In in Hc.
  unfold has_column. pose proof (col_index_in (columns t) c (proj1 Hc)) as Hsome.
  destruct (col_index (columns t) (col_name c)); [reflexivity|contradiction].
Qed.

End LoadTagsFacts.

(** [load_tags] on a table with an [id] column.  For the first record
    with the id of the dialog it gives one box per tag column, in the
    order of the columns, checked exactly when the record's cell is
    neither 0 nor [NULL] nor empty.  When no record has the id, it raises
    [TypeError] at the first tag column, and returns no box when there is
    no tag column. *)
Theorem load_tags_reads (hdri_id : Z) (d : Sqlite.database) (t : Sqlite.table) :
  Sqlite.lookup "hdri" (Sqlite.tables d) = Some t ->
  Sqlite.has_column t "id" = true ->
  Dialog.load_tags hdri_id d
  = match Catalog.record_of hdri_id d with
    | Some r =>
        inr (map (fun col => (col, Dialog.truthy (Sqlite.cell (Sqlite.columns t) r col)))
                 (Loader.get_tag_columns d))
    | None =>
        match Loader.get_tag_columns d with
        | [] => inr []
        | _ :: _ => inl (Dialog.TypeError "'NoneType' object is not subscriptable")
        end
    end.
Proof.
  exact (load_tags_run hdri_id d t).
Qed.

Lemma load_tags_reads_witness :
  Dialog.load_tags 1 Sample.two_records
  = match Catalog.record_of 1 Sample.two_records with
    | Some r =>
        inr (map (fun col =>
                    (col, Dialog.truthy
                            (Sqlite.cell (Sqlite.columns Sample.two_records_table) r col)))
                 (Loader.get_tag_columns Sample.two_records))
    | None =>
        match Loader.get_tag_columns Sample.two_records with
        | [] => inr []
        | _ :: _ => inl (Dialog.TypeError "'NoneType' object is not subscriptable")
        end
    end.
Proof.
  apply (load_tags_reads 1 Sample.two_records Sample.two_records_table); reflexivity.
Defined.

Section RoundTrip.
Import Sqlite Sqlite3.
Variables autoinc unique : bool.
Variable tags : list string.
Hypothesis Htags : forallb (Str.startswith "tag_") tags = true.

Let cols : list column := Loader.catalog_columns autoinc unique tags.

Lemma catalog_tag_columns (stored : list (list value)) (seq : list (string * Z)) :
  Loader.get_tag_columns (mkDatabase [("hdri"%string, mkTable cols stored)] seq) = tags.
Proof.
  rewrite (tag_columns_of_table _ (mkTable cols stored)) by apply lookup_here.
  cbn [columns]. unfold cols, Loader.catalog_columns. rewrite filter_app.
  cbn [filter col_name app map].
  replace (Str.startswith "tag_" "id") with false by reflexivity.
  replace (Str.startswith "tag_" "file_path") with false by reflexivity.
  replace (Str.startswith "tag_" "preview_path") with false by reflexivity.
  replace (Str.startswith "tag_" "name") with false by reflexivity.
  replace (Str.startswith "tag_" "upload_date") with false by reflexivity.
  replace (Str.startswith "tag_" "hash") with false by reflexivity.
  cbn [app]. clear cols.
  induction tags as [|n more IH]; [reflexivity|].
  cbn [forallb] in Htags. apply andb_true_iff in Htags. destruct Htags as [Hn Hmore].
  cbn [map filter col_name Loader.tag_column]. rewrite Hn. cbn [map col_name].
  f_equal. apply IH. exact Hmore.
Qed.

Lemma find_touched (hdri_id : Z) (sets : list (string * value)) (stored : list (list value)) :
  (forall s, In s sets -> Str.eqb_nocase (fst s) "id" = false) ->
  find (fun r => value_eqb (cell cols r "id") (Int hdri_id))
       (map (fun r => if value_eqb (nth 0 r Null) (Int hdri_id)
                      then Dialog.edited cols sets r else r) stored)
  = option_map (Dialog.edited cols sets)
      (find (fun r => value_eqb (cell cols r "id") (Int hdri_id)) stored).
Proof.
  intros Hsets. unfold cols. induction stored as [|r stored IH]; [reflexivity|].
  cbn [map find].
  assert (Hcell : forall x, cell (Loader.catalog_columns autoinc unique tags) x "id"
                            = nth 0 x Null) by reflexivity.
  rewrite !Hcell.
  destruct (value_eqb (nth 0 r Null) (Int hdri_id)) eqn:Hid.
  - rewrite (edited_keeps_id autoinc unique tags sets r Hsets), Hid. reflexivity.
  - rewrite Hid. exact IH.
Qed.

End RoundTrip.

Lemma distinct_names_NoDup (names : list string) :
  Sqlite.distinct_names names = true -> NoDup names.
Proof.
  induction names as [|n more IH]; intros Hd; [constructor|].
  cbn [Sqlite.distinct_names] in Hd. apply andb_true_iff in Hd. destruct Hd as [Hn Hd].
  constructor; [|apply IH; exact Hd].
  intros Hin. apply negb_true_iff in Hn.
  pose proof (existsb_false_in _ _ _ n Hn Hin) as Hfalse.
  rewrite eqb_nocase_refl in Hfalse. discriminate.
Qed.

Lemma distinct_names_tail (front names : list string) :
  Sqlite.distinct_names (front ++ names) = true -> Sqlite.distinct_names names = true.
Proof.
  induction front as [|n front IH]; intros Hd; [exact Hd|].
  cbn [app Sqlite.distinct_names] in Hd. apply andb_true_iff in Hd. apply IH. apply Hd.
Qed.

(** [accept] and then [load_tags]: on a catalog with a record of the
    dialog's id, when the dialog has one box per tag column, in the order
    of the columns, what is accepted is what the next dialog for the
    record shows, box for box. *)
Theorem accept_then_load_tags (autoinc unique : bool) (tags : list string)
    (stored : list (list Sqlite.value)) (seq : list (string * Z)) (files : list string)
    (shown : list Loader.event) (clock : nat) (hdri_id : Z) (name_edit : string)
    (boxes : list (string * bool)) (r : list Sqlite.value) :
  forallb (Str.startswith "tag_") tags = true ->
  let cols := Loader.catalog_columns autoinc unique tags in
  let w := Loader.mkWorld
             (Sqlite.mkDatabase [("hdri"%string, Sqlite.mkTable cols stored)] seq)
             files shown clock in
  Loader.catalog_table (Sqlite.mkTable cols stored) = true ->
  map fst boxes = Loader.get_tag_columns (Loader.db w) ->
  Catalog.record_of hdri_id (Loader.db w) = Some r ->
  Dialog.load_tags hdri_id (Loader.db w)
  = inr (map (fun col => (col, Dialog.truthy (Sqlite.cell cols r col))) tags)
  /\ Dialog.load_tags hdri_id (Loader.db (snd (Dialog.accept hdri_id name_edit boxes w)))
     = inr boxes.
Proof.
  intros Htags cols w Hcat Hnames Hrecord. subst w. subst cols.
  cbn [Loader.db] in *.
  rewrite (catalog_tag_columns autoinc unique tags Htags) in Hnames.
  pose proof Hcat as Hparts.
  apply (catalog_table_shape autoinc unique tags stored) in Hparts.
  destruct Hparts as [Hdist [Hfit Hids]]. rewrite Forall_forall in Hfit.
  assert (Hboxes : forall box, In box boxes -> In (fst box) tags).
  { intros box Hbox. rewrite <- Hnames. apply in_map. exact Hbox. }
  assert (Hnodup : NoDup (map fst boxes)).
  { rewrite Hnames. apply distinct_names_NoDup.
    apply (distinct_names_tail Catalog.fixed_names). exact Hdist. }
  assert (Hload : forall rows',
            Dialog.load_tags hdri_id
              (Sqlite.mkDatabase
                 [("hdri"%string,
                   Sqlite.mkTable (Loader.catalog_columns autoinc unique tags) rows')] seq)
            = match Catalog.record_of hdri_id
                      (Sqlite.mkDatabase
                         [("hdri"%string,
                           Sqlite.mkTable (Loader.catalog_columns autoinc unique tags) rows')]
                         seq) with
              | Some r0 =>
                  inr (map (fun col =>
                              (col, Dialog.truthy
                                      (Sqlite.cell (Loader.catalog_columns autoinc unique tags)
                                         r0 col)))
                           tags)
              | None =>
                  match tags with
                  | [] => inr []
                  | _ :: _ => inl (Dialog.TypeError "'NoneType' object is not subscriptable")
                  end
              end).
  { intros rows'.
    rewrite (load_tags_run hdri_id _
               (Sqlite.mkTable (Loader.catalog_columns autoinc unique tags) rows'));
      [|apply lookup_here|reflexivity].
    rewrite (catalog_tag_columns autoinc unique tags Htags). reflexivity. }
  split.
  - rewrite Hload, Hrecord. reflexivity.
  - rewrite (accept_run autoinc unique tags Htags hdri_id name_edit boxes stored seq files
               shown clock Hboxes).
    cbn [snd Loader.db]. rewrite Hload.
    unfold Catalog.record_of in *. cbn [Sqlite.tables] in *. rewrite lookup_here in *.
    cbn [Sqlite.columns Sqlite.rows] in *.
    rewrite (find_touched autoinc unique tags hdri_id).
    2:{ intros s [<-|Hs]; [reflexivity|].
        apply in_map_iff in Hs. destruct Hs as [box [<- Hbox]].
        apply (tag_is_not_id tags Htags). apply Hboxes. exact Hbox. }
    rewrite Hrecord. cbn [option_map].
    assert (Hlen : length r = length (Loader.catalog_columns autoinc unique tags)).
    { apply find_some in Hrecord. apply (Hfit r (proj1 Hrecord)). }
    destruct (accepted_cells autoinc unique tags Htags Hdist (Str.strip name_edit) boxes r
                Hboxes Hnodup Hlen) as [_ [Hcells _]].
    cbv zeta in Hcells. f_equal.
    assert (Hshown : forall names, names = map fst boxes ->
              map (fun col =>
                     (col, Dialog.truthy
                             (Sqlite.cell (Loader.catalog_columns autoinc unique tags)
                                (Dialog.edited (Loader.catalog_columns autoinc unique tags)
                                   (("name"%string, Sqlite.Text (Str.strip name_edit))
                                    :: map Dialog.box_value boxes) r)
                                col)))
                  names
              = boxes).
    { intros names ->. rewrite map_map.
      rewrite <- (map_id boxes) at 2. apply map_ext_in. intros box Hbox.
      rewrite (Hcells box Hbox). destruct box as [col [|]]; reflexivity. }
    apply Hshown. symmetry. exact Hnames.
Qed.

Lemma accept_then_load_tags_witness :
  Dialog.load_tags 2
    (Loader.db
       (Loader.mkWorld
          (Sqlite.mkDatabase
             [("hdri"%string,
               Sqlite.mkTable (Loader.catalog_columns true true ["tag_outdoor"%string])
                 [Sample.desert; Sample.forest])]
             [("hdri"%string, 2%Z)])
          [] [] 0))
  = inr (map (fun col =>
                (col, Dialog.truthy
                        (Sqlite.cell (Loader.catalog_columns true true ["tag_outdoor"%string])
                           Sample.forest col)))
             ["tag_outdoor"%string])
  /\ Dialog.load_tags 2
       (Loader.db
          (snd (Dialog.accept 2 "dusk" [("tag_outdoor"%string, true)]
                  (Loader.mkWorld
                     (Sqlite.mkDatabase
                        [("hdri"%string,
                          Sqlite.mkTable (Loader.catalog_columns true true ["tag_outdoor"%string])
                            [Sample.desert; Sample.forest])]
                        [("hdri"%string, 2%Z)])
                     [] [] 0))))
     = inr [("tag_outdoor"%string, true)].
Proof.
  apply (accept_then_load_tags true true ["tag_outdoor"%string] [Sample.desert; Sample.forest]
           [("hdri"%string, 2%Z)] [] [] 0 2 "dusk" [("tag_outdoor"%string, true)]
           Sample.forest); reflexivity.
Defined.

(* ================================================================== *)
(** * Tags on a catalog                                                *)
(* ================================================================== *)

Section RebuildCatalog.
Import Sqlite Sqlite3.

(** The rebuild of a catalog table when nothing fails: the database it
    commits. *)
Lemma rebuild_run (io : Loader.rebuild_step -> bool) (t : table) (column_to_drop : string)
    (seq : list (string * Z)) :
  (forall step, io step = false) ->
  Loader.catalog_table t = true ->
  Str.startswith "tag_" column_to_drop = true ->
  Loader.drop_column_from_table io "hdri" column_to_drop (mkDatabase [("hdri"%string, t)] seq)
  = (inr tt,
     mkDatabase
       [("hdri"%string,
         mkTable (map Loader.plain_column (Loader.kept column_to_drop (columns t)))
                 (map (Loader.cut_row column_to_drop t) (rows t)))]
       (match lookup "hdri_backup" (remove "hdri" seq) with
        | None => remove "hdri" seq
        | Some s => remove "hdri_backup" (remove "hdri" seq) ++ [("hdri"%string, s)]
        end)).
Proof.
  intros Hio Hcat Htag.
  destruct (catalog_rows_copy t column_to_drop Hcat Htag) as [Hidkeep Hrows].
  destruct (catalog_table_parts t Hcat) as [_ [Hdist _]].
  set (keep := Loader.kept column_to_drop (columns t)) in *.
  assert (Hkd : distinct_names (map col_name keep) = true)
    by (apply distinct_names_filter; exact Hdist).
  pose proof (copy_all t keep seq Hkd (rows t) [] Hrows) as Hcopy.
  cbn [app map] in Hcopy.
  assert (Hdefs : map Loader.col_def
                    (filter (fun col => negb (String.eqb (name col) column_to_drop))
                            (number_from info_of 0 (columns t)))
                  = map Loader.plain_column keep)
    by apply (col_defs_of_listing (fun n => negb (String.eqb n column_to_drop))).
  assert (Hnames : map name
                     (filter (fun col => negb (String.eqb (name col) column_to_drop))
                             (number_from info_of 0 (columns t)))
                   = map col_name keep)
    by apply (col_names_of_listing (fun n => negb (String.eqb n column_to_drop))).
  assert (Hhas : forallb (has_column t) (map col_name keep) = true).
  { apply forallb_forall. intros n Hn. apply in_map_iff in Hn.
    destruct Hn as [c [<- Hc]]. apply has_column_own; [exact Hdist|].
    apply filter_In in Hc. apply Hc. }
  unfold Loader.drop_column_from_table, with_connection, Loader.rebuild.
  unfold bind, query, begin_transaction, execute_ddl, execute_dml, commit.
  rewrite !Hio.
  cbn [connect current committed in_transaction].
  unfold table_info. cbn [tables].
  change (lookup "hdri" [("hdri"%string, t)]) with (Some t).
  cbn iota. rewrite Hdefs, Hnames.
  rewrite create_table_fresh.
  2:{ reflexivity. }
  2:{ intros Hempty. apply (in_map Loader.plain_column) in Hidkeep.
      rewrite Hempty in Hidkeep. destruct Hidkeep. }
  cbn [current committed in_transaction].
  unfold no_value, insert_select, set_table. cbn [tables sqlite_sequence].
  change (lookup "hdri" (store ("hdri" ++ "_backup") _ [("hdri"%string, t)]))
    with (Some t).
  cbn iota. rewrite Hhas. cbn [negb].
  change ("hdri" ++ "_backup")%string with "hdri_backup"%string.
  change (store "hdri_backup" (mkTable (map Loader.plain_column keep) [])
                [("hdri"%string, t)])
    with [("hdri"%string, t);
          ("hdri_backup"%string, mkTable (map Loader.plain_column keep) [])].
  rewrite Hcopy.
  reflexivity.
Qed.

Variables autoinc unique : bool.
Variable tags : list string.
Hypothesis Htags : forallb (Str.startswith "tag_") tags = true.
Variable column_to_drop : string.
Hypothesis Hdrop : Str.startswith "tag_" column_to_drop = true.

Let cols : list column := Loader.catalog_columns autoinc unique tags.
Let remaining : list string := filter (fun n => negb (String.eqb n column_to_drop)) tags.

Lemma remaining_tags : forallb (Str.startswith "tag_") remaining = true.
Proof.
  apply forallb_forall. intros n Hn. apply filter_In in Hn.
  rewrite forallb_forall in Htags. apply Htags. apply Hn.
Qed.

(** The columns the rebuilt table has. *)
Lemma kept_shape :
  map Loader.plain_column (Loader.kept column_to_drop cols)
  = Loader.catalog_columns false false remaining.
Proof.
  destruct (tag_name_head column_to_drop Hdrop) as [rest Hrest].
  unfold Loader.kept, cols, Loader.catalog_columns. rewrite filter_app, map_app.
  f_equal.
  - rewrite Hrest. reflexivity.
  - unfold remaining. clear. induction tags as [|n more IH]; [reflexivity|].
    cbn [map filter col_name Loader.tag_column].
    destruct (String.eqb n column_to_drop); cbn [negb map]; [exact IH|].
    rewrite IH. reflexivity.
Qed.

End RebuildCatalog.

Lemma plain_column_names (l : list Sqlite.column) :
  map Sqlite.col_name (map Loader.plain_column l) = map Sqlite.col_name l.
Proof. rewrite map_map. reflexivity. Qed.

(** [delete_tag] of a tag column of a catalog.  Whatever fails in the
    rebuild, the database is a catalog afterwards.  When nothing fails,
    the tag columns are the ones there were without the removed one, in
    their order; every record is still there and has in every column
    that stays what it had; the table is declared with neither
    [AUTOINCREMENT] nor [UNIQUE]; and nothing is printed. *)
Theorem delete_tag_keeps_catalog (io : Loader.rebuild_step -> bool) (col_name : string)
    (w : Loader.world) :
  Catalog.well_formed (Loader.db w) ->
  In col_name (Loader.get_tag_columns (Loader.db w)) ->
  Catalog.well_formed (Loader.db (Loader.delete_tag io col_name w))
  /\ ((forall step, io step = false) ->
      Loader.get_tag_columns (Loader.db (Loader.delete_tag io col_name w))
      = filter (fun n => negb (String.eqb n col_name)) (Loader.get_tag_columns (Loader.db w))
      /\ (forall f,
            In f (Catalog.fixed_names
                  ++ Loader.get_tag_columns (Loader.db (Loader.delete_tag io col_name w))) ->
            Catalog.field f (Loader.db (Loader.delete_tag io col_name w))
            = Catalog.field f (Loader.db w))
      /\ (exists stored',
            Sqlite.tables (Loader.db (Loader.delete_tag io col_name w))
            = [("hdri"%string,
                Sqlite.mkTable
                  (Loader.catalog_columns false false
                     (Loader.get_tag_columns (Loader.db (Loader.delete_tag io col_name w))))
                  stored')])
      /\ Loader.shown (Loader.delete_tag io col_name w) = Loader.shown w).
Proof.
  intros [autoinc [unique [tags [stored [Htab [Htags Hcat]]]]]] Hin.
  assert (Hwf : Catalog.well_formed (Loader.db w)).
  { exists autoinc, unique, tags, stored. split; [exact Htab|]. split; assumption. }
  destruct w as [[tabs seq] files shown clock]. cbn [Loader.db Sqlite.tables] in *. subst tabs.
  rewrite (catalog_tag_columns autoinc unique tags Htags) in *.
  assert (Hdrop : Str.startswith "tag_" col_name = true).
  { rewrite forallb_forall in Htags. apply Htags. exact Hin. }
  set (cols := Loader.catalog_columns autoinc unique tags) in *.
  set (t := Sqlite.mkTable cols stored) in *.
  set (remaining := filter (fun n => negb (String.eqb n col_name)) tags).
  assert (Hall : (forall step, io step = false) ->
            Loader.delete_tag io col_name
              (Loader.mkWorld (Sqlite.mkDatabase [("hdri"%string, t)] seq) files shown clock)
            = Loader.mkWorld
                (Sqlite.mkDatabase
                   [("hdri"%string,
                     Sqlite.mkTable (Loader.catalog_columns false false remaining)
                       (map (Loader.cut_row col_name t) stored))]
                   (match Sqlite.lookup "hdri_backup" (Sqlite.remove "hdri" seq) with
                    | None => Sqlite.remove "hdri" seq
                    | Some s => Sqlite.remove "hdri_backup" (Sqlite.remove "hdri" seq)
                                ++ [("hdri"%string, s)]
                    end))
                files shown clock).
  { intros Hio. unfold Loader.delete_tag. cbn [Loader.db].
    rewrite (rebuild_run io t col_name seq Hio Hcat Hdrop).
    change (Sqlite.columns t) with (Loader.catalog_columns autoinc unique tags).
    rewrite (kept_shape autoinc unique tags col_name Hdrop). reflexivity. }
  pose proof (proj1 (catalog_table_shape autoinc unique tags stored) Hcat)
    as [Hdist [Hfit Hids]].
  rewrite Forall_forall in Hfit.
  set (keep := Loader.kept col_name cols).
  assert (Hkd : Sqlite.distinct_names (map Sqlite.col_name keep) = true).
  { apply distinct_names_filter. unfold cols. rewrite catalog_names. exact Hdist. }
  assert (Hkeep_names : map Sqlite.col_name keep = (Catalog.fixed_names ++ remaining)%list).
  { rewrite <- plain_column_names. unfold keep, cols.
    rewrite (kept_shape autoinc unique tags col_name Hdrop). apply catalog_names. }
  assert (Hcut_cell : forall r c, In c keep ->
            Sqlite.cell (Loader.catalog_columns false false remaining)
              (Loader.cut_row col_name t r) (Sqlite.col_name c)
            = Sqlite.cell cols r (Sqlite.col_name c)).
  { intros r c Hc. unfold remaining.
    rewrite <- (kept_shape autoinc unique tags col_name Hdrop).
    apply (backup_cell t keep Hkd r c Hc). }
  assert (Hcut_id : forall r, nth 0 (Loader.cut_row col_name t r) Sqlite.Null
                              = nth 0 r Sqlite.Null).
  { intros r. unfold Loader.cut_row, Loader.kept_names.
    change (Sqlite.columns t) with cols.
    fold keep. rewrite Hkeep_names. reflexivity. }
  assert (Hfield : forall f, In f (Catalog.fixed_names ++ remaining) ->
            map (fun r => Sqlite.cell (Loader.catalog_columns false false remaining) r f)
                (map (Loader.cut_row col_name t) stored)
            = map (fun r => Sqlite.cell cols r f) stored).
  { intros f Hf. rewrite map_map. apply map_ext. intros r.
    rewrite <- Hkeep_names in Hf. apply in_map_iff in Hf. destruct Hf as [c [<- Hc]].
    apply Hcut_cell. exact Hc. }
  assert (Hwf' : Catalog.well_formed
                   (Sqlite.mkDatabase
                      [("hdri"%string,
                        Sqlite.mkTable (Loader.catalog_columns false false remaining)
                          (map (Loader.cut_row col_name t) stored))]
                      (match Sqlite.lookup "hdri_backup" (Sqlite.remove "hdri" seq) with
                       | None => Sqlite.remove "hdri" seq
                       | Some s => Sqlite.remove "hdri_backup" (Sqlite.remove "hdri" seq)
                                   ++ [("hdri"%string, s)]
                       end))).
  { exists false, false, remaining, (map (Loader.cut_row col_name t) stored).
    split; [reflexivity|].
    split; [apply (remaining_tags tags Htags)|].
    apply catalog_table_shape. split; [|split].
    - rewrite <- Hkeep_names. exact Hkd.
    - apply Forall_forall. intros r' Hr'. apply in_map_iff in Hr'.
      destruct Hr' as [r [<- Hr]]. destruct (Hfit r Hr) as [Hlen [Hint Hnn]].
      split; [|split].
      + unfold Loader.cut_row, Loader.kept_names.
        change (Sqlite.columns t) with cols. fold keep.
        rewrite length_map, Hkeep_names, catalog_length, length_app. reflexivity.
      + rewrite Hcut_id. exact Hint.
      + unfold Sqlite.violates_notnull. apply existsb_all_false. intros c' Hc'.
        unfold remaining in Hc'.
        rewrite <- (kept_shape autoinc unique tags col_name Hdrop) in Hc'.
        apply in_map_iff in Hc'. destruct Hc' as [c [<- Hc]].
        change (Sqlite.col_name (Loader.plain_column c)) with (Sqlite.col_name c).
        change (Sqlite.col_notnull (Loader.plain_column c)) with (Sqlite.col_notnull c).
        rewrite (Hcut_cell r c Hc).
        apply (existsb_false_in _ _ _ c Hnn).
        apply filter_In in Hc. apply Hc.
    - rewrite map_map. erewrite map_ext; [exact Hids|].
      intros r. unfold Sqlite.rowid_at. rewrite Hcut_id. reflexivity. }
  assert (Hfail : forall step, io step = true ->
            Catalog.well_formed
              (Loader.db
                 (Loader.delete_tag io col_name
                    (Loader.mkWorld (Sqlite.mkDatabase [("hdri"%string, t)] seq)
                       files shown clock)))).
  { intros step Hstep.
    destruct (rebuild_fault_raises io step "hdri" col_name
                (Sqlite.mkDatabase [("hdri"%string, t)] seq) Hstep) as [e He].
    pose proof (rebuild_fails_clean io "hdri" col_name
                  (Sqlite.mkDatabase [("hdri"%string, t)] seq)) as Hclean.
    unfold Loader.delete_tag, Loader.drop_column_from_table, Sqlite3.with_connection in *.
    cbn [Loader.db] in *.
    destruct (Loader.rebuild io "hdri" col_name _) as [[e0|u] c'];
      cbn [fst] in He; [|discriminate].
    cbn [Loader.emit Loader.with_db Loader.db]. rewrite Hclean. exact Hwf. }
  split.
  - destruct (io Loader.Begin) eqn:H1; [exact (Hfail _ H1)|].
    destruct (io Loader.CreateBackup) eqn:H2; [exact (Hfail _ H2)|].
    destruct (io Loader.CopyRows) eqn:H3; [exact (Hfail _ H3)|].
    destruct (io Loader.DropOld) eqn:H4; [exact (Hfail _ H4)|].
    destruct (io Loader.RenameBackup) eqn:H5; [exact (Hfail _ H5)|].
    destruct (io Loader.Commit) eqn:H6; [exact (Hfail _ H6)|].
    rewrite Hall by (intros step; destruct step; assumption). exact Hwf'.
  - intros Hio. rewrite (Hall Hio).
    cbn [Loader.db Loader.shown Sqlite.tables].
    rewrite (catalog_tag_columns false false remaining (remaining_tags tags Htags col_name)).
    split; [reflexivity|]. split; [|split; [|reflexivity]].
    + intros f Hf. unfold Catalog.field. cbn [Sqlite.tables]. rewrite !lookup_here.
      cbn [Sqlite.columns Sqlite.rows]. apply Hfield. exact Hf.
    + eexists. reflexivity.
Qed.

Lemma delete_tag_keeps_catalog_witness :
  Loader.get_tag_columns (Loader.db (Loader.delete_tag Loader.no_fault "tag_outdoor"
                                       Sample.started))
  = filter (fun n => negb (String.eqb n "tag_outdoor"))
           (Loader.get_tag_columns (Loader.db Sample.started))
  /\ (forall f,
        In f (Catalog.fixed_names
              ++ Loader.get_tag_columns
                   (Loader.db (Loader.delete_tag Loader.no_fault "tag_outdoor"
                                 Sample.started))) ->
        Catalog.field f (Loader.db (Loader.delete_tag Loader.no_fault "tag_outdoor"
                                      Sample.started))
        = Catalog.field f (Loader.db Sample.started))
  /\ (exists stored',
        Sqlite.tables (Loader.db (Loader.delete_tag Loader.no_fault "tag_outdoor"
                                    Sample.started))
        = [("hdri"%string,
            Sqlite.mkTable
              (Loader.catalog_columns false false
                 (Loader.get_tag_columns
                    (Loader.db (Loader.delete_tag Loader.no_fault "tag_outdoor"
                                  Sample.started))))
              stored')])
  /\ Loader.shown (Loader.delete_tag Loader.no_fault "tag_outdoor" Sample.started)
     = Loader.shown Sample.started.
Proof.
  apply (delete_tag_keeps_catalog Loader.no_fault "tag_outdoor" Sample.started).
  - exists true, true, ["tag_outdoor"%string], [Sample.desert; Sample.forest].
    split; [reflexivity|]. split; reflexivity.
  - left. reflexivity.
  - reflexivity.
Defined.

Lemma distinct_names_snoc (names : list string) (n : string) :
  Sqlite.distinct_names names = true ->
  (forall m, In m names -> Str.eqb_nocase m n = false) ->
  Sqlite.distinct_names (names ++ [n]) = true.
Proof.
  induction names as [|k names IH]; intros Hd Hn; [reflexivity|].
  cbn [app Sqlite.distinct_names] in *. apply andb_true_iff in Hd. destruct Hd as [Hk Hd].
  apply andb_true_iff. split.
  - apply negb_true_iff. rewrite existsb_app. apply orb_false_iff. split.
    + apply negb_true_iff. exact Hk.
    + cbn [existsb]. rewrite orb_false_r. apply Hn. left. reflexivity.
  - apply IH; [exact Hd|]. intros m Hm. apply Hn. right. exact Hm.
Qed.

Lemma cell_app_old (cols more : list Sqlite.column) (r extra : list Sqlite.value)
    (n : string) :
  Sqlite.col_index cols n <> None -> length r = length cols ->
  Sqlite.cell (cols ++ more) (r ++ extra) n = Sqlite.cell cols r n.
Proof.
  intros Hsome Hlen. unfold Sqlite.cell.
  destruct (Sqlite.col_index cols n) as [i|] eqn:Hi; [|contradiction].
  rewrite (col_index_app_found cols more n i Hi).
  apply app_nth1. rewrite Hlen. clear - Hi.
  revert i Hi. induction cols as [|k cols IH]; intros i Hi; [discriminate|].
  cbn [Sqlite.col_index] in Hi. destruct (Str.eqb_nocase (Sqlite.col_name k) n).
  - injection Hi as <-. cbn [length]. lia.
  - destruct (Sqlite.col_index cols n) as [j|]; [|discriminate].
    injection Hi as <-. specialize (IH j eq_refl). cbn [length]. lia.
Qed.

Lemma cell_app_new (cols : list Sqlite.column) (c : Sqlite.column) (r : list Sqlite.value)
    (v : Sqlite.value) :
  Sqlite.col_index cols (Sqlite.col_name c) = None -> length r = length cols ->
  Sqlite.cell (cols ++ [c]) (r ++ [v]) (Sqlite.col_name c) = v.
Proof.
  intros Hnone Hlen. unfold Sqlite.cell. rewrite (col_index_app_new cols c Hnone).
  rewrite <- Hlen, app_nth2, Nat.sub_diag by lia. reflexivity.
Qed.

Lemma safe_tag_column_tagged (tag_name : string) :
  Str.startswith "tag_" (Loader.safe_tag_column tag_name) = true.
Proof.
  unfold Loader.safe_tag_column, Str.startswith.
  destruct (Str.replace_char " " "_" (Str.strip tag_name)); reflexivity.
Qed.

Lemma find_map_in (A : Type) (p : A -> bool) (f : A -> A) (l : list A) :
  (forall x, In x l -> p (f x) = p x) -> find p (map f l) = option_map f (find p l).
Proof.
  induction l as [|x l IH]; intros Hp; [reflexivity|]. cbn [map find].
  rewrite (Hp x (or_introl eq_refl)). destruct (p x); [reflexivity|].
  apply IH. intros y Hy. apply Hp. right. exact Hy.
Qed.

Lemma find_same (A : Type) (p q : A -> bool) (l : list A) :
  (forall x, In x l -> p x = q x) -> find p l = find q l.
Proof.
  induction l as [|x l IH]; intros Hpq; [reflexivity|]. cbn [find].
  rewrite (Hpq x (or_introl eq_refl)). destruct (q x); [reflexivity|].
  apply IH. intros y Hy. apply Hpq. right. exact Hy.
Qed.

(** How [add_new_tag] ends once the column is there: [load_tags] finds
    the record of the dialog, or raises at the first tag column. *)
Lemma reload_ends (hdri_id : Z) (d : Sqlite.database) (t : Sqlite.table)
    (w' : Loader.world) :
  Sqlite.lookup "hdri" (Sqlite.tables d) = Some t ->
  Sqlite.has_column t "id" = true ->
  Loader.get_tag_columns d <> [] ->
  match Dialog.load_tags hdri_id d with
  | inl e => (Some e, w')
  | inr _ => (None, w')
  end
  = (match Catalog.record_of hdri_id d with
     | Some _ => None
     | None => Some (Dialog.TypeError "'NoneType' object is not subscriptable")
     end, w').
Proof.
  intros Ht Hid Htags. rewrite (load_tags_run hdri_id d t Ht Hid).
  destruct (Catalog.record_of hdri_id d); [reflexivity|].
  destruct (Loader.get_tag_columns d); [contradiction|reflexivity].
Qed.

Section AddTagCatalog.
Import Sqlite Sqlite3.
Variables autoinc unique : bool.
Variable tags : list string.
Hypothesis Htags : forallb (Str.startswith "tag_") tags = true.
Variable hdri_id : Z.
Variable text : string.

Let cols : list column := Loader.catalog_columns autoinc unique tags.
Let col : string := Loader.safe_tag_column text.

Lemma tagged_shape :
  (cols ++ [Loader.tag_column col])%list
  = Loader.catalog_columns autoinc unique (tags ++ [col]).
Proof.
  unfold cols, Loader.catalog_columns. rewrite map_app, <- app_assoc. reflexivity.
Qed.

Lemma tagged_tags : forallb (Str.startswith "tag_") (tags ++ [col]) = true.
Proof.
  rewrite forallb_app, Htags. cbn [forallb andb]. unfold col.
  rewrite safe_tag_column_tagged. reflexivity.
Qed.

(** The rows after [add_new_tag]: 1 in the new column for the record of
    the dialog, 0 for the others. *)
Let tagged (stored : list (list value)) : list (list value) :=
  map (fun r => r ++ [Int (if value_eqb (nth 0 r Null) (Int hdri_id) then 1 else 0)])%list
      stored.

Lemma add_new_tag_run (stored : list (list value)) (seq : list (string * Z))
    (files : list string) (shown : list Loader.event) (clock : nat) :
  Forall (Catalog.row_fits cols) stored ->
  Str.strip text <> EmptyString ->
  has_column (mkTable cols stored) col = false ->
  Dialog.add_new_tag hdri_id text
    (Loader.mkWorld (mkDatabase [("hdri"%string, mkTable cols stored)] seq) files shown clock)
  = (match find (fun r => value_eqb (nth 0 r Null) (Int hdri_id)) stored with
     | Some _ => None
     | None => Some (Dialog.TypeError "'NoneType' object is not subscriptable")
     end,
     Loader.mkWorld
       (mkDatabase
          [("hdri"%string,
            mkTable (Loader.catalog_columns autoinc unique (tags ++ [col])) (tagged stored))]
          seq)
       files shown clock).
Proof.
  intros Hfit Hne Hhas. rewrite Forall_forall in Hfit.
  assert (Hnone : col_index cols col = None).
  { unfold has_column in Hhas. cbn [columns] in Hhas.
    destruct (col_index cols col); [discriminate|reflexivity]. }
  assert (Hrows :
    map (fun r => if value_eqb (nth 0 r Null) (Int hdri_id)
                  then Dialog.edited (Loader.catalog_columns autoinc unique (tags ++ [col]))
                         [(col, Int 1)] r
                  else r)
        (map (fun r => (r ++ [Int 0])%list) stored)
    = tagged stored).
  { unfold tagged. rewrite map_map. apply map_ext_in. intros r Hr.
    destruct (Hfit r Hr) as [Hlen _].
    assert (Hrne : r <> []).
    { intros ->. unfold cols in Hlen. rewrite catalog_length in Hlen. discriminate. }
    rewrite (nth_first_app _ r [Int 0] Null Hrne).
    destruct (value_eqb (nth 0 r Null) (Int hdri_id)); [|reflexivity].
    unfold Dialog.edited. cbn [fold_left]. rewrite <- tagged_shape.
    change col with (col_name (Loader.tag_column col)) at 2.
    apply set_cells_last; [exact Hlen|exact Hnone]. }
  assert (Hcol_in : In col (tags ++ [col])) by (apply in_or_app; right; left; reflexivity).
  unfold Dialog.add_new_tag.
  destruct (String.eqb_spec (Str.strip text) EmptyString) as [|_]; [contradiction|].
  rewrite safe_tag_column_strip. fold col.
  unfold bind at 1. unfold execute_ddl at 1. unfold add_column.
  cbn [Loader.db connect current in_transaction tables].
  rewrite lookup_here. cbn [col_name Loader.tag_column]. rewrite Hhas.
  unfold set_table. cbn [tables sqlite_sequence columns rows]. rewrite store_here.
  unfold commit at 1. cbn [current committed].
  rewrite tagged_shape.
  change (default_value (Loader.tag_column col)) with (Int 0).
  unfold bind at 1. unfold execute_dml at 1, no_value at 1. cbn [current committed].
  rewrite (update_cell_run autoinc unique (tags ++ [col]) hdri_id _ seq col (Int 1)
             (tag_has_column autoinc unique (tags ++ [col]) _ col Hcol_in) eq_refl).
  cbv beta. rewrite Hrows. cbv zeta.
  unfold Loader.with_db. cbn [Loader.db Loader.files Loader.shown Loader.clock committed].
  unfold commit. cbn [committed current].
  rewrite (reload_ends hdri_id
             (mkDatabase
                [("hdri"%string,
                  mkTable (Loader.catalog_columns autoinc unique (tags ++ [col]))
                    (tagged stored))]
                seq)
             (mkTable (Loader.catalog_columns autoinc unique (tags ++ [col])) (tagged stored))
             _ (lookup_here _ _ _ _) eq_refl).
  2:{ rewrite (catalog_tag_columns autoinc unique (tags ++ [col]) tagged_tags).
      destruct tags; discriminate. }
  f_equal. unfold Catalog.record_of. cbn [tables]. rewrite lookup_here.
  cbn [columns rows]. unfold tagged. rewrite find_map_in.
  - change (find (fun r => value_eqb
                             (cell (Loader.catalog_columns autoinc unique (tags ++ [col])) r "id")
                             (Int hdri_id)) stored)
      with (find (fun r => value_eqb (nth 0 r Null) (Int hdri_id)) stored).
    destruct (find _ stored); reflexivity.
  - intros r Hr.
    change (cell (Loader.catalog_columns autoinc unique (tags ++ [col])) ?x "id")
      with (nth 0 x Null).
    cbv beta. f_equal. apply nth_first_app. destruct (Hfit r Hr) as [Hlen _]. intros ->.
    unfold cols in Hlen. rewrite catalog_length in Hlen. discriminate.
Qed.

Lemma tagged_fits (stored : list (list value)) :
  distinct_names (Catalog.fixed_names ++ tags) = true ->
  col_index cols col = None ->
  Forall (Catalog.row_fits cols) stored ->
  Forall (Catalog.row_fits (Loader.catalog_columns autoinc unique (tags ++ [col])))
         (tagged stored).
Proof.
  intros Hdist Hnone Hfit. rewrite Forall_forall in *. intros r' Hr'.
  apply in_map_iff in Hr'. destruct Hr' as [r [<- Hr]].
  destruct (Hfit r Hr) as [Hlen [Hint Hnn]].
  assert (Hrne : r <> []).
  { intros ->. unfold cols in Hlen. rewrite catalog_length in Hlen. discriminate. }
  rewrite <- tagged_shape. split; [|split].
  - rewrite !length_app, Hlen. reflexivity.
  - rewrite (nth_first_app _ r _ Null Hrne). exact Hint.
  - unfold violates_notnull. apply existsb_all_false. intros c Hc.
    apply in_app_or in Hc. destruct Hc as [Hc|[<-|[]]]; [|reflexivity].
    rewrite (cell_app_old cols _ r _ (col_name c) (col_index_in cols c Hc) Hlen).
    apply (existsb_false_in _ _ _ c Hnn Hc).
Qed.

End AddTagCatalog.

Section AddTagEnds.
Import Sqlite Sqlite3.

(** The records are found by their ids after the column is added as
    before. *)
Lemma record_of_tagged (other : Z) (t : table) (c : column) (last : list value -> value)
    (seq : list (string * Z)) :
  Loader.catalog_table t = true ->
  Catalog.record_of other
    (mkDatabase
       [("hdri"%string, mkTable (columns t ++ [c]) (map (fun r => r ++ [last r]) (rows t)))]
       seq)
  = option_map (fun r => r ++ [last r])
      (Catalog.record_of other (mkDatabase [("hdri"%string, t)] seq)).
Proof.
  intros Hcat.
  destruct (catalog_table_parts t Hcat)
    as [[idc [others [Hcols [Hid _]]]] [_ [Hlen _]]].
  unfold Catalog.record_of. cbn [tables]. rewrite !lookup_here. cbn [columns rows].
  rewrite find_map_in.
  - f_equal. apply find_same. intros r Hr. rewrite Hcols. cbn [app].
    rewrite !(id_cell idc _ r Hid). reflexivity.
  - intros r Hr. rewrite Hcols. cbn [app]. rewrite !(id_cell idc _ _ Hid).
    f_equal. apply nth_first_app. intros ->.
    specialize (Hlen [] Hr). rewrite Hcols in Hlen. discriminate.
Qed.

(** C9, as the code has it.  The column identity is [tag_] followed by
    the trimmed name with each space replaced by an underscore.  For a
    name that is empty once trimmed nothing happens.  When the column
    exists (up to case) the database is left as it is and the error is
    printed.  When it does not, the column is added with default 0: every
    record keeps its cells and gets 0 in the new column, except the record
    of the dialog, which gets 1.  The method then builds the check boxes
    again: nothing is raised when the record of the dialog is stored, and
    [TypeError] is raised, with the column added, when it is not.  (For
    identities that SQLite reads as one identifier.) *)
Theorem add_new_tag_adds_column (hdri_id : Z) (text : string) (w : Loader.world)
    (t : table) :
  tables (Loader.db w) = [("hdri"%string, t)] ->
  Loader.catalog_table t = true ->
  Loader.safe_tag_column text
  = ("tag_" ++ Str.replace_char " " "_" (Str.strip text))%string
  /\ (Str.strip text = EmptyString -> Dialog.add_new_tag hdri_id text w = (None, w))
  /\ (Str.strip text <> EmptyString ->
      Str.sql_identifier (Loader.safe_tag_column text) = true ->
      has_column t (Loader.safe_tag_column text) = true ->
      Dialog.add_new_tag hdri_id text w
      = (None,
         Loader.emit
           (Loader.Printed ("Error adding tag: duplicate column name: "
                            ++ Loader.safe_tag_column text))
           w))
  /\ (Str.strip text <> EmptyString ->
      Str.sql_identifier (Loader.safe_tag_column text) = true ->
      has_column t (Loader.safe_tag_column text) = false ->
      Dialog.add_new_tag hdri_id text w
      = (match Catalog.record_of hdri_id (Loader.db w) with
         | Some _ => None
         | None => Some (Dialog.TypeError "'NoneType' object is not subscriptable")
         end,
         Loader.with_db
           (mkDatabase
              [("hdri"%string,
                mkTable
                  (columns t ++ [Loader.tag_column (Loader.safe_tag_column text)])
                  (map (fun r =>
                          r ++ [Int (if value_eqb (cell (columns t) r "id") (Int hdri_id)
                                     then 1 else 0)])
                       (rows t)))]
              (sqlite_sequence (Loader.db w)))
           w)).
Proof.
  intros Htab Hcat.
  destruct (add_new_tag_writes hdri_id text w t Htab Hcat) as [Hempty [Hdup Hnew]].
  split; [reflexivity|]. split; [exact Hempty|]. split.
  - intros Hne _ Hhas. apply Hdup; assumption.
  - intros Hne _ Hhas. rewrite (Hnew Hne Hhas).
    set (col := Loader.safe_tag_column text) in *.
    set (last := fun r : list value =>
                   Int (if value_eqb (cell (columns t) r "id") (Int hdri_id) then 1 else 0)).
    destruct (catalog_table_parts t Hcat) as [[idc [others [Hcols [Hid _]]]] _].
    rewrite (reload_ends hdri_id
               (mkDatabase
                  [("hdri"%string,
                    mkTable (columns t ++ [Loader.tag_column col])
                      (map (fun r => r ++ [last r]) (rows t)))]
                  (sqlite_sequence (Loader.db w)))
               (mkTable (columns t ++ [Loader.tag_column col])
                  (map (fun r => r ++ [last r]) (rows t)))).
    + f_equal. rewrite (record_of_tagged hdri_id t _ last _ Hcat).
      destruct w as [[tabs seq] files shown clock].
      cbn [Loader.db tables sqlite_sequence] in *. subst tabs.
      destruct (Catalog.record_of hdri_id _); reflexivity.
    + apply lookup_here.
    + unfold has_column. cbn [columns].
      rewrite (col_index_app_found (columns t) _ "id" 0); [reflexivity|].
      rewrite Hcols. simpl. rewrite Hid. reflexivity.
    + erewrite tag_columns_of_table; [|cbn [tables]; apply lookup_here]. cbn [columns].
      rewrite filter_app, map_app. cbn [filter col_name Loader.tag_column].
      unfold col. rewrite safe_tag_column_tagged.
      intros Hnil. apply app_eq_nil in Hnil. destruct Hnil as [_ Hnil]. discriminate.
Qed.

End AddTagEnds.

Lemma add_new_tag_adds_column_witness :
  Dialog.add_new_tag 1 " Studio Light " Sample.started
  = (match Catalog.record_of 1 (Loader.db Sample.started) with
     | Some _ => None
     | None => Some (Dialog.TypeError "'NoneType' object is not subscriptable")
     end,
     Loader.with_db
       (Sqlite.mkDatabase
          [("hdri"%string,
            Sqlite.mkTable
              (Sqlite.columns Sample.two_records_table
               ++ [Loader.tag_column (Loader.safe_tag_column " Studio Light ")])
              (map (fun r =>
                      r ++ [Sqlite.Int
                              (if Sqlite.value_eqb
                                    (Sqlite.cell (Sqlite.columns Sample.two_records_table) r "id")
                                    (Sqlite.Int 1)
                               then 1 else 0)])
                   (Sqlite.rows Sample.two_records_table)))]
          (Sqlite.sqlite_sequence (Loader.db Sample.started)))
       Sample.started).
Proof.
  apply (proj2 (proj2 (proj2
           (add_new_tag_adds_column 1 " Studio Light " Sample.started
              Sample.two_records_table eq_refl eq_refl)))).
  - vm_compute. discriminate.
  - reflexivity.
  - reflexivity.
Defined.

Lemma display_name_of_tag (tag_name : string) :
  Dialog.display_name (Loader.safe_tag_column tag_name)
  = Str.replace_char " " "_" (Str.strip tag_name).
Proof.
  unfold Dialog.display_name, Loader.safe_tag_column. rewrite chars_append.
  cbn [Str.chars list_ascii_of_string app skipn]. apply of_chars_chars.
Qed.

(** [add_new_tag] and what the dialogs show next.  On a catalog, for a
    name that is not blank and whose column (an SQL identifier) is not
    there: nothing is raised when the record of the dialog is stored, and
    [TypeError] is raised when it is not, by the [load_tags] that ends
    the method; either way the column is added, the catalog is a catalog
    afterwards, the new column is the last tag column, its check box
    reads the trimmed name with underscores for spaces, the filter row
    gets one more box, unchecked, and for every record [load_tags] shows
    the boxes it showed before followed by the new one, checked for the
    record of the dialog and for no other. *)
Theorem add_new_tag_then_load_tags (autoinc unique : bool) (tags : list string)
    (stored : list (list Sqlite.value)) (seq : list (string * Z)) (files : list string)
    (shown : list Loader.event) (clock : nat) (hdri_id : Z) (text : string) :
  forallb (Str.startswith "tag_") tags = true ->
  let cols := Loader.catalog_columns autoinc unique tags in
  let w := Loader.mkWorld
             (Sqlite.mkDatabase [("hdri"%string, Sqlite.mkTable cols stored)] seq)
             files shown clock in
  let col := Loader.safe_tag_column text in
  Loader.catalog_table (Sqlite.mkTable cols stored) = true ->
  Str.strip text <> EmptyString ->
  Str.sql_identifier col = true ->
  Sqlite.has_column (Sqlite.mkTable cols stored) col = false ->
  exists w',
    Dialog.add_new_tag hdri_id text w
    = (match Catalog.record_of hdri_id (Loader.db w) with
       | Some _ => None
       | None => Some (Dialog.TypeError "'NoneType' object is not subscriptable")
       end, w')
    /\ Catalog.well_formed (Loader.db w')
    /\ Loader.get_tag_columns (Loader.db w') = (tags ++ [col])%list
    /\ Dialog.populate_filter_checkboxes (Loader.db w')
       = (Dialog.populate_filter_checkboxes (Loader.db w) ++ [(col, false)])%list
    /\ Dialog.display_name col = Str.replace_char " " "_" (Str.strip text)
    /\ forall other r boxes,
         Catalog.record_of other (Loader.db w) = Some r ->
         Dialog.load_tags other (Loader.db w) = inr boxes ->
         Dialog.load_tags other (Loader.db w')
         = inr (boxes ++ [(col, Z.eqb other hdri_id)])%list.
Proof.
  intros Htags cols w col Hcat Hne _ Hhas. subst w.
  pose proof (proj1 (catalog_table_shape autoinc unique tags stored) Hcat)
    as [Hdist [Hfit Hids]].
  assert (Hnone : Sqlite.col_index cols col = None).
  { unfold Sqlite.has_column in Hhas. cbn [Sqlite.columns] in Hhas.
    destruct (Sqlite.col_index cols col); [discriminate|reflexivity]. }
  pose proof (tagged_tags tags Htags text) as Htags'. fold col in Htags'.
  eexists. split;
    [apply (add_new_tag_run autoinc unique tags Htags hdri_id text); assumption|].
  fold col. cbn [Loader.db].
  set (tagged := map _ stored).
  assert (Hid : forall r, In r stored ->
            nth 0 (r ++ [Sqlite.Int (if Sqlite.value_eqb (nth 0 r Sqlite.Null)
                                          (Sqlite.Int hdri_id) then 1 else 0)]) Sqlite.Null
            = nth 0 r Sqlite.Null).
  { intros r Hr. apply nth_first_app. rewrite Forall_forall in Hfit.
    destruct (Hfit r Hr) as [Hlen _]. intros ->.
    rewrite catalog_length in Hlen. discriminate. }
  split; [|split; [|split; [|split]]].
  - exists autoinc, unique, (tags ++ [col])%list, tagged.
    split; [reflexivity|]. split; [exact Htags'|].
    apply catalog_table_shape. split; [|split].
    + rewrite app_assoc. apply distinct_names_snoc; [exact Hdist|].
      intros m Hm. rewrite <- (catalog_names autoinc unique tags) in Hm.
      apply in_map_iff in Hm. destruct Hm as [c [<- Hc]].
      apply (col_index_none cols col c Hnone Hc).
    + apply (tagged_fits autoinc unique tags hdri_id text stored Hdist Hnone Hfit).
    + unfold tagged. rewrite map_map. erewrite map_ext_in; [exact Hids|].
      intros r Hr. unfold Sqlite.rowid_at. rewrite (Hid r Hr). reflexivity.
  - apply (catalog_tag_columns autoinc unique (tags ++ [col]) Htags').
  - unfold Dialog.populate_filter_checkboxes.
    rewrite (catalog_tag_columns autoinc unique (tags ++ [col]) Htags').
    rewrite (catalog_tag_columns autoinc unique tags Htags). apply map_app.
  - apply display_name_of_tag.
  - intros other r boxes Hrecord Hboxes.
    rewrite (load_tags_run other _ (Sqlite.mkTable cols stored)) in Hboxes;
      [|apply lookup_here|reflexivity].
    rewrite Hrecord, (catalog_tag_columns autoinc unique tags Htags) in Hboxes.
    injection Hboxes as <-.
    rewrite (load_tags_run other _
               (Sqlite.mkTable (Loader.catalog_columns autoinc unique (tags ++ [col])) tagged));
      [|apply lookup_here|reflexivity].
    rewrite (catalog_tag_columns autoinc unique (tags ++ [col]) Htags').
    unfold Catalog.record_of in *. cbn [Sqlite.tables] in *. rewrite lookup_here in *.
    cbn [Sqlite.columns Sqlite.rows] in *.
    assert (Hcell_id : forall tgs x, Sqlite.cell (Loader.catalog_columns autoinc unique tgs) x "id"
                                     = nth 0 x Sqlite.Null) by reflexivity.
    unfold tagged. rewrite find_map_in.
    2:{ intros x Hx. rewrite !Hcell_id, (Hid x Hx). reflexivity. }
    change (find (fun r0 => Sqlite.value_eqb
                              (Sqlite.cell (Loader.catalog_columns autoinc unique (tags ++ [col]))
                                 r0 "id")
                              (Sqlite.Int other)) stored)
      with (find (fun r0 => Sqlite.value_eqb (Sqlite.cell cols r0 "id") (Sqlite.Int other))
              stored).
    rewrite Hrecord. cbn [option_map]. f_equal.
    apply find_some in Hrecord. destruct Hrecord as [Hr Hother].
    rewrite Forall_forall in Hfit. destruct (Hfit r Hr) as [Hlen _].
    rewrite map_app. cbn [map].
    pose proof (tagged_shape autoinc unique tags text) as Hshape.
    fold col in Hshape. fold cols in Hshape. rewrite <- Hshape. f_equal.
    + apply map_ext_in. intros tag Htag. f_equal. f_equal.
      apply cell_app_old; [|exact Hlen].
      pose proof (tag_has_column autoinc unique tags stored tag Htag) as Hcol.
      unfold Sqlite.has_column in Hcol. cbn [Sqlite.columns] in Hcol. fold cols in Hcol.
      destruct (Sqlite.col_index cols tag); [discriminate|discriminate].
    + f_equal. f_equal.
      change col with (Sqlite.col_name (Loader.tag_column col)) at 2.
      rewrite (cell_app_new cols (Loader.tag_column col) r _ Hnone Hlen).
      change (Sqlite.cell cols r "id") with (nth 0 r Sqlite.Null) in Hother.
      destruct (nth 0 r Sqlite.Null) as [|z|s]; try discriminate.
      cbn [Sqlite.value_eqb] in *. apply Z.eqb_eq in Hother. subst z.
      destruct (Z.eqb other hdri_id); reflexivity.
Qed.

Lemma add_new_tag_then_load_tags_witness :
  exists w',
    Dialog.add_new_tag 1 " Studio Light "
      (Loader.mkWorld
         (Sqlite.mkDatabase
            [("hdri"%string,
              Sqlite.mkTable (Loader.catalog_columns true true ["tag_outdoor"%string])
                [Sample.desert; Sample.forest])]
            [("hdri"%string, 2%Z)])
         [] [] 0)
    = (match Catalog.record_of 1
               (Loader.db
                  (Loader.mkWorld
                     (Sqlite.mkDatabase
                        [("hdri"%string,
                          Sqlite.mkTable
                            (Loader.catalog_columns true true ["tag_outdoor"%string])
                            [Sample.desert; Sample.forest])]
                        [("hdri"%string, 2%Z)])
                     [] [] 0)) with
       | Some _ => None
       | None => Some (Dialog.TypeError "'NoneType' object is not subscriptable")
       end, w')
    /\ Catalog.well_formed (Loader.db w')
    /\ Loader.get_tag_columns (Loader.db w')
       = (["tag_outdoor"%string] ++ [Loader.safe_tag_column " Studio Light "])%list
    /\ Dialog.populate_filter_checkboxes (Loader.db w')
       = (Dialog.populate_filter_checkboxes
            (Loader.db
               (Loader.mkWorld
                  (Sqlite.mkDatabase
                     [("hdri"%string,
                       Sqlite.mkTable (Loader.catalog_columns true true ["tag_outdoor"%string])
                         [Sample.desert; Sample.forest])]
                     [("hdri"%string, 2%Z)])
                  [] [] 0))
          ++ [(Loader.safe_tag_column " Studio Light ", false)])%list
    /\ Dialog.display_name (Loader.safe_tag_column " Studio Light ")
       = Str.replace_char " " "_" (Str.strip " Studio Light ")
    /\ forall other r boxes,
         Catalog.record_of other
           (Loader.db
              (Loader.mkWorld
                 (Sqlite.mkDatabase
                    [("hdri"%string,
                      Sqlite.mkTable (Loader.catalog_columns true true ["tag_outdoor"%string])
                        [Sample.desert; Sample.forest])]
                    [("hdri"%string, 2%Z)])
                 [] [] 0))
         = Some r ->
         Dialog.load_tags other
           (Loader.db
              (Loader.mkWorld
                 (Sqlite.mkDatabase
                    [("hdri"%string,
                      Sqlite.mkTable (Loader.catalog_columns true true ["tag_outdoor"%string])
                        [Sample.desert; Sample.forest])]
                    [("hdri"%string, 2%Z)])
                 [] [] 0))
         = inr boxes ->
         Dialog.load_tags other (Loader.db w')
         = inr (boxes ++ [(Loader.safe_tag_column " Studio Light ", Z.eqb other 1)])%list.
Proof.
  apply (add_new_tag_then_load_tags true true ["tag_outdoor"%string]
           [Sample.desert; Sample.forest] [("hdri"%string, 2%Z)] [] [] 0 1 " Studio Light ").
  - reflexivity.
  - reflexivity.
  - vm_compute. discriminate.
  - reflexivity.
  - reflexivity.
Defined.

(* ================================================================== *)
(** * The folder of a record                                           *)
(* ================================================================== *)

Section PathFacts.

Lemma rsplit_plain (sep : ascii) (l : list ascii) :
  forallb (fun c => negb (Ascii.eqb c sep)) l = true -> Str.rsplit sep l = (None, l).
Proof.
  induction l as [|c l IH]; [reflexivity|]. cbn [forallb]. intros H.
  apply andb_true_iff in H. destruct H as [Hc Hl]. cbn [Str.rsplit].
  rewrite (IH Hl). apply negb_true_iff in Hc. rewrite Hc. reflexivity.
Qed.

Lemma rsplit_none (sep : ascii) (l tl : list ascii) :
  Str.rsplit sep l = (None, tl) -> tl = l.
Proof.
  revert tl. induction l as [|c l IH]; intros tl H.
  - injection H as <-. reflexivity.
  - cbn [Str.rsplit] in H. destruct (Str.rsplit sep l) as [[hd'|] tl']; [discriminate|].
    destruct (Ascii.eqb c sep); [discriminate|].
    injection H as <-. rewrite (IH tl' eq_refl). reflexivity.
Qed.

Lemma rsplit_at_last (sep : ascii) (a b : list ascii) :
  forallb (fun c => negb (Ascii.eqb c sep)) b = true ->
  Str.rsplit sep (a ++ sep :: b) = (Some a, b).
Proof.
  intros Hb. induction a as [|c a IH].
  - cbn [app Str.rsplit]. rewrite (rsplit_plain sep b Hb), Ascii.eqb_refl. reflexivity.
  - cbn [app Str.rsplit]. rewrite IH. reflexivity.
Qed.

Lemma rsplit_parts (sep : ascii) (l hd tl : list ascii) :
  Str.rsplit sep l = (Some hd, tl) -> l = (hd ++ sep :: tl)%list.
Proof.
  revert hd tl. induction l as [|c l IH]; intros hd tl H; [discriminate|].
  cbn [Str.rsplit] in H. destruct (Str.rsplit sep l) as [[hd'|] tl'] eqn:Hl.
  - injection H as <- <-. rewrite (IH hd' tl' eq_refl). reflexivity.
  - destruct (Ascii.eqb_spec c sep) as [->|_]; [|discriminate].
    injection H as <- <-. rewrite (rsplit_none sep l tl' Hl). reflexivity.
Qed.

(** The part after the last separator holds none. *)
Lemma rsplit_tail_plain (sep : ascii) (l : list ascii) :
  forallb (fun c => negb (Ascii.eqb c sep)) (snd (Str.rsplit sep l)) = true.
Proof.
  induction l as [|c l IH]; [reflexivity|]. cbn [Str.rsplit].
  destruct (Str.rsplit sep l) as [[hd|] tl]; cbn [snd] in *; [exact IH|].
  destruct (Ascii.eqb c sep) eqn:Hc; cbn [snd forallb]; [exact IH|].
  rewrite Hc, IH. reflexivity.
Qed.

Lemma basename_plain (p : string) :
  forallb (fun c => negb (Ascii.eqb c "/"%char)) (Str.chars (Str.basename p)) = true.
Proof.
  unfold Str.basename. rewrite chars_of_chars. apply rsplit_tail_plain.
Qed.

Lemma splitext_root_plain (s : string) :
  forallb (fun c => negb (Ascii.eqb c "/"%char)) (Str.chars s) = true ->
  forallb (fun c => negb (Ascii.eqb c "/"%char)) (Str.chars (Str.splitext_root s)) = true.
Proof.
  intros Hs. unfold Str.splitext_root. rewrite (rsplit_plain "/"%char _ Hs).
  destruct (Str.rsplit "."%char (Str.chars s)) as [[hd|] tl] eqn:Hdot;
    rewrite chars_of_chars; [|exact Hs].
  destruct (forallb (Str.is_char "."%char) hd); [exact Hs|].
  rewrite (rsplit_parts _ _ _ _ Hdot), forallb_app in Hs.
  apply andb_true_iff in Hs. apply Hs.
Qed.

Lemma uint_plain (d : Decimal.uint) :
  forallb (fun c => negb (Ascii.eqb c "/"%char)) (Str.chars (NilEmpty.string_of_uint d)) = true.
Proof.
  induction d; cbn [NilEmpty.string_of_uint Str.chars list_ascii_of_string forallb];
    try reflexivity; exact IHd.
Qed.

Lemma format_05d_plain (z : Z) :
  forallb (fun c => negb (Ascii.eqb c "/"%char)) (Str.chars (Str.format_05d z)) = true.
Proof.
  assert (Hpad : forall w s,
            forallb (fun c => negb (Ascii.eqb c "/"%char)) (Str.chars s) = true ->
            forallb (fun c => negb (Ascii.eqb c "/"%char)) (Str.chars (Str.zero_pad w s))
            = true).
  { intros w s Hs. unfold Str.zero_pad. rewrite chars_append, chars_of_chars, forallb_app, Hs.
    rewrite andb_true_r. apply forallb_forall. intros c Hc. apply repeat_spec in Hc.
    subst c. reflexivity. }
  unfold Str.format_05d, Str.decimal. destruct z; apply Hpad; apply uint_plain.
Qed.

Lemma plain_ends_in_name (s : string) :
  s <> EmptyString ->
  forallb (fun c => negb (Ascii.eqb c "/"%char)) (Str.chars s) = true ->
  Paths.ends_in_name s.
Proof.
  intros Hne Hs.
  assert (Hl : Str.chars s <> []).
  { intros Hnil. apply Hne. rewrite <- (of_chars_chars s), Hnil. reflexivity. }
  destruct (exists_last Hl) as [init [c Hlast]].
  exists init, c. split; [exact Hlast|].
  rewrite Hlast, forallb_app in Hs. apply andb_true_iff in Hs. destruct Hs as [_ Hc].
  cbn [forallb] in Hc. rewrite andb_true_r in Hc. apply negb_true_iff. exact Hc.
Qed.

Lemma append_ends_in_name (a b : string) :
  Paths.ends_in_name b -> Paths.ends_in_name (a ++ b).
Proof.
  intros [init [c [Hb Hc]]]. exists (Str.chars a ++ init)%list, c.
  split; [|exact Hc]. rewrite chars_append, Hb, app_assoc. reflexivity.
Qed.

Lemma plain_not_absolute (b : string) :
  forallb (fun c => negb (Ascii.eqb c "/"%char)) (Str.chars b) = true ->
  Str.startswith "/" b = false.
Proof.
  destruct b as [|c b]; [reflexivity|].
  cbn [Str.chars list_ascii_of_string forallb]. intros H.
  apply andb_true_iff in H. destruct H as [Hc _]. apply negb_true_iff in Hc.
  unfold Str.startswith. cbn [String.prefix].
  destruct (ascii_dec "/" c) as [<-|_]; [discriminate|reflexivity].
Qed.

(** [os.path.join] of any folder and a name ends in the name. *)
Lemma join_ends_in_name (a b : string) :
  forallb (fun c => negb (Ascii.eqb c "/"%char)) (Str.chars b) = true ->
  b <> EmptyString -> Paths.ends_in_name (Str.join a b).
Proof.
  intros Hb Hne. unfold Str.join. rewrite (plain_not_absolute b Hb).
  pose proof (plain_ends_in_name b Hne Hb) as Hend.
  destruct (rev (Str.chars a)) as [|c l]; [exact Hend|].
  destruct (Ascii.eqb c "/"%char); repeat apply append_ends_in_name; exact Hend.
Qed.

(** [os.path.join] of a folder that ends in a name and a name puts one
    separator between them, and [os.path.dirname] gives the folder
    back. *)
Lemma join_under_folder (folder b : string) :
  Paths.ends_in_name folder ->
  forallb (fun c => negb (Ascii.eqb c "/"%char)) (Str.chars b) = true ->
  Str.join folder b = (folder ++ "/" ++ b)%string.
Proof.
  intros [init [c [Hf Hc]]] Hb. unfold Str.join. rewrite (plain_not_absolute b Hb).
  rewrite Hf, rev_app_distr. cbn [rev app]. rewrite Hc. reflexivity.
Qed.

Lemma dirname_under_folder (folder b : string) :
  Paths.ends_in_name folder ->
  forallb (fun c => negb (Ascii.eqb c "/"%char)) (Str.chars b) = true ->
  Str.dirname (folder ++ "/" ++ b) = folder.
Proof.
  intros [init [c [Hf Hc]]] Hb. unfold Str.dirname.
  rewrite !chars_append. change (Str.chars "/") with ["/"%char]. cbn [app].
  rewrite (rsplit_at_last "/"%char (Str.chars folder) (Str.chars b) Hb). cbn [fst].
  replace (forallb (Str.is_char "/"%char) (Str.chars folder)) with false.
  2:{ rewrite Hf, forallb_app. cbn [forallb]. unfold Str.is_char at 2. rewrite Hc.
      rewrite andb_false_r. reflexivity. }
  rewrite Hf at 1. rewrite rev_app_distr. cbn [rev app Str.lstrip_char]. rewrite Hc.
  change (c :: rev init) with (rev [c] ++ rev init)%list.
  rewrite <- rev_app_distr, rev_involutive, <- Hf. apply of_chars_chars.
Qed.

Lemma prefix_append (a b : string) : String.prefix a (a ++ b) = true.
Proof.
  induction a as [|c a IH]; cbn [String.append String.prefix].
  - destruct b; reflexivity.
  - destruct (ascii_dec c c) as [_|Hne]; [exact IH|contradiction].
Qed.

Lemma append_assoc (a b c : string) : ((a ++ b) ++ c = a ++ (b ++ c))%string.
Proof.
  induction a as [|x a IH]; cbn [String.append]; [reflexivity|]. rewrite IH. reflexivity.
Qed.

(** [rmtree] takes the folder and what was put into it. *)
Lemma rmtree_created (folder : string) (files : list string) (names : list string) :
  Loader.rmtree folder (files ++ folder :: map (fun n => folder ++ "/" ++ n)%string names)
  = Loader.rmtree folder files.
Proof.
  unfold Loader.rmtree, Loader.within, Loader.below. rewrite filter_app. cbn [filter].
  rewrite String.eqb_refl. cbn [orb negb].
  replace (filter _ (map _ names)) with (@nil string); [apply app_nil_r|].
  symmetry. induction names as [|n names IH]; [reflexivity|]. cbn [map filter].
  replace (Str.startswith (folder ++ "/") (folder ++ "/" ++ n)) with true.
  - rewrite orb_true_r. cbn [negb]. exact IH.
  - symmetry. unfold Str.startswith. rewrite <- append_assoc. apply prefix_append.
Qed.

End PathFacts.

(* ================================================================== *)
(** * Ingesting a file and deleting its record                         *)
(* ================================================================== *)

Lemma value_eqb_true (a b : Sqlite.value) : Sqlite.value_eqb a b = true -> a = b.
Proof.
  destruct a, b; cbn [Sqlite.value_eqb]; intros H; try discriminate.
  - apply Z.eqb_eq in H. subst. reflexivity.
  - apply String.eqb_eq in H. subst. reflexivity.
Qed.

Lemma filter_all (A : Type) (f : A -> bool) (l : list A) :
  (forall x, In x l -> f x = true) -> filter f l = l.
Proof.
  intros Hf. induction l as [|x l IH]; [reflexivity|]. cbn [filter].
  rewrite (Hf x (or_introl eq_refl)), IH; [reflexivity|].
  intros y Hy. apply Hf. right. exact Hy.
Qed.

(** The name of the folder of a record holds no separator, and the
    underscore is always there. *)
Lemma folder_name_plain (hdri_id : Z) (p : string) :
  forallb (fun c => negb (Ascii.eqb c "/"%char))
    (Str.chars (Str.format_05d hdri_id ++ "_" ++ Str.splitext_root (Str.basename p))) = true
  /\ (Str.format_05d hdri_id ++ "_" ++ Str.splitext_root (Str.basename p))%string
     <> EmptyString.
Proof.
  split.
  - rewrite !chars_append, !forallb_app, format_05d_plain.
    rewrite (splitext_root_plain _ (basename_plain p)). reflexivity.
  - destruct (Str.format_05d hdri_id); discriminate.
Qed.

Section IngestDelete.
Import Sqlite Sqlite3.
Variable HDRI_STORAGE_FOLDER : string.
Variable image_hash_of : string -> option string.
Variable isoformat_now : nat -> string.
Variable copy_fails : string -> bool.
Variable preview_fails : string -> bool.
Variables autoinc unique : bool.
Variable tags : list string.

Let cols : list column := Loader.catalog_columns autoinc unique tags.

(** Deleting by the id the insert has just given takes the new record
    and no other. *)
Lemma delete_newest (d : database) (stored : list (list value)) (fp pp nm dt h : string) :
  filter (fun r => negb (value_eqb (nth 0 r Null)
                           (Int (next_rowid d "hdri" (mkTable cols stored)))))
    (stored ++ [Loader.record_row (next_rowid d "hdri" (mkTable cols stored)) fp pp nm dt h
                  tags])
  = stored.
Proof.
  rewrite filter_app. cbn [filter Loader.record_row app nth value_eqb].
  rewrite Z.eqb_refl. cbn [negb]. rewrite app_nil_r.
  apply filter_all. intros r Hr. unfold cols.
  rewrite (catalog_fresh_rowid autoinc unique tags d stored r Hr). reflexivity.
Qed.

Lemma absent_hash (stored : list (list value)) (h : string) :
  ~ In (Text h) (map (fun r => cell cols r "hash") stored) ->
  Loader.has_hash h (mkTable cols stored) = false.
Proof.
  intros Hno. unfold Loader.has_hash. cbn [columns rows].
  apply existsb_all_false. intros r Hr.
  destruct (value_eqb (cell cols r "hash") (Text h)) eqn:Heq; [|reflexivity].
  exfalso. apply Hno. apply value_eqb_true in Heq. rewrite <- Heq.
  apply (in_map (fun r => cell cols r "hash")). exact Hr.
Qed.

End IngestDelete.

(** A file ingested and then deleted.  On a catalog, a file whose hash is
    not on record and whose copy succeeds gets one record, after the
    others, with the path of the copy; the copy is among the files.
    Deleting that record by its id and its path, as the delete button
    does, takes the folder the ingest made with all that is below it and
    leaves the tables exactly as they were before the ingest, with
    nothing shown; when the folder, the copy or the preview cannot be
    removed, the record stays, the folder is still there, with or without
    what was in it, and the error is shown. *)
Theorem delete_hdri_undoes_add_hdri
    (HDRI_STORAGE_FOLDER : string) (image_hash_of : string -> option string)
    (isoformat_now : nat -> string) (copy_fails preview_fails rmtree_fails : string -> bool)
    (p h : string) (w : Loader.world) :
  Catalog.well_formed (Loader.db w) ->
  image_hash_of p = Some h ->
  ~ In (Sqlite.Text h) (Catalog.field "hash" (Loader.db w)) ->
  copy_fails p = false ->
  exists hdri_id file_path record,
    Loader.add_hdri HDRI_STORAGE_FOLDER image_hash_of isoformat_now copy_fails preview_fails
      [p] w
    = (None,
       snd (Loader.add_hdri HDRI_STORAGE_FOLDER image_hash_of isoformat_now copy_fails
              preview_fails [p] w))
    /\ Catalog.records
         (Loader.db (snd (Loader.add_hdri HDRI_STORAGE_FOLDER image_hash_of isoformat_now
                            copy_fails preview_fails [p] w)))
       = (Catalog.records (Loader.db w) ++ [record])%list
    /\ nth 0 record Sqlite.Null = Sqlite.Int hdri_id
    /\ nth 1 record Sqlite.Null = Sqlite.Text file_path
    /\ In file_path
         (Loader.files (snd (Loader.add_hdri HDRI_STORAGE_FOLDER image_hash_of isoformat_now
                               copy_fails preview_fails [p] w)))
    /\ (existsb (fun q => Loader.within (Str.dirname file_path) q && rmtree_fails q)
          (Loader.files
             (snd (Loader.add_hdri HDRI_STORAGE_FOLDER image_hash_of isoformat_now
                     copy_fails preview_fails [p] w)))
        = false ->
        Sqlite.tables
          (Loader.db
             (Loader.delete_hdri rmtree_fails true hdri_id file_path
                (snd (Loader.add_hdri HDRI_STORAGE_FOLDER image_hash_of isoformat_now
                        copy_fails preview_fails [p] w))))
        = Sqlite.tables (Loader.db w)
        /\ Loader.files
             (Loader.delete_hdri rmtree_fails true hdri_id file_path
                (snd (Loader.add_hdri HDRI_STORAGE_FOLDER image_hash_of isoformat_now
                        copy_fails preview_fails [p] w)))
           = Loader.rmtree (Str.dirname file_path) (Loader.files w)
        /\ Loader.shown
             (Loader.delete_hdri rmtree_fails true hdri_id file_path
                (snd (Loader.add_hdri HDRI_STORAGE_FOLDER image_hash_of isoformat_now
                        copy_fails preview_fails [p] w)))
           = Loader.shown
               (snd (Loader.add_hdri HDRI_STORAGE_FOLDER image_hash_of isoformat_now
                       copy_fails preview_fails [p] w)))
    /\ (existsb (fun q => Loader.within (Str.dirname file_path) q && rmtree_fails q)
          (Loader.files
             (snd (Loader.add_hdri HDRI_STORAGE_FOLDER image_hash_of isoformat_now
                     copy_fails preview_fails [p] w)))
        = true ->
        Loader.db
          (Loader.delete_hdri rmtree_fails true hdri_id file_path
             (snd (Loader.add_hdri HDRI_STORAGE_FOLDER image_hash_of isoformat_now
                     copy_fails preview_fails [p] w)))
        = Loader.db
            (snd (Loader.add_hdri HDRI_STORAGE_FOLDER image_hash_of isoformat_now
                    copy_fails preview_fails [p] w))
        /\ In (Str.dirname file_path)
             (Loader.files
                (Loader.delete_hdri rmtree_fails true hdri_id file_path
                   (snd (Loader.add_hdri HDRI_STORAGE_FOLDER image_hash_of isoformat_now
                           copy_fails preview_fails [p] w))))
        /\ exists text,
             Loader.shown
               (Loader.delete_hdri rmtree_fails true hdri_id file_path
                  (snd (Loader.add_hdri HDRI_STORAGE_FOLDER image_hash_of isoformat_now
                          copy_fails preview_fails [p] w)))
             = (Loader.shown
                  (snd (Loader.add_hdri HDRI_STORAGE_FOLDER image_hash_of isoformat_now
                          copy_fails preview_fails [p] w))
                ++ [Loader.WarningBox "Error" ("Error deleting HDRI: " ++ text)])%list).
Proof.
  intros [autoinc [unique [tags [stored [Htab [Htags Hcat]]]]]] Hhash Hno Hcopy.
  destruct w as [[tabs seq] files shown clock]. cbn [Loader.db Sqlite.tables] in *. subst tabs.
  unfold Catalog.field in Hno. cbn [Sqlite.tables] in Hno.
  rewrite lookup_here in Hno. cbn [Sqlite.columns Sqlite.rows] in Hno.
  pose proof (absent_hash autoinc unique tags stored h Hno) as Hnew.
  destruct (add_one_new HDRI_STORAGE_FOLDER image_hash_of isoformat_now copy_fails
              preview_fails autoinc unique tags Htags stored seq files shown clock p h
              Hhash Hnew) as [seq' Hrun].
  cbv zeta in Hrun. rewrite Hcopy in Hrun.
  cbn [Loader.add_hdri]. rewrite Hrun. cbn [snd].
  set (hdri_id := Sqlite.next_rowid _ _ _) in *.
  set (name := Str.splitext_root (Str.basename p)) in *.
  destruct (folder_name_plain hdri_id p) as [Hplain Hthere]. fold name in Hplain, Hthere.
  pose proof (join_ends_in_name HDRI_STORAGE_FOLDER _ Hplain Hthere) as Hfolder.
  set (folder := Str.join HDRI_STORAGE_FOLDER _) in *.
  rewrite (join_under_folder folder (Str.basename p) Hfolder (basename_plain p)).
  rewrite (join_under_folder folder "preview.jpg" Hfolder eq_refl).
  pose proof (dirname_under_folder folder (Str.basename p) Hfolder (basename_plain p))
    as Hdir.
  set (file_path := (folder ++ "/" ++ Str.basename p)%string) in *.
  exists hdri_id, file_path,
    (Loader.record_row hdri_id file_path (folder ++ "/" ++ "preview.jpg") name
       (isoformat_now clock) h tags).
  assert (Hthere' : existsb (String.eqb folder)
                      (if preview_fails file_path
                       then (files ++ [folder]) ++ [file_path]
                       else ((files ++ [folder]) ++ [file_path])
                              ++ [(folder ++ "/" ++ "preview.jpg")%string]) = true).
  { destruct (preview_fails file_path); rewrite !existsb_app; cbn [existsb];
      rewrite String.eqb_refl; cbn [orb]; rewrite ?orb_true_r; reflexivity. }
  assert (Hgone : Loader.rmtree folder
                    (if preview_fails file_path
                     then (files ++ [folder]) ++ [file_path]
                     else ((files ++ [folder]) ++ [file_path])
                            ++ [(folder ++ "/" ++ "preview.jpg")%string])
                  = Loader.rmtree folder files).
  { destruct (preview_fails file_path); rewrite <- !app_assoc; cbn [app].
    - apply (rmtree_created folder files [Str.basename p]).
    - apply (rmtree_created folder files [Str.basename p; "preview.jpg"%string]). }
  split; [reflexivity|]. split.
  { unfold Catalog.records. cbn [Loader.db Sqlite.tables]. rewrite !lookup_here.
    reflexivity. }
  split; [reflexivity|]. split; [reflexivity|]. split.
  { cbn [Loader.files]. destruct (preview_fails file_path);
      repeat (apply in_or_app; first [right; left; reflexivity | left]). }
  rewrite (delete_hdri_yes autoinc unique tags rmtree_fails), Hdir, Hthere'.
  cbn [Loader.files].
  destruct (rmtree_raising_facts rmtree_fails folder _ (present_in _ _ Hthere'))
    as [Hfst [Hclean [_ [_ Hraised]]]].
  split; intros Hrm; rewrite Hrm in Hfst; rewrite Hfst.
  - cbn [Loader.db Loader.files Loader.shown Sqlite.tables].
    split; [|split; [rewrite (Hclean Hfst); exact Hgone|reflexivity]].
    unfold hdri_id. rewrite (delete_newest autoinc unique tags). reflexivity.
  - cbn [Loader.db Loader.files Loader.shown].
    split; [reflexivity|]. split; [apply Hraised; exact Hfst|].
    eexists. reflexivity.
Qed.

Lemma delete_hdri_undoes_add_hdri_witness :
  exists hdri_id file_path record,
    Loader.add_hdri "/store" Sample.sample_hash Sample.sample_clock Sample.sample_copy_fails
      Sample.never ["/in/meadow.hdr"%string] Sample.started
    = (None,
       snd (Loader.add_hdri "/store" Sample.sample_hash Sample.sample_clock
              Sample.sample_copy_fails Sample.never ["/in/meadow.hdr"%string] Sample.started))
    /\ Catalog.records
         (Loader.db (snd (Loader.add_hdri "/store" Sample.sample_hash Sample.sample_clock
                            Sample.sample_copy_fails Sample.never ["/in/meadow.hdr"%string]
                            Sample.started)))
       = (Catalog.records (Loader.db Sample.started) ++ [record])%list
    /\ nth 0 record Sqlite.Null = Sqlite.Int hdri_id
    /\ nth 1 record Sqlite.Null = Sqlite.Text file_path
    /\ In file_path
         (Loader.files (snd (Loader.add_hdri "/store" Sample.sample_hash Sample.sample_clock
                               Sample.sample_copy_fails Sample.never
                               ["/in/meadow.hdr"%string] Sample.started)))
    /\ (existsb (fun q => Loader.within (Str.dirname file_path) q && Sample.never q)
          (Loader.files
             (snd (Loader.add_hdri "/store" Sample.sample_hash Sample.sample_clock
                     Sample.sample_copy_fails Sample.never ["/in/meadow.hdr"%string]
                     Sample.started)))
        = false ->
        Sqlite.tables
          (Loader.db
             (Loader.delete_hdri Sample.never true hdri_id file_path
                (snd (Loader.add_hdri "/store" Sample.sample_hash Sample.sample_clock
                        Sample.sample_copy_fails Sample.never ["/in/meadow.hdr"%string]
                        Sample.started))))
        = Sqlite.tables (Loader.db Sample.started)
        /\ Loader.files
             (Loader.delete_hdri Sample.never true hdri_id file_path
                (snd (Loader.add_hdri "/store" Sample.sample_hash Sample.sample_clock
                        Sample.sample_copy_fails Sample.never ["/in/meadow.hdr"%string]
                        Sample.started)))
           = Loader.rmtree (Str.dirname file_path) (Loader.files Sample.started)
        /\ Loader.shown
             (Loader.delete_hdri Sample.never true hdri_id file_path
                (snd (Loader.add_hdri "/store" Sample.sample_hash Sample.sample_clock
                        Sample.sample_copy_fails Sample.never ["/in/meadow.hdr"%string]
                        Sample.started)))
           = Loader.shown
               (snd (Loader.add_hdri "/store" Sample.sample_hash Sample.sample_clock
                       Sample.sample_copy_fails Sample.never ["/in/meadow.hdr"%string]
                       Sample.started)))
    /\ (existsb (fun q => Loader.within (Str.dirname file_path) q && Sample.never q)
          (Loader.files
             (snd (Loader.add_hdri "/store" Sample.sample_hash Sample.sample_clock
                     Sample.sample_copy_fails Sample.never ["/in/meadow.hdr"%string]
                     Sample.started)))
        = true ->
        Loader.db
          (Loader.delete_hdri Sample.never true hdri_id file_path
             (snd (Loader.add_hdri "/store" Sample.sample_hash Sample.sample_clock
                     Sample.sample_copy_fails Sample.never ["/in/meadow.hdr"%string]
                     Sample.started)))
        = Loader.db
            (snd (Loader.add_hdri "/store" Sample.sample_hash Sample.sample_clock
                    Sample.sample_copy_fails Sample.never ["/in/meadow.hdr"%string]
                    Sample.started))
        /\ In (Str.dirname file_path)
             (Loader.files
                (Loader.delete_hdri Sample.never true hdri_id file_path
                   (snd (Loader.add_hdri "/store" Sample.sample_hash Sample.sample_clock
                           Sample.sample_copy_fails Sample.never ["/in/meadow.hdr"%string]
                           Sample.started))))
        /\ exists text,
             Loader.shown
               (Loader.delete_hdri Sample.never true hdri_id file_path
                  (snd (Loader.add_hdri "/store" Sample.sample_hash Sample.sample_clock
                          Sample.sample_copy_fails Sample.never ["/in/meadow.hdr"%string]
                          Sample.started)))
             = (Loader.shown
                  (snd (Loader.add_hdri "/store" Sample.sample_hash Sample.sample_clock
                          Sample.sample_copy_fails Sample.never ["/in/meadow.hdr"%string]
                          Sample.started))
                ++ [Loader.WarningBox "Error" ("Error deleting HDRI: " ++ text)])%list).
Proof.
  apply (delete_hdri_undoes_add_hdri "/store" Sample.sample_hash Sample.sample_clock
           Sample.sample_copy_fails Sample.never Sample.never
           "/in/meadow.hdr" "0f0f33cc55aa9966" Sample.started).
  - exists true, true, ["tag_outdoor"%string], [Sample.desert; Sample.forest].
    split; [reflexivity|]. split; reflexivity.
  - reflexivity.
  - vm_compute. intros [H|[H|[]]]; discriminate.
  - reflexivity.
Defined.

(** A record left by a failed copy, deleted.  When the copy fails,
    [add_hdri] ends with the error, the record stays with an empty path
    and the folder made for it stays among the files.  Deleting that
    record by its id and its empty path removes no folder, whatever
    removals would fail: the tables are as they were before the ingest,
    nothing is shown, and the folder is still there. *)
Theorem delete_hdri_removes_orphan
    (HDRI_STORAGE_FOLDER : string) (image_hash_of : string -> option string)
    (isoformat_now : nat -> string) (copy_fails preview_fails rmtree_fails : string -> bool)
    (p h : string) (w : Loader.world) :
  Catalog.well_formed (Loader.db w) ->
  image_hash_of p = Some h ->
  ~ In (Sqlite.Text h) (Catalog.field "hash" (Loader.db w)) ->
  copy_fails p = true ->
  ~ In EmptyString (Loader.files w) ->
  exists hdri_id record folder,
    Loader.add_hdri HDRI_STORAGE_FOLDER image_hash_of isoformat_now copy_fails preview_fails
      [p] w
    = (Some (Loader.OSError ("cannot copy " ++ p)),
       snd (Loader.add_hdri HDRI_STORAGE_FOLDER image_hash_of isoformat_now copy_fails
              preview_fails [p] w))
    /\ Catalog.records
         (Loader.db (snd (Loader.add_hdri HDRI_STORAGE_FOLDER image_hash_of isoformat_now
                            copy_fails preview_fails [p] w)))
       = (Catalog.records (Loader.db w) ++ [record])%list
    /\ nth 0 record Sqlite.Null = Sqlite.Int hdri_id
    /\ nth 1 record Sqlite.Null = Sqlite.Text EmptyString
    /\ Loader.files (snd (Loader.add_hdri HDRI_STORAGE_FOLDER image_hash_of isoformat_now
                            copy_fails preview_fails [p] w))
       = (Loader.files w ++ [folder])%list
    /\ folder <> EmptyString
    /\ Sqlite.tables
         (Loader.db
            (Loader.delete_hdri rmtree_fails true hdri_id EmptyString
               (snd (Loader.add_hdri HDRI_STORAGE_FOLDER image_hash_of isoformat_now
                       copy_fails preview_fails [p] w))))
       = Sqlite.tables (Loader.db w)
    /\ Loader.files
         (Loader.delete_hdri rmtree_fails true hdri_id EmptyString
            (snd (Loader.add_hdri HDRI_STORAGE_FOLDER image_hash_of isoformat_now
                    copy_fails preview_fails [p] w)))
       = (Loader.files w ++ [folder])%list
    /\ Loader.shown
         (Loader.delete_hdri rmtree_fails true hdri_id EmptyString
            (snd (Loader.add_hdri HDRI_STORAGE_FOLDER image_hash_of isoformat_now
                    copy_fails preview_fails [p] w)))
       = Loader.shown w.
Proof.
  intros [autoinc [unique [tags [stored [Htab [Htags Hcat]]]]]] Hhash Hno Hcopy Hfiles.
  destruct w as [[tabs seq] files shown clock].
  cbn [Loader.db Loader.files Loader.shown Sqlite.tables] in *. subst tabs.
  unfold Catalog.field in Hno. cbn [Sqlite.tables] in Hno.
  rewrite lookup_here in Hno. cbn [Sqlite.columns Sqlite.rows] in Hno.
  pose proof (absent_hash autoinc unique tags stored h Hno) as Hnew.
  destruct (add_one_new HDRI_STORAGE_FOLDER image_hash_of isoformat_now copy_fails
              preview_fails autoinc unique tags Htags stored seq files shown clock p h
              Hhash Hnew) as [seq' Hrun].
  cbv zeta in Hrun. rewrite Hcopy in Hrun.
  cbn [Loader.add_hdri]. rewrite Hrun. cbn [snd].
  set (hdri_id := Sqlite.next_rowid _ _ _) in *.
  set (name := Str.splitext_root (Str.basename p)) in *.
  destruct (folder_name_plain hdri_id p) as [Hplain Hthere]. fold name in Hplain, Hthere.
  pose proof (join_ends_in_name HDRI_STORAGE_FOLDER _ Hplain Hthere) as Hfolder.
  set (folder := Str.join HDRI_STORAGE_FOLDER _) in *.
  assert (Hne : folder <> EmptyString).
  { destruct Hfolder as [init [c [Hchars _]]]. intros Hempty. rewrite Hempty in Hchars.
    destruct init; discriminate. }
  assert (Habsent : existsb (String.eqb EmptyString) (files ++ [folder]) = false).
  { apply existsb_all_false. intros q Hq. apply String.eqb_neq. intros <-.
    apply in_app_or in Hq. destruct Hq as [Hq|[Hq|[]]]; [exact (Hfiles Hq)|].
    exact (Hne Hq). }
  exists hdri_id,
    (Loader.record_row hdri_id EmptyString EmptyString name (isoformat_now clock) h tags),
    folder.
  split; [reflexivity|]. split.
  { unfold Catalog.records. cbn [Loader.db Sqlite.tables]. rewrite !lookup_here.
    reflexivity. }
  split; [reflexivity|]. split; [reflexivity|]. split; [reflexivity|].
  split; [exact Hne|].
  rewrite (delete_hdri_yes autoinc unique tags rmtree_fails).
  change (Str.dirname EmptyString) with EmptyString. rewrite Habsent. cbn [fst snd].
  cbn [Loader.db Loader.files Loader.shown Sqlite.tables].
  unfold hdri_id. rewrite (delete_newest autoinc unique tags).
  split; [reflexivity|]. split; reflexivity.
Qed.

Lemma delete_hdri_removes_orphan_witness :
  exists hdri_id record folder,
    Loader.add_hdri "/store" Sample.sample_hash Sample.sample_clock Sample.sample_copy_fails
      Sample.never ["/broken/meadow.hdr"%string] Sample.started
    = (Some (Loader.OSError ("cannot copy " ++ "/broken/meadow.hdr")),
       snd (Loader.add_hdri "/store" Sample.sample_hash Sample.sample_clock
              Sample.sample_copy_fails Sample.never ["/broken/meadow.hdr"%string]
              Sample.started))
    /\ Catalog.records
         (Loader.db (snd (Loader.add_hdri "/store" Sample.sample_hash Sample.sample_clock
                            Sample.sample_copy_fails Sample.never
                            ["/broken/meadow.hdr"%string] Sample.started)))
       = (Catalog.records (Loader.db Sample.started) ++ [record])%list
    /\ nth 0 record Sqlite.Null = Sqlite.Int hdri_id
    /\ nth 1 record Sqlite.Null = Sqlite.Text EmptyString
    /\ Loader.files (snd (Loader.add_hdri "/store" Sample.sample_hash Sample.sample_clock
                            Sample.sample_copy_fails Sample.never
                            ["/broken/meadow.hdr"%string] Sample.started))
       = (Loader.files Sample.started ++ [folder])%list
    /\ folder <> EmptyString
    /\ Sqlite.tables
         (Loader.db
            (Loader.delete_hdri Sample.sample_copy_fails true hdri_id EmptyString
               (snd (Loader.add_hdri "/store" Sample.sample_hash Sample.sample_clock
                       Sample.sample_copy_fails Sample.never ["/broken/meadow.hdr"%string]
                       Sample.started))))
       = Sqlite.tables (Loader.db Sample.started)
    /\ Loader.files
         (Loader.delete_hdri Sample.sample_copy_fails true hdri_id EmptyString
            (snd (Loader.add_hdri "/store" Sample.sample_hash Sample.sample_clock
                    Sample.sample_copy_fails Sample.never ["/broken/meadow.hdr"%string]
                    Sample.started)))
       = (Loader.files Sample.started ++ [folder])%list
    /\ Loader.shown
         (Loader.delete_hdri Sample.sample_copy_fails true hdri_id EmptyString
            (snd (Loader.add_hdri "/store" Sample.sample_hash Sample.sample_clock
                    Sample.sample_copy_fails Sample.never ["/broken/meadow.hdr"%string]
                    Sample.started)))
       = Loader.shown Sample.started.
Proof.
  apply (delete_hdri_removes_orphan "/store" Sample.sample_hash Sample.sample_clock
           Sample.sample_copy_fails Sample.never Sample.sample_copy_fails
           "/broken/meadow.hdr" "0f0f33cc55aa9966" Sample.started).
  - exists true, true, ["tag_outdoor"%string], [Sample.desert; Sample.forest].
    split; [reflexivity|]. split; reflexivity.
  - reflexivity.
  - vm_compute. intros [H|[H|[]]]; discriminate.
  - reflexivity.
  - intros [].
Defined.
